(** * go-sqllexer: the SQL tokenizer and the normalizer that consumes it

    A shallow embedding of [sqllexer.go] (the [Lexer] and its [Scan]) and of
    [normalizer.go] (the [Normalizer] and its [Normalize]), followed by the
    properties established about them.

    Conventions of the embedding:
    - a Go [string] is a Rocq [string]: a sequence of 8-bit bytes;
    - a Go [rune] and a Go [int] are integers of [Z]; every position handled
      by the lexer lies between [0] and [len(src)], so no machine
      wrap-around is reachable and none is written out;
    - the mutable [Lexer] is threaded explicitly: a method returns the new
      lexer next to its result;
    - [for] loops are functions recursive on a fuel argument; running out of
      fuel is the distinguished result [OutOfFuel], never a token;
    - a Go run-time panic (a nil dereference, a slice out of range) is the
      distinguished result [Panic]. *)

From Stdlib Require Import ZArith List String Ascii Bool Lia.
From stdpp Require Import gmap strings.

Open Scope Z_scope.

(** ** Results of possibly failing or diverging computations *)

Inductive outcome (A : Type) : Type :=
| Ok (a : A)
| Panic
| OutOfFuel.

Arguments Ok {A} a.
Arguments Panic {A}.
Arguments OutOfFuel {A}.

#[export] Instance outcome_ret : MRet outcome := fun A a => Ok a.

#[export] Instance outcome_bind : MBind outcome :=
  fun A B f m =>
    match m with
    | Ok a => f a
    | Panic => Panic
    | OutOfFuel => OutOfFuel
    end.

(** ** Go strings *)

Module GoString.

Definition byte (c : ascii) : Z := Z.of_N (N_of_ascii c).

Definition chr (b : Z) : ascii := ascii_of_N (Z.to_N b).

Definition len (s : string) : Z := Z.of_nat (String.length s).

Fixpoint drop (n : nat) (s : string) : string :=
  match n, s with
  | O, _ => s
  | S n', String _ t => drop n' t
  | S _, EmptyString => EmptyString
  end.

Fixpoint take (n : nat) (s : string) : string :=
  match n, s with
  | S n', String c t => String c (take n' t)
  | _, _ => EmptyString
  end.

(** [s[a:]] and [s[a:b]], for [0 <= a <= b <= len s]. *)
Definition from (s : string) (a : Z) : string := drop (Z.to_nat a) s.

Definition slice (s : string) (a b : Z) : string :=
  take (Z.to_nat (b - a)) (drop (Z.to_nat a) s).

(** [s[i]], for [0 <= i < len s]. *)
Definition at_ (s : string) (i : Z) : Z :=
  match from s i with
  | String c _ => byte c
  | EmptyString => 0
  end.

Fixpoint bytes (s : string) : list Z :=
  match s with
  | EmptyString => []
  | String c t => byte c :: bytes t
  end.

Fixpoint ofBytes (l : list Z) : string :=
  match l with
  | [] => EmptyString
  | b :: t => String (chr b) (ofBytes t)
  end.

Definition hasSuffix (s suffix : string) : bool :=
  (len suffix <=? len s) &&
  String.eqb (from s (len s - len suffix)) suffix.

(** [strings.TrimSuffix]. *)
Definition TrimSuffix (s suffix : string) : string :=
  if hasSuffix s suffix then slice s 0 (len s - len suffix) else s.

(** [strings.ToUpper] on ASCII text. The normalizer applies it to COMMAND
    and KEYWORD tokens only, which the keyword trie builds from ASCII
    letters and underscores; bytes outside [a-z] are kept. *)
Definition upperByte (b : Z) : Z :=
  if (97 <=? b) && (b <=? 122) then b - 32 else b.

Definition ToUpper (s : string) : string := ofBytes (map upperByte (bytes s)).

End GoString.

Import GoString.

(** ** Package [unicode/utf8] *)

Module utf8.

Definition RuneError : Z := 0xFFFD.

(** The table [first] and [acceptRanges] of the Go library, for a lead
    byte above 0x7F: the length of the sequence and the range accepted for
    the second byte; [None] for a byte that cannot start a sequence. *)
Definition leadInfo (s0 : Z) : option (Z * Z * Z) :=
  if s0 <? 0xC2 then None
  else if s0 <=? 0xDF then Some (2, 0x80, 0xBF)
  else if s0 =? 0xE0 then Some (3, 0xA0, 0xBF)
  else if s0 <=? 0xEC then Some (3, 0x80, 0xBF)
  else if s0 =? 0xED then Some (3, 0x80, 0x9F)
  else if s0 <=? 0xEF then Some (3, 0x80, 0xBF)
  else if s0 =? 0xF0 then Some (4, 0x90, 0xBF)
  else if s0 <=? 0xF3 then Some (4, 0x80, 0xBF)
  else if s0 =? 0xF4 then Some (4, 0x80, 0x8F)
  else None.

Definition cont (b : Z) : bool := (0x80 <=? b) && (b <=? 0xBF).

Definition low6 (b : Z) : Z := Z.land b 0x3F.

(** [utf8.DecodeRuneInString]: the rune and its width in bytes. *)
Definition decode (l : list Z) : Z * Z :=
  match l with
  | [] => (RuneError, 0)
  | s0 :: t =>
    if s0 <? 0x80 then (s0, 1)
    else
      match leadInfo s0 with
      | None => (RuneError, 1)
      | Some (sz, lo, hi) =>
        if Z.of_nat (List.length l) <? sz then (RuneError, 1)
        else
          match t with
          | [] => (RuneError, 1)
          | s1 :: t1 =>
            if (s1 <? lo) || (hi <? s1) then (RuneError, 1)
            else if sz <=? 2 then
              (Z.lor (Z.shiftl (Z.land s0 0x1F) 6) (low6 s1), 2)
            else
              match t1 with
              | [] => (RuneError, 1)
              | s2 :: t2 =>
                if negb (cont s2) then (RuneError, 1)
                else if sz <=? 3 then
                  (Z.lor (Z.lor (Z.shiftl (Z.land s0 0x0F) 12)
                                (Z.shiftl (low6 s1) 6)) (low6 s2), 3)
                else
                  match t2 with
                  | [] => (RuneError, 1)
                  | s3 :: _ =>
                    if negb (cont s3) then (RuneError, 1)
                    else
                      (Z.lor (Z.lor (Z.lor (Z.shiftl (Z.land s0 0x07) 18)
                                           (Z.shiftl (low6 s1) 12))
                                    (Z.shiftl (low6 s2) 6)) (low6 s3), 4)
                  end
              end
          end
      end
  end.

Definition DecodeRuneInString (s : string) : Z * Z :=
  decode (bytes (take 4 s)).

(** [utf8.RuneLen]. *)
Definition RuneLen (r : Z) : Z :=
  if r <? 0 then -1
  else if r <=? 0x7F then 1
  else if r <=? 0x7FF then 2
  else if (0xD800 <=? r) && (r <=? 0xDFFF) then -1
  else if r <=? 0xFFFF then 3
  else if r <=? 0x10FFFF then 4
  else -1.

(** The conversion [[]rune(s)]: the runes of [s] in order, an invalid
    byte giving [RuneError]. *)
Fixpoint runesFuel (fuel : nat) (s : string) : list Z :=
  match fuel, s with
  | S f, String _ _ =>
    let '(r, w) := DecodeRuneInString s in
    r :: runesFuel f (drop (Z.to_nat w) s)
  | _, _ => []
  end.

Definition runes (s : string) : list Z := runesFuel (String.length s) s.

End utf8.

Import utf8.

(** ** Tokens ([sqllexer.go]) *)

Inductive TokenType : Type :=
| ERROR
| EOF
| WS
| STRING
| INCOMPLETE_STRING
| NUMBER
| IDENT
| QUOTED_IDENT
| OPERATOR
| WILDCARD
| COMMENT
| MULTILINE_COMMENT
| PUNCTUATION
| DOLLAR_QUOTED_FUNCTION
| DOLLAR_QUOTED_STRING
| POSITIONAL_PARAMETER
| BIND_PARAMETER
| FUNCTION
| SYSTEM_VARIABLE
| UNKNOWN
| COMMAND
| KEYWORD
| JSON_OP
| BOOLEAN
| NULL
| PROC_INDICATOR
| CTE_INDICATOR
| ALIAS_INDICATOR.

#[export] Instance TokenType_eq_dec : EqDecision TokenType.
Proof. solve_decision. Defined.

Definition isType (a b : TokenType) : bool := bool_decide (a = b).

(** [Token] together with the [tokenExtraInfo] it points to. The lexer
    allocates the extra record once in [New] and never drops it, so it is
    part of the token here. [Type] and [End] are reserved words of Rocq. *)
Record Token : Type := mkToken {
  Type_ : TokenType;
  IsTableIndicator : bool;
  Start : Z;
  End_ : Z;
  Digits : list Z;
  Quotes : list Z;
  OutputValue : string
}.

Record LastValueToken : Type := mkLastValueToken {
  lastType : TokenType;
  lastValue : string;
  lastIsTableIndicator : bool
}.

Definition SetOutputValue (t : Token) (outputValue : string) : Token :=
  mkToken (Type_ t) (IsTableIndicator t) (Start t) (End_ t)
          (Digits t) (Quotes t) outputValue.

Definition Value (t : Token) (source : string) : string :=
  slice source (Start t) (End_ t).

Definition String_ (t : Token) (source : string) : string :=
  if negb (String.eqb (OutputValue t) "") then OutputValue t
  else Value t source.

Definition GetLastValueToken (t : Token) (source : string) : LastValueToken :=
  mkLastValueToken (Type_ t) (String_ t source) (IsTableIndicator t).

(** Modelled from the spec: the type [DBMSType] of the lexer configuration,
    declared in a file of the package that is not among the sources. The spec
    gives the dialects: generic (no option given), PostgreSQL, MySQL,
    SQL Server, Oracle, Snowflake. *)
Inductive DBMSType : Type :=
| DBMSGeneric
| DBMSPostgres
| DBMSMySQL
| DBMSSQLServer
| DBMSOracle
| DBMSSnowflake.

#[export] Instance DBMSType_eq_dec : EqDecision DBMSType.
Proof. solve_decision. Defined.

Definition isDBMS (a b : DBMSType) : bool := bool_decide (a = b).

(** ** The keyword trie *)

#[warnings="-register-all"]
Inductive trieNode : Type :=
| TrieNode (children : list (Z * trieNode)) (isEnd : bool)
           (tokenType : TokenType) (nodeIsTableIndicator : bool).

Definition children (n : trieNode) : list (Z * trieNode) :=
  match n with TrieNode c _ _ _ => c end.

Definition isEnd (n : trieNode) : bool :=
  match n with TrieNode _ e _ _ => e end.

Definition tokenType (n : trieNode) : TokenType :=
  match n with TrieNode _ _ t _ => t end.

Definition nodeIsTableIndicator (n : trieNode) : bool :=
  match n with TrieNode _ _ _ i => i end.

(** [node.children[r]] with its presence flag. *)
Fixpoint lookupChild (cs : list (Z * trieNode)) (r : Z) : option trieNode :=
  match cs with
  | [] => None
  | (k, n) :: rest => if k =? r then Some n else lookupChild rest r
  end.

Fixpoint setChild (cs : list (Z * trieNode)) (r : Z) (n : trieNode)
  : list (Z * trieNode) :=
  match cs with
  | [] => [(r, n)]
  | (k, m) :: rest =>
    if k =? r then (k, n) :: rest else (k, m) :: setChild rest r n
  end.

Definition emptyNode : trieNode := TrieNode [] false ERROR false.

(** Modelled from the spec: the construction of the trie, which lives with
    the keyword lists outside the sources. One keyword is added along its
    upper-case bytes; the node it ends in accepts, with the kind and the
    table-indicator flag of the list the keyword comes from. *)
Fixpoint addWord (w : list Z) (ty : TokenType) (ti : bool) (n : trieNode)
  : trieNode :=
  match w with
  | [] => TrieNode (children n) true ty ti
  | c :: w' =>
    let child :=
      match lookupChild (children n) c with
      | Some k => k
      | None => emptyNode
      end in
    TrieNode (setChild (children n) c (addWord w' ty ti child))
             (isEnd n) (tokenType n) (nodeIsTableIndicator n)
  end.

Definition addToTrie (words : list string) (ty : TokenType) (ti : bool)
  (root : trieNode) : trieNode :=
  fold_left (fun n w => addWord (bytes w) ty ti n) words root.

(** Modelled from the spec: the keyword lists, absent from the sources. They
    hold the keywords the spec names for each kind: [AS] is the
    ALIAS_INDICATOR, [WITH] is a KEYWORD, and no word of the trie has the kind
    CTE_INDICATOR. *)
Definition commands : list string :=
  ["SELECT"; "INSERT"; "UPDATE"; "DELETE"; "CREATE"; "ALTER"; "DROP";
   "GRANT"; "REVOKE"; "BEGIN"; "COMMIT"; "JOIN"; "TRUNCATE"]%string.

Definition tableIndicatorCommands : list string := ["JOIN"; "UPDATE"]%string.

Definition tableIndicatorKeywords : list string :=
  ["FROM"; "INTO"; "TABLE"]%string.

Definition keywords : list string :=
  ["WHERE"; "AND"; "OR"; "IN"; "LIMIT"; "WITH"]%string.

Definition booleans : list string := ["TRUE"; "FALSE"]%string.

Definition nulls : list string := ["NULL"]%string.

Definition procedureIndicators : list string :=
  ["PROCEDURE"; "FUNCTION"]%string.

Definition aliasIndicators : list string := ["AS"]%string.

Definition keywordRoot : trieNode :=
  Eval vm_compute in
    addToTrie aliasIndicators ALIAS_INDICATOR false
   (addToTrie procedureIndicators PROC_INDICATOR false
   (addToTrie nulls NULL false
   (addToTrie booleans BOOLEAN false
   (addToTrie tableIndicatorKeywords KEYWORD true
   (addToTrie tableIndicatorCommands COMMAND true
   (addToTrie keywords KEYWORD false
   (addToTrie commands COMMAND false emptyNode))))))).

(** ** The character classifier

    Modelled from the spec: the predicates over a code point ([isWhitespace],
    [isDigit], [isExpontent], [isLeadingSign], [isAsciiLetter], [isLetter],
    [isAlphaNumeric], [isDoubleQuote], [isSingleQuote], [isOperator],
    [isWildcard], [isSingleLineComment], [isMultiLineComment],
    [isPunctuation], [isEOF], [isIdentifier]) are called by [sqllexer.go] and
    defined in a file of the package that is not among the sources. Each
    follows the spec's description of the dispatch of the tokenizer. *)

Definition rune (c : ascii) : Z := byte c.

Arguments rune c%_char.

Definition isWhitespace (ch : Z) : bool :=
  (ch =? rune " ") || (ch =? 9) || (ch =? 10) || (ch =? 13).

Definition isDigit (ch : Z) : bool := (rune "0" <=? ch) && (ch <=? rune "9").

Definition isExpontent (ch : Z) : bool := (ch =? rune "e") || (ch =? rune "E").

Definition isLeadingSign (ch : Z) : bool := (ch =? rune "+") || (ch =? rune "-").

Definition isAsciiLetter (ch : Z) : bool :=
  ((rune "a" <=? ch) && (ch <=? rune "z")) ||
  ((rune "A" <=? ch) && (ch <=? rune "Z")).

Definition isDoubleQuote (ch : Z) : bool := ch =? 34.

Definition isSingleQuote (ch : Z) : bool := ch =? rune "'".

Definition isOperator (ch : Z) : bool :=
  existsb (Z.eqb ch)
    [rune "+"; rune "-"; rune "*"; rune "/"; rune "="; rune "<"; rune ">";
     rune "!"; rune "&"; rune "|"; rune "^"; rune "%"; rune "~"; rune "?";
     rune "@"; rune ":"; rune "#"].

Definition isWildcard (ch : Z) : bool := ch =? rune "*".

Definition isSingleLineComment (ch nextCh : Z) : bool :=
  (ch =? rune "-") && (nextCh =? rune "-").

Definition isMultiLineComment (ch nextCh : Z) : bool :=
  (ch =? rune "/") && (nextCh =? rune "*").

Definition isPunctuation (ch : Z) : bool :=
  existsb (Z.eqb ch)
    [rune "("; rune ")"; rune ","; rune ";"; rune "."; rune ":"; rune "[";
     rune "]"; rune "{"; rune "}"].

Definition isEOF (ch : Z) : bool := ch =? 0.

(** ** Metadata deduplicated while it is collected ([unnamed/part_000])

    The revision of [normalizer.go] that is kept beside it removes
    duplicates as it collects: its [StatementMetadata] carries one set per
    sequence, and [addMetadata] consults the set before it appends. *)

Module Incremental.

Record StatementMetadata : Type := mkMetadata {
  Size : Z;
  Tables : list string;
  Comments : list string;
  Commands : list string;
  Procedures : list string;
  tablesSet : gset string;
  commentsSet : gset string;
  commandsSet : gset string;
  proceduresSet : gset string
}.

(** [addMetadata] receives the set and the address of the slice next to the
    record whose [Size] it updates; it gives the three back. *)
Definition addMetadata (size : Z) (value : string) (set : gset string)
  (slice : list string) : Z * gset string * list string :=
  if bool_decide (value ∈ set) then (size, set, slice)
  else (size + len value, {[value]} ∪ set, slice ++ [value]).

(** The calls of [collectMetadata], each on a set and the slice that goes
    with it. *)
Definition addTable (sm : StatementMetadata) (value : string)
  : StatementMetadata :=
  let '(size, set, slice) :=
    addMetadata (Size sm) value (tablesSet sm) (Tables sm) in
  mkMetadata size slice (Comments sm) (Commands sm) (Procedures sm)
             set (commentsSet sm) (commandsSet sm) (proceduresSet sm).

Definition addComment (sm : StatementMetadata) (value : string)
  : StatementMetadata :=
  let '(size, set, slice) :=
    addMetadata (Size sm) value (commentsSet sm) (Comments sm) in
  mkMetadata size (Tables sm) slice (Commands sm) (Procedures sm)
             (tablesSet sm) set (commandsSet sm) (proceduresSet sm).

Definition addCommand (sm : StatementMetadata) (value : string)
  : StatementMetadata :=
  let '(size, set, slice) :=
    addMetadata (Size sm) value (commandsSet sm) (Commands sm) in
  mkMetadata size (Tables sm) (Comments sm) slice (Procedures sm)
             (tablesSet sm) (commentsSet sm) set (proceduresSet sm).

Definition addProcedure (sm : StatementMetadata) (value : string)
  : StatementMetadata :=
  let '(size, set, slice) :=
    addMetadata (Size sm) value (proceduresSet sm) (Procedures sm) in
  mkMetadata size (Tables sm) (Comments sm) (Commands sm) slice
             (tablesSet sm) (commentsSet sm) (commandsSet sm) set.

(** [reset]: the slices are cut to length 0 and the sets are new. *)
Definition reset (sm : StatementMetadata) : StatementMetadata :=
  mkMetadata 0 [] [] [] [] ∅ ∅ ∅ ∅.

End Incremental.

Section Lexer.

(** [unicode.IsLetter] of the Go library, consulted for code points above
    127 only; its table is not reproduced and every result holds for any
    table. *)
Variable unicodeIsLetter : Z -> bool.

Definition isLetter (ch : Z) : bool :=
  isAsciiLetter ch || (ch =? rune "_") || ((127 <? ch) && unicodeIsLetter ch).

Definition isAlphaNumeric (ch : Z) : bool := isLetter ch || isDigit ch.

Definition isIdentifier (ch : Z) : bool :=
  existsb (Z.eqb ch)
    [34; rune "."; rune "?"; rune "$"; rune "#"; rune "/"; rune "@"; rune "!"]
  || isLetter ch || isDigit ch.

(** ** The lexer ([sqllexer.go]) *)

Record Lexer : Type := mkLexer {
  src : string;
  cursor : Z;
  start : Z;
  config : DBMSType;
  digits : list Z;
  quotes : list Z;
  isTableIndicator : bool
}.

Definition New (input : string) (dbms : DBMSType) : Lexer :=
  mkLexer input 0 0 dbms [] [] false.

Definition setCursor (s : Lexer) (c : Z) : Lexer :=
  mkLexer (src s) c (start s) (config s) (digits s) (quotes s)
          (isTableIndicator s).

(** [s.start = s.cursor]. *)
Definition markStart (s : Lexer) : Lexer :=
  mkLexer (src s) (cursor s) (cursor s) (config s) (digits s) (quotes s)
          (isTableIndicator s).

(** [s.digits = append(s.digits, p)] and [s.quotes = append(s.quotes, p)]. *)
Definition appendDigit (s : Lexer) (p : Z) : Lexer :=
  mkLexer (src s) (cursor s) (start s) (config s) (digits s ++ [p]) (quotes s)
          (isTableIndicator s).

Definition appendQuote (s : Lexer) (p : Z) : Lexer :=
  mkLexer (src s) (cursor s) (start s) (config s) (digits s) (quotes s ++ [p])
          (isTableIndicator s).

Definition setTableIndicator (s : Lexer) (b : bool) : Lexer :=
  mkLexer (src s) (cursor s) (start s) (config s) (digits s) (quotes s) b.

Definition lookAhead (s : Lexer) (n : Z) : Z :=
  if (len (src s) <=? cursor s + n) || (cursor s + n <? 0) then 0
  else fst (DecodeRuneInString (from (src s) (cursor s + n))).

Definition peek (s : Lexer) : Z := lookAhead s 0.

Definition nextBy (s : Lexer) (n : Z) : Z * Lexer :=
  if len (src s) <? cursor s + n then (0, s)
  else
    let s' := setCursor s (cursor s + n) in
    if len (src s') <=? cursor s' then (0, s')
    else (fst (DecodeRuneInString (from (src s') (cursor s'))), s').

Definition next (s : Lexer) : Z * Lexer := nextBy s 1.

Fixpoint matchFrom (s : Lexer) (i : Z) (match_ : list Z) : bool :=
  match match_ with
  | [] => true
  | ch :: rest =>
    if negb (at_ (src s) (cursor s + i) =? ch mod 256) then false
    else matchFrom s (i + 1) rest
  end.

Definition matchAt (s : Lexer) (match_ : list Z) : bool :=
  if len (src s) <? cursor s + Z.of_nat (List.length match_) then false
  else matchFrom s 0 match_.

Definition emit (t : TokenType) (s : Lexer) : Token * Lexer :=
  (mkToken t (isTableIndicator s) (start s) (cursor s) (digits s) (quotes s) "",
   mkLexer (src s) (cursor s) (cursor s) (config s) [] [] false).

(** Fuel for one loop of the lexer: every iteration that goes on moves the
    cursor forward by at least one byte. *)
Definition loopFuel (s : Lexer) : nat := S (String.length (src s)).

(** *** Numbers *)

Fixpoint decimalLoop (fuel : nat) (s : Lexer) {struct fuel} : outcome Lexer :=
  let ch := peek s in
  if isDigit ch || (ch =? rune ".") || isExpontent ch then
    match fuel with
    | O => OutOfFuel
    | S f =>
      if isExpontent ch then
        let '(ch1, s1) := next s in
        if isLeadingSign ch1 then decimalLoop f (snd (next s1))
        else decimalLoop f s1
      else decimalLoop f (snd (next s))
    end
  else Ok s.

Definition scanDecimalNumber (s : Lexer) : outcome (Token * Lexer) :=
  s' ← decimalLoop (loopFuel s) s;
  mret (emit NUMBER s').

Fixpoint hexLoop (fuel : nat) (ch : Z) (s : Lexer) {struct fuel}
  : outcome Lexer :=
  if isDigit ch || ((rune "a" <=? ch) && (ch <=? rune "f"))
     || ((rune "A" <=? ch) && (ch <=? rune "F")) then
    match fuel with
    | O => OutOfFuel
    | S f => let '(ch', s') := next s in hexLoop f ch' s'
    end
  else Ok s.

Definition scanHexNumber (s : Lexer) : outcome (Token * Lexer) :=
  let '(ch, s1) := nextBy s 2 in
  s2 ← hexLoop (loopFuel s) ch s1;
  mret (emit NUMBER s2).

Fixpoint octalLoop (fuel : nat) (ch : Z) (s : Lexer) {struct fuel}
  : outcome Lexer :=
  if (rune "0" <=? ch) && (ch <=? rune "7") then
    match fuel with
    | O => OutOfFuel
    | S f => let '(ch', s') := next s in octalLoop f ch' s'
    end
  else Ok s.

Definition scanOctalNumber (s : Lexer) : outcome (Token * Lexer) :=
  let '(ch, s1) := nextBy s 2 in
  s2 ← octalLoop (loopFuel s) ch s1;
  mret (emit NUMBER s2).

Definition scanNumberWithLeadingSign (s : Lexer) : outcome (Token * Lexer) :=
  let s := markStart s in
  scanDecimalNumber (snd (next s)).

Definition scanNumberic (ch : Z) (s : Lexer) : outcome (Token * Lexer) :=
  let s := markStart s in
  let nextCh := lookAhead s 1 in
  if (ch =? rune "0") && ((nextCh =? rune "x") || (nextCh =? rune "X")) then
    scanHexNumber s
  else if (ch =? rune "0") && ((rune "0" <=? nextCh) && (nextCh <=? rune "7"))
  then scanOctalNumber s
  else scanDecimalNumber (snd (next s)).

Definition scanNumber (ch : Z) (s : Lexer) : outcome (Token * Lexer) :=
  scanNumberic ch (markStart s).

(** *** Strings *)

Fixpoint stringLoop (fuel : nat) (escaped : bool) (ch : Z) (s : Lexer)
  {struct fuel} : outcome (Token * Lexer) :=
  if isEOF ch then Ok (emit INCOMPLETE_STRING s)
  else
    match fuel with
    | O => OutOfFuel
    | S f =>
      if escaped then
        let '(ch', s') := next s in stringLoop f false ch' s'
      else if ch =? rune "\" then
        let '(ch', s') := next s in stringLoop f true ch' s'
      else if ch =? rune "'" then Ok (emit STRING (snd (next s)))
      else let '(ch', s') := next s in stringLoop f false ch' s'
    end.

Definition scanString (s : Lexer) : outcome (Token * Lexer) :=
  let s := markStart s in
  let '(ch, s1) := next s in
  stringLoop (loopFuel s) false ch s1.

(** *** Identifiers and keywords *)

Fixpoint identifierLoop (fuel : nat) (ch : Z) (s : Lexer) {struct fuel}
  : outcome (Z * Lexer) :=
  if isIdentifier ch then
    match fuel with
    | O => OutOfFuel
    | S f =>
      let s1 := if isDigit ch then appendDigit s (cursor s) else s in
      let '(ch', s2) := nextBy s1 (RuneLen ch) in
      identifierLoop f ch' s2
    end
  else Ok (ch, s).

Fixpoint keywordLoop (fuel : nat) (node : trieNode) (pos : Z) (ch : Z)
  (s : Lexer) {struct fuel} : outcome (trieNode * Z * Z * Lexer) :=
  if isAsciiLetter ch || (ch =? rune "_") then
    match fuel with
    | O => OutOfFuel
    | S f =>
      let upperCh :=
        if (rune "a" <=? ch) && (ch <=? rune "z") then ch - 32 else ch in
      match lookupChild (children node) upperCh with
      | Some next_ =>
        let pos' := cursor s in
        let '(ch', s') := next s in
        keywordLoop f next_ pos' ch' s'
      | None =>
        let '(ch', s') := next s in
        Ok (keywordRoot, pos, ch', s')
      end
    end
  else Ok (node, pos, ch, s).

Definition scanIdentifier (ch : Z) (s : Lexer) : outcome (Token * Lexer) :=
  let s := markStart s in
  if 127 <? ch then
    '(_, s1) ← identifierLoop (loopFuel s) ch s;
    mret (emit IDENT s1)
  else
    '(node, pos, ch1, s1) ← keywordLoop (loopFuel s) keywordRoot (cursor s) ch s;
    if isEnd node &&
       (isPunctuation (peek s1) || isWhitespace (peek s1) || isEOF (peek s1))
    then
      mret (emit (tokenType node)
              (setTableIndicator (setCursor s1 (pos + 1))
                                 (nodeIsTableIndicator node)))
    else
      '(ch2, s2) ← identifierLoop (loopFuel s) ch1 s1;
      if ch2 =? rune "(" then mret (emit FUNCTION s2)
      else mret (emit IDENT s2).

Fixpoint quotedLoop (fuel : nat) (delimiter closingDelimiter ch : Z)
  (s : Lexer) {struct fuel} : outcome (Token * Lexer) :=
  if ch =? closingDelimiter then
    let s1 := appendQuote s (cursor s) in
    if matchAt s1 [closingDelimiter; rune "."; delimiter] then
      match fuel with
      | O => OutOfFuel
      | S f =>
        let s2 := appendQuote s1 (cursor s1 + 2) in
        let '(ch', s3) := nextBy s2 3 in
        quotedLoop f delimiter closingDelimiter ch' s3
      end
    else Ok (emit QUOTED_IDENT (snd (next s1)))
  else if isEOF ch then Ok (emit ERROR s)
  else
    match fuel with
    | O => OutOfFuel
    | S f =>
      let s1 := if isDigit ch then appendDigit s (cursor s) else s in
      let '(ch', s2) := next s1 in
      quotedLoop f delimiter closingDelimiter ch' s2
    end.

Definition scanDoubleQuotedIdentifier (delimiter : Z) (s : Lexer)
  : outcome (Token * Lexer) :=
  let closingDelimiter :=
    if delimiter =? rune "[" then rune "]" else delimiter in
  let s := markStart s in
  let s := appendQuote s (cursor s) in
  let '(ch, s1) := next s in
  quotedLoop (loopFuel s) delimiter closingDelimiter ch s1.

(** *** Whitespace, operators, comments, punctuation *)

Fixpoint whitespaceLoop (fuel : nat) (ch : Z) (s : Lexer) {struct fuel}
  : outcome Lexer :=
  if isWhitespace ch then
    match fuel with
    | O => OutOfFuel
    | S f => let '(ch', s') := next s in whitespaceLoop f ch' s'
    end
  else Ok s.

Definition scanWhitespace (s : Lexer) : outcome (Token * Lexer) :=
  let s := markStart s in
  let '(ch, s1) := next s in
  s2 ← whitespaceLoop (loopFuel s) ch s1;
  mret (emit WS s2).

Fixpoint operatorLoop (fuel : nat) (lastCh ch : Z) (s : Lexer) {struct fuel}
  : outcome Lexer :=
  if isOperator ch &&
     negb ((lastCh =? rune "=") && ((ch =? rune "?") || (ch =? rune "@")))
  then
    match fuel with
    | O => OutOfFuel
    | S f => let '(ch', s') := next s in operatorLoop f ch ch' s'
    end
  else Ok s.

Definition scanOperator (lastCh : Z) (s : Lexer) : outcome (Token * Lexer) :=
  let s := markStart s in
  let '(ch, s1) := next s in
  if (lastCh =? rune "-") && (ch =? rune ">") then
    let '(ch', s2) := next s1 in
    if ch' =? rune ">" then Ok (emit JSON_OP (snd (next s2)))
    else Ok (emit JSON_OP s2)
  else if (lastCh =? rune "#") && (ch =? rune ">") then
    let '(ch', s2) := next s1 in
    if ch' =? rune ">" then Ok (emit JSON_OP (snd (next s2)))
    else Ok (emit JSON_OP s2)
  else if (lastCh =? rune "#") && (ch =? rune "-") then
    Ok (emit JSON_OP (snd (next s1)))
  else if (lastCh =? rune "?") && ((ch =? rune "|") || (ch =? rune "&")) then
    Ok (emit JSON_OP (snd (next s1)))
  else if (lastCh =? rune "<") && (ch =? rune "@") then
    Ok (emit JSON_OP (snd (next s1)))
  else
    s2 ← operatorLoop (loopFuel s) lastCh ch s1;
    mret (emit OPERATOR s2).

Definition scanWildcard (s : Lexer) : outcome (Token * Lexer) :=
  let s := markStart s in
  Ok (emit WILDCARD (snd (next s))).

Fixpoint lineCommentLoop (fuel : nat) (ch : Z) (s : Lexer) {struct fuel}
  : outcome Lexer :=
  if negb (ch =? 10) && negb (isEOF ch) then
    match fuel with
    | O => OutOfFuel
    | S f => let '(ch', s') := next s in lineCommentLoop f ch' s'
    end
  else Ok s.

Definition scanSingleLineComment (s : Lexer) : outcome (Token * Lexer) :=
  let s := markStart s in
  let '(ch, s1) := nextBy s 2 in
  s2 ← lineCommentLoop (loopFuel s) ch s1;
  mret (emit COMMENT s2).

Fixpoint multiLineCommentLoop (fuel : nat) (ch : Z) (s : Lexer) {struct fuel}
  : outcome (Token * Lexer) :=
  if (ch =? rune "*") && (lookAhead s 1 =? rune "/") then
    Ok (emit MULTILINE_COMMENT (snd (nextBy s 2)))
  else if isEOF ch then Ok (emit ERROR s)
  else
    match fuel with
    | O => OutOfFuel
    | S f => let '(ch', s') := next s in multiLineCommentLoop f ch' s'
    end.

Definition scanMultiLineComment (s : Lexer) : outcome (Token * Lexer) :=
  let s := markStart s in
  let '(ch, s1) := nextBy s 2 in
  multiLineCommentLoop (loopFuel s) ch s1.

Definition scanPunctuation (s : Lexer) : outcome (Token * Lexer) :=
  let s := markStart s in
  Ok (emit PUNCTUATION (snd (next s))).

(** *** Dollar-quoted literals and parameters *)

Fixpoint tagLoop (fuel : nat) (ch : Z) (s : Lexer) {struct fuel}
  : outcome Lexer :=
  if (cursor s <? len (src s)) && negb (ch =? rune "$") then
    match fuel with
    | O => OutOfFuel
    | S f => let '(ch', s') := next s in tagLoop f ch' s'
    end
  else Ok s.

Fixpoint dollarBodyLoop (fuel : nat) (tag : string) (s : Lexer) {struct fuel}
  : outcome (Token * Lexer) :=
  if cursor s <? len (src s) then
    if matchAt s (runes tag) then
      let s' := snd (nextBy s (len tag)) in
      if String.eqb tag "$func$" then Ok (emit DOLLAR_QUOTED_FUNCTION s')
      else Ok (emit DOLLAR_QUOTED_STRING s')
    else
      match fuel with
      | O => OutOfFuel
      | S f => dollarBodyLoop f tag (snd (next s))
      end
  else Ok (emit ERROR s).

(** [s[a:b]] with the bounds check of the Go run time. *)
Definition sliceChecked (s : string) (a b : Z) : outcome string :=
  if (0 <=? a) && (a <=? b) && (b <=? len s) then Ok (slice s a b)
  else Panic.

Definition scanDollarQuotedString (s : Lexer) : outcome (Token * Lexer) :=
  let s := markStart s in
  let '(ch, s1) := next s in
  let tagStart := cursor s1 in
  s2 ← tagLoop (loopFuel s) ch s1;
  let s3 := snd (next s2) in
  tag ← sliceChecked (src s3) (tagStart - 1) (cursor s3);
  dollarBodyLoop (loopFuel s) tag s3.

Fixpoint digitLoop (fuel : nat) (ch : Z) (s : Lexer) {struct fuel}
  : outcome Lexer :=
  if negb (isDigit ch) then Ok s
  else
    match fuel with
    | O => OutOfFuel
    | S f => let '(ch', s') := next s in digitLoop f ch' s'
    end.

Definition scanPositionalParameter (s : Lexer) : outcome (Token * Lexer) :=
  let s := markStart s in
  let '(ch, s1) := nextBy s 2 in
  s2 ← digitLoop (loopFuel s) ch s1;
  mret (emit POSITIONAL_PARAMETER s2).

Fixpoint alphaNumericLoop (fuel : nat) (ch : Z) (s : Lexer) {struct fuel}
  : outcome Lexer :=
  if negb (isAlphaNumeric ch) then Ok s
  else
    match fuel with
    | O => OutOfFuel
    | S f => let '(ch', s') := next s in alphaNumericLoop f ch' s'
    end.

Definition scanBindParameter (s : Lexer) : outcome (Token * Lexer) :=
  let s := markStart s in
  let '(ch, s1) := nextBy s 2 in
  s2 ← alphaNumericLoop (loopFuel s) ch s1;
  mret (emit BIND_PARAMETER s2).

Definition scanSystemVariable (s : Lexer) : outcome (Token * Lexer) :=
  let s := markStart s in
  let '(ch, s1) := nextBy s 2 in
  if negb (isAlphaNumeric ch) then Ok (emit ERROR s1)
  else
    s2 ← alphaNumericLoop (loopFuel s) ch s1;
    mret (emit SYSTEM_VARIABLE s2).

(** *** [Scan] *)

(** The body of [case ch == '#'], which [case ch == '`'] falls through to. *)
Definition scanHash (ch : Z) (s : Lexer) : outcome (Token * Lexer) :=
  if isDBMS (config s) DBMSSQLServer then scanIdentifier ch s
  else if isDBMS (config s) DBMSMySQL then scanSingleLineComment s
  else scanOperator ch s.

(** [s.start = s.cursor; s.nextBy(2); return s.emit(JSON_OP)]. *)
Definition scanJSONOp2 (s : Lexer) : outcome (Token * Lexer) :=
  Ok (emit JSON_OP (snd (nextBy (markStart s) 2))).

Definition scanAt (ch : Z) (s : Lexer) : outcome (Token * Lexer) :=
  if lookAhead s 1 =? rune "@" then
    if isAlphaNumeric (lookAhead s 2) then scanSystemVariable s
    else scanJSONOp2 s
  else if isAlphaNumeric (lookAhead s 1) then
    if isDBMS (config s) DBMSSnowflake then scanIdentifier ch s
    else scanBindParameter s
  else if (lookAhead s 1 =? rune "?") || (lookAhead s 1 =? rune ">") then
    scanJSONOp2 s
  else scanOperator ch s.

Definition Scan (s : Lexer) : outcome (Token * Lexer) :=
  let ch := peek s in
  if isWhitespace ch then scanWhitespace s
  else if isLetter ch then scanIdentifier ch s
  else if isDoubleQuote ch then scanDoubleQuotedIdentifier 34 s
  else if isSingleQuote ch then scanString s
  else if isSingleLineComment ch (lookAhead s 1) then scanSingleLineComment s
  else if isMultiLineComment ch (lookAhead s 1) then scanMultiLineComment s
  else if isLeadingSign ch then
    let nextCh := lookAhead s 1 in
    if isDigit nextCh || (nextCh =? rune ".") then scanNumberWithLeadingSign s
    else scanOperator ch s
  else if isDigit ch then scanNumber ch s
  else if isWildcard ch then scanWildcard s
  else if ch =? rune "$" then
    if isDigit (lookAhead s 1) then scanPositionalParameter s
    else if isDBMS (config s) DBMSSQLServer && isLetter (lookAhead s 1) then
      scanIdentifier ch s
    else scanDollarQuotedString s
  else if ch =? rune ":" then
    if isDBMS (config s) DBMSOracle && isAlphaNumeric (lookAhead s 1) then
      scanBindParameter s
    else scanOperator ch s
  else if ch =? rune "`" then
    if isDBMS (config s) DBMSMySQL then
      scanDoubleQuotedIdentifier (rune "`") s
    else scanHash ch s
  else if ch =? rune "#" then scanHash ch s
  else if ch =? rune "@" then scanAt ch s
  else if isOperator ch then scanOperator ch s
  else if isPunctuation ch then
    if (ch =? rune "[") && isDBMS (config s) DBMSSQLServer then
      scanDoubleQuotedIdentifier (rune "[") s
    else scanPunctuation s
  else if isEOF ch then Ok (emit EOF s)
  else Ok (emit UNKNOWN s).

(** The lexer after [n] calls of [Scan], and the token of the last one. *)
Fixpoint scanTimes (n : nat) (s : Lexer) : outcome (Token * Lexer) :=
  match n with
  | O => Scan s
  | S n' => '(_, s') ← Scan s; scanTimes n' s'
  end.

(** The tokens that repeated calls of [Scan] return, up to and including
    the first EOF; [fuel] bounds the number of calls. *)
Fixpoint scanAll (fuel : nat) (s : Lexer) : outcome (list Token) :=
  match fuel with
  | O => OutOfFuel
  | S f =>
    '(t, s') ← Scan s;
    if isType (Type_ t) EOF then mret [t]
    else ts ← scanAll f s'; mret (t :: ts)
  end.

(** ** The normalizer ([normalizer.go]) *)

Record normalizerConfig : Type := mkConfig {
  CollectTables : bool;
  CollectCommands : bool;
  CollectComments : bool;
  CollectProcedure : bool;
  KeepSQLAlias : bool;
  UppercaseKeywords : bool;
  RemoveSpaceBetweenParentheses : bool;
  KeepTrailingSemicolon : bool;
  KeepIdentifierQuotation : bool
}.

(** [&normalizerConfig{}], the configuration [NewNormalizer] starts from. *)
Definition defaultConfig : normalizerConfig :=
  mkConfig false false false false false false false false false.

Definition WithCollectTables (b : bool) (c : normalizerConfig) :=
  mkConfig b (CollectCommands c) (CollectComments c) (CollectProcedure c)
    (KeepSQLAlias c) (UppercaseKeywords c) (RemoveSpaceBetweenParentheses c)
    (KeepTrailingSemicolon c) (KeepIdentifierQuotation c).

Definition WithCollectCommands (b : bool) (c : normalizerConfig) :=
  mkConfig (CollectTables c) b (CollectComments c) (CollectProcedure c)
    (KeepSQLAlias c) (UppercaseKeywords c) (RemoveSpaceBetweenParentheses c)
    (KeepTrailingSemicolon c) (KeepIdentifierQuotation c).

Definition WithCollectComments (b : bool) (c : normalizerConfig) :=
  mkConfig (CollectTables c) (CollectCommands c) b (CollectProcedure c)
    (KeepSQLAlias c) (UppercaseKeywords c) (RemoveSpaceBetweenParentheses c)
    (KeepTrailingSemicolon c) (KeepIdentifierQuotation c).

Definition WithKeepIdentifierQuotation (b : bool) (c : normalizerConfig) :=
  mkConfig (CollectTables c) (CollectCommands c) (CollectComments c)
    (CollectProcedure c) (KeepSQLAlias c) (UppercaseKeywords c)
    (RemoveSpaceBetweenParentheses c) (KeepTrailingSemicolon c) b.

(** [NewNormalizer(opts...)]: the options applied in order. *)
Definition NewNormalizer (opts : list (normalizerConfig -> normalizerConfig))
  : normalizerConfig :=
  fold_left (fun c opt => opt c) opts defaultConfig.

Record StatementMetadata : Type := mkMetadata {
  Size : Z;
  Tables : list string;
  Comments : list string;
  Commands : list string;
  Procedures : list string
}.

Record headState : Type := mkHeadState {
  readFirstNonWSNonComment : bool;
  inLeadingParenthesesExpression : bool;
  foundLeadingExpressionInParentheses : bool;
  standaloneExpressionInParentheses : bool;
  expressionInParentheses : string
}.

(** What [normalizeSQL] mutates through its pointer arguments: the output
    builder, the [groupablePlaceholder] and the [headState]. *)
Record normalizerState : Type := mkState {
  normalizedSQLBuilder : string;
  groupable : bool;
  head : headState
}.

Definition StringPlaceholder : string := "?".

Definition NumberPlaceholder : string := "?".

(** Modelled from the spec: [trimQuotes] and [isValueToken], helpers of the
    package that are not among the sources. [trimQuotes] gives the unquoted
    text of a quoted identifier: the token's text without the bytes at the
    quote offsets the lexer recorded. [isValueToken] holds of a token that
    is neither space nor comment (nor the end of the stream). *)
Fixpoint removeAt (pos : Z) (offsets : list Z) (s : string) : string :=
  match s with
  | EmptyString => EmptyString
  | String c t =>
    if existsb (Z.eqb pos) offsets then removeAt (pos + 1) offsets t
    else String c (removeAt (pos + 1) offsets t)
  end.

Definition trimQuotes (source : string) (token : Token) : string :=
  removeAt (Start token) (Quotes token) (Value token source).

Definition isValueToken (token : Token) : bool :=
  negb (isType (Type_ token) EOF) && negb (isType (Type_ token) WS) &&
  negb (isType (Type_ token) COMMENT) &&
  negb (isType (Type_ token) MULTILINE_COMMENT).

(** *** [strings.TrimSpace] *)

Definition isSpace (r : Z) : bool :=
  ((9 <=? r) && (r <=? 13)) || (r =? 32) || (r =? 0x85) || (r =? 0xA0) ||
  (r =? 0x1680) || ((0x2000 <=? r) && (r <=? 0x200A)) || (r =? 0x2028) ||
  (r =? 0x2029) || (r =? 0x202F) || (r =? 0x205F) || (r =? 0x3000).

Fixpoint trimLeftSpace (fuel : nat) (s : string) : string :=
  match fuel, s with
  | S f, String _ _ =>
    let '(r, w) := DecodeRuneInString s in
    if isSpace r then trimLeftSpace f (drop (Z.to_nat w) s) else s
  | _, _ => s
  end.

(** [utf8.RuneStart] and [utf8.DecodeLastRuneInString]. *)
Definition RuneStart (b : Z) : bool := negb (Z.land b 0xC0 =? 0x80).

Fixpoint lastRuneStart (n : nat) (s : string) (lim start_ : Z) : Z :=
  match n with
  | O => start_
  | S n' =>
    if start_ <? lim then start_
    else if RuneStart (at_ s start_) then start_
    else lastRuneStart n' s lim (start_ - 1)
  end.

Definition DecodeLastRuneInString (s : string) : Z * Z :=
  let end_ := len s in
  if end_ =? 0 then (RuneError, 0)
  else
    let r := at_ s (end_ - 1) in
    if r <? 0x80 then (r, 1)
    else
      let lim := Z.max 0 (end_ - 4) in
      let start_ := Z.max 0 (lastRuneStart 4 s lim (end_ - 2)) in
      let '(r', size) := DecodeRuneInString (slice s start_ end_) in
      if negb (start_ + size =? end_) then (RuneError, 1) else (r', size).

Fixpoint trimRightSpace (fuel : nat) (s : string) : string :=
  match fuel with
  | S f =>
    if len s =? 0 then s
    else
      let '(r, w) := DecodeLastRuneInString s in
      if isSpace r then trimRightSpace f (slice s 0 (len s - w)) else s
  | O => s
  end.

Definition TrimSpace (s : string) : string :=
  trimRightSpace (String.length s) (trimLeftSpace (String.length s) s).

(** *** Metadata collection *)

Definition emptyMetadata : StatementMetadata := mkMetadata 0 [] [] [] [].

Definition appendTable (md : StatementMetadata) (v : string) :=
  mkMetadata (Size md) (Tables md ++ [v]) (Comments md) (Commands md)
             (Procedures md).

Definition appendComment (md : StatementMetadata) (v : string) :=
  mkMetadata (Size md) (Tables md) (Comments md ++ [v]) (Commands md)
             (Procedures md).

Definition appendCommand (md : StatementMetadata) (v : string) :=
  mkMetadata (Size md) (Tables md) (Comments md) (Commands md ++ [v])
             (Procedures md).

Definition appendProcedure (md : StatementMetadata) (v : string) :=
  mkMetadata (Size md) (Tables md) (Comments md) (Commands md)
             (Procedures md ++ [v]).

(** [collectMetadata] writes to the token (its output value), to the
    metadata and to the map of CTE names; the three are returned. The map
    [ctes] only ever maps a name to [true] and is read for presence, so it
    is the set of its keys. *)
Definition collectMetadata (cfg : normalizerConfig) (source : string)
  (token : Token) (lastValueToken : option LastValueToken)
  (statementMetadata : StatementMetadata) (ctes : gset string)
  : Token * StatementMetadata * gset string :=
  if CollectComments cfg &&
     (isType (Type_ token) COMMENT || isType (Type_ token) MULTILINE_COMMENT)
  then
    (token, appendComment statementMetadata (String_ token source), ctes)
  else if isType (Type_ token) COMMAND then
    if CollectCommands cfg && isType (Type_ token) COMMAND then
      (token,
       appendCommand statementMetadata (ToUpper (String_ token source)), ctes)
    else (token, statementMetadata, ctes)
  else if isType (Type_ token) IDENT || isType (Type_ token) QUOTED_IDENT
          || isType (Type_ token) FUNCTION then
    let tokenVal :=
      if isType (Type_ token) QUOTED_IDENT then trimQuotes source token
      else String_ token source in
    let token' :=
      if isType (Type_ token) QUOTED_IDENT &&
         negb (KeepIdentifierQuotation cfg)
      then SetOutputValue token tokenVal else token in
    match lastValueToken with
    | Some l =>
      if isType (lastType l) CTE_INDICATOR then
        (token', statementMetadata, {[tokenVal]} ∪ ctes)
      else if CollectTables cfg && lastIsTableIndicator l then
        if bool_decide (tokenVal ∈ ctes) then (token', statementMetadata, ctes)
        else (token', appendTable statementMetadata tokenVal, ctes)
      else if CollectProcedure cfg && isType (lastType l) PROC_INDICATOR then
        (token', appendProcedure statementMetadata tokenVal, ctes)
      else (token', statementMetadata, ctes)
    | None => (token', statementMetadata, ctes)
    end
  else (token, statementMetadata, ctes).

(** *** Writing the output *)

Definition writeToken (cfg : normalizerConfig) (tokenType_ : TokenType)
  (tokenValue : string) (builder : string) : string :=
  if UppercaseKeywords cfg &&
     (isType tokenType_ COMMAND || isType tokenType_ KEYWORD)
  then builder +:+ ToUpper tokenValue
  else builder +:+ tokenValue.

Definition appendWhitespace (cfg : normalizerConfig) (source : string)
  (token : Token) (lastValueToken : option LastValueToken) (builder : string)
  : string :=
  let v := String_ token source in
  if RemoveSpaceBetweenParentheses cfg &&
     match lastValueToken with
     | Some l =>
       isType (lastType l) FUNCTION || String.eqb (lastValue l) "("
       || String.eqb (lastValue l) "["
     | None => false
     end
  then builder
  else if RemoveSpaceBetweenParentheses cfg &&
          (String.eqb v ")" || String.eqb v "]")
  then builder
  else if String.eqb v "," then builder
  else if String.eqb v ";" then builder
  else if String.eqb v "=" &&
          match lastValueToken with
          | Some l => String.eqb (lastValue l) ":"
          | None => false
          end
  then builder
  else builder +:+ " ".

(** A field read through [lastValueToken], a pointer that is nil until the
    first value token has been seen. *)
Definition deref (lastValueToken : option LastValueToken)
  : outcome LastValueToken :=
  match lastValueToken with
  | Some l => Ok l
  | None => Panic
  end.

Definition isPlaceholder (v : string) : bool :=
  String.eqb v NumberPlaceholder || String.eqb v StringPlaceholder.

(** [isObfuscatedValueGroupable]: its result, the [groupable] flag and the
    builder it may write the skipped comma to. *)
Definition isObfuscatedValueGroupable (source : string) (token : Token)
  (lastValueToken : option LastValueToken) (groupable_ : bool)
  (builder : string) : outcome (bool * bool * string) :=
  let v := String_ token source in
  '(ret, g) ←
    (if isPlaceholder v then
       l ← deref lastValueToken;
       if String.eqb (lastValue l) "(" || String.eqb (lastValue l) "[" then
         Ok (false, true)
       else if String.eqb (lastValue l) "," && groupable_ then
         Ok (true, groupable_)
       else Ok (false, groupable_)
     else Ok (false, groupable_));
  if ret : bool then Ok (true, g, builder)
  else if match lastValueToken with
          | Some l => isPlaceholder (lastValue l) && String.eqb v "," && g
          | None => false
          end
  then Ok (true, g, builder)
  else if g && (String.eqb v ")" || String.eqb v "]") then
    Ok (false, false, builder)
  else if g && negb (String.eqb v NumberPlaceholder) &&
          negb (String.eqb v StringPlaceholder) then
    l ← deref lastValueToken;
    if String.eqb (lastValue l) "," then
      Ok (false, g, builder +:+ lastValue l)
    else Ok (false, g, builder)
  else Ok (false, g, builder).

Definition isOpenParen (source : string) (token : Token) : bool :=
  isType (Type_ token) PUNCTUATION && String.eqb (String_ token source) "(".

Definition isCloseParen (source : string) (token : Token) : bool :=
  isType (Type_ token) PUNCTUATION && String.eqb (String_ token source) ")".

(** The head state once the first token that is neither space nor comment
    has been looked at. *)
Definition readFirst (source : string) (token : Token) (h : headState)
  : headState :=
  if negb (readFirstNonWSNonComment h) then
    if isOpenParen source token then
      mkHeadState true true (foundLeadingExpressionInParentheses h) true
                  (expressionInParentheses h)
    else
      mkHeadState true (inLeadingParenthesesExpression h)
                  (foundLeadingExpressionInParentheses h)
                  (standaloneExpressionInParentheses h)
                  (expressionInParentheses h)
  else h.

Definition clearStandalone (h : headState) : headState :=
  if foundLeadingExpressionInParentheses h then
    mkHeadState (readFirstNonWSNonComment h)
                (inLeadingParenthesesExpression h)
                (foundLeadingExpressionInParentheses h) false
                (expressionInParentheses h)
  else h.

(** The write of a token into the deferred buffer of the leading
    parenthesized expression. *)
Definition writeHead (cfg : normalizerConfig) (source : string)
  (token : Token) (lastValueToken : option LastValueToken) (h : headState)
  : headState :=
  let buffer :=
    writeToken cfg (Type_ token) (String_ token source)
      (appendWhitespace cfg source token lastValueToken
         (expressionInParentheses h)) in
  if isCloseParen source token then
    mkHeadState (readFirstNonWSNonComment h) false true
                (standaloneExpressionInParentheses h) buffer
  else
    mkHeadState (readFirstNonWSNonComment h)
                (inLeadingParenthesesExpression h)
                (foundLeadingExpressionInParentheses h)
                (standaloneExpressionInParentheses h) buffer.

(** [normalizeSQL]. [Normalize_] is the recursive call [n.Normalize] on the
    body of a dollar-quoted function; it gives the normalized text. *)
Definition normalizeSQL (Normalize_ : string -> outcome string)
  (cfg : normalizerConfig) (source : string) (token : Token)
  (lastValueToken : option LastValueToken) (st : normalizerState)
  : outcome (Token * normalizerState) :=
  if isType (Type_ token) WS || isType (Type_ token) COMMENT
     || isType (Type_ token) MULTILINE_COMMENT
  then Ok (token, st)
  else
    let h := readFirst source token (head st) in
    if isType (Type_ token) EOF then
      if standaloneExpressionInParentheses h then
        Ok (token,
            mkState (normalizedSQLBuilder st +:+ expressionInParentheses h)
                    (groupable st) h)
      else Ok (token, mkState (normalizedSQLBuilder st) (groupable st) h)
    else
      let h := clearStandalone h in
      token ←
        (if isType (Type_ token) DOLLAR_QUOTED_FUNCTION &&
            negb (String.eqb (String_ token source) StringPlaceholder)
         then
           let v := String_ token source in
           quotedFunc ← sliceChecked v 6 (len v - 6);
           normalizedQuotedFunc ← Normalize_ quotedFunc;
           Ok (SetOutputValue token
                 ("$func$" +:+ normalizedQuotedFunc +:+ "$func$"))
         else Ok token);
      let lastIsAlias :=
        match lastValueToken with
        | Some l => isType (lastType l) ALIAS_INDICATOR
        | None => false
        end in
      if negb (KeepSQLAlias cfg) && isType (Type_ token) ALIAS_INDICATOR then
        Ok (token, mkState (normalizedSQLBuilder st) (groupable st) h)
      else if negb (KeepSQLAlias cfg) && lastIsAlias &&
              isType (Type_ token) IDENT
      then Ok (token, mkState (normalizedSQLBuilder st) (groupable st) h)
      else
        let builder :=
          match lastValueToken with
          | Some l =>
            if negb (KeepSQLAlias cfg) && lastIsAlias then
              writeToken cfg (lastType l) (lastValue l)
                (appendWhitespace cfg source token lastValueToken
                   (normalizedSQLBuilder st))
            else normalizedSQLBuilder st
          | None => normalizedSQLBuilder st
          end in
        '(skip, g, builder) ←
          isObfuscatedValueGroupable source token lastValueToken
            (groupable st) builder;
        if skip : bool then Ok (token, mkState builder g h)
        else if inLeadingParenthesesExpression h then
          Ok (token,
              mkState builder g (writeHead cfg source token lastValueToken h))
        else
          Ok (token,
              mkState
                (writeToken cfg (Type_ token) (String_ token source)
                   (appendWhitespace cfg source token lastValueToken builder))
                g h).

Definition trimNormalizedSQL (cfg : normalizerConfig) (normalizedSQL : string)
  : string :=
  TrimSpace
    (if negb (KeepTrailingSemicolon cfg) then TrimSuffix normalizedSQL ";"
     else normalizedSQL).

(** *** Deduplication of the collected metadata *)

Fixpoint dedupeLoop (metadata : list string) (metadataSeen : gset string)
  (dedupedMetadata : list string) (size_ : Z) : list string * Z :=
  match metadata with
  | [] => (dedupedMetadata, size_)
  | m :: rest =>
    if bool_decide (m ∈ metadataSeen) then
      dedupeLoop rest metadataSeen dedupedMetadata size_
    else
      dedupeLoop rest ({[m]} ∪ metadataSeen) (dedupedMetadata ++ [m])
                 (size_ + len m)
  end.

Definition dedupeCollectedMetadata (metadata : list string)
  : list string * Z :=
  dedupeLoop metadata ∅ [] 0.

Definition dedupeStatementMetadata (info : StatementMetadata)
  : StatementMetadata :=
  let '(tables, tablesSize) := dedupeCollectedMetadata (Tables info) in
  let '(comments, commentsSize) := dedupeCollectedMetadata (Comments info) in
  let '(commands_, commandsSize) := dedupeCollectedMetadata (Commands info) in
  let '(procedures, procedureSize) :=
    dedupeCollectedMetadata (Procedures info) in
  mkMetadata
    (Size info + (tablesSize + commentsSize + commandsSize + procedureSize))
    tables comments commands_ procedures.

(** *** [Normalize] *)

Definition initialState : normalizerState :=
  mkState "" false (mkHeadState false false false false "").

Definition finish (cfg : normalizerConfig)
  (r : string * StatementMetadata) : string * StatementMetadata :=
  (trimNormalizedSQL cfg (fst r), dedupeStatementMetadata (snd r)).

(** The [for] loop of [Normalize]. One unit of fuel pays for one pass; the
    recursive call on the body of a dollar-quoted function runs on the fuel
    that is left. The loop gives the builder and the collected metadata. *)
Fixpoint normalizeLoop (cfg : normalizerConfig) (dbms : DBMSType)
  (fuel : nat) (input : string) (lexer : Lexer)
  (lastValueToken : option LastValueToken)
  (statementMetadata : StatementMetadata) (ctes : gset string)
  (st : normalizerState) {struct fuel}
  : outcome (string * StatementMetadata) :=
  match fuel with
  | O => OutOfFuel
  | S f =>
    '(token, lexer') ← Scan lexer;
    let '(token1, statementMetadata', ctes') :=
      collectMetadata cfg input token lastValueToken statementMetadata ctes in
    '(token2, st') ←
      normalizeSQL
        (fun body =>
           r ← normalizeLoop cfg dbms f body (New body dbms) None
                 emptyMetadata ∅ initialState;
           mret (fst (finish cfg r)))
        cfg input token1 lastValueToken st;
    if isType (Type_ token2) EOF then
      mret (normalizedSQLBuilder st', statementMetadata')
    else
      normalizeLoop cfg dbms f input lexer'
        (if isValueToken token2 then Some (GetLastValueToken token2 input)
         else lastValueToken)
        statementMetadata' ctes' st'
  end.

Definition Normalize (cfg : normalizerConfig) (dbms : DBMSType) (fuel : nat)
  (input : string) : outcome (string * StatementMetadata) :=
  r ← normalizeLoop cfg dbms fuel input (New input dbms) None emptyMetadata ∅
        initialState;
  mret (finish cfg r).

(** ** Vocabulary of the properties *)

(** The sum of the byte lengths of the strings of a sequence. *)
Definition byteLengths (l : list string) : Z :=
  fold_right (fun s acc => len s + acc) 0 l.

(** The lexer stands in its source between [before] and [rest]. *)
Definition positioned (s : Lexer) (before rest : string) : Prop :=
  src s = before +:+ rest /\ cursor s = len before.

(** The rune the lexer reads at the head of [rest]; [0] at the end. *)
Definition headRune (rest : string) : Z :=
  match rest with
  | EmptyString => 0
  | String _ _ => fst (DecodeRuneInString rest)
  end.

(** A string holds no NUL byte. *)
Fixpoint noNUL (s : string) : bool :=
  match s with
  | EmptyString => true
  | String c t => negb (byte c =? 0) && noNUL t
  end.

(** The body of a single-quoted string (the bytes after the opening quote)
    holds an unescaped closing quote: a backslash escapes the byte after
    it. *)
Fixpoint closesString (escaped : bool) (body : string) : bool :=
  match body with
  | EmptyString => false
  | String c t =>
    if escaped then closesString false t
    else if byte c =? rune "\" then closesString true t
    else if byte c =? rune "'" then true
    else closesString false t
  end.

(** The number of bytes of [s] equal to [b]. *)
Definition countByte (b : Z) (s : string) : nat :=
  List.length (filter (Z.eqb b) (bytes s)).

Definition exponentMarkers (s : string) : nat :=
  (countByte (rune "e") s + countByte (rune "E") s)%nat.

(** The text of a decimal number after its first byte, as the loop of
    [scanDecimalNumber] takes it: digits, dots and exponent markers in any
    number, an exponent marker taking one sign after it. *)
Fixpoint decimalTail (l : list Z) : bool :=
  match l with
  | [] => true
  | c :: t =>
    if isExpontent c then
      match t with
      | sign :: t' => if isLeadingSign sign then decimalTail t' else decimalTail t
      | [] => true
      end
    else (isDigit c || (c =? rune ".")) && decimalTail t
  end.

(** A digit-led number that is neither hexadecimal nor octal: [d] is its
    first byte and [rest] what follows in the source. *)
Definition decimalLed (d : Z) (rest : string) : bool :=
  isDigit d &&
  negb ((d =? rune "0") &&
        ((headRune rest =? rune "x") || (headRune rest =? rune "X") ||
         ((rune "0" <=? headRune rest) && (headRune rest <=? rune "7")))).

(** A predicate holds of a trie node and of all the nodes below it. *)
Fixpoint trieAll (P : trieNode -> bool) (n : trieNode) : bool :=
  match n with
  | TrieNode cs _ _ _ =>
    P n && forallb (fun p => match p with (_, c) => trieAll P c end) cs
  end.

(** An accepting node carries a keyword kind. *)
Definition keywordKind (n : trieNode) : bool :=
  negb (isEnd n) ||
  (isType (tokenType n) COMMAND || isType (tokenType n) KEYWORD
   || isType (tokenType n) BOOLEAN || isType (tokenType n) NULL
   || isType (tokenType n) PROC_INDICATOR || isType (tokenType n) CTE_INDICATOR
   || isType (tokenType n) ALIAS_INDICATOR).

(** *** Lexers in range, and what a scanner leaves behind *)

Definition inRange (s : Lexer) : Prop := 0 <= cursor s <= len (src s).

(** [s'] is [s] with the cursor moved forward, whatever was recorded
    meanwhile. *)
Definition advance (s s' : Lexer) : Prop :=
  src s' = src s /\ config s' = config s /\ start s' = start s /\
  cursor s <= cursor s' <= len (src s).

(** The lexer between two tokens. *)
Definition ready (s : Lexer) : Prop := inRange s /\ start s = cursor s.

Definition validRune (ch : Z) : Prop := 1 <= RuneLen ch.

Definition remaining (s : Lexer) : nat := Z.to_nat (len (src s) - cursor s).

(** A loop of the lexer ends and leaves the cursor further on. *)
Definition moves (s : Lexer) (r : outcome Lexer) : Prop :=
  exists s', r = Ok s' /\ advance s s'.

(** A scanner returns the token that [emit] builds on a lexer further on. *)
Definition emits (s : Lexer) (r : outcome (Token * Lexer)) : Prop :=
  exists t sf, r = Ok (emit t sf) /\ advance s sf.

(** The loops of [scanIdentifier] return a rune next to the lexer. *)
Definition movesWithRune (s : Lexer) (r : outcome (Z * Lexer)) : Prop :=
  exists ch' s', r = Ok (ch', s') /\ advance s s'.

(** *** Token streams *)

(** The text that a sequence of tokens spans in [source], in order. *)
Definition spans (source : string) (toks : list Token) : string :=
  fold_right (fun t acc => Value t source +:+ acc) "" toks.

(** A scanner returns a token that ends past the cursor of [s]. *)
Definition emitsPast (s : Lexer) (r : outcome (Token * Lexer)) : Prop :=
  exists t sf, r = Ok (emit t sf) /\ advance s sf /\ cursor s < cursor sf.

(** The cases in which [Scan] returns a token of no byte and leaves the
    cursor where it is: the end of the stream, a code point that no case
    takes, a [#] as last byte under MySQL, a backtick under SQL Server. *)
Definition standsStill (s : Lexer) (t : TokenType) : Prop :=
  (t = EOF /\ peek s = 0) \/
  t = UNKNOWN \/
  (t = COMMENT /\ config s = DBMSMySQL /\ peek s = rune "#" /\
   cursor s + 1 = len (src s)) \/
  (t = IDENT /\ config s = DBMSSQLServer /\ peek s = rune "`").

(** What a scan that returns gives: a property of the kind of the token and
    of the lexer it leaves. *)
Definition yields (P : TokenType -> Lexer -> Prop)
  (r : outcome (Token * Lexer)) : Prop :=
  forall tok s', r = Ok (tok, s') -> P (Type_ tok) s'.

(** What a loop that returns leaves. *)
Definition leaves (P : Lexer -> Prop) (r : outcome Lexer) : Prop :=
  forall s', r = Ok s' -> P s'.

(** The kinds that the keyword trie gives. *)
Definition isKeywordKind (t : TokenType) : bool :=
  isType t COMMAND || isType t KEYWORD || isType t BOOLEAN || isType t NULL
  || isType t PROC_INDICATOR || isType t CTE_INDICATOR
  || isType t ALIAS_INDICATOR.

(** The rune that ends a keyword: punctuation, whitespace or the end. *)
Definition isDelimiter (ch : Z) : bool :=
  isPunctuation ch || isWhitespace ch || isEOF ch.

(** What the kind of the token that [Scan] returns on [s] says of the rune
    under the cursor before, and of the rune under the cursor after. *)
Definition tokenLaw (s : Lexer) (t : TokenType) (s' : Lexer) : Prop :=
  match t with
  | ERROR =>
    peek s' = 0 /\
    (isDoubleQuote (peek s) = true \/ peek s = rune "`" \/ peek s = rune "[" \/
     peek s = rune "$" \/ isMultiLineComment (peek s) (lookAhead s 1) = true)
  | EOF => peek s = 0
  | WS => isWhitespace (peek s) = true /\ isWhitespace (peek s') = false
  | STRING => isSingleQuote (peek s) = true
  | INCOMPLETE_STRING => isSingleQuote (peek s) = true /\ peek s' = 0
  | COMMENT => cursor s < cursor s' -> peek s' = 10 \/ peek s' = 0
  | POSITIONAL_PARAMETER => isDigit (peek s') = false
  | BIND_PARAMETER | SYSTEM_VARIABLE => isAlphaNumeric (peek s') = false
  | FUNCTION => peek s' = rune "("
  | COMMAND | KEYWORD | BOOLEAN | NULL | PROC_INDICATOR | CTE_INDICATOR
  | ALIAS_INDICATOR => isDelimiter (peek s') = true
  | _ => True
  end.

(** Every byte of a string passes a test. *)
Fixpoint allBytes (p : Z -> bool) (s : string) : bool :=
  match s with
  | EmptyString => true
  | String c t => p (byte c) && allBytes p t
  end.

(** A sequence of the incremental metadata and its set agree: the set holds
    the strings of the sequence, none of them twice. *)
Definition agree (set : gset string) (slice : list string) : Prop :=
  NoDup slice /\ forall x, x ∈ set <-> x ∈ slice.

(** The incremental metadata is consistent: each sequence agrees with its
    set, and [Size] is the sum of the byte lengths of all the strings. *)
Definition consistent (sm : Incremental.StatementMetadata) : Prop :=
  agree (Incremental.tablesSet sm) (Incremental.Tables sm) /\
  agree (Incremental.commentsSet sm) (Incremental.Comments sm) /\
  agree (Incremental.commandsSet sm) (Incremental.Commands sm) /\
  agree (Incremental.proceduresSet sm) (Incremental.Procedures sm) /\
  Incremental.Size sm
  = byteLengths (Incremental.Tables sm) + byteLengths (Incremental.Comments sm)
    + byteLengths (Incremental.Commands sm)
    + byteLengths (Incremental.Procedures sm).


(** How a token of each kind begins: what the kind of the token that [Scan]
    returns on [s] says of the rune under the cursor, of the rune after it
    and of the dialect. *)
Definition opening (s : Lexer) (t : TokenType) : Prop :=
  let ch := peek s in
  let nextCh := lookAhead s 1 in
  match t with
  | ERROR => True
  | EOF => ch = 0
  | WS => isWhitespace ch = true
  | STRING | INCOMPLETE_STRING => ch = rune "'"
  | NUMBER =>
    isDigit ch = true \/
    (isLeadingSign ch = true /\ (isDigit nextCh = true \/ nextCh = rune "."))
  | IDENT | FUNCTION | COMMAND | KEYWORD | BOOLEAN | NULL | PROC_INDICATOR
  | CTE_INDICATOR | ALIAS_INDICATOR =>
    isLetter ch = true \/
    (config s = DBMSSQLServer /\
     (ch = rune "$" \/ ch = rune "#" \/ ch = rune "`")) \/
    (config s = DBMSSnowflake /\ ch = rune "@")
  | QUOTED_IDENT =>
    ch = 34 \/ (ch = rune "`" /\ config s = DBMSMySQL) \/
    (ch = rune "[" /\ config s = DBMSSQLServer)
  | OPERATOR | JSON_OP => isOperator ch = true \/ ch = rune "`"
  | WILDCARD => ch = rune "*"
  | COMMENT =>
    (ch = rune "-" /\ nextCh = rune "-") \/
    (ch = rune "#" /\ config s = DBMSMySQL)
  | MULTILINE_COMMENT => ch = rune "/" /\ nextCh = rune "*"
  | PUNCTUATION => isPunctuation ch = true
  | DOLLAR_QUOTED_FUNCTION | DOLLAR_QUOTED_STRING => ch = rune "$"
  | POSITIONAL_PARAMETER => ch = rune "$" /\ isDigit nextCh = true
  | BIND_PARAMETER =>
    (ch = rune "@" \/ (ch = rune ":" /\ config s = DBMSOracle)) /\
    isAlphaNumeric nextCh = true
  | SYSTEM_VARIABLE =>
    ch = rune "@" /\ nextCh = rune "@" /\ isAlphaNumeric (lookAhead s 2) = true
  | UNKNOWN =>
    isWhitespace ch = false /\ isLetter ch = false /\ isDigit ch = false /\
    isOperator ch = false /\ isPunctuation ch = false /\ ch <> 0 /\
    ch <> 34 /\ ch <> rune "'" /\ ch <> rune "$" /\ ch <> rune "`"
  end.

(** A byte that is no question mark. *)
Definition notQuestionMark (b : Z) : bool := negb (b =? rune "?").

(** The bytes of plain SQL text: whitespace, ASCII letters, the underscore,
    digits, punctuation, both quotes, the dollar sign, and the operator
    characters other than [?] and [#]. *)
Definition isPlain (b : Z) : bool :=
  isWhitespace b || isAsciiLetter b || (b =? rune "_") || isDigit b ||
  isPunctuation b || isDoubleQuote b || isSingleQuote b || (b =? rune "$") ||
  (isOperator b && negb (b =? rune "?") && negb (b =? rune "#")).

(** The body of a single-quoted string up to and including its closing
    quote, the first quote that no backslash escapes; the whole body when
    there is none. *)
Fixpoint stringBody (escaped : bool) (body : string) : string :=
  match body with
  | EmptyString => EmptyString
  | String c t =>
    if escaped then String c (stringBody false t)
    else if byte c =? rune "\" then String c (stringBody true t)
    else if byte c =? rune "'" then String c EmptyString
    else String c (stringBody false t)
  end.

(** The offsets, counted from [pos], of the bytes of [s] that pass a
    test. *)
Fixpoint positionsOf (p : Z -> bool) (pos : Z) (s : string) : list Z :=
  match s with
  | EmptyString => []
  | String c t =>
    if p (byte c) then pos :: positionsOf p (pos + 1) t
    else positionsOf p (pos + 1) t
  end.

(** The delimiters of a quoted identifier under a dialect: double quotes
    everywhere, backticks under MySQL, brackets under SQL Server. *)
Definition quoting (dbms : DBMSType) (d c : Z) : Prop :=
  (d = 34 /\ c = 34) \/
  (dbms = DBMSMySQL /\ d = rune "`" /\ c = rune "`") \/
  (dbms = DBMSSQLServer /\ d = rune "[" /\ c = rune "]").

(** A byte of a quoted name: neither the closing delimiter nor NUL. *)
Definition nameByte (c : Z) (b : Z) : bool := negb (b =? c) && negb (b =? 0).

(** What follows the opening delimiter in a chain of quoted names joined by
    dots, as in ["a"."b"]: the first name, its closing delimiter, and the
    other names, each after a dot and an opening delimiter. *)
Fixpoint chainTail (d c : Z) (n : string) (names : list string) : string :=
  n +:+ String (chr c) "" +:+
  match names with
  | [] => ""
  | n' :: names' => String "." (String (chr d) (chainTail d c n' names'))
  end.

(** The chain with its opening delimiter. *)
Definition chainText (d c : Z) (n : string) (names : list string) : string :=
  String (chr d) (chainTail d c n names).

(** The offsets of the delimiters of a chain whose first name begins at
    [pos]: each closing delimiter and each opening delimiter after a
    dot. *)
Fixpoint tailQuotes (pos : Z) (n : string) (names : list string) : list Z :=
  pos + len n ::
  match names with
  | [] => []
  | n' :: names' => pos + len n + 2 :: tailQuotes (pos + len n + 3) n' names'
  end.

(** [strings.HasPrefix]. *)
Fixpoint hasPrefix (s prefix : string) {struct prefix} : bool :=
  match prefix with
  | EmptyString => true
  | String a p =>
    match s with
    | EmptyString => false
    | String b t => (byte b =? byte a) && hasPrefix t p
    end
  end.

(** A byte of the tag of a dollar-quoted literal: ASCII, and no dollar
    sign. *)
Definition tagByte (b : Z) : bool := (b <? 128) && negb (b =? rune "$").

(** The tag between its dollar signs, as in [$tag$]. *)
Definition dollarTag (tag : string) : string := String "$" (tag +:+ "$").

(** A byte inside a line: neither a line feed nor NUL. *)
Definition lineByte (b : Z) : bool := negb (b =? 10) && negb (b =? 0).

(** The digits that the loops of [scanHexNumber] and [scanOctalNumber]
    take. *)
Definition isHexDigit (ch : Z) : bool :=
  isDigit ch || ((rune "a" <=? ch) && (ch <=? rune "f"))
  || ((rune "A" <=? ch) && (ch <=? rune "F")).

Definition isOctalDigit (ch : Z) : bool :=
  (rune "0" <=? ch) && (ch <=? rune "7").

(** The ASCII white space that [strings.TrimSpace] cuts: tab, line feed,
    vertical tab, form feed, carriage return and space. *)
Definition isAsciiSpace (b : Z) : bool := ((9 <=? b) && (b <=? 13)) || (b =? 32).

(** The forms of a parameter: the bytes that introduce it and the type of
    its token. [$] introduces a positional parameter, [@] a bind parameter
    (except under Snowflake), [:] a bind parameter under Oracle, [@@] a
    system variable. *)
Definition introduces (dbms : DBMSType) (prefix : string) (t : TokenType)
  : Prop :=
  (prefix = "$"%string /\ t = POSITIONAL_PARAMETER) \/
  (prefix = "@"%string /\ t = BIND_PARAMETER /\ dbms <> DBMSSnowflake) \/
  (prefix = ":"%string /\ t = BIND_PARAMETER /\ dbms = DBMSOracle) \/
  (prefix = "@@"%string /\ t = SYSTEM_VARIABLE).

(** The bytes of the name of a parameter: digits for a positional
    parameter, ASCII letters, digits and underscores for the others. *)
Definition parameterByte (t : TokenType) (b : Z) : bool :=
  if isType t POSITIONAL_PARAMETER then isDigit b
  else isAsciiLetter b || (b =? rune "_") || isDigit b.

(** The runes that the loop of the parameter goes on at. *)
Definition parameterRune (t : TokenType) (ch : Z) : bool :=
  if isType t POSITIONAL_PARAMETER then isDigit ch else isAlphaNumeric ch.

(** The operator characters that the loop of [scanOperator] takes after
    [lastCh]: operator characters run together, except that a [?] or an [@]
    right after an [=] ends the run. *)
Fixpoint operatorRun (lastCh : Z) (text : string) : string :=
  match text with
  | EmptyString => EmptyString
  | String c t =>
    if isOperator (byte c) &&
       negb ((lastCh =? rune "=") &&
             ((byte c =? rune "?") || (byte c =? rune "@")))
    then String c (operatorRun (byte c) t)
    else EmptyString
  end.

(** An operator character [c0] that [Scan] hands to [scanOperator] and that
    opens no JSON operator, given the rune [next] after it: not the start
    of a comment, of a signed number or of a JSON operator. *)
Definition plainOperator (c0 next : Z) : bool :=
  existsb (Z.eqb c0)
    [rune "="; rune "<"; rune ">"; rune "!"; rune "&"; rune "|"; rune "^";
     rune "%"; rune "~"; rune "+"; rune "-"; rune "/"; rune "?"] &&
  negb ((c0 =? rune "-") &&
        ((next =? rune "-") || (next =? rune ">") || isDigit next
         || (next =? rune "."))) &&
  negb ((c0 =? rune "+") && (isDigit next || (next =? rune "."))) &&
  negb ((c0 =? rune "/") && (next =? rune "*")) &&
  negb ((c0 =? rune "?") && ((next =? rune "|") || (next =? rune "&"))) &&
  negb ((c0 =? rune "<") && (next =? rune "@")).

(** The lexer [s] over the text [x] in place of its own: cursor, start,
    dialect and collected offsets are kept. *)
Definition withSrc (s : Lexer) (x : string) : Lexer :=
  mkLexer x (cursor s) (start s) (config s) (digits s) (quotes s)
          (isTableIndicator s).

(** The ASCII bytes that [isIdentifier] accepts. *)
Definition asciiIdentifier (b : Z) : bool := (b <? 128) && isIdentifier b.

(** The text that the loop of [scanDecimalNumber] takes from [text]: the
    longest run of digits, dots and exponent markers, an exponent marker
    taking the sign that follows it. The loop counts neither the dots nor
    the exponent markers. *)
Fixpoint decimalRun (text : string) : string :=
  match text with
  | EmptyString => EmptyString
  | String c t =>
    if isExpontent (byte c) then
      match t with
      | String sg t' =>
        if isLeadingSign (byte sg) then String c (String sg (decimalRun t'))
        else String c (decimalRun t)
      | EmptyString => String c EmptyString
      end
    else if isDigit (byte c) || (byte c =? rune ".") then
      String c (decimalRun t)
    else EmptyString
  end.

(** ** Inputs and configurations of the scenarios *)

(** Collect-tables, collect-commands and collect-comments on, every other
    option at its default. *)
Definition scenarioConfig : normalizerConfig :=
  NewNormalizer
    [WithCollectTables true; WithCollectCommands true; WithCollectComments true].

Definition cteQuery : string :=
  "WITH cte AS (SELECT id FROM person WHERE age > ?) UPDATE person SET age = ? WHERE id IN (SELECT id FROM cte);".

Definition cteNormalized : string :=
  "WITH cte AS ( SELECT id FROM person WHERE age > ? ) UPDATE person SET age = ? WHERE id IN ( SELECT id FROM cte )".

(** A double-quoted identifier. *)
Definition quoted (name : string) : string :=
  String (chr 34) name +:+ String (chr 34) "".

Definition quotedQuery : string :=
  "SELECT * FROM " +:+ quoted "public" +:+ "." +:+ quoted "users" +:+
  " WHERE id = ?".

Definition unquotedNormalized : string :=
  "SELECT * FROM public.users WHERE id = ?".

(** The one-byte string of a NUL byte, and a string of one backslash. *)
Definition NUL : string := String (chr 0) "".

Definition backslash : string := "\".

(** A token of the given kind and span, as [emit] builds it when no digit
    or quote offset was recorded. *)
Definition plainToken (t : TokenType) (start_ end_ : Z) : Token :=
  mkToken t false start_ end_ [] [] "".

(** The recursive call of [normalizeSQL] on the body of a dollar-quoted
    function, as the loop passes it: [Normalize] on the fuel that is left,
    of which the text is kept. *)
Definition nested (cfg : normalizerConfig) (dbms : DBMSType) (f : nat)
  (body : string) : outcome string :=
  r ← normalizeLoop cfg dbms f body (New body dbms) None emptyMetadata ∅
        initialState;
  mret (fst (finish cfg r)).

(** A run that ended: it returned or it panicked. *)
Definition definite {A : Type} (r : outcome A) : Prop := r <> OutOfFuel.

(** A scan that gives a token gives one that is not EOF. *)
Definition notEOF (r : outcome (Token * Lexer)) : Prop :=
  forall tok s', r = Ok (tok, s') -> Type_ tok <> EOF.

(** The lexer as [emit] leaves it. *)
Definition afterEmit (s : Lexer) : Lexer := snd (emit EOF s).

(** A table for [unicode.IsLetter] that holds of no code point, for runs on
    ASCII inputs, which never consult the table. *)
Definition noUnicodeLetter : Z -> bool := fun _ => false.

(** * Properties *)

(** ** Go strings and UTF-8 decoding *)

Lemma byte_range c : 0 <= byte c < 256.
Proof.
  unfold byte. pose proof (N_ascii_bounded c) as H.
  split; [apply N2Z.is_nonneg|].
  change 256 with (Z.of_N 256). apply N2Z.inj_lt. exact H.
Qed.

Lemma len_nonneg s : 0 <= len s.
Proof. unfold len. lia. Qed.

Lemma len_String c s : len (String c s) = 1 + len s.
Proof. unfold len. simpl String.length. lia. Qed.

Lemma app_nil_l b : "" +:+ b = b.
Proof. reflexivity. Qed.

Lemma app_String c a b : String c a +:+ b = String c (a +:+ b).
Proof. reflexivity. Qed.

Lemma len_app a b : len (a +:+ b) = len a + len b.
Proof.
  induction a as [|c a IH].
  - rewrite app_nil_l. unfold len. simpl. lia.
  - rewrite app_String, !len_String, IH. lia.
Qed.

Lemma app_empty_r a : a +:+ "" = a.
Proof.
  induction a as [|d a IH]; [reflexivity|]. rewrite app_String, IH. reflexivity.
Qed.

Lemma app_assoc a b c : (a +:+ b) +:+ c = a +:+ (b +:+ c).
Proof.
  induction a as [|d a IH]; [reflexivity|].
  rewrite !app_String, IH. reflexivity.
Qed.

Lemma drop_app a b : drop (String.length a) (a +:+ b) = b.
Proof. induction a as [|c a IH]; [reflexivity|]. rewrite app_String. exact IH. Qed.

Lemma take_app a b : take (String.length a) (a +:+ b) = a.
Proof.
  induction a as [|c a IH]; [destruct b; reflexivity|].
  rewrite app_String. simpl. rewrite IH. reflexivity.
Qed.

Lemma from_app a b : from (a +:+ b) (len a) = b.
Proof. unfold from, len. rewrite Nat2Z.id. apply drop_app. Qed.

Lemma slice_app a b c : slice (a +:+ b +:+ c) (len a) (len a + len b) = b.
Proof.
  unfold slice.
  replace (Z.to_nat (len a + len b - len a)) with (String.length b)
    by (unfold len; lia).
  unfold len at 1. rewrite Nat2Z.id, drop_app. apply take_app.
Qed.

Lemma lor_ge_l a b : 0 <= a -> 0 <= b -> a <= Z.lor a b.
Proof.
  intros Ha Hb.
  pose proof (Z.add_lor_land a b) as Hsum.
  assert (Hle : Z.land a b <= b).
  { assert (Ea : a = Z.of_N (Z.to_N a)) by (rewrite Z2N.id; lia).
    assert (Eb : b = Z.of_N (Z.to_N b)) by (rewrite Z2N.id; lia).
    rewrite Ea, Eb, <- N2Z.inj_land. apply N2Z.inj_le, N.land_le_r. }
  lia.
Qed.

Lemma lor_ge_r a b : 0 <= a -> 0 <= b -> b <= Z.lor a b.
Proof. intros. rewrite Z.lor_comm. apply lor_ge_l; assumption. Qed.

Lemma low6_nonneg b : 0 <= low6 b.
Proof. unfold low6. apply Z.land_nonneg. right. lia. Qed.

Lemma low6_cont b lo : 128 <= lo -> lo <= b -> b <= 191 -> lo - 128 <= low6 b.
Proof.
  intros Hlo H1 H2. unfold low6. change 0x3F with (Z.ones 6).
  rewrite Z.land_ones by lia. change (2 ^ 6) with 64.
  rewrite <- (Z.mod_unique b 64 2 (b - 128)); lia.
Qed.

Lemma land_mask_lead s0 k base :
  0 <= k -> base mod 2 ^ k = 0 -> base <= s0 < base + 2 ^ k ->
  Z.land s0 (Z.ones k) = s0 - base.
Proof.
  intros Hk Hb Hs. rewrite Z.land_ones by exact Hk.
  assert (0 < 2 ^ k) by (apply Z.pow_pos_nonneg; lia).
  pose proof (Z.div_mod base (2 ^ k) ltac:(lia)) as Hd. rewrite Hb in Hd.
  symmetry. apply (Z.mod_unique s0 (2 ^ k) (base / 2 ^ k) (s0 - base)); lia.
Qed.

Lemma lor_bounds a b :
  0 <= a -> 0 <= b -> a <= Z.lor a b /\ b <= Z.lor a b.
Proof. intros. split; [apply lor_ge_l|apply lor_ge_r]; assumption. Qed.

Lemma decode_ascii s0 t : 0 <= s0 < 128 -> decode (s0 :: t) = (s0, 1).
Proof.
  intros H. unfold decode.
  destruct (s0 <? 128) eqn:E; [reflexivity|]. apply Z.ltb_ge in E. lia.
Qed.

Ltac Zbool :=
  repeat match goal with
         | H : (_ <? _) = true |- _ => apply Z.ltb_lt in H
         | H : (_ <? _) = false |- _ => apply Z.ltb_ge in H
         | H : (_ <=? _) = true |- _ => apply Z.leb_le in H
         | H : (_ <=? _) = false |- _ => apply Z.leb_gt in H
         | H : (_ =? _) = true |- _ => apply Z.eqb_eq in H
         | H : (_ =? _) = false |- _ => apply Z.eqb_neq in H
         | H : (_ || _)%bool = false |- _ =>
           apply orb_false_iff in H; destruct H
         | H : (_ && _)%bool = true |- _ =>
           apply andb_true_iff in H; destruct H
         | H : negb _ = true |- _ => apply negb_true_iff in H
         | H : negb _ = false |- _ => apply negb_false_iff in H
         end.

Ltac shifts :=
  rewrite ?Z.shiftl_mul_pow2 by lia;
  change (2 ^ 6) with 64 in *; change (2 ^ 12) with 4096 in *;
  change (2 ^ 18) with 262144 in *.

(** A nested [Z.lor] of non-negative parts is at least each part. *)
Ltac nonneg :=
  repeat first [lia|apply Z.lor_nonneg; split|apply low6_nonneg
               |apply Z.land_nonneg; right; lia|apply Z.mul_nonneg_nonneg].

Ltac lor_term t :=
  lazymatch t with
  | Z.lor ?a ?b =>
    lor_term a; lor_term b;
    let Ha := fresh in let Hb := fresh in
    assert (Ha : 0 <= a) by nonneg;
    assert (Hb : 0 <= b) by nonneg;
    pose proof (lor_bounds a b Ha Hb)
  | _ => idtac
  end.

Ltac lor_parts :=
  lazymatch goal with |- _ <= ?t => lor_term t end.

Lemma decode_high s0 t : 128 <= s0 -> 128 <= fst (decode (s0 :: t)).
Proof.
  intros H. unfold decode.
  destruct (s0 <? 128) eqn:E; [apply Z.ltb_lt in E; lia|clear E].
  unfold leadInfo, cont.
  repeat match goal with
         | |- context [if ?b then _ else _] =>
           lazymatch b with
           | (_ <? _) => destruct b eqn:?
           | (_ <=? _) => destruct b eqn:?
           | (_ =? _) => destruct b eqn:?
           | (_ || _)%bool => destruct b eqn:?
           | negb _ => destruct b eqn:?
           end
         | |- context [match ?l with [] => _ | _ :: _ => _ end] =>
           destruct l
         end;
    cbn [fst]; try (unfold RuneError; lia); Zbool; try lia.
  - (* two bytes *)
    assert (E : Z.land s0 0x1F = s0 - 192)
      by (apply (land_mask_lead s0 5 192); [lia|reflexivity|simpl; lia]).
    rewrite E. shifts. lor_parts. lia.
  - (* three bytes, lead 0xE0 *)
    pose proof (low6_cont z 160 ltac:(lia) ltac:(lia) ltac:(lia)).
    shifts. lor_parts. lia.
  - assert (E : Z.land s0 0x0F = s0 - 224)
      by (apply (land_mask_lead s0 4 224); [lia|reflexivity|simpl; lia]).
    rewrite E. shifts. lor_parts. lia.
  - assert (E : Z.land s0 0x0F = s0 - 224)
      by (apply (land_mask_lead s0 4 224); [lia|reflexivity|simpl; lia]).
    rewrite E. shifts. lor_parts. lia.
  - assert (E : Z.land s0 0x0F = s0 - 224)
      by (apply (land_mask_lead s0 4 224); [lia|reflexivity|simpl; lia]).
    rewrite E. shifts. lor_parts. lia.
  - (* four bytes, lead 0xF0 *)
    pose proof (low6_cont z 144 ltac:(lia) ltac:(lia) ltac:(lia)).
    shifts. lor_parts. lia.
  - assert (E : Z.land s0 0x07 = s0 - 240)
      by (apply (land_mask_lead s0 3 240); [lia|reflexivity|simpl; lia]).
    rewrite E. shifts. lor_parts. lia.
  - assert (E : Z.land s0 0x07 = s0 - 240)
      by (apply (land_mask_lead s0 3 240); [lia|reflexivity|simpl; lia]).
    rewrite E. shifts. lor_parts. lia.
Qed.

Lemma headRune_low c t : byte c < 128 -> headRune (String c t) = byte c.
Proof.
  intros H. unfold headRune, DecodeRuneInString.
  change (bytes (take 4 (String c t))) with (byte c :: bytes (take 3 t)).
  rewrite decode_ascii; [reflexivity|]. pose proof (byte_range c). lia.
Qed.

Lemma headRune_high c t : 128 <= byte c -> 128 <= headRune (String c t).
Proof.
  intros H. unfold headRune, DecodeRuneInString.
  change (bytes (take 4 (String c t))) with (byte c :: bytes (take 3 t)).
  apply decode_high. exact H.
Qed.

(** The rune read at a byte is the byte itself when it is ASCII, and is not
    ASCII otherwise. *)
Lemma headRune_cases c t :
  (byte c < 128 /\ headRune (String c t) = byte c) \/
  (128 <= byte c /\ 128 <= headRune (String c t)).
Proof.
  destruct (Z_lt_le_dec (byte c) 128) as [H|H].
  - left. split; [exact H|apply headRune_low; exact H].
  - right. split; [exact H|apply headRune_high; exact H].
Qed.

Lemma drop_drop a b s : drop (a + b) s = drop b (drop a s).
Proof.
  revert s. induction a as [|a IH]; intros s; [reflexivity|].
  destruct s as [|c s]; simpl; [destruct b; reflexivity|apply IH].
Qed.

Lemma drop_all k s : (String.length s <= k)%nat -> drop k s = "".
Proof.
  revert s. induction k as [|k IH]; intros [|c s] H; simpl in *;
    try reflexivity; try lia.
  apply IH. lia.
Qed.

Lemma drop_some k s :
  (k < String.length s)%nat -> exists c t, drop k s = String c t.
Proof.
  revert s. induction k as [|k IH]; intros [|c s] H; simpl in *; try lia.
  - eauto.
  - apply IH. lia.
Qed.

Lemma take_drop k s : take k s +:+ drop k s = s.
Proof.
  revert s. induction k as [|k IH]; intros [|c s]; simpl; try reflexivity.
  rewrite app_String, IH. reflexivity.
Qed.

Lemma length_take k s :
  (k <= String.length s)%nat -> String.length (take k s) = k.
Proof.
  revert s. induction k as [|k IH]; intros [|c s] H; simpl in *;
    try reflexivity; try lia.
  rewrite IH; lia.
Qed.

(** ** The lexer at a position of its source *)

Lemma positioned_from s before rest k :
  positioned s before rest ->
  from (src s) (cursor s + Z.of_nat k) = drop k rest.
Proof.
  intros [Hsrc Hcur]. rewrite Hsrc, Hcur. unfold from, len.
  rewrite <- Nat2Z.inj_add, Nat2Z.id, drop_drop, drop_app. reflexivity.
Qed.

Lemma positioned_len s before rest :
  positioned s before rest -> len (src s) = cursor s + len rest.
Proof. intros [Hsrc Hcur]. rewrite Hsrc, Hcur. apply len_app. Qed.

Lemma lookAhead_positioned s before rest k :
  positioned s before rest ->
  lookAhead s (Z.of_nat k) = headRune (drop k rest).
Proof.
  intros Hp. unfold lookAhead.
  rewrite (positioned_len _ _ _ Hp), (positioned_from _ _ _ k Hp).
  pose proof (len_nonneg before) as Hb. destruct Hp as [_ Hcur].
  destruct (Nat.le_gt_cases (String.length rest) k) as [Hk|Hk].
  - rewrite (drop_all _ _ Hk).
    destruct (cursor s + len rest <=? cursor s + Z.of_nat k) eqn:E;
      [reflexivity|].
    apply Z.leb_gt in E. unfold len in *. lia.
  - destruct (drop_some _ _ Hk) as (c & t & ->).
    destruct (cursor s + len rest <=? cursor s + Z.of_nat k) eqn:E.
    { apply Z.leb_le in E. unfold len in *. lia. }
    destruct (cursor s + Z.of_nat k <? 0) eqn:E'.
    { apply Z.ltb_lt in E'. lia. }
    reflexivity.
Qed.

Lemma lookAhead1_positioned s before rest :
  positioned s before rest -> lookAhead s 1 = headRune (drop 1 rest).
Proof. intros Hp. apply (lookAhead_positioned s before rest 1 Hp). Qed.

Lemma lookAhead2_positioned s before rest :
  positioned s before rest -> lookAhead s 2 = headRune (drop 2 rest).
Proof. intros Hp. apply (lookAhead_positioned s before rest 2 Hp). Qed.

Lemma peek_positioned s before rest :
  positioned s before rest -> peek s = headRune rest.
Proof. intros Hp. apply (lookAhead_positioned s before rest 0 Hp). Qed.

Lemma nextBy_positioned s before rest k :
  positioned s before rest ->
  (k <= String.length rest)%nat ->
  nextBy s (Z.of_nat k)
  = (headRune (drop k rest), setCursor s (cursor s + Z.of_nat k)) /\
  positioned (setCursor s (cursor s + Z.of_nat k)) (before +:+ take k rest)
             (drop k rest).
Proof.
  intros Hp Hk.
  assert (Hp' : positioned (setCursor s (cursor s + Z.of_nat k))
                           (before +:+ take k rest) (drop k rest)).
  { destruct Hp as [Hsrc Hcur]. split; simpl.
    - rewrite app_assoc, take_drop. exact Hsrc.
    - rewrite len_app, Hcur. unfold len. rewrite length_take by exact Hk.
      reflexivity. }
  split; [|exact Hp'].
  unfold nextBy. rewrite (positioned_len _ _ _ Hp).
  destruct (cursor s + len rest <? cursor s + Z.of_nat k) eqn:E.
  { apply Z.ltb_lt in E. unfold len in E. lia. }
  cbv zeta.
  pose proof (lookAhead_positioned _ _ _ 0 Hp') as HL.
  unfold lookAhead in HL. simpl drop in HL.
  rewrite Z.add_0_r in HL.
  destruct ((len (src (setCursor s (cursor s + Z.of_nat k)))
             <=? cursor (setCursor s (cursor s + Z.of_nat k)))
            || (cursor (setCursor s (cursor s + Z.of_nat k)) <? 0))%bool eqn:E1.
  - apply orb_true_iff in E1. destruct E1 as [E1|E1].
    + rewrite E1. rewrite HL. reflexivity.
    + apply Z.ltb_lt in E1. simpl in E1. destruct Hp as [_ Hcur].
      pose proof (len_nonneg before). lia.
  - apply orb_false_iff in E1. destruct E1 as [E1 _]. rewrite E1, HL.
    reflexivity.
Qed.

Lemma next_positioned s before c rest :
  positioned s before (String c rest) ->
  next s = (headRune rest, setCursor s (cursor s + 1)) /\
  positioned (setCursor s (cursor s + 1)) (before +:+ String c "") rest.
Proof.
  intros Hp.
  destruct (nextBy_positioned s before (String c rest) 1 Hp) as [H1 H2];
    [simpl; lia|].
  exact (conj H1 H2).
Qed.

(** ** The outcome monad *)

Lemma bind_Ok {A B : Type} (m : outcome A) (f : A -> outcome B) (b : B) :
  m ≫= f = Ok b -> exists a, m = Ok a /\ f a = Ok b.
Proof. destruct m as [a| |]; simpl; intros H; try discriminate. eauto. Qed.

(** ** Fuel of [Normalize]: more fuel never changes a result *)

Lemma normalizeSQL_more (N1 N2 : string -> outcome string) cfg source token
  last st :
  (forall body, definite (N1 body) -> N2 body = N1 body) ->
  definite (normalizeSQL N1 cfg source token last st) ->
  normalizeSQL N2 cfg source token last st
  = normalizeSQL N1 cfg source token last st.
Proof.
  intros HN. unfold normalizeSQL, definite.
  destruct (isType (Type_ token) WS || isType (Type_ token) COMMENT
            || isType (Type_ token) MULTILINE_COMMENT); [reflexivity|].
  destruct (isType (Type_ token) EOF); [reflexivity|].
  destruct (isType (Type_ token) DOLLAR_QUOTED_FUNCTION &&
            negb (String.eqb (String_ token source) StringPlaceholder));
    [|reflexivity].
  destruct (sliceChecked _ _ _) as [body| |]; simpl; [|reflexivity..].
  destruct (N1 body) as [r| |] eqn:E1; simpl.
  - intros _. rewrite (HN body) by (unfold definite; congruence).
    rewrite E1. reflexivity.
  - intros _. rewrite (HN body) by (unfold definite; congruence).
    rewrite E1. reflexivity.
  - intros H. exfalso. apply H. reflexivity.
Qed.

Lemma normalizeLoop_S cfg dbms f input lexer last md ctes st :
  normalizeLoop cfg dbms (S f) input lexer last md ctes st
  = '(token, lexer') ← Scan lexer;
    let '(token1, md', ctes') :=
      collectMetadata cfg input token last md ctes in
    '(token2, st') ← normalizeSQL (nested cfg dbms f) cfg input token1 last st;
    if isType (Type_ token2) EOF then
      mret (normalizedSQLBuilder st', md')
    else
      normalizeLoop cfg dbms f input lexer'
        (if isValueToken token2 then Some (GetLastValueToken token2 input)
         else last)
        md' ctes' st'.
Proof. reflexivity. Qed.

Lemma normalizeLoop_more cfg dbms :
  forall f f' input lexer last md ctes st,
    (f <= f')%nat ->
    definite (normalizeLoop cfg dbms f input lexer last md ctes st) ->
    normalizeLoop cfg dbms f' input lexer last md ctes st
    = normalizeLoop cfg dbms f input lexer last md ctes st.
Proof.
  induction f as [|f IH]; intros f' input lexer last md ctes st Hle Hdef.
  - exfalso. apply Hdef. reflexivity.
  - destruct f' as [|f']; [lia|].
    assert (Hf : (f <= f')%nat) by lia.
    revert Hdef. rewrite !normalizeLoop_S. unfold definite.
    destruct (Scan lexer) as [[token lexer']| |]; [|reflexivity..].
    cbn [mbind outcome_bind].
    destruct (collectMetadata cfg input token last md ctes)
      as [[token1 md'] ctes'].
    assert (HN : forall body, definite (nested cfg dbms f body) ->
                 nested cfg dbms f' body = nested cfg dbms f body).
    { intros body Hb. unfold nested in *.
      rewrite (IH f' body _ _ _ _ _ Hf); [reflexivity|].
      intros E. apply Hb. rewrite E. reflexivity. }
    intros Hdef.
    assert (Hsql : definite
              (normalizeSQL (nested cfg dbms f) cfg input token1 last st)).
    { intros E. apply Hdef. rewrite E. reflexivity. }
    rewrite (normalizeSQL_more _ _ _ _ _ _ _ HN Hsql).
    destruct (normalizeSQL (nested cfg dbms f) cfg input token1 last st)
      as [[token2 st']| |]; [|reflexivity..].
    cbn [mbind outcome_bind] in *.
    destruct (isType (Type_ token2) EOF); [reflexivity|].
    apply IH; [exact Hf|exact Hdef].
Qed.

Lemma Normalize_more cfg dbms f f' input :
  (f <= f')%nat ->
  definite (Normalize cfg dbms f input) ->
  Normalize cfg dbms f' input = Normalize cfg dbms f input.
Proof.
  intros Hle Hdef. unfold Normalize in *.
  rewrite (normalizeLoop_more cfg dbms f f'); [reflexivity|exact Hle|].
  intros E. apply Hdef. rewrite E. reflexivity.
Qed.

Lemma Normalize_from cfg dbms f input r :
  Normalize cfg dbms f input = Ok r ->
  forall k, Normalize cfg dbms (f + k) input = Ok r.
Proof.
  intros H k. rewrite (Normalize_more cfg dbms f (f + k)); [exact H|lia|].
  unfold definite. rewrite H. discriminate.
Qed.

Lemma Normalize_deterministic cfg dbms f f' input r r' :
  Normalize cfg dbms f input = Ok r ->
  Normalize cfg dbms f' input = Ok r' ->
  r = r'.
Proof.
  intros H H'.
  pose proof (Normalize_from _ _ _ _ _ H f') as E.
  pose proof (Normalize_from _ _ _ _ _ H' f) as E'.
  replace (f' + f)%nat with (f + f')%nat in E' by lia.
  congruence.
Qed.

(** ** The end-to-end scenarios *)

(** The CTE query of the scenarios. [collectMetadata] takes a name for a CTE
    only right after a token of kind CTE_INDICATOR; with [WITH] a KEYWORD the
    name [cte] after [FROM] is collected as a table. *)
Lemma cteQuery_run :
  Normalize scenarioConfig DBMSGeneric 120 cteQuery
  = Ok (cteNormalized,
        mkMetadata 21 ["person"; "cte"] [] ["SELECT"; "UPDATE"] []).
Proof. vm_compute. reflexivity. Qed.

Lemma quotedQuery_run :
  Normalize scenarioConfig DBMSGeneric 60 quotedQuery
  = Ok (unquotedNormalized, mkMetadata 18 ["public.users"] [] ["SELECT"] []).
Proof. vm_compute. reflexivity. Qed.

Lemma leadingParen_run :
  Normalize defaultConfig DBMSGeneric 20 "(?, a) b"
  = Ok (", b", emptyMetadata).
Proof. vm_compute. reflexivity. Qed.

Lemma backslash_Scan dbms :
  Scan (New backslash dbms) = Ok (plainToken UNKNOWN 0 0, New backslash dbms).
Proof. destruct dbms; reflexivity. Qed.

(** ** C1: a placeholder as first token *)

(** C1 fails on the code: for the input [?] the first value token is a
    placeholder, [isObfuscatedValueGroupable] reads [lastValueToken.Value]
    while [lastValueToken] is still nil, and the call panics, whatever the
    configuration and the dialect. *)
Theorem C1_Normalize_panics_on_leading_placeholder :
  forall (cfg : normalizerConfig) (dbms : DBMSType) (fuel : nat),
    Normalize cfg dbms (S fuel) "?" = Panic.
Proof.
  intros cfg dbms fuel.
  destruct cfg as [ct cc cm cp ka uk rs kt kq].
  destruct cm, ka, dbms; reflexivity.
Qed.

(** ** C2: a code point that no case of [Scan] takes *)

Lemma backslash_scanTimes dbms n :
  scanTimes n (New backslash dbms)
  = Ok (plainToken UNKNOWN 0 0, New backslash dbms).
Proof.
  induction n as [|n IH]; cbn [scanTimes]; rewrite backslash_Scan;
    [reflexivity|exact IH].
Qed.

Lemma backslash_scanAll dbms fuel :
  scanAll fuel (New backslash dbms) = OutOfFuel.
Proof.
  induction fuel as [|f IH]; cbn [scanAll]; [reflexivity|].
  rewrite backslash_Scan. cbn [mbind outcome_bind].
  change (isType (Type_ (plainToken UNKNOWN 0 0)) EOF) with false.
  cbv iota. rewrite IH. reflexivity.
Qed.

(** C2 fails on the code: on an input of one backslash every call of [Scan]
    returns an UNKNOWN token with the empty span [0, 0) and leaves the
    lexer where it was; no call returns EOF and the spans never cover the
    input. *)
Theorem C2_unknown_code_point_is_never_consumed :
  forall (dbms : DBMSType) (n : nat),
    scanTimes n (New backslash dbms)
    = Ok (plainToken UNKNOWN 0 0, New backslash dbms) /\
    scanAll n (New backslash dbms) = OutOfFuel.
Proof.
  intros dbms n. split; [apply backslash_scanTimes|apply backslash_scanAll].
Qed.

(** ** C5, C10: the scenarios *)

(** C5, as amended: with keep-identifier-quotation off, the query on
    ["public"."users"] normalizes to [SELECT * FROM public.users WHERE
    id = ?], the quotes of the identifier removed, with tables
    [public.users] without the quote characters. *)
Theorem C5_quoted_identifier_is_unquoted :
  forall fuel : nat,
    Normalize scenarioConfig DBMSGeneric (60 + fuel) quotedQuery
    = Ok (unquotedNormalized,
          mkMetadata 18 ["public.users"] [] ["SELECT"] []).
Proof. intros fuel. apply Normalize_from. exact quotedQuery_run. Qed.

(** C10 fails on the code: in [(?, a) b] the comma that the placeholder
    grouping had held back is written to the main output while the leading
    parenthesized expression is still being read, so the output [, b] holds
    a token of the prefix. *)
Theorem C10_leading_prefix_leaks_comma :
  forall fuel : nat,
    Normalize defaultConfig DBMSGeneric (20 + fuel) "(?, a) b"
    = Ok (", b", emptyMetadata).
Proof. intros fuel. apply Normalize_from. exact leadingParen_run. Qed.


Lemma headRune_eqb c t k :
  0 <= k < 128 -> (headRune (String c t) =? k) = (byte c =? k).
Proof.
  intros Hk. destruct (headRune_cases c t) as [[_ ->]|[H1 H2]]; [reflexivity|].
  destruct (Z.eqb_spec (headRune (String c t)) k),
           (Z.eqb_spec (byte c) k); try reflexivity; lia.
Qed.

Lemma setCursor_here s : setCursor s (cursor s) = s.
Proof. destruct s; reflexivity. Qed.

(** ** C7: unterminated single-quoted strings *)

Lemma stringLoop_unterminated :
  forall rest fuel escaped s before,
    (String.length rest < fuel)%nat ->
    positioned s before rest ->
    noNUL rest = true ->
    closesString escaped rest = false ->
    stringLoop fuel escaped (headRune rest) s
    = Ok (emit INCOMPLETE_STRING (setCursor s (len (src s)))).
Proof.
  induction rest as [|c t IH]; intros fuel escaped s before Hf Hp Hn Hc.
  - destruct fuel as [|f]; [simpl in Hf; lia|].
    pose proof (positioned_len _ _ _ Hp) as Hl.
    change (len "") with 0 in Hl. rewrite Z.add_0_r in Hl.
    rewrite Hl, setCursor_here. reflexivity.
  - destruct fuel as [|f]; [simpl in Hf; lia|].
    simpl in Hn. apply andb_true_iff in Hn. destruct Hn as [Hc0 Hn].
    apply negb_true_iff in Hc0.
    destruct (next_positioned _ _ _ _ Hp) as [Hnext Hp'].
    assert (Hrec : forall e, closesString e t = false ->
              stringLoop f e (headRune t) (setCursor s (cursor s + 1))
              = Ok (emit INCOMPLETE_STRING (setCursor s (len (src s))))).
    { intros e He.
      rewrite (IH f e _ _ ltac:(simpl in Hf; lia) Hp' Hn He). reflexivity. }
    cbn [stringLoop]. unfold isEOF.
    rewrite (headRune_eqb c t 0) by lia. rewrite Hc0.
    rewrite !(headRune_eqb c t) by (cbv; split; [discriminate|reflexivity]).
    rewrite Hnext. simpl in Hc.
    destruct escaped; [apply Hrec; exact Hc|].
    destruct (byte c =? rune "\"); [apply Hrec; exact Hc|].
    destruct (byte c =? rune "'"); [discriminate|].
    apply Hrec; exact Hc.
Qed.

Lemma Scan_single_quote s :
  peek s = rune "'" -> Scan s = scanString s.
Proof. intros H. unfold Scan. rewrite H. reflexivity. Qed.

Lemma positioned_length s before rest :
  positioned s before rest ->
  String.length (src s) = (String.length before + String.length rest)%nat.
Proof.
  intros [Hsrc _]. pose proof (len_app before rest) as H.
  rewrite <- Hsrc in H. unfold len in H. lia.
Qed.

(** C7, as amended: an unterminated single-quoted string whose body holds
    no NUL byte is one INCOMPLETE_STRING token that runs from the opening
    quote to the end of the input, where the cursor is left. *)
Theorem C7_unterminated_string_is_incomplete :
  forall (s : Lexer) (before body : string),
    positioned s before (String "'" body) ->
    closesString false body = false ->
    noNUL body = true ->
    exists tok s',
      Scan s = Ok (tok, s') /\
      Type_ tok = INCOMPLETE_STRING /\
      Start tok = len before /\
      End_ tok = len (src s) /\
      cursor s' = len (src s).
Proof.
  intros s before body Hp Hc Hn.
  assert (Hpeek : peek s = rune "'").
  { rewrite (peek_positioned _ _ _ Hp). apply headRune_low. reflexivity. }
  rewrite (Scan_single_quote _ Hpeek). unfold scanString.
  assert (Hp0 : positioned (markStart s) before (String "'" body)) by exact Hp.
  destruct (next_positioned _ _ _ _ Hp0) as [Hnext Hp1].
  rewrite Hnext.
  assert (Hfuel : (String.length body < loopFuel (markStart s))%nat).
  { unfold loopFuel. rewrite (positioned_length _ _ _ Hp0). simpl. lia. }
  rewrite (stringLoop_unterminated body _ false _ _ Hfuel Hp1 Hn Hc).
  eexists _, _. split; [reflexivity|]. simpl.
  destruct Hp as [_ Hcur]. auto.
Qed.

(** ** C6: the decimal path of the number scanner *)

(** A test that fails on every code point above 127 reads the byte. *)
Lemma headRune_ascii_test (p : Z -> bool) c t :
  (forall x, 128 <= x -> p x = false) ->
  p (headRune (String c t)) = p (byte c).
Proof.
  intros Hp. destruct (headRune_cases c t) as [[_ ->]|[H1 H2]]; [reflexivity|].
  rewrite (Hp _ H1), (Hp _ H2). reflexivity.
Qed.

Lemma isDigit_high x : 128 <= x -> isDigit x = false.
Proof.
  intros H. unfold isDigit. apply andb_false_iff. right.
  apply Z.leb_gt. change (rune "9") with 57. lia.
Qed.

Lemma eqb_high k x : k < 128 -> 128 <= x -> (x =? k) = false.
Proof. intros Hk H. apply Z.eqb_neq. lia. Qed.

Lemma isExpontent_high x : 128 <= x -> isExpontent x = false.
Proof.
  intros H. unfold isExpontent.
  rewrite !(eqb_high _ x) by (try reflexivity; exact H). reflexivity.
Qed.

Lemma isLeadingSign_high x : 128 <= x -> isLeadingSign x = false.
Proof.
  intros H. unfold isLeadingSign.
  rewrite !(eqb_high _ x) by (try reflexivity; exact H). reflexivity.
Qed.

Lemma setCursor_setCursor s a b : setCursor (setCursor s a) b = setCursor s b.
Proof. reflexivity. Qed.

Lemma decimalLoop_run :
  forall fuel rest s before,
    (String.length rest < fuel)%nat ->
    positioned s before rest ->
    decimalLoop fuel s = Ok (setCursor s (cursor s + len (decimalRun rest))).
Proof.
  induction fuel as [|f IH]; intros rest s before Hf Hp; [lia|].
  cbn [decimalLoop]. rewrite (peek_positioned _ _ _ Hp).
  destruct rest as [|c t].
  - change (len (decimalRun "")) with 0.
    rewrite Z.add_0_r, setCursor_here. reflexivity.
  - rewrite (headRune_ascii_test isDigit c t isDigit_high).
    rewrite (headRune_ascii_test (fun x => x =? rune ".") c t)
      by (intros; apply eqb_high; [reflexivity|assumption]).
    rewrite (headRune_ascii_test isExpontent c t isExpontent_high).
    destruct (next_positioned _ _ _ _ Hp) as [Hnext Hp1].
    simpl in Hf. cbn [decimalRun].
    destruct (isExpontent (byte c)) eqn:Eexp.
    + rewrite orb_true_r, Hnext.
      destruct t as [|sg t'].
      * (* the exponent marker ends the input *)
        change (isLeadingSign (headRune "")) with false. cbv iota.
        rewrite (IH "" _ _ ltac:(simpl; lia) Hp1).
        change (len (decimalRun "")) with 0.
        rewrite Z.add_0_r, setCursor_here. reflexivity.
      * rewrite (headRune_ascii_test isLeadingSign sg t' isLeadingSign_high).
        destruct (isLeadingSign (byte sg)) eqn:Esg.
        -- destruct (next_positioned _ _ _ _ Hp1) as [Hnext2 Hp2].
           rewrite Hnext2. cbn [snd].
           rewrite (IH t' _ _ ltac:(simpl in Hf; lia) Hp2).
           rewrite !setCursor_setCursor. f_equal. f_equal.
           simpl cursor. rewrite !len_String. lia.
        -- rewrite (IH (String sg t') _ _ ltac:(simpl in *; lia) Hp1).
           rewrite !setCursor_setCursor. f_equal. f_equal.
           simpl cursor. rewrite !len_String. lia.
    + rewrite orb_false_r.
      destruct (isDigit (byte c) || (byte c =? rune ".")) eqn:Econd.
      * rewrite Hnext. cbn [snd].
        rewrite (IH t _ _ ltac:(lia) Hp1).
        rewrite !setCursor_setCursor. f_equal. f_equal.
        simpl cursor. rewrite !len_String. lia.
      * change (len "") with 0.
        rewrite Z.add_0_r, setCursor_here. reflexivity.
Qed.

Lemma decimalRun_prefix :
  forall n rest, (String.length rest <= n)%nat ->
    exists rem, rest = decimalRun rest +:+ rem.
Proof.
  induction n as [|n IH]; intros rest Hn.
  - destruct rest; [exists ""; reflexivity|simpl in Hn; lia].
  - destruct rest as [|c t]; [exists ""; reflexivity|].
    simpl in Hn. cbn [decimalRun].
    destruct (isExpontent (byte c)).
    + destruct t as [|sg t']; [exists ""; reflexivity|].
      destruct (isLeadingSign (byte sg)).
      * destruct (IH t' ltac:(simpl in Hn; lia)) as [rem E].
        exists rem. rewrite !app_String, <- E. reflexivity.
      * destruct (IH (String sg t') ltac:(lia)) as [rem E].
        exists rem. rewrite app_String, <- E. reflexivity.
    + destruct (isDigit (byte c) || (byte c =? rune ".")).
      * destruct (IH t ltac:(lia)) as [rem E].
        exists rem. rewrite app_String, <- E. reflexivity.
      * exists (String c t). rewrite app_nil_l. reflexivity.
Qed.

Lemma decimalRun_tail :
  forall n rest, (String.length rest <= n)%nat ->
    decimalTail (bytes (decimalRun rest)) = true.
Proof.
  induction n as [|n IH]; intros rest Hn.
  - destruct rest; [reflexivity|simpl in Hn; lia].
  - destruct rest as [|c t]; [reflexivity|].
    simpl in Hn. cbn [decimalRun].
    destruct (isExpontent (byte c)) eqn:Eexp.
    + destruct t as [|sg t']; [cbn; rewrite Eexp; reflexivity|].
      destruct (isLeadingSign (byte sg)) eqn:Esg.
      * cbn [bytes decimalTail]. rewrite Eexp, Esg.
        apply IH. simpl in Hn. lia.
      * cbn [bytes decimalTail]. rewrite Eexp.
        pose proof (IH (String sg t') ltac:(lia)) as Ht.
        destruct (bytes (decimalRun (String sg t'))) as [|b l] eqn:Eb;
          [reflexivity|].
        assert (Hb : b = byte sg).
        { cbn [decimalRun] in Eb.
          destruct (isExpontent (byte sg));
            [destruct t' as [|x y]; [|destruct (isLeadingSign (byte x))];
             cbn [bytes] in Eb; congruence|].
          destruct (isDigit (byte sg) || (byte sg =? rune "."));
            cbn [bytes] in Eb; congruence. }
        subst b. rewrite Esg. exact Ht.
    + destruct (isDigit (byte c) || (byte c =? rune ".")) eqn:Econd;
        [|reflexivity].
      cbn [bytes decimalTail]. rewrite Eexp, Econd. apply IH. lia.
Qed.

Lemma digit_cases d :
  isDigit d = true ->
  d = 48 \/ d = 49 \/ d = 50 \/ d = 51 \/ d = 52 \/ d = 53 \/ d = 54 \/
  d = 55 \/ d = 56 \/ d = 57.
Proof.
  unfold isDigit. change (rune "0") with 48. change (rune "9") with 57.
  intros H. apply andb_true_iff in H. destruct H as [H1 H2].
  apply Z.leb_le in H1. apply Z.leb_le in H2. lia.
Qed.

Lemma Scan_digit s d :
  peek s = d -> isDigit d = true -> Scan s = scanNumber d s.
Proof.
  intros H Hd. unfold Scan. rewrite H.
  destruct (digit_cases d Hd) as [E|[E|[E|[E|[E|[E|[E|[E|[E|E]]]]]]]]];
    rewrite E; reflexivity.
Qed.

(** C6, as amended: a digit-led number of the decimal path is one NUMBER
    token made of its first digit and of the longest run of digits, dots and
    exponent markers after it, an exponent marker taking the sign that
    follows it: dots and exponent markers are accepted in any number. *)
Theorem C6_decimal_number_shape :
  forall (s : Lexer) (before : string) (d : ascii) (rest : string),
    positioned s before (String d rest) ->
    decimalLed (byte d) rest = true ->
    exists tok s',
      Scan s = Ok (tok, s') /\
      Type_ tok = NUMBER /\
      Start tok = len before /\
      Value tok (src s) = String d (decimalRun rest) /\
      decimalTail (bytes (decimalRun rest)) = true /\
      cursor s' = End_ tok.
Proof.
  intros s before d rest Hp Hled.
  unfold decimalLed in Hled. apply andb_true_iff in Hled.
  destruct Hled as [Hd Hnot]. apply negb_true_iff in Hnot.
  assert (Hpeek : peek s = byte d).
  { rewrite (peek_positioned _ _ _ Hp). apply headRune_low.
    destruct (digit_cases _ Hd) as [E|[E|[E|[E|[E|[E|[E|[E|[E|E]]]]]]]]]; lia. }
  rewrite (Scan_digit _ _ Hpeek Hd). unfold scanNumber, scanNumberic.
  assert (Hp0 : positioned (markStart (markStart s)) before (String d rest))
    by exact Hp.
  rewrite (lookAhead1_positioned _ _ _ Hp0). simpl drop.
  assert (Hbranch :
    ((byte d =? rune "0") &&
     ((headRune rest =? rune "x") || (headRune rest =? rune "X")) = false) /\
    ((byte d =? rune "0") &&
     ((rune "0" <=? headRune rest) && (headRune rest <=? rune "7")) = false)).
  { destruct (byte d =? rune "0"); [|split; reflexivity].
    simpl in Hnot. apply orb_false_iff in Hnot. destruct Hnot as [H1 H2].
    simpl. split; assumption. }
  destruct Hbranch as [-> ->].
  destruct (next_positioned _ _ _ _ Hp0) as [Hnext Hp1].
  rewrite Hnext. cbn [snd]. unfold scanDecimalNumber.
  assert (Hfuel : (String.length rest
                   < loopFuel (setCursor (markStart (markStart s))
                                 (cursor (markStart (markStart s)) + 1)))%nat).
  { unfold loopFuel. rewrite (positioned_length _ _ _ Hp1). lia. }
  rewrite (decimalLoop_run _ rest _ _ Hfuel Hp1).
  destruct (decimalRun_prefix _ rest (Nat.le_refl _)) as [rem E].
  eexists _, _. split; [reflexivity|].
  split; [reflexivity|]. destruct Hp as [Hsrc Hcur].
  split; [exact Hcur|].
  split; [|split; [exact (decimalRun_tail _ rest (Nat.le_refl _))|reflexivity]].
  unfold Value. simpl. rewrite Hsrc, Hcur. rewrite E at 1.
  change (String d (decimalRun rest +:+ rem))
    with (String d (decimalRun rest) +:+ rem).
  replace (len before + 1 + len (decimalRun rest))
    with (len before + len (String d (decimalRun rest)))
    by (rewrite len_String; lia).
  apply slice_app.
Qed.

(** ** C8: a malformed [@@] *)

Lemma Scan_at s :
  peek s = rune "@" -> Scan s = scanAt (rune "@") s.
Proof. intros H. unfold Scan. rewrite H. reflexivity. Qed.

Lemma Scan_malformed_system_variable s before rest :
  positioned s before ("@@" +:+ rest) ->
  isAlphaNumeric (headRune rest) = false ->
  Scan s = Ok (emit JSON_OP (setCursor (markStart s) (cursor s + 2))) /\
  positioned (setCursor (markStart s) (cursor s + 2)) (before +:+ "@@") rest.
Proof.
  intros Hp Hn.
  assert (Hpeek : peek s = rune "@").
  { rewrite (peek_positioned _ _ _ Hp). reflexivity. }
  rewrite (Scan_at _ Hpeek). unfold scanAt.
  rewrite (lookAhead1_positioned _ _ _ Hp), (lookAhead2_positioned _ _ _ Hp).
  change (drop 1 ("@@" +:+ rest)) with (String "@" rest).
  change (drop 2 ("@@" +:+ rest)) with rest.
  change (headRune (String "@" rest) =? rune "@") with true. cbv iota.
  rewrite Hn. unfold scanJSONOp2.
  assert (Hp0 : positioned (markStart s) before ("@@" +:+ rest)) by exact Hp.
  destruct (nextBy_positioned _ _ _ 2 Hp0) as [Hnext Hp1]; [simpl; lia|].
  change (Z.of_nat 2) with 2 in Hnext. rewrite Hnext.
  split; [reflexivity|exact Hp1].
Qed.

Lemma isType_refl t : isType t t = true.
Proof. unfold isType. apply bool_decide_eq_true. reflexivity. Qed.

Lemma isType_ne a b : a <> b -> isType a b = false.
Proof. intros H. unfold isType. apply bool_decide_eq_false. exact H. Qed.

Lemma isType_eq a b : isType a b = true -> a = b.
Proof. unfold isType. apply bool_decide_eq_true. Qed.

(** ** C9: the end of the stream is held *)

Lemma notEOF_emit t s : t <> EOF -> notEOF (Ok (emit t s)).
Proof. intros Ht tok s' H. injection H as <- _. exact Ht. Qed.

Lemma notEOF_mret t s : t <> EOF -> notEOF (mret (emit t s)).
Proof. apply notEOF_emit. Qed.

Lemma notEOF_bind {A : Type} (m : outcome A) f :
  (forall a, notEOF (f a)) -> notEOF (m ≫= f).
Proof.
  intros Hf tok s' H. destruct (bind_Ok _ _ _ H) as (a & _ & Ha).
  exact (Hf a tok s' Ha).
Qed.

Lemma notEOF_Panic : notEOF Panic.
Proof. intros tok s' H. discriminate H. Qed.

Lemma notEOF_OutOfFuel : notEOF OutOfFuel.
Proof. intros tok s' H. discriminate H. Qed.

Ltac notEOF_step :=
  first
    [ apply notEOF_emit; discriminate
    | apply notEOF_mret; discriminate
    | apply notEOF_Panic
    | apply notEOF_OutOfFuel
    | assumption
    | apply notEOF_bind; intros
    | match goal with
      | |- notEOF (if ?c then _ else _) => destruct c
      | |- notEOF (let '(_, _) := ?p in _) => destruct p
      | |- notEOF (match ?x with _ => _ end) => destruct x
      end ].

Ltac notEOF_auto := repeat notEOF_step.

Lemma scanDecimalNumber_notEOF s : notEOF (scanDecimalNumber s).
Proof. unfold scanDecimalNumber. notEOF_auto. Qed.

Lemma scanHexNumber_notEOF s : notEOF (scanHexNumber s).
Proof. unfold scanHexNumber. notEOF_auto. Qed.

Lemma scanOctalNumber_notEOF s : notEOF (scanOctalNumber s).
Proof. unfold scanOctalNumber. notEOF_auto. Qed.

Lemma scanNumber_notEOF ch s : notEOF (scanNumber ch s).
Proof.
  unfold scanNumber, scanNumberic.
  repeat first [apply scanDecimalNumber_notEOF|apply scanHexNumber_notEOF
               |apply scanOctalNumber_notEOF|notEOF_step].
Qed.

Lemma stringLoop_notEOF fuel : forall escaped ch s,
  notEOF (stringLoop fuel escaped ch s).
Proof.
  induction fuel as [|f IH]; intros escaped ch s; cbn [stringLoop];
    repeat first [apply IH|notEOF_step].
Qed.

Lemma quotedLoop_notEOF fuel : forall d c ch s,
  notEOF (quotedLoop fuel d c ch s).
Proof.
  induction fuel as [|f IH]; intros d c ch s; cbn [quotedLoop];
    repeat first [apply IH|notEOF_step].
Qed.

Lemma multiLineCommentLoop_notEOF fuel : forall ch s,
  notEOF (multiLineCommentLoop fuel ch s).
Proof.
  induction fuel as [|f IH]; intros ch s; cbn [multiLineCommentLoop];
    repeat first [apply IH|notEOF_step].
Qed.

Lemma dollarBodyLoop_notEOF fuel : forall tag s,
  notEOF (dollarBodyLoop fuel tag s).
Proof.
  induction fuel as [|f IH]; intros tag s; cbn [dollarBodyLoop];
    repeat first [apply IH|notEOF_step].
Qed.

Lemma scanOperator_notEOF ch s : notEOF (scanOperator ch s).
Proof. unfold scanOperator. notEOF_auto. Qed.

Lemma scanSingleLineComment_notEOF s : notEOF (scanSingleLineComment s).
Proof. unfold scanSingleLineComment. notEOF_auto. Qed.

Lemma scanBindParameter_notEOF s : notEOF (scanBindParameter s).
Proof. unfold scanBindParameter. notEOF_auto. Qed.

Lemma scanSystemVariable_notEOF s : notEOF (scanSystemVariable s).
Proof. unfold scanSystemVariable. notEOF_auto. Qed.

Lemma scanDoubleQuotedIdentifier_notEOF d s :
  notEOF (scanDoubleQuotedIdentifier d s).
Proof.
  unfold scanDoubleQuotedIdentifier.
  repeat first [apply quotedLoop_notEOF|notEOF_step].
Qed.

(** The trie: what holds of a node and below holds of its children. *)
Lemma trieAll_here P n : trieAll P n = true -> P n = true.
Proof.
  destruct n as [cs e t i]. cbn [trieAll]. intros H.
  apply andb_true_iff in H. apply H.
Qed.

Lemma trieAll_child P n r k :
  trieAll P n = true -> lookupChild (children n) r = Some k ->
  trieAll P k = true.
Proof.
  destruct n as [cs e t i]. cbn [trieAll children]. intros H.
  apply andb_true_iff in H. destruct H as [_ H]. revert H.
  induction cs as [|[key c] cs IH]; cbn [forallb lookupChild];
    [discriminate|].
  intros H Hl. apply andb_true_iff in H. destruct H as [Hc Hcs].
  destruct (key =? r).
  - injection Hl as <-. exact Hc.
  - exact (IH Hcs Hl).
Qed.

Lemma keywordRoot_kinds : trieAll keywordKind keywordRoot = true.
Proof. vm_compute. reflexivity. Qed.

Lemma keywordLoop_kinds fuel : forall node pos ch s node' pos' ch' s',
  trieAll keywordKind node = true ->
  keywordLoop fuel node pos ch s = Ok (node', pos', ch', s') ->
  trieAll keywordKind node' = true.
Proof.
  induction fuel as [|f IH]; intros node pos ch s node' pos' ch' s' Hn;
    cbn [keywordLoop].
  - destruct (isAsciiLetter ch || (ch =? rune "_")); [discriminate|].
    intros H. injection H as <- _ _ _. exact Hn.
  - destruct (isAsciiLetter ch || (ch =? rune "_")).
    + destruct (lookupChild _ _) as [k|] eqn:El; destruct (next s) as [c1 s1].
      * apply IH. exact (trieAll_child _ _ _ _ Hn El).
      * intros H. injection H as <- _ _ _. exact keywordRoot_kinds.
    + intros H. injection H as <- _ _ _. exact Hn.
Qed.

Lemma keywordKind_notEOF n :
  keywordKind n = true -> isEnd n = true -> tokenType n <> EOF.
Proof.
  unfold keywordKind. intros H He E. rewrite He, E in H. discriminate H.
Qed.

Lemma scanIdentifier_notEOF ch s : notEOF (scanIdentifier ch s).
Proof.
  unfold scanIdentifier. destruct (127 <? ch); [notEOF_auto|].
  destruct (keywordLoop _ _ _ _ _) as [[[[node pos] ch1] s1]| |] eqn:Ek;
    cbn [mbind outcome_bind]; [|notEOF_auto..].
  pose proof (keywordLoop_kinds _ _ _ _ _ _ _ _ _ keywordRoot_kinds Ek) as Hk.
  apply trieAll_here in Hk.
  destruct (isEnd node) eqn:He; cbn [andb].
  - destruct (isPunctuation _ || isWhitespace _ || isEOF _).
    + apply notEOF_mret. apply keywordKind_notEOF; assumption.
    + notEOF_auto.
  - notEOF_auto.
Qed.

Lemma Scan_EOF s tok s' :
  Scan s = Ok (tok, s') ->
  Type_ tok = EOF ->
  Scan s = Ok (emit EOF s).
Proof.
  intros H HT. revert H. unfold Scan, scanHash, scanAt, scanJSONOp2.
  repeat match goal with
         | |- context [if ?c then _ else _] => destruct c
         end;
    try reflexivity; intros H; exfalso; revert H HT;
    match goal with
    | |- ?r = _ -> _ =>
      assert (Hn : notEOF r);
        [|intros H HT; exact (Hn _ _ H HT)]
    end;
    unfold scanWhitespace, scanNumberWithLeadingSign, scanWildcard,
      scanPunctuation, scanPositionalParameter, scanString,
      scanMultiLineComment, scanDollarQuotedString;
    repeat first
      [ apply scanIdentifier_notEOF | apply scanDoubleQuotedIdentifier_notEOF
      | apply scanNumber_notEOF | apply scanOperator_notEOF
      | apply scanSingleLineComment_notEOF | apply scanBindParameter_notEOF
      | apply scanSystemVariable_notEOF | apply scanDecimalNumber_notEOF
      | apply stringLoop_notEOF | apply multiLineCommentLoop_notEOF
      | apply dollarBodyLoop_notEOF | notEOF_step ].
Qed.

Lemma afterEmit_idem s : afterEmit (afterEmit s) = afterEmit s.
Proof. reflexivity. Qed.

Lemma Scan_EOF_again s tok s' :
  Scan s = Ok (tok, s') ->
  Type_ tok = EOF ->
  s' = afterEmit s /\ Scan (afterEmit s) = Ok (emit EOF (afterEmit s)).
Proof.
  intros H HT.
  pose proof (Scan_EOF _ _ _ H HT) as HE.
  split; [rewrite HE in H; injection H as _ <-; reflexivity|].
  clear H HT tok s'. revert HE.
  unfold Scan, scanHash, scanAt, scanJSONOp2.
  change (peek (afterEmit s)) with (peek s).
  change (lookAhead (afterEmit s) 1) with (lookAhead s 1).
  change (lookAhead (afterEmit s) 2) with (lookAhead s 2).
  change (config (afterEmit s)) with (config s).
  repeat match goal with
         | |- context [if ?c then _ else _] => destruct c
         end;
    try (intros; reflexivity); intros H; exfalso; revert H;
    match goal with
    | |- ?r = _ -> _ =>
      assert (Hn : notEOF r);
        [|intros H; exact (Hn _ _ H eq_refl)]
    end;
    unfold scanWhitespace, scanNumberWithLeadingSign, scanWildcard,
      scanPunctuation, scanPositionalParameter, scanString,
      scanMultiLineComment, scanDollarQuotedString;
    repeat first
      [ apply scanIdentifier_notEOF | apply scanDoubleQuotedIdentifier_notEOF
      | apply scanNumber_notEOF | apply scanOperator_notEOF
      | apply scanSingleLineComment_notEOF | apply scanBindParameter_notEOF
      | apply scanSystemVariable_notEOF | apply scanDecimalNumber_notEOF
      | apply stringLoop_notEOF | apply multiLineCommentLoop_notEOF
      | apply dollarBodyLoop_notEOF | notEOF_step ].
Qed.

Lemma scanTimes_at_end s n :
  Scan (afterEmit s) = Ok (emit EOF (afterEmit s)) ->
  scanTimes n (afterEmit s) = Ok (emit EOF (afterEmit s)).
Proof.
  intros H. induction n as [|n IH]; cbn [scanTimes]; [exact H|].
  rewrite H. cbn [mbind outcome_bind]. exact IH.
Qed.

(** C9: once [Scan] has returned a token of type EOF, every later call of
    [Scan] returns a token of type EOF, and the lexer stays as it is. *)
Theorem C9_EOF_is_held :
  forall (s : Lexer) (tok : Token) (s' : Lexer),
    Scan s = Ok (tok, s') ->
    Type_ tok = EOF ->
    forall n : nat,
      exists tok',
        scanTimes n s' = Ok (tok', s') /\ Type_ tok' = EOF.
Proof.
  intros s tok s' H HT n.
  destruct (Scan_EOF_again _ _ _ H HT) as [-> Hagain].
  exists (fst (emit EOF (afterEmit s))). split; [|reflexivity].
  rewrite (scanTimes_at_end s n Hagain). reflexivity.
Qed.

(** ** C4: the metadata that [Normalize] returns *)

Lemma byteLengths_snoc l m : byteLengths (l ++ [m]) = byteLengths l + len m.
Proof.
  unfold byteLengths. induction l as [|x l IH]; simpl; [lia|].
  rewrite IH. lia.
Qed.

Lemma dedupeLoop_spec metadata :
  forall (seen : gset string) (deduped : list string) (size_ : Z),
    NoDup deduped ->
    (forall x, x ∈ deduped -> x ∈ seen) ->
    size_ = byteLengths deduped ->
    NoDup (fst (dedupeLoop metadata seen deduped size_)) /\
    snd (dedupeLoop metadata seen deduped size_)
    = byteLengths (fst (dedupeLoop metadata seen deduped size_)).
Proof.
  induction metadata as [|m rest IH]; intros seen deduped size_ Hnd Hin Hsz;
    cbn [dedupeLoop].
  - split; [exact Hnd|exact Hsz].
  - case_bool_decide as Hm.
    + apply IH; assumption.
    + apply IH.
      * apply NoDup_app. split; [exact Hnd|]. split.
        -- intros x Hx Hx'. apply list_elem_of_singleton in Hx'. subst x.
           apply Hm, Hin, Hx.
        -- apply NoDup_singleton.
      * intros x Hx. apply elem_of_app in Hx. destruct Hx as [Hx|Hx].
        -- apply elem_of_union_r, Hin, Hx.
        -- apply list_elem_of_singleton in Hx. subst x.
           apply elem_of_union_l, elem_of_singleton. reflexivity.
      * rewrite byteLengths_snoc, Hsz. reflexivity.
Qed.

Lemma dedupeCollectedMetadata_spec metadata :
  NoDup (fst (dedupeCollectedMetadata metadata)) /\
  snd (dedupeCollectedMetadata metadata)
  = byteLengths (fst (dedupeCollectedMetadata metadata)).
Proof.
  unfold dedupeCollectedMetadata. apply dedupeLoop_spec.
  - apply NoDup_nil_2.
  - intros x Hx. inversion Hx.
  - reflexivity.
Qed.

Lemma dedupeStatementMetadata_spec info :
  Size info = 0 ->
  let md := dedupeStatementMetadata info in
  NoDup (Tables md) /\ NoDup (Comments md) /\ NoDup (Commands md) /\
  NoDup (Procedures md) /\
  Size md = byteLengths (Tables md) + byteLengths (Comments md)
            + byteLengths (Commands md) + byteLengths (Procedures md).
Proof.
  intros H0. unfold dedupeStatementMetadata.
  pose proof (dedupeCollectedMetadata_spec (Tables info)) as [N1 S1].
  pose proof (dedupeCollectedMetadata_spec (Comments info)) as [N2 S2].
  pose proof (dedupeCollectedMetadata_spec (Commands info)) as [N3 S3].
  pose proof (dedupeCollectedMetadata_spec (Procedures info)) as [N4 S4].
  destruct (dedupeCollectedMetadata (Tables info)) as [t ts].
  destruct (dedupeCollectedMetadata (Comments info)) as [c cs].
  destruct (dedupeCollectedMetadata (Commands info)) as [k ks].
  destruct (dedupeCollectedMetadata (Procedures info)) as [p ps].
  cbn in *. subst. repeat split; try assumption. lia.
Qed.

Lemma collectMetadata_Size cfg source token last md ctes :
  Size (snd (fst (collectMetadata cfg source token last md ctes))) = Size md.
Proof.
  unfold collectMetadata.
  repeat match goal with
         | |- context [if ?c then _ else _] => destruct c
         | |- context [match ?x with Some _ => _ | None => _ end] => destruct x
         end; reflexivity.
Qed.

Lemma normalizeLoop_Size cfg dbms fuel :
  forall input lexer last md ctes st b md',
    normalizeLoop cfg dbms fuel input lexer last md ctes st = Ok (b, md') ->
    Size md' = Size md.
Proof.
  induction fuel as [|f IH]; intros input lexer last md ctes st b md';
    [discriminate|].
  rewrite normalizeLoop_S. intros H.
  apply bind_Ok in H. destruct H as ([token lexer'] & _ & H).
  pose proof (collectMetadata_Size cfg input token last md ctes) as Hs.
  destruct (collectMetadata cfg input token last md ctes)
    as [[token1 md1] ctes1].
  cbn [fst snd] in Hs.
  apply bind_Ok in H. destruct H as ([token2 st'] & _ & H).
  destruct (isType (Type_ token2) EOF).
  - injection H as _ <-. exact Hs.
  - rewrite (IH _ _ _ _ _ _ _ _ H). exact Hs.
Qed.

(** C4: in the metadata that [Normalize] returns, no sequence holds a
    string twice, and [Size] is the sum of the byte lengths of the strings
    of the four sequences. *)
Theorem C4_metadata_deduplicated_and_sized :
  forall (cfg : normalizerConfig) (dbms : DBMSType) (fuel : nat)
         (input normalized : string) (md : StatementMetadata),
    Normalize cfg dbms fuel input = Ok (normalized, md) ->
    NoDup (Tables md) /\ NoDup (Comments md) /\ NoDup (Commands md) /\
    NoDup (Procedures md) /\
    Size md = byteLengths (Tables md) + byteLengths (Comments md)
              + byteLengths (Commands md) + byteLengths (Procedures md).
Proof.
  intros cfg dbms fuel input normalized md H. unfold Normalize in H.
  apply bind_Ok in H. destruct H as ([b md0] & Hloop & H).
  injection H as _ <-. cbn [snd].
  apply dedupeStatementMetadata_spec.
  rewrite (normalizeLoop_Size _ _ _ _ _ _ _ _ _ _ _ Hloop). reflexivity.
Qed.

(** ** Every call of [Scan] returns, and spans follow one another *)

Lemma lor_le_add a b : 0 <= a -> 0 <= b -> Z.lor a b <= a + b.
Proof.
  intros Ha Hb. pose proof (Z.add_lor_land a b).
  assert (0 <= Z.land a b) by (apply Z.land_nonneg; left; exact Ha). lia.
Qed.

Lemma low6_exact b : 128 <= b <= 191 -> low6 b = b - 128.
Proof.
  intros H. unfold low6. change 0x3F with (Z.ones 6).
  apply (land_mask_lead b 6 128); [lia|reflexivity|simpl; lia].
Qed.

Ltac lor_term2 t :=
  lazymatch t with
  | Z.lor ?a ?b =>
    lor_term2 a; lor_term2 b;
    let Ha := fresh in let Hb := fresh in
    assert (Ha : 0 <= a) by nonneg;
    assert (Hb : 0 <= b) by nonneg;
    pose proof (lor_bounds a b Ha Hb);
    pose proof (lor_le_add a b Ha Hb)
  | _ => idtac
  end.

Lemma RuneLen_valid r :
  0 <= r <= 0x10FFFF -> ~ (0xD800 <= r <= 0xDFFF) -> validRune r.
Proof.
  intros H1 H2. unfold validRune, RuneLen.
  repeat match goal with
         | |- context [if ?b then _ else _] => destruct b eqn:?
         end; Zbool; lia.
Qed.

Lemma decode_valid s0 t : 0 <= s0 -> validRune (fst (decode (s0 :: t))).
Proof.
  intros H0. unfold decode.
  destruct (s0 <? 128) eqn:E0.
  { apply Z.ltb_lt in E0. apply RuneLen_valid; cbn [fst]; lia. }
  unfold leadInfo, cont.
  repeat match goal with
         | |- context [if ?b then _ else _] =>
           lazymatch b with
           | (_ <? _) => destruct b eqn:?
           | (_ <=? _) => destruct b eqn:?
           | (_ =? _) => destruct b eqn:?
           | (_ || _)%bool => destruct b eqn:?
           | negb _ => destruct b eqn:?
           end
         | |- context [match ?l with [] => _ | _ :: _ => _ end] =>
           destruct l
         end;
    cbn [fst]; try (apply RuneLen_valid; unfold RuneError; lia); Zbool;
    try lia; apply RuneLen_valid;
    repeat match goal with
           | |- context [low6 ?b] =>
             rewrite (low6_exact b) by lia
           end.
  all: try (assert (E : Z.land s0 0x1F = s0 - 192)
      by (apply (land_mask_lead s0 5 192); [lia|reflexivity|simpl; lia]);
    rewrite E).
  all: try (assert (E : Z.land s0 0x0F = s0 - 224)
      by (apply (land_mask_lead s0 4 224); [lia|reflexivity|simpl; lia]);
    rewrite E).
  all: try (assert (E : Z.land s0 0x07 = s0 - 240)
      by (apply (land_mask_lead s0 3 240); [lia|reflexivity|simpl; lia]);
    rewrite E).
  all: shifts.
  all: match goal with
       | |- _ <= ?t <= _ => lor_term2 t; lia
       | |- ~ (_ <= ?t <= _) => lor_term2 t; lia
       end.
Qed.

Lemma validRune_0 : validRune 0.
Proof. unfold validRune. vm_compute. intros H. discriminate H. Qed.

Lemma DecodeRuneInString_valid str : validRune (fst (DecodeRuneInString str)).
Proof.
  unfold DecodeRuneInString.
  destruct str as [|c t];
    [unfold validRune; vm_compute; intros H; discriminate H|].
  change (bytes (take 4 (String c t))) with (byte c :: bytes (take 3 t)).
  apply decode_valid. apply byte_range.
Qed.

Lemma lookAhead_valid s n : validRune (lookAhead s n).
Proof.
  unfold lookAhead. destruct (_ || _); [apply validRune_0|].
  apply DecodeRuneInString_valid.
Qed.

Lemma lookAhead_nonzero s n :
  lookAhead s n <> 0 -> 0 <= cursor s + n < len (src s).
Proof.
  unfold lookAhead.
  destruct ((len (src s) <=? cursor s + n) || (cursor s + n <? 0)) eqn:E;
    [intros H; exfalso; apply H; reflexivity|].
  intros _. Zbool. lia.
Qed.

Lemma advance_refl s : inRange s -> advance s s.
Proof. unfold inRange, advance. intros H. repeat split; lia. Qed.

Lemma advance_trans s1 s2 s3 : advance s1 s2 -> advance s2 s3 -> advance s1 s3.
Proof.
  unfold advance. intros (A1 & A2 & A3 & A4) (B1 & B2 & B3 & B4).
  rewrite A1 in B4. repeat split; try congruence; lia.
Qed.

Lemma advance_inRange s s' : inRange s -> advance s s' -> inRange s'.
Proof.
  unfold inRange, advance. intros H (A1 & _ & _ & A4). rewrite A1. lia.
Qed.

Lemma advance_appendDigit s s' p : advance s s' -> advance s (appendDigit s' p).
Proof. exact (fun H => H). Qed.

Lemma advance_appendQuote s s' p : advance s s' -> advance s (appendQuote s' p).
Proof. exact (fun H => H). Qed.

Lemma nextBy_spec s n :
  inRange s -> 0 <= n ->
  exists ch s',
    nextBy s n = (ch, s') /\ advance s s' /\ validRune ch /\
    (ch <> 0 -> cursor s' < len (src s')) /\
    (cursor s + n <= len (src s) -> cursor s' = cursor s + n) /\
    (len (src s) < cursor s + n -> ch = 0 /\ s' = s).
Proof.
  intros Hr Hn. unfold nextBy.
  destruct (len (src s) <? cursor s + n) eqn:E; Zbool.
  - exists 0, s. split; [reflexivity|]. split; [apply advance_refl, Hr|].
    split; [apply validRune_0|].
    split; [intros H; exfalso; apply H; reflexivity|].
    split; [lia|]. intros _. split; reflexivity.
  - cbv zeta. cbn [src cursor setCursor].
    assert (Ha : advance s (setCursor s (cursor s + n))).
    { unfold advance, inRange in *. cbn. repeat split; lia. }
    destruct (len (src s) <=? cursor s + n) eqn:E'; Zbool.
    + eexists _, _. split; [reflexivity|]. split; [exact Ha|].
      split; [apply validRune_0|].
      split; [intros H; exfalso; apply H; reflexivity|].
      split; [reflexivity|lia].
    + eexists _, _. split; [reflexivity|]. split; [exact Ha|].
      split; [apply DecodeRuneInString_valid|]. cbn.
      split; [lia|]. split; [reflexivity|lia].
Qed.

Lemma next_spec s :
  inRange s ->
  exists ch s',
    next s = (ch, s') /\ advance s s' /\ validRune ch /\
    (ch <> 0 -> cursor s' < len (src s')) /\
    (cursor s < len (src s) -> cursor s' = cursor s + 1).
Proof.
  intros Hr. destruct (nextBy_spec s 1 Hr ltac:(lia))
    as (ch & s' & H1 & H2 & H3 & H4 & H5 & _).
  exists ch, s'. repeat split; try assumption; try apply H2. lia.
Qed.

Lemma remaining_advance s s' :
  advance s s' -> cursor s < cursor s' -> (remaining s' < remaining s)%nat.
Proof.
  unfold advance, remaining. intros (A1 & _ & _ & A4) H. rewrite A1. lia.
Qed.

Lemma moves_here s : inRange s -> moves s (Ok s).
Proof. intros H. exists s. split; [reflexivity|apply advance_refl, H]. Qed.

Lemma moves_after s s1 r : advance s s1 -> moves s1 r -> moves s r.
Proof.
  intros Ha (s' & E & A). exists s'. split; [exact E|].
  exact (advance_trans _ _ _ Ha A).
Qed.

Lemma emits_here t s : inRange s -> emits s (Ok (emit t s)).
Proof. intros H. exists t, s. split; [reflexivity|apply advance_refl, H]. Qed.

Lemma emits_after s s1 r : advance s s1 -> emits s1 r -> emits s r.
Proof.
  intros Ha (t & sf & E & A). exists t, sf. split; [exact E|].
  exact (advance_trans _ _ _ Ha A).
Qed.

Lemma emits_moves s (r : outcome Lexer) t :
  moves s r -> emits s (r ≫= fun s' => mret (emit t s')).
Proof.
  intros (s' & -> & A). exists t, s'. split; [reflexivity|exact A].
Qed.

(** One step of a loop that reads the next byte: the lexer is further on by
    one byte and the rune it returns is the one under the cursor. *)
Lemma step_next s (P : Z -> Lexer -> Prop) fuel :
  inRange s -> cursor s < len (src s) -> (remaining s < S fuel)%nat ->
  (forall ch' s',
      advance s s' -> inRange s' -> validRune ch' ->
      (ch' <> 0 -> cursor s' < len (src s')) ->
      (remaining s' < fuel)%nat -> P ch' s') ->
  P (fst (next s)) (snd (next s)).
Proof.
  intros Hr Hlt Hf HP.
  destruct (next_spec s Hr) as (ch' & s' & Hn & Ha & Hv & Hnz & Hc).
  rewrite Hn. cbn [fst snd]. apply HP; try assumption.
  - exact (advance_inRange _ _ Hr Ha).
  - specialize (Hc Hlt).
    pose proof (remaining_advance s s' Ha ltac:(lia)). lia.
Qed.

Lemma whitespaceLoop_moves fuel : forall ch s,
  inRange s -> (ch <> 0 -> cursor s < len (src s)) ->
  (remaining s < fuel)%nat ->
  moves s (whitespaceLoop fuel ch s).
Proof.
  induction fuel as [|f IH]; intros ch s Hr Hch Hf; [lia|].
  cbn [whitespaceLoop].
  destruct (isWhitespace ch) eqn:E; [|apply moves_here, Hr].
  assert (Hnz : ch <> 0) by (intros ->; discriminate E).
  rewrite (surjective_pairing (next s)).
  apply (step_next s (fun ch' s' => moves s (whitespaceLoop f ch' s')) f Hr
           (Hch Hnz) Hf).
  intros ch' s' Ha Hr' Hv Hnz' Hf'.
  apply (moves_after _ _ _ Ha). apply IH; assumption.
Qed.

Lemma step_next_any s (P : Z -> Lexer -> Prop) :
  inRange s ->
  (forall ch' s',
      advance s s' -> inRange s' -> validRune ch' ->
      (ch' <> 0 -> cursor s' < len (src s')) -> P ch' s') ->
  P (fst (next s)) (snd (next s)).
Proof.
  intros Hr HP.
  destruct (next_spec s Hr) as (ch' & s' & Hn & Ha & Hv & Hnz & Hc).
  rewrite Hn. cbn [fst snd]. apply HP; try assumption.
  exact (advance_inRange _ _ Hr Ha).
Qed.

Lemma step_nextBy_any s n (P : Z -> Lexer -> Prop) :
  inRange s -> 0 <= n ->
  (forall ch' s',
      advance s s' -> inRange s' -> validRune ch' ->
      (ch' <> 0 -> cursor s' < len (src s')) -> P ch' s') ->
  P (fst (nextBy s n)) (snd (nextBy s n)).
Proof.
  intros Hr Hn HP.
  destruct (nextBy_spec s n Hr Hn) as (ch' & s' & Hnx & Ha & Hv & Hnz & _).
  rewrite Hnx. cbn [fst snd]. apply HP; try assumption.
  exact (advance_inRange _ _ Hr Ha).
Qed.

(** The loops that read one byte a turn while a test on the rune holds. *)
Ltac rune_loop ch s IH Hr Hch Hf E :=
  let Hnz := fresh "Hnz" in
  assert (Hnz : ch <> 0) by (intros ->; vm_compute in E; discriminate E);
  rewrite (surjective_pairing (next s)); cbv iota beta;
  pattern (fst (next s)), (snd (next s));
  apply (step_next s _ _ Hr (Hch Hnz) Hf);
  let Ha := fresh "Ha" in
  intros ? ? Ha ? ? ? ?;
  apply (moves_after _ _ _ Ha); apply IH; assumption.

Lemma hexLoop_moves fuel : forall ch s,
  inRange s -> (ch <> 0 -> cursor s < len (src s)) ->
  (remaining s < fuel)%nat ->
  moves s (hexLoop fuel ch s).
Proof.
  induction fuel as [|f IH]; intros ch s Hr Hch Hf; [lia|].
  cbn [hexLoop].
  match goal with |- context [if ?c then _ else _] => destruct c eqn:E end;
    [|apply moves_here, Hr].
  rune_loop ch s IH Hr Hch Hf E.
Qed.

Lemma octalLoop_moves fuel : forall ch s,
  inRange s -> (ch <> 0 -> cursor s < len (src s)) ->
  (remaining s < fuel)%nat ->
  moves s (octalLoop fuel ch s).
Proof.
  induction fuel as [|f IH]; intros ch s Hr Hch Hf; [lia|].
  cbn [octalLoop].
  match goal with |- context [if ?c then _ else _] => destruct c eqn:E end;
    [|apply moves_here, Hr].
  rune_loop ch s IH Hr Hch Hf E.
Qed.

Lemma lineCommentLoop_moves fuel : forall ch s,
  inRange s -> (ch <> 0 -> cursor s < len (src s)) ->
  (remaining s < fuel)%nat ->
  moves s (lineCommentLoop fuel ch s).
Proof.
  induction fuel as [|f IH]; intros ch s Hr Hch Hf; [lia|].
  cbn [lineCommentLoop].
  match goal with |- context [if ?c then _ else _] => destruct c eqn:E end;
    [|apply moves_here, Hr].
  rune_loop ch s IH Hr Hch Hf E.
Qed.

Lemma operatorLoop_moves fuel : forall lastCh ch s,
  inRange s -> (ch <> 0 -> cursor s < len (src s)) ->
  (remaining s < fuel)%nat ->
  moves s (operatorLoop fuel lastCh ch s).
Proof.
  induction fuel as [|f IH]; intros lastCh ch s Hr Hch Hf; [lia|].
  cbn [operatorLoop].
  destruct (isOperator ch) eqn:E; cbn [andb]; [|apply moves_here, Hr].
  match goal with |- context [if ?c then _ else _] => destruct c end;
    [|apply moves_here, Hr].
  rune_loop ch s IH Hr Hch Hf E.
Qed.

Lemma digitLoop_moves fuel : forall ch s,
  inRange s -> (ch <> 0 -> cursor s < len (src s)) ->
  (remaining s < fuel)%nat ->
  moves s (digitLoop fuel ch s).
Proof.
  induction fuel as [|f IH]; intros ch s Hr Hch Hf; [lia|].
  cbn [digitLoop].
  destruct (isDigit ch) eqn:E; cbn [negb]; [|apply moves_here, Hr].
  rune_loop ch s IH Hr Hch Hf E.
Qed.

Lemma alphaNumericLoop_moves fuel : forall ch s,
  inRange s -> (ch <> 0 -> cursor s < len (src s)) ->
  (remaining s < fuel)%nat ->
  moves s (alphaNumericLoop fuel ch s).
Proof.
  induction fuel as [|f IH]; intros ch s Hr Hch Hf; [lia|].
  cbn [alphaNumericLoop].
  destruct (isAlphaNumeric ch) eqn:E; cbn [negb]; [|apply moves_here, Hr].
  rune_loop ch s IH Hr Hch Hf E.
Qed.

Lemma remaining_le s s' : advance s s' -> (remaining s' <= remaining s)%nat.
Proof.
  unfold advance, remaining. intros (A1 & _ & _ & A4). rewrite A1. lia.
Qed.

Lemma peek_nonzero s : peek s <> 0 -> cursor s < len (src s).
Proof. intros H. pose proof (lookAhead_nonzero s 0 H). lia. Qed.

Lemma decimalLoop_moves fuel : forall s,
  inRange s -> (remaining s < fuel)%nat -> moves s (decimalLoop fuel s).
Proof.
  induction fuel as [|f IH]; intros s Hr Hf; [lia|].
  cbn [decimalLoop].
  destruct (isDigit (peek s) || (peek s =? rune ".") || isExpontent (peek s))
    eqn:E; [|apply moves_here, Hr].
  assert (Hnz : peek s <> 0)
    by (intros E0; rewrite E0 in E; vm_compute in E; discriminate E).
  pose proof (peek_nonzero s Hnz) as Hlt.
  rewrite (surjective_pairing (next s)). cbv iota beta.
  pattern (fst (next s)), (snd (next s)).
  apply (step_next s _ _ Hr Hlt Hf). intros ch1 s1 Ha Hr1 Hv1 Hnz1 Hf1.
  destruct (isExpontent (peek s)).
  - destruct (isLeadingSign ch1) eqn:Es.
    + pattern (fst (next s1)), (snd (next s1)).
      apply (step_next_any s1 _ Hr1). intros ch2 s2 Ha2 Hr2 _ _.
      apply (moves_after _ _ _ (advance_trans _ _ _ Ha Ha2)).
      apply IH; [exact Hr2|]. pose proof (remaining_le _ _ Ha2). lia.
    + apply (moves_after _ _ _ Ha). apply IH; assumption.
  - apply (moves_after _ _ _ Ha). apply IH; assumption.
Qed.

Lemma isEOF_false ch : isEOF ch = false -> ch <> 0.
Proof. unfold isEOF. intros H. Zbool. exact H. Qed.

(** One more turn of a loop that returns a token. *)
Ltac token_turn s IH Hr Hlt Hf :=
  rewrite (surjective_pairing (next s)); cbv iota beta;
  pattern (fst (next s)), (snd (next s));
  apply (step_next s _ _ Hr Hlt Hf);
  let Ha := fresh "Ha" in
  intros ? ? Ha ? ? ? ?;
  apply (emits_after _ _ _ Ha); apply IH; assumption.

(** A token emitted after one more byte. *)
Ltac token_after_next s Hr :=
  pattern (snd (next s));
  apply (step_next_any s (fun _ s' => _ s') Hr);
  let Ha := fresh "Ha" in
  intros ? ? Ha ? ? ?;
  apply (emits_after _ _ _ Ha); apply emits_here; assumption.

Lemma stringLoop_emits fuel : forall escaped ch s,
  inRange s -> (ch <> 0 -> cursor s < len (src s)) ->
  (remaining s < fuel)%nat ->
  emits s (stringLoop fuel escaped ch s).
Proof.
  induction fuel as [|f IH]; intros escaped ch s Hr Hch Hf; [lia|].
  cbn [stringLoop].
  destruct (isEOF ch) eqn:E; [apply emits_here, Hr|].
  pose proof (Hch (isEOF_false _ E)) as Hlt.
  destruct escaped; [token_turn s IH Hr Hlt Hf|].
  destruct (ch =? rune "\"); [token_turn s IH Hr Hlt Hf|].
  destruct (ch =? rune "'"); [|token_turn s IH Hr Hlt Hf].
  token_after_next s Hr.
Qed.

Lemma matchAt_fits s l :
  matchAt s l = true -> cursor s + Z.of_nat (List.length l) <= len (src s).
Proof.
  unfold matchAt.
  destruct (len (src s) <? cursor s + Z.of_nat (List.length l)) eqn:E;
    [discriminate|]. intros _. Zbool. exact E.
Qed.

Lemma quotedLoop_emits fuel : forall d c ch s,
  inRange s -> (ch <> 0 -> cursor s < len (src s)) ->
  (remaining s < fuel)%nat ->
  emits s (quotedLoop fuel d c ch s).
Proof.
  induction fuel as [|f IH]; intros d c ch s Hr Hch Hf; [lia|].
  cbn [quotedLoop].
  destruct (ch =? c).
  - set (s1 := appendQuote s (cursor s)).
    assert (Hr1 : inRange s1) by exact Hr.
    assert (Ha1 : advance s s1) by exact (advance_refl s Hr).
    destruct (matchAt s1 [c; rune "."; d]) eqn:Em.
    + apply matchAt_fits in Em. cbn [List.length] in Em.
      set (s2 := appendQuote s1 (cursor s1 + 2)).
      assert (Hr2 : inRange s2) by exact Hr.
      destruct (nextBy_spec s2 3 Hr2 ltac:(lia))
        as (ch' & s3 & Hn & Ha & Hv & Hnz & Hc & _).
      rewrite Hn. specialize (Hc Em).
      assert (Ha3 : advance s s3) by exact Ha.
      apply (emits_after _ _ _ Ha3). apply IH.
      * exact (advance_inRange _ _ Hr Ha3).
      * exact Hnz.
      * pose proof (remaining_advance s s3 Ha3) as Hd.
        change (cursor s2) with (cursor s) in Hc. lia.
    + apply (emits_after _ _ _ Ha1). token_after_next s1 Hr1.
  - destruct (isEOF ch) eqn:E; [apply emits_here, Hr|].
    pose proof (Hch (isEOF_false _ E)) as Hlt.
    set (s1 := if isDigit ch then appendDigit s (cursor s) else s).
    assert (Hr1 : inRange s1) by (unfold s1; destruct (isDigit ch); exact Hr).
    assert (Ha1 : advance s s1)
      by (unfold s1; destruct (isDigit ch); exact (advance_refl s Hr)).
    assert (Hlt1 : cursor s1 < len (src s1))
      by (unfold s1; destruct (isDigit ch); exact Hlt).
    assert (Hf1 : (remaining s1 < S f)%nat)
      by (unfold s1; destruct (isDigit ch); exact Hf).
    apply (emits_after _ _ _ Ha1). token_turn s1 IH Hr1 Hlt1 Hf1.
Qed.

Lemma multiLineCommentLoop_emits fuel : forall ch s,
  inRange s -> (ch <> 0 -> cursor s < len (src s)) ->
  (remaining s < fuel)%nat ->
  emits s (multiLineCommentLoop fuel ch s).
Proof.
  induction fuel as [|f IH]; intros ch s Hr Hch Hf; [lia|].
  cbn [multiLineCommentLoop].
  destruct ((ch =? rune "*") && (lookAhead s 1 =? rune "/")).
  - pattern (snd (nextBy s 2)).
    apply (step_nextBy_any s 2 (fun _ s' => _ s') Hr ltac:(lia)).
    intros ch' s' Ha Hr' _ _.
    apply (emits_after _ _ _ Ha). apply emits_here, Hr'.
  - destruct (isEOF ch) eqn:E; [apply emits_here, Hr|].
    pose proof (Hch (isEOF_false _ E)) as Hlt.
    token_turn s IH Hr Hlt Hf.
Qed.

Lemma tagLoop_moves fuel : forall ch s,
  inRange s -> (remaining s < fuel)%nat -> moves s (tagLoop fuel ch s).
Proof.
  induction fuel as [|f IH]; intros ch s Hr Hf; [lia|].
  cbn [tagLoop].
  destruct (cursor s <? len (src s)) eqn:E; cbn [andb];
    [|apply moves_here, Hr].
  destruct (negb (ch =? rune "$")); [|apply moves_here, Hr].
  Zbool.
  rewrite (surjective_pairing (next s)). cbv iota beta.
  pattern (fst (next s)), (snd (next s)).
  apply (step_next s _ _ Hr E Hf). intros ch' s' Ha Hr' _ _ Hf'.
  apply (moves_after _ _ _ Ha). apply IH; assumption.
Qed.

Lemma len_tag_nonneg (tag : string) : 0 <= len tag.
Proof. apply len_nonneg. Qed.

Lemma dollarBodyLoop_emits fuel : forall tag s,
  inRange s -> (remaining s < fuel)%nat ->
  emits s (dollarBodyLoop fuel tag s).
Proof.
  induction fuel as [|f IH]; intros tag s Hr Hf; [lia|].
  cbn [dollarBodyLoop].
  destruct (cursor s <? len (src s)) eqn:E; [|apply emits_here, Hr].
  Zbool. destruct (matchAt s (runes tag)).
  - assert (He : forall t, emits s (Ok (emit t (snd (nextBy s (len tag)))))).
    { intros t. pattern (snd (nextBy s (len tag))).
      apply (step_nextBy_any s (len tag) (fun _ s' => _ s') Hr
               (len_tag_nonneg tag)).
      intros ch' s' Ha Hr' _ _.
      apply (emits_after _ _ _ Ha). apply emits_here, Hr'. }
    destruct (String.eqb tag "$func$"); apply He.
  - pattern (snd (next s)).
    apply (step_next s (fun _ s' => _ s') _ Hr E Hf).
    intros ch' s' Ha Hr' _ _ Hf'.
    apply (emits_after _ _ _ Ha). apply IH; assumption.
Qed.

Lemma identifierLoop_end f s : identifierLoop f 0 s = Ok (0, s).
Proof. destruct f; reflexivity. Qed.

Lemma identifierLoop_moves fuel : forall ch s,
  inRange s -> validRune ch -> (remaining s < fuel)%nat ->
  movesWithRune s (identifierLoop fuel ch s).
Proof.
  induction fuel as [|f IH]; intros ch s Hr Hv Hf; [lia|].
  cbn [identifierLoop].
  destruct (isIdentifier ch) eqn:E.
  2:{ exists ch, s. split; [reflexivity|apply advance_refl, Hr]. }
  set (s1 := if isDigit ch then appendDigit s (cursor s) else s).
  assert (Hr1 : inRange s1) by (unfold s1; destruct (isDigit ch); exact Hr).
  assert (Ha1 : advance s s1)
    by (unfold s1; destruct (isDigit ch); exact (advance_refl s Hr)).
  assert (Hf1 : (remaining s1 < S f)%nat)
    by (unfold s1; destruct (isDigit ch); exact Hf).
  unfold validRune in Hv.
  destruct (nextBy_spec s1 (RuneLen ch) Hr1 ltac:(lia))
    as (ch' & s2 & Hn & Ha & Hv' & Hnz & Hc & Hover).
  rewrite Hn.
  destruct (Z_le_gt_dec (cursor s1 + RuneLen ch) (len (src s1))) as [Hfit|Hno].
  - specialize (Hc Hfit).
    destruct (IH ch' s2) as (ch'' & s3 & E3 & A3).
    + exact (advance_inRange _ _ Hr1 Ha).
    + exact Hv'.
    + pose proof (remaining_advance s1 s2 Ha ltac:(lia)). lia.
    + exists ch'', s3. split; [exact E3|].
      exact (advance_trans _ _ _ Ha1 (advance_trans _ _ _ Ha A3)).
  - destruct (Hover ltac:(lia)) as [-> ->].
    rewrite identifierLoop_end. exists 0, s1. split; [reflexivity|exact Ha1].
Qed.

Lemma keywordRoot_not_end : isEnd keywordRoot = false.
Proof. reflexivity. Qed.

Lemma keywordLoop_moves fuel : forall node pos ch s,
  inRange s -> validRune ch -> (ch <> 0 -> cursor s < len (src s)) ->
  (isEnd node = true -> pos + 1 = cursor s) ->
  (remaining s < fuel)%nat ->
  exists node' pos' ch' s',
    keywordLoop fuel node pos ch s = Ok (node', pos', ch', s') /\
    advance s s' /\ validRune ch' /\
    (isEnd node' = true -> pos' + 1 = cursor s').
Proof.
  induction fuel as [|f IH]; intros node pos ch s Hr Hv Hch HJ Hf; [lia|].
  cbn [keywordLoop].
  destruct (isAsciiLetter ch || (ch =? rune "_")) eqn:E.
  2:{ exists node, pos, ch, s. split; [reflexivity|].
      split; [apply advance_refl, Hr|]. split; [exact Hv|exact HJ]. }
  assert (Hnz : ch <> 0) by (intros ->; vm_compute in E; discriminate E).
  pose proof (Hch Hnz) as Hlt.
  destruct (next_spec s Hr) as (ch' & s' & Hn & Ha & Hv' & Hnz' & Hc).
  specialize (Hc Hlt). rewrite Hn.
  destruct (lookupChild (children node) _) as [next_|].
  - destruct (IH next_ (cursor s) ch' s') as (n' & p' & c' & s'' & E' & A' & R').
    + exact (advance_inRange _ _ Hr Ha).
    + exact Hv'.
    + exact Hnz'.
    + intros _. symmetry. exact Hc.
    + pose proof (remaining_advance s s' Ha ltac:(lia)). lia.
    + exists n', p', c', s''. split; [exact E'|].
      split; [exact (advance_trans _ _ _ Ha A')|exact R'].
  - exists keywordRoot, pos, ch', s'. split; [reflexivity|].
    split; [exact Ha|]. split; [exact Hv'|].
    rewrite keywordRoot_not_end. discriminate.
Qed.

Lemma fuel_suffices s s' :
  inRange s' -> src s' = src s -> (remaining s' < loopFuel s)%nat.
Proof.
  unfold inRange, remaining, loopFuel, len. intros H E. rewrite E in *. lia.
Qed.

Lemma fuel_after s s' :
  inRange s -> advance s s' -> (remaining s' < loopFuel s)%nat.
Proof.
  intros Hr Ha. apply fuel_suffices; [exact (advance_inRange _ _ Hr Ha)|].
  apply Ha.
Qed.

Lemma inRange_markStart s : inRange s -> inRange (markStart s).
Proof. exact (fun H => H). Qed.

(** The scanners, on a lexer whose start has just been marked. *)

Lemma scanDecimalNumber_emits s : inRange s -> emits s (scanDecimalNumber s).
Proof.
  intros Hr. unfold scanDecimalNumber. apply emits_moves.
  apply decimalLoop_moves; [exact Hr|].
  apply fuel_suffices; [exact Hr|reflexivity].
Qed.

Ltac read_nextBy s n Hr :=
  let ch := fresh "ch" in let s1 := fresh "s1" in
  let Hn := fresh "Hn" in let Ha := fresh "Ha" in
  let Hv := fresh "Hv" in let Hnz := fresh "Hnz" in
  destruct (nextBy_spec s n Hr ltac:(lia))
    as (ch & s1 & Hn & Ha & Hv & Hnz & _);
  rewrite Hn;
  pose proof (advance_inRange _ _ Hr Ha);
  pose proof (fuel_after _ _ Hr Ha).

Ltac read_next s Hr :=
  let ch := fresh "ch" in let s1 := fresh "s1" in
  let Hn := fresh "Hn" in let Ha := fresh "Ha" in
  let Hv := fresh "Hv" in let Hnz := fresh "Hnz" in
  destruct (next_spec s Hr) as (ch & s1 & Hn & Ha & Hv & Hnz & _);
  rewrite Hn;
  pose proof (advance_inRange _ _ Hr Ha);
  pose proof (fuel_after _ _ Hr Ha).

Lemma scanHexNumber_emits s : inRange s -> emits s (scanHexNumber s).
Proof.
  intros Hr. unfold scanHexNumber. read_nextBy s 2 Hr.
  apply (emits_after _ _ _ Ha). apply emits_moves.
  apply hexLoop_moves; assumption.
Qed.

Lemma scanOctalNumber_emits s : inRange s -> emits s (scanOctalNumber s).
Proof.
  intros Hr. unfold scanOctalNumber. read_nextBy s 2 Hr.
  apply (emits_after _ _ _ Ha). apply emits_moves.
  apply octalLoop_moves; assumption.
Qed.

Lemma scanNumberWithLeadingSign_emits s :
  inRange s -> emits (markStart s) (scanNumberWithLeadingSign s).
Proof.
  intros Hr. unfold scanNumberWithLeadingSign. cbv zeta.
  pose proof (inRange_markStart s Hr) as Hm.
  destruct (next_spec (markStart s) Hm) as (ch & s1 & Hn & Ha & _).
  rewrite Hn. cbn [snd]. apply (emits_after _ _ _ Ha).
  apply scanDecimalNumber_emits. exact (advance_inRange _ _ Hm Ha).
Qed.

Lemma scanNumber_emits ch s :
  inRange s -> emits (markStart s) (scanNumber ch s).
Proof.
  intros Hr. unfold scanNumber, scanNumberic. cbv zeta.
  change (markStart (markStart s)) with (markStart s).
  pose proof (inRange_markStart s Hr) as Hm.
  destruct (_ && _); [apply scanHexNumber_emits, Hm|].
  destruct (_ && _); [apply scanOctalNumber_emits, Hm|].
  destruct (next_spec (markStart s) Hm) as (ch' & s1 & Hn & Ha & _).
  rewrite Hn. cbn [snd]. apply (emits_after _ _ _ Ha).
  apply scanDecimalNumber_emits. exact (advance_inRange _ _ Hm Ha).
Qed.

Lemma scanString_emits s : inRange s -> emits (markStart s) (scanString s).
Proof.
  intros Hr. unfold scanString. cbv zeta.
  pose proof (inRange_markStart s Hr) as Hm.
  read_next (markStart s) Hm.
  apply (emits_after _ _ _ Ha). apply stringLoop_emits; assumption.
Qed.

Lemma scanDoubleQuotedIdentifier_emits d s :
  inRange s -> emits (markStart s) (scanDoubleQuotedIdentifier d s).
Proof.
  intros Hr. unfold scanDoubleQuotedIdentifier. cbv zeta.
  set (m := appendQuote (markStart s) (cursor (markStart s))).
  assert (Hm : inRange m) by exact Hr.
  assert (Ham : advance (markStart s) m)
    by exact (advance_refl (markStart s) Hr).
  read_next m Hm.
  apply (emits_after _ _ _ Ham). apply (emits_after _ _ _ Ha).
  apply quotedLoop_emits; assumption.
Qed.

Lemma scanWhitespace_emits s :
  inRange s -> emits (markStart s) (scanWhitespace s).
Proof.
  intros Hr. unfold scanWhitespace. cbv zeta.
  pose proof (inRange_markStart s Hr) as Hm.
  read_next (markStart s) Hm.
  apply (emits_after _ _ _ Ha). apply emits_moves.
  apply whitespaceLoop_moves; assumption.
Qed.

Lemma emits_next_token t s : inRange s -> emits s (Ok (emit t (snd (next s)))).
Proof.
  intros Hr. destruct (next_spec s Hr) as (ch & s1 & Hn & Ha & _).
  rewrite Hn. cbn [snd]. apply (emits_after _ _ _ Ha).
  apply emits_here. exact (advance_inRange _ _ Hr Ha).
Qed.

Lemma scanOperator_emits lastCh s :
  inRange s -> emits (markStart s) (scanOperator lastCh s).
Proof.
  intros Hr. unfold scanOperator. cbv zeta.
  pose proof (inRange_markStart s Hr) as Hm.
  read_next (markStart s) Hm.
  apply (emits_after _ _ _ Ha).
  assert (Htwo : emits s1
            (let '(ch', s2) := next s1 in
             if ch' =? rune ">" then Ok (emit JSON_OP (snd (next s2)))
             else Ok (emit JSON_OP s2))).
  { destruct (next_spec s1 H) as (ch' & s2 & Hn2 & Ha2 & _).
    rewrite Hn2. apply (emits_after _ _ _ Ha2).
    pose proof (advance_inRange _ _ H Ha2) as Hr2.
    destruct (ch' =? rune ">"); [apply emits_next_token|apply emits_here];
      exact Hr2. }
  repeat match goal with
         | |- emits _ (if ?c then _ else _) => destruct c
         end;
    try exact Htwo; try (apply emits_next_token; exact H).
  apply emits_moves. apply operatorLoop_moves; assumption.
Qed.

Lemma scanWildcard_emits s : inRange s -> emits (markStart s) (scanWildcard s).
Proof. intros Hr. unfold scanWildcard. apply emits_next_token. exact Hr. Qed.

Lemma scanPunctuation_emits s :
  inRange s -> emits (markStart s) (scanPunctuation s).
Proof. intros Hr. unfold scanPunctuation. apply emits_next_token. exact Hr. Qed.

Lemma scanSingleLineComment_emits s :
  inRange s -> emits (markStart s) (scanSingleLineComment s).
Proof.
  intros Hr. unfold scanSingleLineComment. cbv zeta.
  pose proof (inRange_markStart s Hr) as Hm.
  read_nextBy (markStart s) 2 Hm.
  apply (emits_after _ _ _ Ha). apply emits_moves.
  apply lineCommentLoop_moves; assumption.
Qed.

Lemma scanMultiLineComment_emits s :
  inRange s -> emits (markStart s) (scanMultiLineComment s).
Proof.
  intros Hr. unfold scanMultiLineComment. cbv zeta.
  pose proof (inRange_markStart s Hr) as Hm.
  read_nextBy (markStart s) 2 Hm.
  apply (emits_after _ _ _ Ha). apply multiLineCommentLoop_emits; assumption.
Qed.

Lemma scanPositionalParameter_emits s :
  inRange s -> emits (markStart s) (scanPositionalParameter s).
Proof.
  intros Hr. unfold scanPositionalParameter. cbv zeta.
  pose proof (inRange_markStart s Hr) as Hm.
  read_nextBy (markStart s) 2 Hm.
  apply (emits_after _ _ _ Ha). apply emits_moves.
  apply digitLoop_moves; assumption.
Qed.

Lemma scanBindParameter_emits s :
  inRange s -> emits (markStart s) (scanBindParameter s).
Proof.
  intros Hr. unfold scanBindParameter. cbv zeta.
  pose proof (inRange_markStart s Hr) as Hm.
  read_nextBy (markStart s) 2 Hm.
  apply (emits_after _ _ _ Ha). apply emits_moves.
  apply alphaNumericLoop_moves; assumption.
Qed.

Lemma scanSystemVariable_emits s :
  inRange s -> emits (markStart s) (scanSystemVariable s).
Proof.
  intros Hr. unfold scanSystemVariable. cbv zeta.
  pose proof (inRange_markStart s Hr) as Hm.
  read_nextBy (markStart s) 2 Hm.
  apply (emits_after _ _ _ Ha).
  destruct (negb (isAlphaNumeric ch)); [apply emits_here; assumption|].
  apply emits_moves. apply alphaNumericLoop_moves; assumption.
Qed.

Lemma scanJSONOp2_emits s : inRange s -> emits (markStart s) (scanJSONOp2 s).
Proof.
  intros Hr. unfold scanJSONOp2.
  pose proof (inRange_markStart s Hr) as Hm.
  destruct (nextBy_spec (markStart s) 2 Hm ltac:(lia))
    as (ch & s1 & Hn & Ha & _).
  rewrite Hn. cbn [snd]. apply (emits_after _ _ _ Ha).
  apply emits_here. exact (advance_inRange _ _ Hm Ha).
Qed.

Lemma scanIdentifier_emits ch s :
  inRange s -> validRune ch -> (ch <> 0 -> cursor s < len (src s)) ->
  emits (markStart s) (scanIdentifier ch s).
Proof.
  intros Hr Hv Hch. unfold scanIdentifier. cbv zeta.
  pose proof (inRange_markStart s Hr) as Hm.
  pose proof (fuel_suffices (markStart s) (markStart s) Hm eq_refl) as Hf.
  destruct (127 <? ch).
  - destruct (identifierLoop_moves _ ch _ Hm Hv Hf) as (ch' & s1 & E & A).
    rewrite E. exists IDENT, s1. split; [reflexivity|exact A].
  - destruct (keywordLoop_moves _ keywordRoot (cursor (markStart s)) ch _
                Hm Hv Hch ltac:(rewrite keywordRoot_not_end; discriminate) Hf)
      as (node & pos & ch1 & s1 & E & A & Hv1 & HJ).
    rewrite E. cbn [mbind outcome_bind].
    pose proof (advance_inRange _ _ Hm A) as Hr1.
    destruct (isEnd node) eqn:Ee; cbn [andb].
    + destruct (isPunctuation (peek s1) || isWhitespace (peek s1)
                || isEOF (peek s1)).
      * eexists _, _. split; [reflexivity|].
        rewrite (HJ eq_refl). exact A.
      * destruct (identifierLoop_moves _ ch1 _ Hr1 Hv1 (fuel_after _ _ Hm A))
          as (ch2 & s2 & E2 & A2).
        rewrite E2. cbn [mbind outcome_bind].
        destruct (ch2 =? rune "("); eexists _, _;
          (split; [reflexivity|exact (advance_trans _ _ _ A A2)]).
    + destruct (identifierLoop_moves _ ch1 _ Hr1 Hv1 (fuel_after _ _ Hm A))
        as (ch2 & s2 & E2 & A2).
      rewrite E2. cbn [mbind outcome_bind].
      destruct (ch2 =? rune "("); eexists _, _;
        (split; [reflexivity|exact (advance_trans _ _ _ A A2)]).
Qed.

Lemma scanDollarQuotedString_emits s :
  inRange s -> cursor s < len (src s) ->
  emits (markStart s) (scanDollarQuotedString s).
Proof.
  intros Hr Hlt. unfold scanDollarQuotedString. cbv zeta.
  pose proof (inRange_markStart s Hr) as Hm.
  destruct (next_spec (markStart s) Hm) as (ch & s1 & Hn & Ha & _ & _ & Hc).
  rewrite Hn. specialize (Hc Hlt).
  pose proof (advance_inRange _ _ Hm Ha) as Hr1.
  destruct (tagLoop_moves (loopFuel (markStart s)) ch s1 Hr1
              (fuel_after _ _ Hm Ha)) as (s2 & E2 & A2).
  rewrite E2. cbn [mbind outcome_bind].
  pose proof (advance_inRange _ _ Hr1 A2) as Hr2.
  destruct (next_spec s2 Hr2) as (ch3 & s3 & Hn3 & A3 & _).
  rewrite Hn3. cbn [snd].
  pose proof (advance_inRange _ _ Hr2 A3) as Hr3.
  pose proof (advance_trans _ _ _ Ha (advance_trans _ _ _ A2 A3)) as A.
  unfold sliceChecked.
  assert (Hb : (0 <=? cursor s1 - 1) && (cursor s1 - 1 <=? cursor s3)
               && (cursor s3 <=? len (src s3)) = true).
  { destruct A2 as (_ & _ & _ & B2). destruct A3 as (_ & _ & _ & B3).
    unfold inRange in *. cbn [cursor markStart] in Hc.
    apply andb_true_iff. split; [apply andb_true_iff; split|];
      apply Z.leb_le; lia. }
  rewrite Hb. cbn [mbind outcome_bind].
  apply (emits_after _ _ _ A). apply dollarBodyLoop_emits; [exact Hr3|].
  exact (fuel_after _ _ Hm A).
Qed.

Lemma scanHash_emits ch s :
  inRange s -> validRune ch -> (ch <> 0 -> cursor s < len (src s)) ->
  emits (markStart s) (scanHash ch s).
Proof.
  intros Hr Hv Hch. unfold scanHash.
  destruct (isDBMS _ _); [apply scanIdentifier_emits; assumption|].
  destruct (isDBMS _ _); [apply scanSingleLineComment_emits, Hr|].
  apply scanOperator_emits, Hr.
Qed.

Lemma scanAt_emits ch s :
  inRange s -> validRune ch -> (ch <> 0 -> cursor s < len (src s)) ->
  emits (markStart s) (scanAt ch s).
Proof.
  intros Hr Hv Hch. unfold scanAt.
  repeat match goal with
         | |- emits _ (if ?c then _ else _) => destruct c
         end;
    first [ apply scanSystemVariable_emits, Hr
          | apply scanJSONOp2_emits, Hr
          | apply scanIdentifier_emits; assumption
          | apply scanBindParameter_emits, Hr
          | apply scanOperator_emits, Hr ].
Qed.

Lemma markStart_ready s : start s = cursor s -> markStart s = s.
Proof. destruct s. cbn. intros ->. reflexivity. Qed.

Lemma Scan_emits s : ready s -> emits s (Scan s).
Proof.
  intros [Hr Hs].
  assert (Hv : validRune (peek s)) by apply lookAhead_valid.
  pose proof (peek_nonzero s) as Hch.
  rewrite <- (markStart_ready s Hs) at 1.
  unfold Scan. cbv zeta.
  repeat match goal with
         | |- emits _ (if ?c then _ else _) => destruct c eqn:?
         end;
    first [ apply scanWhitespace_emits, Hr
          | apply scanIdentifier_emits; assumption
          | apply scanDoubleQuotedIdentifier_emits, Hr
          | apply scanString_emits, Hr
          | apply scanSingleLineComment_emits, Hr
          | apply scanMultiLineComment_emits, Hr
          | apply scanNumberWithLeadingSign_emits, Hr
          | apply scanOperator_emits, Hr
          | apply scanNumber_emits, Hr
          | apply scanWildcard_emits, Hr
          | apply scanPositionalParameter_emits, Hr
          | apply scanBindParameter_emits, Hr
          | apply scanHash_emits; assumption
          | apply scanAt_emits; assumption
          | apply scanPunctuation_emits, Hr
          | rewrite (markStart_ready s Hs); apply emits_here, Hr
          | idtac ].
  apply scanDollarQuotedString_emits; [exact Hr|].
  apply Hch. intros E0.
  match goal with H : (peek s =? rune "$") = true |- _ =>
    rewrite E0 in H; discriminate H end.
Qed.

(** [Scan] is total on a lexer between two tokens: it returns a token whose
    span starts at the cursor and ends where the cursor is left, not before,
    and the lexer is again between two tokens, on the same source. *)
Lemma Scan_returns s :
  ready s ->
  exists tok s',
    Scan s = Ok (tok, s') /\
    Start tok = cursor s /\ End_ tok = cursor s' /\
    cursor s <= cursor s' /\
    src s' = src s /\ config s' = config s /\ ready s'.
Proof.
  intros Hrd. destruct (Scan_emits s Hrd) as (t & sf & E & A).
  destruct Hrd as [Hr Hs].
  pose proof (advance_inRange _ _ Hr A) as Hrf.
  destruct A as (A1 & A2 & A3 & A4).
  exists (fst (emit t sf)), (snd (emit t sf)).
  split; [rewrite E; reflexivity|]. cbn.
  repeat split; try congruence; try lia; apply Hrf.
Qed.

(** ** The token stream of an input *)

Lemma take_take_drop n m s :
  take n s +:+ take m (drop n s) = take (n + m) s.
Proof.
  revert s. induction n as [|n IH]; intros s; [reflexivity|].
  destruct s as [|c t]; [destruct m; reflexivity|].
  cbn [take drop Nat.add]. rewrite app_String, IH. reflexivity.
Qed.

Lemma slice_cat s a b c :
  0 <= a -> a <= b -> b <= c ->
  slice s a b +:+ slice s b c = slice s a c.
Proof.
  intros Ha Hab Hbc. unfold slice.
  replace (Z.to_nat b) with (Z.to_nat a + Z.to_nat (b - a))%nat by lia.
  rewrite drop_drop, take_take_drop. f_equal. lia.
Qed.

Lemma take_all k s : (String.length s <= k)%nat -> take k s = s.
Proof.
  revert k. induction s as [|c t IH]; intros k H; [destruct k; reflexivity|].
  destruct k as [|k]; [cbn in H; lia|].
  cbn [take]. rewrite IH; [reflexivity|cbn in H; lia].
Qed.

Lemma slice_all s : slice s 0 (len s) = s.
Proof.
  unfold slice, len. cbn [Z.to_nat drop]. apply take_all. lia.
Qed.

(** At the end of the input, and at a NUL byte, [Scan] returns EOF. *)
Lemma Scan_at_end s : peek s = 0 -> Scan s = Ok (emit EOF s).
Proof. intros H. unfold Scan. rewrite H. reflexivity. Qed.

Lemma Scan_EOF_peek s tok s' :
  Scan s = Ok (tok, s') -> Type_ tok = EOF -> peek s = 0.
Proof.
  intros H HT. revert H. unfold Scan, scanHash, scanAt, scanJSONOp2.
  repeat match goal with
         | |- context [if ?c then _ else _] => destruct c eqn:?
         end;
    try (intros _; unfold isEOF in *; Zbool; assumption);
    intros H; exfalso; revert H HT;
    match goal with
    | |- ?r = _ -> _ =>
      assert (Hn : notEOF r);
        [|intros H HT; exact (Hn _ _ H HT)]
    end;
    unfold scanWhitespace, scanNumberWithLeadingSign, scanWildcard,
      scanPunctuation, scanPositionalParameter, scanString,
      scanMultiLineComment, scanDollarQuotedString;
    repeat first
      [ apply scanIdentifier_notEOF | apply scanDoubleQuotedIdentifier_notEOF
      | apply scanNumber_notEOF | apply scanOperator_notEOF
      | apply scanSingleLineComment_notEOF | apply scanBindParameter_notEOF
      | apply scanSystemVariable_notEOF | apply scanDecimalNumber_notEOF
      | apply stringLoop_notEOF | apply multiLineCommentLoop_notEOF
      | apply dollarBodyLoop_notEOF | notEOF_step ].
Qed.

(** The rune under the cursor is [0] at the end of the source and at a NUL
    byte, and nowhere else. *)
Lemma headRune_zero rest :
  headRune rest = 0 <-> rest = "" \/ exists t, rest = String (chr 0) t.
Proof.
  destruct rest as [|c t].
  - split; [left; reflexivity|reflexivity].
  - split.
    + intros H. right. exists t. f_equal.
      destruct (headRune_cases c t) as [[Hlo E]|[Hhi E]]; [|lia].
      rewrite H in E. unfold byte in E.
      rewrite <- (ascii_N_embedding c).
      replace (N_of_ascii c) with 0%N by lia. reflexivity.
    + intros [H|[t' H]]; [discriminate H|]. injection H as -> ->.
      reflexivity.
Qed.

Lemma peek_end s : inRange s -> noNUL (src s) = true -> peek s = 0 ->
  cursor s = len (src s).
Proof.
  intros Hr Hn Hp.
  destruct (Z.eq_dec (cursor s) (len (src s))) as [E|E]; [exact E|].
  exfalso. unfold inRange in Hr.
  assert (Hpos : positioned s (take (Z.to_nat (cursor s)) (src s))
                   (drop (Z.to_nat (cursor s)) (src s))).
  { split; [symmetry; apply take_drop|].
    unfold len. rewrite length_take; unfold len in *; lia. }
  rewrite (peek_positioned _ _ _ Hpos) in Hp.
  apply headRune_zero in Hp.
  assert (Hd : noNUL (drop (Z.to_nat (cursor s)) (src s)) = true).
  { clear - Hn. generalize (Z.to_nat (cursor s)) as k. revert Hn.
    generalize (src s) as str.
    induction str as [|c t IH]; intros Hn k; [destruct k; reflexivity|].
    destruct k as [|k]; [exact Hn|]. cbn [drop]. apply IH.
    cbn [noNUL] in Hn. apply andb_true_iff in Hn. apply Hn. }
  destruct Hp as [Hp|[t Hp]].
  - assert (Hl : String.length (drop (Z.to_nat (cursor s)) (src s)) = 0%nat)
      by (rewrite Hp; reflexivity).
    destruct (drop_some (Z.to_nat (cursor s)) (src s)) as (c & t & Hs);
      [unfold len in *; lia|].
    rewrite Hs in Hp. discriminate Hp.
  - rewrite Hp in Hd. discriminate Hd.
Qed.

Lemma ready_New input dbms : ready (New input dbms).
Proof.
  split; [|reflexivity]. unfold inRange. cbn. pose proof (len_nonneg input).
  lia.
Qed.

Lemma scanAll_spans fuel : forall s toks,
  ready s -> scanAll fuel s = Ok toks ->
  exists e,
    cursor s <= e <= len (src s) /\
    spans (src s) toks = slice (src s) (cursor s) e /\
    (noNUL (src s) = true -> e = len (src s)).
Proof.
  induction fuel as [|f IH]; intros s toks Hrd H; [discriminate H|].
  cbn [scanAll] in H.
  destruct (Scan_returns s Hrd)
    as (tok & s' & HS & Hst & Hen & Hle & Hsrc & _ & Hrd').
  rewrite HS in H. cbn [mbind outcome_bind] in H.
  assert (Hin' : inRange s') by apply Hrd'.
  unfold inRange in Hin'. rewrite Hsrc in Hin'.
  destruct (isType (Type_ tok) EOF) eqn:ET.
  - injection H as <-. exists (cursor s').
    split; [lia|]. split.
    + cbn [spans fold_right]. rewrite app_empty_r. unfold Value.
      rewrite Hst, Hen. reflexivity.
    + intros Hn. apply isType_eq in ET.
      pose proof (Scan_EOF_peek _ _ _ HS ET) as Hp.
      pose proof (Scan_at_end s Hp) as HE. rewrite HE in HS.
      injection HS as _ <-. cbn [emit snd cursor].
      apply peek_end; [apply Hrd|exact Hn|exact Hp].
  - destruct (scanAll f s') as [ts| |] eqn:Ets; try discriminate H.
    cbn [mbind outcome_bind] in H. injection H as <-.
    destruct (IH s' ts Hrd' Ets) as (e & He & Hsp & Hn).
    rewrite Hsrc in *. exists e. split; [lia|]. split; [|exact Hn].
    cbn [spans fold_right]. fold (spans (src s) ts). rewrite Hsp.
    unfold Value. rewrite Hst, Hen.
    apply slice_cat; [apply Hrd|lia|lia].
Qed.

(** X1: on a lexer that stands between two tokens, [Scan] returns: it
    neither panics nor runs for ever. The token starts at the cursor and
    ends where the cursor is left, inside the source; the lexer again stands
    between two tokens of the same source and dialect, with no digit or
    quote offset and no table-indicator flag carried over. *)
Theorem X1_Scan_returns_the_next_span :
  forall s : Lexer,
    ready s ->
    exists tok s',
      Scan s = Ok (tok, s') /\
      Start tok = cursor s /\ End_ tok = cursor s' /\
      cursor s <= cursor s' <= len (src s) /\
      src s' = src s /\ config s' = config s /\ ready s' /\
      digits s' = [] /\ quotes s' = [] /\ isTableIndicator s' = false.
Proof.
  intros s Hrd. destruct (Scan_emits s Hrd) as (t & sf & E & A).
  destruct Hrd as [Hr Hs].
  pose proof (advance_inRange _ _ Hr A) as Hrf.
  destruct A as (A1 & A2 & A3 & A4).
  exists (fst (emit t sf)), (snd (emit t sf)).
  split; [rewrite E; reflexivity|]. cbn.
  repeat split; try congruence; try lia; apply Hrf.
Qed.

(** X2: when the calls of [Scan] on a fresh lexer reach EOF, the spans of
    the tokens returned up to there, put end to end, are a prefix of the
    input, and the whole input when it holds no NUL byte. *)
Theorem X2_tokens_tile_the_input :
  forall (input : string) (dbms : DBMSType) (fuel : nat) (toks : list Token),
    scanAll fuel (New input dbms) = Ok toks ->
    (exists e, 0 <= e <= len input /\ spans input toks = slice input 0 e) /\
    (noNUL input = true -> spans input toks = input).
Proof.
  intros input dbms fuel toks H.
  destruct (scanAll_spans fuel _ _ (ready_New input dbms) H)
    as (e & He & Hsp & Hn).
  cbn [src cursor New] in *. split; [exists e; split; assumption|].
  intros Hnn. rewrite Hsp, (Hn Hnn). apply slice_all.
Qed.

(** X3: [Scan] returns a token of type EOF exactly when the cursor is at the
    end of the source or on a NUL byte. *)
Theorem X3_EOF_at_the_end_or_at_NUL :
  forall (s : Lexer) (before rest : string),
    positioned s before rest ->
    (exists tok s', Scan s = Ok (tok, s') /\ Type_ tok = EOF) <->
    (rest = "" \/ exists t, rest = String (chr 0) t).
Proof.
  intros s before rest Hp.
  rewrite <- headRune_zero, <- (peek_positioned _ _ _ Hp). split.
  - intros (tok & s' & H & HT). exact (Scan_EOF_peek _ _ _ H HT).
  - intros H0. eexists _, _. split; [exact (Scan_at_end s H0)|reflexivity].
Qed.

(** ** Progress of [Scan] *)

Lemma RuneLen_1 r : 0 <= r <= 0x7F -> RuneLen r = 1.
Proof.
  intros H. unfold RuneLen.
  repeat match goal with
         | |- context [if ?b then _ else _] => destruct b eqn:?
         end; Zbool; lia.
Qed.

Lemma RuneLen_2 r : 0x80 <= r <= 0x7FF -> RuneLen r = 2.
Proof.
  intros H. unfold RuneLen.
  repeat match goal with
         | |- context [if ?b then _ else _] => destruct b eqn:?
         end; Zbool; lia.
Qed.

Lemma RuneLen_3 r :
  0x800 <= r <= 0xFFFF -> ~ (0xD800 <= r <= 0xDFFF) -> RuneLen r = 3.
Proof.
  intros H1 H2. unfold RuneLen.
  repeat match goal with
         | |- context [if ?b then _ else _] => destruct b eqn:?
         end; Zbool; lia.
Qed.

Lemma RuneLen_4 r : 0x10000 <= r <= 0x10FFFF -> RuneLen r = 4.
Proof.
  intros H. unfold RuneLen.
  repeat match goal with
         | |- context [if ?b then _ else _] => destruct b eqn:?
         end; Zbool; lia.
Qed.

(** A rune other than [RuneError] is decoded from as many bytes as
    [RuneLen] gives it, all of them present. *)
Lemma decode_width s0 t :
  0 <= s0 ->
  fst (decode (s0 :: t)) <> RuneError ->
  RuneLen (fst (decode (s0 :: t))) = snd (decode (s0 :: t)) /\
  snd (decode (s0 :: t)) <= Z.of_nat (List.length (s0 :: t)).
Proof.
  intros H0. unfold decode.
  destruct (s0 <? 128) eqn:E0.
  { apply Z.ltb_lt in E0. intros _. cbn [fst snd List.length].
    split; [apply RuneLen_1; lia|lia]. }
  unfold leadInfo, cont.
  repeat match goal with
         | |- context [if ?b then _ else _] =>
           lazymatch b with
           | (_ <? _) => destruct b eqn:?
           | (_ <=? _) => destruct b eqn:?
           | (_ =? _) => destruct b eqn:?
           | (_ || _)%bool => destruct b eqn:?
           | negb _ => destruct b eqn:?
           end
         | |- context [match ?l with [] => _ | _ :: _ => _ end] =>
           destruct l
         end;
    cbn [fst snd]; try (intros H; exfalso; apply H; reflexivity); intros _;
    Zbool; try lia;
    (split; [|cbn [List.length] in *; lia]);
    repeat match goal with
           | |- context [low6 ?b] =>
             rewrite (low6_exact b) by lia
           end.
  all: try (assert (E : Z.land s0 0x1F = s0 - 192)
      by (apply (land_mask_lead s0 5 192); [lia|reflexivity|simpl; lia]);
    rewrite E).
  all: try (assert (E : Z.land s0 0x0F = s0 - 224)
      by (apply (land_mask_lead s0 4 224); [lia|reflexivity|simpl; lia]);
    rewrite E).
  all: try (assert (E : Z.land s0 0x07 = s0 - 240)
      by (apply (land_mask_lead s0 3 240); [lia|reflexivity|simpl; lia]);
    rewrite E).
  all: shifts.
  all: match goal with
       | |- RuneLen ?r = 2 => apply RuneLen_2; lor_term2 r; lia
       | |- RuneLen ?r = 3 =>
         apply RuneLen_3; [lor_term2 r; lia|lor_term2 r; lia]
       | |- RuneLen ?r = 4 => apply RuneLen_4; lor_term2 r; lia
       end.
Qed.

Lemma length_bytes s : List.length (bytes s) = String.length s.
Proof. induction s as [|c t IH]; [reflexivity|]. cbn. rewrite IH. reflexivity. Qed.

Lemma length_take_le k s : (String.length (take k s) <= String.length s)%nat.
Proof.
  revert s. induction k as [|k IH]; intros s; [cbn; lia|].
  destruct s as [|c t]; [cbn; lia|]. cbn [take String.length].
  specialize (IH t). lia.
Qed.

Lemma length_drop k s :
  String.length (drop k s) = (String.length s - k)%nat.
Proof.
  revert s. induction k as [|k IH]; intros s; [cbn; lia|].
  destruct s as [|c t]; [reflexivity|]. cbn [drop String.length]. apply IH.
Qed.

(** The bytes of the rune under the cursor lie inside the source. *)
Lemma peek_fits s :
  inRange s -> peek s <> 0 -> peek s <> RuneError ->
  cursor s + RuneLen (peek s) <= len (src s).
Proof.
  intros Hr Hnz Hne. pose proof (peek_nonzero s Hnz) as Hlt.
  unfold peek, lookAhead in *.
  destruct ((len (src s) <=? cursor s + 0) || (cursor s + 0 <? 0)) eqn:E;
    [exfalso; apply Hnz; reflexivity|].
  replace (cursor s + 0) with (cursor s) in * by lia.
  unfold DecodeRuneInString, from in *. unfold inRange in Hr.
  pose proof (length_drop (Z.to_nat (cursor s)) (src s)) as Hl.
  destruct (drop (Z.to_nat (cursor s)) (src s)) as [|c t] eqn:Ed.
  { cbn in Hl. unfold len in *. lia. }
  change (bytes (take 4 (String c t))) with (byte c :: bytes (take 3 t)) in *.
  destruct (decode_width (byte c) (bytes (take 3 t))
              ltac:(apply byte_range) Hne) as [Hw Hfit].
  rewrite Hw. cbn [List.length] in Hfit. rewrite length_bytes in Hfit.
  pose proof (length_take_le 3 t). cbn [String.length] in Hl.
  unfold len in *. lia.
Qed.

Lemma emitsPast_after s s1 r :
  advance s s1 -> cursor s < cursor s1 -> emits s1 r -> emitsPast s r.
Proof.
  intros Ha Hlt (t & sf & E & A). exists t, sf. split; [exact E|].
  split; [exact (advance_trans _ _ _ Ha A)|].
  destruct A as (_ & _ & _ & A4). lia.
Qed.

Lemma emitsPast_emits s r : emitsPast s r -> emits s r.
Proof. intros (t & sf & E & A & _). exists t, sf. split; assumption. Qed.

(** A scanner that first reads one byte, or two, and goes on from there. *)
Lemma past_via_next m (F : Z -> Lexer -> outcome (Token * Lexer)) :
  inRange m -> cursor m < len (src m) ->
  (forall ch s1,
      advance m s1 -> inRange s1 -> validRune ch ->
      (ch <> 0 -> cursor s1 < len (src s1)) ->
      (remaining s1 < loopFuel m)%nat -> emits s1 (F ch s1)) ->
  emitsPast m (let '(ch, s1) := next m in F ch s1).
Proof.
  intros Hr Hlt HF.
  destruct (next_spec m Hr) as (ch & s1 & Hn & Ha & Hv & Hnz & Hc).
  specialize (Hc Hlt). rewrite Hn.
  apply (emitsPast_after _ _ _ Ha); [lia|].
  apply HF; try assumption.
  - exact (advance_inRange _ _ Hr Ha).
  - exact (fuel_after _ _ Hr Ha).
Qed.

Lemma past_via_nextBy m n (F : Z -> Lexer -> outcome (Token * Lexer)) :
  inRange m -> 0 < n -> cursor m + n <= len (src m) ->
  (forall ch s1,
      advance m s1 -> inRange s1 -> validRune ch ->
      (ch <> 0 -> cursor s1 < len (src s1)) ->
      (remaining s1 < loopFuel m)%nat -> emits s1 (F ch s1)) ->
  emitsPast m (let '(ch, s1) := nextBy m n in F ch s1).
Proof.
  intros Hr Hn Hfit HF.
  destruct (nextBy_spec m n Hr ltac:(lia))
    as (ch & s1 & Hnx & Ha & Hv & Hnz & Hc & _).
  specialize (Hc Hfit). rewrite Hnx.
  apply (emitsPast_after _ _ _ Ha); [lia|].
  apply HF; try assumption.
  - exact (advance_inRange _ _ Hr Ha).
  - exact (fuel_after _ _ Hr Ha).
Qed.

Lemma scanString_past s :
  inRange s -> cursor s < len (src s) -> emitsPast (markStart s) (scanString s).
Proof.
  intros Hr Hlt. unfold scanString. cbv zeta.
  apply (past_via_next (markStart s)
           (fun ch s1 => stringLoop (loopFuel (markStart s)) false ch s1));
    [exact Hr|exact Hlt|].
  intros. apply stringLoop_emits; assumption.
Qed.

Lemma scanWhitespace_past s :
  inRange s -> cursor s < len (src s) ->
  emitsPast (markStart s) (scanWhitespace s).
Proof.
  intros Hr Hlt. unfold scanWhitespace. cbv zeta.
  apply (past_via_next (markStart s)
           (fun ch s1 =>
              s2 ← whitespaceLoop (loopFuel (markStart s)) ch s1;
              mret (emit WS s2)));
    [exact Hr|exact Hlt|].
  intros. apply emits_moves. apply whitespaceLoop_moves; assumption.
Qed.

Lemma scanDoubleQuotedIdentifier_past d s :
  inRange s -> cursor s < len (src s) ->
  emitsPast (markStart s) (scanDoubleQuotedIdentifier d s).
Proof.
  intros Hr Hlt. unfold scanDoubleQuotedIdentifier. cbv zeta.
  set (m := appendQuote (markStart s) (cursor (markStart s))).
  assert (E : emitsPast m
            (let '(ch, s1) := next m in
             quotedLoop (loopFuel m) d
               (if d =? rune "[" then rune "]" else d) ch s1)).
  { apply (past_via_next m
             (fun ch s1 => quotedLoop (loopFuel m) d
                             (if d =? rune "[" then rune "]" else d) ch s1));
      [exact Hr|exact Hlt|].
    intros. apply quotedLoop_emits; assumption. }
  exact E.
Qed.

Lemma emitsPast_next_token t s :
  inRange s -> cursor s < len (src s) ->
  emitsPast s (Ok (emit t (snd (next s)))).
Proof.
  intros Hr Hlt. destruct (next_spec s Hr) as (ch & s1 & Hn & Ha & _ & _ & Hc).
  specialize (Hc Hlt). rewrite Hn. cbn [snd].
  apply (emitsPast_after _ _ _ Ha); [lia|].
  apply emits_here. exact (advance_inRange _ _ Hr Ha).
Qed.

Lemma scanWildcard_past s :
  inRange s -> cursor s < len (src s) ->
  emitsPast (markStart s) (scanWildcard s).
Proof. intros Hr Hlt. apply emitsPast_next_token; assumption. Qed.

Lemma scanPunctuation_past s :
  inRange s -> cursor s < len (src s) ->
  emitsPast (markStart s) (scanPunctuation s).
Proof. intros Hr Hlt. apply emitsPast_next_token; assumption. Qed.

Lemma scanNumberWithLeadingSign_past s :
  inRange s -> cursor s < len (src s) ->
  emitsPast (markStart s) (scanNumberWithLeadingSign s).
Proof.
  intros Hr Hlt. unfold scanNumberWithLeadingSign. cbv zeta.
  destruct (next_spec (markStart s) Hr) as (ch & s1 & Hn & Ha & _ & _ & Hc).
  specialize (Hc Hlt). rewrite Hn. cbn [snd].
  apply (emitsPast_after _ _ _ Ha); [lia|].
  apply scanDecimalNumber_emits. exact (advance_inRange (markStart s) _ Hr Ha).
Qed.

Lemma scanOperator_past lastCh s :
  inRange s -> cursor s < len (src s) ->
  emitsPast (markStart s) (scanOperator lastCh s).
Proof.
  intros Hr Hlt. unfold scanOperator. cbv zeta.
  apply (past_via_next (markStart s)); [exact Hr|exact Hlt|].
  intros ch s1 Ha H Hv Hnz Hf.
  assert (Htwo : emits s1
            (let '(ch', s2) := next s1 in
             if ch' =? rune ">" then Ok (emit JSON_OP (snd (next s2)))
             else Ok (emit JSON_OP s2))).
  { destruct (next_spec s1 H) as (ch' & s2 & Hn2 & Ha2 & _).
    rewrite Hn2. apply (emits_after _ _ _ Ha2).
    pose proof (advance_inRange _ _ H Ha2) as Hr2.
    destruct (ch' =? rune ">"); [apply emits_next_token|apply emits_here];
      exact Hr2. }
  repeat match goal with
         | |- emits _ (if ?c then _ else _) => destruct c
         end;
    try exact Htwo; try (apply emits_next_token; exact H).
  apply emits_moves. apply operatorLoop_moves; assumption.
Qed.

Lemma scanHexNumber_past s :
  inRange s -> cursor s + 2 <= len (src s) -> emitsPast s (scanHexNumber s).
Proof.
  intros Hr Hfit. unfold scanHexNumber.
  apply (past_via_nextBy s 2); [exact Hr|lia|exact Hfit|].
  intros. apply emits_moves. apply hexLoop_moves; assumption.
Qed.

Lemma scanOctalNumber_past s :
  inRange s -> cursor s + 2 <= len (src s) -> emitsPast s (scanOctalNumber s).
Proof.
  intros Hr Hfit. unfold scanOctalNumber.
  apply (past_via_nextBy s 2); [exact Hr|lia|exact Hfit|].
  intros. apply emits_moves. apply octalLoop_moves; assumption.
Qed.

Lemma scanNumber_past ch s :
  inRange s -> cursor s < len (src s) ->
  emitsPast (markStart s) (scanNumber ch s).
Proof.
  intros Hr Hlt. unfold scanNumber, scanNumberic. cbv zeta.
  change (markStart (markStart s)) with (markStart s).
  assert (Hfit : lookAhead (markStart s) 1 <> 0 ->
                 cursor (markStart s) + 2 <= len (src (markStart s))).
  { intros H. pose proof (lookAhead_nonzero (markStart s) 1 H). lia. }
  match goal with
  | |- context [if ?c then _ else _] => destruct c eqn:E1
  end.
  { apply scanHexNumber_past; [exact Hr|]. apply Hfit. intros E0.
    rewrite E0 in E1. rewrite andb_false_r in E1. discriminate E1. }
  match goal with
  | |- context [if ?c then _ else _] => destruct c eqn:E2
  end.
  { apply scanOctalNumber_past; [exact Hr|]. apply Hfit. intros E0.
    rewrite E0 in E2. rewrite andb_false_r in E2. discriminate E2. }
  destruct (next_spec (markStart s) Hr) as (ch' & s1 & Hn & Ha & _ & _ & Hc).
  specialize (Hc Hlt). rewrite Hn. cbn [snd].
  apply (emitsPast_after _ _ _ Ha); [lia|].
  apply scanDecimalNumber_emits. exact (advance_inRange (markStart s) _ Hr Ha).
Qed.

Lemma scanSingleLineComment_past s :
  inRange s -> cursor s + 2 <= len (src s) ->
  emitsPast (markStart s) (scanSingleLineComment s).
Proof.
  intros Hr Hfit. unfold scanSingleLineComment. cbv zeta.
  apply (past_via_nextBy (markStart s) 2); [exact Hr|lia|exact Hfit|].
  intros. apply emits_moves. apply lineCommentLoop_moves; assumption.
Qed.

Lemma scanMultiLineComment_past s :
  inRange s -> cursor s + 2 <= len (src s) ->
  emitsPast (markStart s) (scanMultiLineComment s).
Proof.
  intros Hr Hfit. unfold scanMultiLineComment. cbv zeta.
  apply (past_via_nextBy (markStart s) 2); [exact Hr|lia|exact Hfit|].
  intros. apply multiLineCommentLoop_emits; assumption.
Qed.

Lemma scanPositionalParameter_past s :
  inRange s -> cursor s + 2 <= len (src s) ->
  emitsPast (markStart s) (scanPositionalParameter s).
Proof.
  intros Hr Hfit. unfold scanPositionalParameter. cbv zeta.
  apply (past_via_nextBy (markStart s) 2); [exact Hr|lia|exact Hfit|].
  intros. apply emits_moves. apply digitLoop_moves; assumption.
Qed.

Lemma scanBindParameter_past s :
  inRange s -> cursor s + 2 <= len (src s) ->
  emitsPast (markStart s) (scanBindParameter s).
Proof.
  intros Hr Hfit. unfold scanBindParameter. cbv zeta.
  apply (past_via_nextBy (markStart s) 2); [exact Hr|lia|exact Hfit|].
  intros. apply emits_moves. apply alphaNumericLoop_moves; assumption.
Qed.

Lemma scanSystemVariable_past s :
  inRange s -> cursor s + 2 <= len (src s) ->
  emitsPast (markStart s) (scanSystemVariable s).
Proof.
  intros Hr Hfit. unfold scanSystemVariable. cbv zeta.
  apply (past_via_nextBy (markStart s) 2); [exact Hr|lia|exact Hfit|].
  intros ch s1 Ha H Hv Hnz Hf.
  destruct (negb (isAlphaNumeric ch)); [apply emits_here; assumption|].
  apply emits_moves. apply alphaNumericLoop_moves; assumption.
Qed.

Lemma scanJSONOp2_past s :
  inRange s -> cursor s + 2 <= len (src s) ->
  emitsPast (markStart s) (scanJSONOp2 s).
Proof.
  intros Hr Hfit. unfold scanJSONOp2.
  destruct (nextBy_spec (markStart s) 2 Hr ltac:(lia))
    as (ch & s1 & Hn & Ha & _ & _ & Hc & _).
  specialize (Hc Hfit). rewrite Hn. cbn [snd].
  apply (emitsPast_after _ _ _ Ha); [lia|].
  apply emits_here. exact (advance_inRange (markStart s) _ Hr Ha).
Qed.

Lemma scanDollarQuotedString_past s :
  inRange s -> cursor s < len (src s) ->
  emitsPast (markStart s) (scanDollarQuotedString s).
Proof.
  intros Hr Hlt.
  destruct (scanDollarQuotedString_emits s Hr Hlt) as (t & sf & E & A).
  exists t, sf. split; [exact E|]. split; [exact A|].
  revert E. unfold scanDollarQuotedString. cbv zeta.
  destruct (next_spec (markStart s) Hr) as (ch & s1 & Hn & Ha & _ & _ & Hc).
  specialize (Hc Hlt). rewrite Hn.
  pose proof (advance_inRange (markStart s) _ Hr Ha) as Hr1.
  destruct (tagLoop_moves (loopFuel (markStart s)) ch s1 Hr1
              (fuel_after (markStart s) _ Hr Ha)) as (s2 & E2 & A2).
  rewrite E2. cbn [mbind outcome_bind].
  pose proof (advance_inRange _ _ Hr1 A2) as Hr2.
  destruct (next_spec s2 Hr2) as (ch3 & s3 & Hn3 & A3 & _).
  rewrite Hn3. cbn [snd].
  pose proof (advance_inRange _ _ Hr2 A3) as Hr3.
  destruct (sliceChecked _ _ _) as [tag| |]; cbn [mbind outcome_bind];
    try discriminate.
  intros E.
  destruct (dollarBodyLoop_emits (loopFuel (markStart s)) tag s3 Hr3
              (fuel_after (markStart s) _ Hr
                 (advance_trans _ _ _ Ha (advance_trans _ _ _ A2 A3))))
    as (t' & sf' & E' & A').
  rewrite E' in E. injection E as _ _ _ E _ _ _ _.
  destruct A2 as (_ & _ & _ & B2). destruct A3 as (_ & _ & _ & B3).
  destruct A' as (_ & _ & _ & B'). change (cursor (markStart s)) with (cursor s) in *.
  lia.
Qed.

Lemma identifierLoop_past fuel ch s :
  inRange s -> validRune ch -> isIdentifier ch = true ->
  cursor s + RuneLen ch <= len (src s) ->
  (remaining s < fuel)%nat ->
  exists ch' s',
    identifierLoop fuel ch s = Ok (ch', s') /\ advance s s' /\
    cursor s < cursor s'.
Proof.
  intros Hr Hv Hid Hfit Hf. destruct fuel as [|f]; [lia|].
  cbn [identifierLoop]. rewrite Hid.
  set (s1 := if isDigit ch then appendDigit s (cursor s) else s).
  assert (Hr1 : inRange s1) by (unfold s1; destruct (isDigit ch); exact Hr).
  assert (Ha1 : advance s s1)
    by (unfold s1; destruct (isDigit ch); exact (advance_refl s Hr)).
  assert (Hc1 : cursor s1 = cursor s /\ src s1 = src s)
    by (unfold s1; destruct (isDigit ch); split; reflexivity).
  unfold validRune in Hv.
  destruct (nextBy_spec s1 (RuneLen ch) Hr1 ltac:(lia))
    as (ch' & s2 & Hn & Ha & Hv' & Hnz & Hc & _).
  rewrite Hn. destruct Hc1 as [Hc1 Hs1].
  specialize (Hc ltac:(rewrite Hc1, Hs1; exact Hfit)).
  pose proof (advance_inRange _ _ Hr1 Ha) as Hr2.
  destruct (identifierLoop_moves f ch' s2 Hr2 Hv') as (ch'' & s3 & E3 & A3).
  { pose proof (remaining_advance s1 s2 Ha ltac:(lia)).
    unfold remaining in *. rewrite Hc1, Hs1 in *. lia. }
  exists ch'', s3. split; [exact E3|].
  split; [exact (advance_trans _ _ _ Ha1 (advance_trans _ _ _ Ha A3))|].
  destruct A3 as (_ & _ & _ & A4). lia.
Qed.

Lemma keywordLoop_past fuel node pos ch s :
  inRange s -> isAsciiLetter ch || (ch =? rune "_") = true ->
  cursor s < len (src s) ->
  (remaining s < fuel)%nat ->
  exists node' pos' ch' s',
    keywordLoop fuel node pos ch s = Ok (node', pos', ch', s') /\
    advance s s' /\ validRune ch' /\
    (isEnd node' = true -> pos' + 1 = cursor s') /\
    cursor s < cursor s'.
Proof.
  intros Hr E Hlt Hf. destruct fuel as [|f]; [lia|].
  cbn [keywordLoop]. rewrite E.
  destruct (next_spec s Hr) as (ch' & s' & Hn & Ha & Hv' & Hnz' & Hc).
  specialize (Hc Hlt). rewrite Hn.
  pose proof (advance_inRange _ _ Hr Ha) as Hr'.
  destruct (lookupChild (children node) _) as [next_|].
  - destruct (keywordLoop_moves f next_ (cursor s) ch' s' Hr' Hv' Hnz')
      as (n' & p' & c' & s'' & E' & A' & V' & R').
    + intros _. symmetry. exact Hc.
    + pose proof (remaining_advance s s' Ha ltac:(lia)). lia.
    + exists n', p', c', s''. split; [exact E'|].
      split; [exact (advance_trans _ _ _ Ha A')|].
      split; [exact V'|]. split; [exact R'|].
      destruct A' as (_ & _ & _ & A4). lia.
  - exists keywordRoot, pos, ch', s'. split; [reflexivity|].
    split; [exact Ha|]. split; [exact Hv'|].
    split; [rewrite keywordRoot_not_end; discriminate|lia].
Qed.

Lemma scanIdentifier_past s :
  inRange s -> peek s <> 0 -> peek s <> RuneError ->
  isIdentifier (peek s) = true ->
  emitsPast (markStart s) (scanIdentifier (peek s) s).
Proof.
  intros Hr Hnz Hne Hid. unfold scanIdentifier. cbv zeta.
  set (m := markStart s). set (ch := peek s) in *.
  assert (Hm : inRange m) by exact Hr.
  assert (Hv : validRune ch) by apply lookAhead_valid.
  pose proof (peek_fits s Hr Hnz Hne) as Hfit. fold ch in Hfit.
  pose proof (peek_nonzero s Hnz) as Hlt.
  pose proof (fuel_suffices m m Hm eq_refl) as Hf.
  destruct (127 <? ch).
  - destruct (identifierLoop_past _ ch m Hm Hv Hid Hfit Hf)
      as (ch' & s1 & E & A & Hp).
    rewrite E. exists IDENT, s1. split; [reflexivity|]. split; assumption.
  - assert (Hrest : forall ch1 s1,
               advance m s1 -> validRune ch1 -> cursor m < cursor s1 ->
               emitsPast m
                 ('(ch2, s2) ← identifierLoop (loopFuel m) ch1 s1;
                  if ch2 =? rune "(" then mret (emit FUNCTION s2)
                  else mret (emit IDENT s2))).
    { intros ch1 s1 A Hv1 Hp.
      destruct (identifierLoop_moves _ ch1 s1 (advance_inRange _ _ Hm A) Hv1
                  (fuel_after _ _ Hm A)) as (ch2 & s2 & E2 & A2).
      rewrite E2. cbn [mbind outcome_bind].
      assert (Hp2 : cursor m < cursor s2)
        by (destruct A2 as (_ & _ & _ & A4); lia).
      destruct (ch2 =? rune "("); eexists _, _;
        (split; [reflexivity|]);
        (split; [exact (advance_trans _ _ _ A A2)|exact Hp2]). }
    destruct (isAsciiLetter ch || (ch =? rune "_")) eqn:El.
    + destruct (keywordLoop_past _ keywordRoot (cursor m) ch m Hm El Hlt Hf)
        as (node & pos & ch1 & s1 & E & A & Hv1 & HJ & Hp).
      rewrite E. cbn [mbind outcome_bind].
      destruct (isEnd node) eqn:Ee; cbn [andb]; [|apply Hrest; assumption].
      destruct (isPunctuation (peek s1) || isWhitespace (peek s1)
                || isEOF (peek s1)); [|apply Hrest; assumption].
      eexists _, _. split; [reflexivity|].
      rewrite (HJ eq_refl). split; [exact A|exact Hp].
    + assert (Ek : keywordLoop (loopFuel m) keywordRoot (cursor m) ch m
                   = Ok (keywordRoot, cursor m, ch, m)).
      { unfold loopFuel. cbn [keywordLoop]. rewrite El. reflexivity. }
      rewrite Ek. cbn [mbind outcome_bind].
      rewrite keywordRoot_not_end. cbn [andb].
      destruct (identifierLoop_past _ ch m Hm Hv Hid Hfit Hf)
        as (ch2 & s2 & E2 & A2 & Hp2).
      rewrite E2. cbn [mbind outcome_bind].
      destruct (ch2 =? rune "("); eexists _, _;
        (split; [reflexivity|]); (split; [exact A2|exact Hp2]).
Qed.

Lemma scanIdentifier_backtick s :
  scanIdentifier (rune "`") s = Ok (emit IDENT (markStart s)).
Proof. reflexivity. Qed.

Lemma scanSingleLineComment_short s :
  len (src s) < cursor s + 2 ->
  scanSingleLineComment s = Ok (emit COMMENT (markStart s)).
Proof.
  intros H. unfold scanSingleLineComment, nextBy. cbv zeta.
  cbn [src cursor markStart].
  destruct (len (src s) <? cursor s + 2) eqn:E; [reflexivity|Zbool; lia].
Qed.

(** What is read one byte ahead is there to be consumed. *)
Lemma two_fit s : inRange s -> lookAhead s 1 <> 0 -> cursor s + 2 <= len (src s).
Proof. intros Hr H. pose proof (lookAhead_nonzero s 1 H). lia. Qed.

Ltac live E :=
  let E0 := fresh in
  intros E0; rewrite E0 in E; vm_compute in E; discriminate E.

Lemma isLetter_identifier ch : isLetter ch = true -> isIdentifier ch = true.
Proof.
  intros H. unfold isIdentifier. rewrite H.
  rewrite orb_true_r. reflexivity.
Qed.

Lemma scanHash_past_or_still s :
  ready s -> (peek s = rune "#" \/ peek s = rune "`") ->
  isDBMS (config s) DBMSMySQL = false \/ peek s = rune "#" ->
  emitsPast s (scanHash (peek s) s) \/
  exists t, scanHash (peek s) s = Ok (emit t s) /\ standsStill s t.
Proof.
  intros [Hr Hs] Hch Hmy. pose proof (markStart_ready s Hs) as Hm.
  assert (Hnz : peek s <> 0) by (destruct Hch as [E|E]; rewrite E; discriminate).
  pose proof (peek_nonzero s Hnz) as Hlt.
  unfold scanHash.
  destruct (isDBMS (config s) DBMSSQLServer) eqn:Esql.
  { apply bool_decide_eq_true in Esql. destruct Hch as [E|E].
    - left. rewrite <- Hm at 1. apply scanIdentifier_past;
        [exact Hr|exact Hnz|rewrite E; discriminate|rewrite E; reflexivity].
    - right. exists IDENT. rewrite E, scanIdentifier_backtick, Hm.
      split; [reflexivity|]. right. right. right. repeat split; assumption. }
  destruct (isDBMS (config s) DBMSMySQL) eqn:Emy.
  { apply bool_decide_eq_true in Emy.
    destruct Hmy as [Hmy|E]; [discriminate Hmy|].
    destruct (Z_le_gt_dec (cursor s + 2) (len (src s))) as [Hfit|Hno].
    - left. rewrite <- Hm at 1. apply scanSingleLineComment_past; assumption.
    - right. exists COMMENT. rewrite scanSingleLineComment_short, Hm by lia.
      split; [reflexivity|]. right. right. left.
      repeat split; try assumption. lia. }
  left. rewrite <- Hm at 1. apply scanOperator_past; assumption.
Qed.

Lemma scanAt_past s :
  inRange s -> cursor s < len (src s) -> peek s = rune "@" ->
  emitsPast (markStart s) (scanAt (peek s) s).
Proof.
  intros Hr Hlt E. unfold scanAt.
  destruct (lookAhead s 1 =? rune "@") eqn:E1.
  { assert (Hfit : cursor s + 2 <= len (src s))
      by (apply two_fit; [exact Hr|]; Zbool; rewrite E1; discriminate).
    destruct (isAlphaNumeric (lookAhead s 2));
      [apply scanSystemVariable_past|apply scanJSONOp2_past]; assumption. }
  destruct (isAlphaNumeric (lookAhead s 1)) eqn:E2.
  { assert (Hfit : cursor s + 2 <= len (src s))
      by (apply two_fit; [exact Hr|]; live E2).
    destruct (isDBMS (config s) DBMSSnowflake).
    - apply scanIdentifier_past;
        [exact Hr|rewrite E; discriminate|rewrite E; discriminate
        |rewrite E; reflexivity].
    - apply scanBindParameter_past; assumption. }
  destruct ((lookAhead s 1 =? rune "?") || (lookAhead s 1 =? rune ">")) eqn:E3.
  { apply scanJSONOp2_past; [exact Hr|]. apply two_fit; [exact Hr|]. live E3. }
  apply scanOperator_past; assumption.
Qed.

Lemma Scan_past_or_still s :
  (peek s = RuneError -> unicodeIsLetter RuneError = false) ->
  ready s ->
  emitsPast s (Scan s) \/
  exists t, Scan s = Ok (emit t s) /\ standsStill s t.
Proof.
  intros Htable Hrd. pose proof Hrd as [Hr Hs].
  pose proof (markStart_ready s Hs) as Hm.
  pose proof (peek_nonzero s) as Hlive.
  unfold Scan. cbv zeta.
  destruct (isWhitespace (peek s)) eqn:E1.
  { left. rewrite <- Hm at 1. apply scanWhitespace_past; [exact Hr|].
    apply Hlive. live E1. }
  destruct (isLetter (peek s)) eqn:E2.
  { left. rewrite <- Hm at 1. apply scanIdentifier_past; [exact Hr|live E2| |].
    - intros E0. rewrite E0 in E2. unfold isLetter in E2.
      rewrite (Htable E0) in E2. vm_compute in E2. discriminate E2.
    - apply isLetter_identifier, E2. }
  destruct (isDoubleQuote (peek s)) eqn:E3.
  { left. rewrite <- Hm at 1.
    apply scanDoubleQuotedIdentifier_past; [exact Hr|].
    apply Hlive. live E3. }
  destruct (isSingleQuote (peek s)) eqn:E4.
  { left. rewrite <- Hm at 1. apply scanString_past; [exact Hr|].
    apply Hlive. live E4. }
  destruct (isSingleLineComment (peek s) (lookAhead s 1)) eqn:E5.
  { left. rewrite <- Hm at 1. apply scanSingleLineComment_past; [exact Hr|].
    apply two_fit; [exact Hr|]. intros E0. rewrite E0 in E5.
    unfold isSingleLineComment in E5. rewrite andb_false_r in E5.
    discriminate E5. }
  destruct (isMultiLineComment (peek s) (lookAhead s 1)) eqn:E6.
  { left. rewrite <- Hm at 1. apply scanMultiLineComment_past; [exact Hr|].
    apply two_fit; [exact Hr|]. intros E0. rewrite E0 in E6.
    unfold isMultiLineComment in E6. rewrite andb_false_r in E6.
    discriminate E6. }
  destruct (isLeadingSign (peek s)) eqn:E7.
  { left. rewrite <- Hm at 1.
    assert (Hlt : cursor s < len (src s)) by (apply Hlive; live E7).
    destruct (isDigit (lookAhead s 1) || (lookAhead s 1 =? rune "."));
      [apply scanNumberWithLeadingSign_past|apply scanOperator_past];
      assumption. }
  destruct (isDigit (peek s)) eqn:E8.
  { left. rewrite <- Hm at 1. apply scanNumber_past; [exact Hr|].
    apply Hlive. live E8. }
  destruct (isWildcard (peek s)) eqn:E9.
  { left. rewrite <- Hm at 1. apply scanWildcard_past; [exact Hr|].
    apply Hlive. live E9. }
  destruct (peek s =? rune "$") eqn:E10.
  { left. rewrite <- Hm at 1.
    assert (Hlt : cursor s < len (src s)) by (apply Hlive; live E10).
    destruct (isDigit (lookAhead s 1)) eqn:Ed.
    { apply scanPositionalParameter_past; [exact Hr|].
      apply two_fit; [exact Hr|]. live Ed. }
    Zbool.
    destruct (isDBMS (config s) DBMSSQLServer && isLetter (lookAhead s 1)).
    - apply scanIdentifier_past;
        [exact Hr|rewrite E10; discriminate|rewrite E10; discriminate
        |rewrite E10; reflexivity].
    - apply scanDollarQuotedString_past; assumption. }
  destruct (peek s =? rune ":") eqn:E11.
  { left. rewrite <- Hm at 1.
    assert (Hlt : cursor s < len (src s)) by (apply Hlive; live E11).
    destruct (isDBMS (config s) DBMSOracle && isAlphaNumeric (lookAhead s 1))
      eqn:Eo.
    - apply scanBindParameter_past; [exact Hr|].
      apply two_fit; [exact Hr|]. intros E0. rewrite E0 in Eo.
      rewrite andb_false_r in Eo. discriminate Eo.
    - apply scanOperator_past; assumption. }
  destruct (peek s =? rune "`") eqn:E12.
  { assert (Hlt : cursor s < len (src s)) by (apply Hlive; live E12).
    destruct (isDBMS (config s) DBMSMySQL) eqn:Emy.
    - left. rewrite <- Hm at 1.
      apply scanDoubleQuotedIdentifier_past; assumption.
    - Zbool. apply scanHash_past_or_still;
        [exact Hrd|right; exact E12|left; exact Emy]. }
  destruct (peek s =? rune "#") eqn:E13.
  { Zbool. apply scanHash_past_or_still;
      [exact Hrd|left; exact E13|right; exact E13]. }
  destruct (peek s =? rune "@") eqn:E14.
  { left. rewrite <- Hm at 1. Zbool. apply scanAt_past; [exact Hr| |exact E14].
    apply Hlive. rewrite E14. discriminate. }
  destruct (isOperator (peek s)) eqn:E15.
  { left. rewrite <- Hm at 1. apply scanOperator_past; [exact Hr|].
    apply Hlive. live E15. }
  destruct (isPunctuation (peek s)) eqn:E16.
  { left. rewrite <- Hm at 1.
    assert (Hlt : cursor s < len (src s)) by (apply Hlive; live E16).
    destruct ((peek s =? rune "[") && isDBMS (config s) DBMSSQLServer);
      [apply scanDoubleQuotedIdentifier_past|apply scanPunctuation_past];
      assumption. }
  right. destruct (isEOF (peek s)) eqn:E17.
  - exists EOF. split; [reflexivity|]. left. split; [reflexivity|].
    unfold isEOF in E17. Zbool. exact E17.
  - exists UNKNOWN. split; [reflexivity|]. right. left. reflexivity.
Qed.

(** X4: a call of [Scan] moves the cursor forward by at least one byte,
    except in four cases, in which the token has no byte and the cursor
    stays: the end of the stream (EOF), a code point that no case of [Scan]
    takes (UNKNOWN), a [#] that is the last byte of the source under the
    MySQL dialect (COMMENT), and a backtick under the SQL Server dialect
    (IDENT). The table of [unicode.IsLetter] does not hold U+FFFD. *)
Theorem X4_Scan_moves_forward_but_for_four_cases :
  unicodeIsLetter RuneError = false ->
  forall (s : Lexer) (tok : Token) (s' : Lexer),
    ready s ->
    Scan s = Ok (tok, s') ->
    cursor s < cursor s' \/
    (cursor s' = cursor s /\ End_ tok = Start tok /\
     standsStill s (Type_ tok)).
Proof.
  intros Htable s tok s' Hrd H.
  destruct (Scan_past_or_still s (fun _ => Htable) Hrd)
    as [(t & sf & E & A & Hp)|(t & E & Hst)];
    rewrite E in H; injection H as <- <-.
  - left. exact Hp.
  - right. cbn. destruct Hrd as [_ Hs].
    repeat split; [symmetry; exact Hs|exact Hst].
Qed.
(** ** Tokens of no byte, and what they do to [Normalize] *)

Lemma positioned_inRange s before rest : positioned s before rest -> inRange s.
Proof.
  intros [Hs Hc]. unfold inRange. rewrite Hs, Hc, len_app.
  pose proof (len_nonneg before). pose proof (len_nonneg rest). lia.
Qed.

Lemma positioned_afterEmit s before rest :
  positioned s before rest -> positioned (afterEmit s) before rest.
Proof. exact (fun H => H). Qed.

Lemma Scan_hash_at_end_MySQL s before :
  positioned s before "#" -> start s = cursor s -> config s = DBMSMySQL ->
  Scan s = Ok (emit COMMENT s).
Proof.
  intros Hp Hs Hc.
  pose proof (peek_positioned _ _ _ Hp) as Hpeek.
  change (headRune "#") with (rune "#") in Hpeek.
  pose proof (positioned_len _ _ _ Hp) as Hl. change (len "#") with 1 in Hl.
  unfold Scan. cbv zeta. rewrite Hpeek.
  assert (E1 : lookAhead s 1 = 0).
  { rewrite (lookAhead1_positioned _ _ _ Hp). reflexivity. }
  rewrite E1. cbn -[scanHash]. unfold scanHash. rewrite Hc. cbn [isDBMS].
  rewrite scanSingleLineComment_short by lia.
  rewrite (markStart_ready s Hs). reflexivity.
Qed.

Lemma Scan_backtick_SQLServer s before rest :
  positioned s before (String "`" rest) -> start s = cursor s ->
  config s = DBMSSQLServer ->
  Scan s = Ok (emit IDENT s).
Proof.
  intros Hp Hs Hc.
  pose proof (peek_positioned _ _ _ Hp) as Hpeek.
  rewrite headRune_low in Hpeek by (vm_compute; reflexivity).
  change (byte "`") with (rune "`") in Hpeek.
  unfold Scan. cbv zeta. rewrite Hpeek. cbn -[scanHash lookAhead].
  unfold scanHash. rewrite Hc. cbn [isDBMS].
  rewrite scanIdentifier_backtick, (markStart_ready s Hs).
  destruct (bool_decide (DBMSSQLServer = DBMSMySQL)) eqn:B;
    [apply bool_decide_eq_true in B; discriminate B|].
  reflexivity.
Qed.

Lemma scanTimes_still s t :
  (forall x, src x = src s -> cursor x = cursor s -> config x = config s ->
             start x = cursor x -> Scan x = Ok (emit t x)) ->
  start s = cursor s ->
  forall n, exists tok s',
    scanTimes n s = Ok (tok, s') /\ Type_ tok = t /\
    Start tok = cursor s /\ End_ tok = cursor s /\ cursor s' = cursor s.
Proof.
  intros Hall Hs n. revert s Hall Hs.
  induction n as [|n IH]; intros s Hall Hs; cbn [scanTimes].
  - rewrite (Hall s eq_refl eq_refl eq_refl Hs).
    eexists _, _. split; [reflexivity|]. cbn. repeat split. exact Hs.
  - rewrite (Hall s eq_refl eq_refl eq_refl Hs). cbn [mbind outcome_bind emit].
    apply (IH (mkLexer (src s) (cursor s) (cursor s) (config s) [] [] false));
      [|reflexivity].
    intros x H1 H2 H3 H4. apply Hall; assumption.
Qed.

(** X5: under the MySQL dialect a [#] that is the last byte of the source
    is never consumed: every call of [Scan] returns a COMMENT token of no
    byte at the cursor and leaves the cursor where it is. *)
Theorem X5_MySQL_hash_as_last_byte_is_never_consumed :
  forall (s : Lexer) (before : string) (n : nat),
    positioned s before "#" ->
    start s = cursor s ->
    config s = DBMSMySQL ->
    exists tok s',
      scanTimes n s = Ok (tok, s') /\ Type_ tok = COMMENT /\
      Start tok = cursor s /\ End_ tok = cursor s /\ cursor s' = cursor s.
Proof.
  intros s before n Hp Hs Hc. apply scanTimes_still; [|exact Hs].
  intros x H1 H2 H3 H4. apply (Scan_hash_at_end_MySQL x before); [|exact H4|].
  - destruct Hp as [P1 P2]. split; congruence.
  - congruence.
Qed.

(** X6: under the SQL Server dialect a backtick is never consumed: every
    call of [Scan] returns an IDENT token of no byte at the cursor and
    leaves the cursor where it is. *)
Theorem X6_SQLServer_backtick_is_never_consumed :
  forall (s : Lexer) (before rest : string) (n : nat),
    positioned s before (String "`" rest) ->
    start s = cursor s ->
    config s = DBMSSQLServer ->
    exists tok s',
      scanTimes n s = Ok (tok, s') /\ Type_ tok = IDENT /\
      Start tok = cursor s /\ End_ tok = cursor s /\ cursor s' = cursor s.
Proof.
  intros s before rest n Hp Hs Hc. apply scanTimes_still; [|exact Hs].
  intros x H1 H2 H3 H4.
  apply (Scan_backtick_SQLServer x before rest); [|exact H4|].
  - destruct Hp as [P1 P2]. split; congruence.
  - congruence.
Qed.

Lemma collectMetadata_Type cfg source token last md ctes :
  Type_ (fst (fst (collectMetadata cfg source token last md ctes)))
  = Type_ token.
Proof.
  unfold collectMetadata.
  repeat match goal with
         | |- context [if ?c then _ else _] => destruct c
         | |- context [match ?x with Some _ => _ | None => _ end] => destruct x
         end; reflexivity.
Qed.

Lemma normalizeSQL_Type N cfg source token last st token' st' :
  normalizeSQL N cfg source token last st = Ok (token', st') ->
  Type_ token' = Type_ token.
Proof.
  unfold normalizeSQL.
  destruct (isType (Type_ token) WS || isType (Type_ token) COMMENT
            || isType (Type_ token) MULTILINE_COMMENT);
    [intros H; injection H as <- _; reflexivity|].
  destruct (isType (Type_ token) EOF).
  { destruct (standaloneExpressionInParentheses _);
      intros H; injection H as <- _; reflexivity. }
  intros H. apply bind_Ok in H. destruct H as (token1 & H1 & H).
  assert (HT : Type_ token1 = Type_ token).
  { destruct (isType (Type_ token) DOLLAR_QUOTED_FUNCTION && _).
    - apply bind_Ok in H1. destruct H1 as (q & _ & H1).
      apply bind_Ok in H1. destruct H1 as (nq & _ & H1).
      injection H1 as <-. reflexivity.
    - injection H1 as <-. reflexivity. }
  rewrite <- HT. clear H1 HT. revert H.
  repeat match goal with
         | |- context [if ?c then _ else _] => destruct c
         end;
    intros H;
    try (injection H as <- _; reflexivity);
    apply bind_Ok in H; destruct H as ([[skip g] b] & _ & H);
    repeat match type of H with
           | context [if ?c then _ else _] => destruct c
           end;
    injection H as <- _; reflexivity.
Qed.

(** After a token of the loop, what the loop tests is the kind that [Scan]
    gave. *)
Lemma normalizeLoop_step cfg dbms f input lexer last md ctes st tok lexer' r :
  Scan lexer = Ok (tok, lexer') ->
  Type_ tok <> EOF ->
  normalizeLoop cfg dbms (S f) input lexer last md ctes st = Ok r ->
  exists last' md' ctes' st',
    normalizeLoop cfg dbms f input lexer' last' md' ctes' st' = Ok r.
Proof.
  intros HS HT. rewrite normalizeLoop_S, HS. cbn [mbind outcome_bind].
  pose proof (collectMetadata_Type cfg input tok last md ctes) as H1.
  destruct (collectMetadata cfg input tok last md ctes)
    as [[token1 md1] ctes1].
  cbn [fst] in H1. intros H.
  apply bind_Ok in H. destruct H as ([token2 st'] & Hn & H).
  apply normalizeSQL_Type in Hn.
  rewrite isType_ne in H by congruence.
  eexists _, _, _, _. exact H.
Qed.

Lemma normalizeLoop_still cfg dbms input s tok :
  Scan s = Ok (tok, s) ->
  Type_ tok <> EOF ->
  forall fuel last md ctes st r,
    normalizeLoop cfg dbms fuel input s last md ctes st <> Ok r.
Proof.
  intros HS HT. induction fuel as [|f IH]; intros last md ctes st r H;
    [discriminate H|].
  destruct (normalizeLoop_step _ _ _ _ _ _ _ _ _ _ _ _ HS HT H)
    as (l' & m' & c' & st' & H').
  exact (IH _ _ _ _ _ H').
Qed.

Lemma normalizeLoop_reaches_still cfg dbms input s tok :
  Scan s = Ok (tok, s) ->
  Type_ tok <> EOF ->
  forall n s0 tok0,
    scanTimes n s0 = Ok (tok0, s) ->
    forall fuel last md ctes st r,
      normalizeLoop cfg dbms fuel input s0 last md ctes st <> Ok r.
Proof.
  intros HS HT.
  assert (Hend : forall x t x', Scan x = Ok (t, x') -> Type_ t = EOF ->
                                forall k t', scanTimes k x' = Ok (t', s) ->
                                             False).
  { intros x t x' Hx Ht k t' Hk.
    destruct (Scan_EOF_again _ _ _ Hx Ht) as [-> Hagain].
    rewrite (scanTimes_at_end x k Hagain) in Hk.
    injection Hk as _ Hs.
    change (afterEmit x = s) in Hs. rewrite <- Hs in HS.
    rewrite Hagain in HS. injection HS as <-. apply HT. reflexivity. }
  induction n as [|n IH]; intros s0 tok0 H0 fuel last md ctes st r H;
    (destruct fuel as [|f]; [discriminate H|]); cbn [scanTimes] in H0.
  - destruct (TokenType_eq_dec (Type_ tok0) EOF) as [E|E].
    + destruct (Scan_EOF_again _ _ _ H0 E) as [-> Hagain].
      rewrite Hagain in HS. injection HS as <-. apply HT. reflexivity.
    + destruct (normalizeLoop_step _ _ _ _ _ _ _ _ _ _ _ _ H0 E H)
        as (l' & m' & c' & st' & H').
      exact (normalizeLoop_still cfg dbms input s tok HS HT _ _ _ _ _ _ H').
  - apply bind_Ok in H0. destruct H0 as ([t1 s1] & H1 & H0).
    destruct (TokenType_eq_dec (Type_ t1) EOF) as [E|E].
    + exact (Hend _ _ _ H1 E _ _ H0).
    + destruct (normalizeLoop_step _ _ _ _ _ _ _ _ _ _ _ _ H1 E H)
        as (l' & m' & c' & st' & H').
      exact (IH _ _ H0 _ _ _ _ _ _ H').
Qed.

(** X7: when the scan of an input reaches a lexer on which [Scan] returns a
    token other than EOF without moving the cursor, [Normalize] does not
    return on that input: no number of passes of its loop gives a result. *)
Theorem X7_Normalize_does_not_return_once_Scan_stands_still :
  forall (cfg : normalizerConfig) (dbms : DBMSType) (input : string)
         (n : nat) (tok0 tok : Token) (s s' : Lexer),
    scanTimes n (New input dbms) = Ok (tok0, s) ->
    Scan s = Ok (tok, s') ->
    cursor s' = cursor s ->
    Type_ tok <> EOF ->
    forall (fuel : nat) (r : string * StatementMetadata),
      Normalize cfg dbms fuel input <> Ok r.
Proof.
  intros cfg dbms input n tok0 tok s s' H0 HS Hc HT fuel r H.
  assert (Hshape : forall k x t y, ready x -> scanTimes k x = Ok (t, y) ->
                                   ready y /\ afterEmit y = y).
  { induction k as [|k IH]; intros x t y Hx Hk; cbn [scanTimes] in Hk.
    - destruct (Scan_emits x Hx) as (t' & sf & E & A).
      rewrite E in Hk. injection Hk as _ <-.
      pose proof (advance_inRange _ _ (proj1 Hx) A) as Hr.
      split; [split; [exact Hr|reflexivity]|reflexivity].
    - apply bind_Ok in Hk. destruct Hk as ([t1 x1] & H1 & Hk).
      destruct (Scan_returns x Hx) as (t2 & x2 & E & _ & _ & _ & _ & _ & Hx2).
      rewrite E in H1. injection H1 as _ <-. exact (IH _ _ _ Hx2 Hk). }
  destruct (Hshape _ _ _ _ (ready_New input dbms) H0) as [Hrd Hnorm].
  assert (Hsame : s' = s).
  { destruct (Scan_emits s Hrd) as (t' & sf & E & A).
    rewrite E in HS. injection HS as _ <-.
    destruct A as (A1 & A2 & _). cbn [emit snd cursor] in Hc.
    rewrite <- Hnorm. cbn [emit snd afterEmit]. unfold afterEmit.
    cbn [emit snd]. rewrite A1, A2, Hc. reflexivity. }
  subst s'. unfold Normalize in H.
  apply bind_Ok in H. destruct H as (r0 & Hloop & _).
  exact (normalizeLoop_reaches_still cfg dbms input s tok HS HT n _ _ H0
           _ _ _ _ _ _ Hloop).
Qed.
(** ** What follows a token *)

Lemma peek_at_end s : len (src s) <= cursor s -> peek s = 0.
Proof.
  intros H. unfold peek, lookAhead.
  destruct (len (src s) <=? cursor s + 0) eqn:E; [reflexivity|Zbool; lia].
Qed.

(** The rune that [nextBy] returns is the one under the new cursor. *)
Lemma nextBy_peek s n :
  inRange s -> 0 <= n -> cursor s + n <= len (src s) ->
  fst (nextBy s n) = peek (snd (nextBy s n)).
Proof.
  intros Hr Hn Hfit. unfold nextBy, peek, lookAhead, inRange in *.
  destruct (len (src s) <? cursor s + n) eqn:E; Zbool; [lia|].
  cbv zeta. cbn [src cursor setCursor].
  destruct (len (src s) <=? cursor s + n) eqn:E'; cbn [fst snd src cursor setCursor].
  - replace (cursor s + n + 0) with (cursor s + n) by lia.
    rewrite E'. reflexivity.
  - replace (cursor s + n + 0) with (cursor s + n) by lia.
    rewrite E'. Zbool.
    destruct (cursor s + n <? 0) eqn:E''; Zbool; [lia|reflexivity].
Qed.

Lemma next_peek s : inRange s -> fst (next s) = peek (snd (next s)).
Proof.
  intros Hr. destruct (Z_le_gt_dec (cursor s + 1) (len (src s))) as [H|H].
  - apply nextBy_peek; [exact Hr|lia|exact H].
  - unfold next, nextBy.
    destruct (len (src s) <? cursor s + 1) eqn:E; Zbool; [|lia].
    cbn [fst snd]. symmetry. apply peek_at_end. lia.
Qed.

Lemma nextBy_lookAhead s n :
  inRange s -> 0 <= n -> cursor s + n <= len (src s) ->
  fst (nextBy s n) = lookAhead s n.
Proof.
  intros Hr Hn Hfit. unfold nextBy, lookAhead, inRange in *.
  destruct (len (src s) <? cursor s + n) eqn:E; Zbool; [lia|].
  cbv zeta. cbn [src cursor setCursor].
  destruct (len (src s) <=? cursor s + n) eqn:E'; cbn [fst orb]; [reflexivity|].
  destruct (cursor s + n <? 0) eqn:E''; Zbool; [lia|reflexivity].
Qed.

(** One byte further: the lexer stays in range and the rune read is the one
    under the cursor. *)
Lemma next_law s :
  inRange s ->
  exists ch s1, next s = (ch, s1) /\ inRange s1 /\ ch = peek s1.
Proof.
  intros Hr. destruct (next_spec s Hr) as (ch & s1 & Hn & Ha & _).
  exists ch, s1. split; [exact Hn|].
  split; [exact (advance_inRange _ _ Hr Ha)|].
  pose proof (next_peek s Hr) as Hp. rewrite Hn in Hp. exact Hp.
Qed.

Lemma nextBy_law s n :
  inRange s -> 0 <= n -> cursor s + n <= len (src s) ->
  exists ch s1, nextBy s n = (ch, s1) /\ inRange s1 /\ ch = peek s1.
Proof.
  intros Hr Hn Hfit.
  destruct (nextBy_spec s n Hr Hn) as (ch & s1 & Hnx & Ha & _).
  exists ch, s1. split; [exact Hnx|].
  split; [exact (advance_inRange _ _ Hr Ha)|].
  pose proof (nextBy_peek s n Hr Hn Hfit) as Hp. rewrite Hnx in Hp. exact Hp.
Qed.

Lemma yields_emit (P : TokenType -> Lexer -> Prop) t s :
  P t (afterEmit s) -> yields P (Ok (emit t s)).
Proof. intros H tok s' E. injection E as <- <-. exact H. Qed.

Lemma yields_weaken (P Q : TokenType -> Lexer -> Prop) r :
  (forall t s', P t s' -> Q t s') -> yields P r -> yields Q r.
Proof. intros HPQ H tok s' E. apply HPQ. exact (H tok s' E). Qed.

Lemma yields_leaves (P : Lexer -> Prop) (Q : TokenType -> Lexer -> Prop) t r :
  leaves P r -> (forall s', P s' -> Q t (afterEmit s')) ->
  yields Q (r ≫= fun s' => mret (emit t s')).
Proof.
  intros Hl HPQ tok s' E. apply bind_Ok in E. destruct E as (sf & Er & E).
  injection E as <- <-. apply HPQ. exact (Hl sf Er).
Qed.

(** A loop that reads byte after byte while a test on the rune holds leaves
    the lexer on a rune that fails the test. *)
Ltac rune_law E IH :=
  match goal with
  | Hr : inRange ?s |- context [next ?s] =>
    let ch' := fresh "ch" in let s1 := fresh "s" in
    let Hn := fresh "Hn" in let Hr1 := fresh "Hr" in let Hp := fresh "Hp" in
    destruct (next_law s Hr) as (ch' & s1 & Hn & Hr1 & Hp);
    rewrite Hn; apply IH; assumption
  end.

Lemma whitespaceLoop_law fuel : forall ch s,
  inRange s -> ch = peek s ->
  leaves (fun s' => isWhitespace (peek s') = false) (whitespaceLoop fuel ch s).
Proof.
  induction fuel as [|f IH]; intros ch s Hr Hp s'; cbn [whitespaceLoop];
    destruct (isWhitespace ch) eqn:E; try discriminate;
    try (intros H; injection H as <-; rewrite <- Hp; exact E).
  revert s'. change (leaves (fun s' => isWhitespace (peek s') = false)
                       (let '(ch', s1) := next s in whitespaceLoop f ch' s1)).
  rune_law E IH.
Qed.

Lemma lineCommentLoop_law fuel : forall ch s,
  inRange s -> ch = peek s ->
  leaves (fun s' => peek s' = 10 \/ peek s' = 0) (lineCommentLoop fuel ch s).
Proof.
  assert (Hend : forall ch, negb (ch =? 10) && negb (isEOF ch) = false ->
                            ch = 10 \/ ch = 0).
  { intros ch E. apply andb_false_iff in E. unfold isEOF in E.
    destruct E as [E|E]; Zbool; [left|right]; exact E. }
  induction fuel as [|f IH]; intros ch s Hr Hp s'; cbn [lineCommentLoop];
    destruct (negb (ch =? 10) && negb (isEOF ch)) eqn:E; try discriminate;
    try (intros H; injection H as <-; rewrite <- Hp; exact (Hend _ E)).
  revert s'. change (leaves (fun s' => peek s' = 10 \/ peek s' = 0)
                       (let '(ch', s1) := next s in lineCommentLoop f ch' s1)).
  rune_law E IH.
Qed.

Lemma digitLoop_law fuel : forall ch s,
  inRange s -> ch = peek s ->
  leaves (fun s' => isDigit (peek s') = false) (digitLoop fuel ch s).
Proof.
  induction fuel as [|f IH]; intros ch s Hr Hp s'; cbn [digitLoop];
    destruct (isDigit ch) eqn:E; cbn [negb]; try discriminate;
    try (intros H; injection H as <-; rewrite <- Hp; exact E).
  revert s'. change (leaves (fun s' => isDigit (peek s') = false)
                       (let '(ch', s1) := next s in digitLoop f ch' s1)).
  rune_law E IH.
Qed.

Lemma alphaNumericLoop_law fuel : forall ch s,
  inRange s -> ch = peek s ->
  leaves (fun s' => isAlphaNumeric (peek s') = false)
         (alphaNumericLoop fuel ch s).
Proof.
  induction fuel as [|f IH]; intros ch s Hr Hp s'; cbn [alphaNumericLoop];
    destruct (isAlphaNumeric ch) eqn:E; cbn [negb]; try discriminate;
    try (intros H; injection H as <-; rewrite <- Hp; exact E).
  revert s'. change (leaves (fun s' => isAlphaNumeric (peek s') = false)
                       (let '(ch', s1) := next s in alphaNumericLoop f ch' s1)).
  rune_law E IH.
Qed.

Ltac token_law IH :=
  match goal with
  | Hr : inRange ?s |- context [next ?s] =>
    let ch' := fresh "ch" in let s1 := fresh "s" in
    let Hn := fresh "Hn" in let Hr1 := fresh "Hr" in let Hp := fresh "Hp" in
    destruct (next_law s Hr) as (ch' & s1 & Hn & Hr1 & Hp);
    rewrite Hn; apply IH; assumption
  end.

Lemma stringLoop_law fuel : forall escaped ch s,
  inRange s -> ch = peek s ->
  yields (fun t s' => t = STRING \/ (t = INCOMPLETE_STRING /\ peek s' = 0))
         (stringLoop fuel escaped ch s).
Proof.
  induction fuel as [|f IH]; intros escaped ch s Hr Hp; cbn [stringLoop];
    (destruct (isEOF ch) eqn:E;
     [apply yields_emit; right; split; [reflexivity|];
      change (peek (afterEmit s)) with (peek s); rewrite <- Hp;
      unfold isEOF in E; Zbool; exact E|]).
  - intros tok s' H. discriminate H.
  - destruct escaped; [token_law IH|].
    destruct (ch =? rune "\"); [token_law IH|].
    destruct (ch =? rune "'"); [|token_law IH].
    apply yields_emit. left. reflexivity.
Qed.

Lemma quotedLoop_law fuel : forall d c ch s,
  inRange s -> ch = peek s ->
  yields (fun t s' => t = QUOTED_IDENT \/ (t = ERROR /\ peek s' = 0))
         (quotedLoop fuel d c ch s).
Proof.
  induction fuel as [|f IH]; intros d c ch s Hr Hp; cbn [quotedLoop].
  - destruct (ch =? c).
    + destruct (matchAt _ _); [intros tok s' H; discriminate H|].
      apply yields_emit. left. reflexivity.
    + destruct (isEOF ch) eqn:E; [|intros tok s' H; discriminate H].
      apply yields_emit. right. split; [reflexivity|].
      change (peek (afterEmit s)) with (peek s). rewrite <- Hp.
      unfold isEOF in E. Zbool. exact E.
  - destruct (ch =? c).
    + destruct (matchAt _ _) eqn:Em;
        [|apply yields_emit; left; reflexivity].
      apply matchAt_fits in Em. cbn [List.length] in Em.
      set (s2 := appendQuote (appendQuote s (cursor s)) _) in *.
      assert (Hr2 : inRange s2) by exact Hr.
      destruct (nextBy_law s2 3 Hr2 ltac:(lia) Em) as (ch' & s3 & Hn & Hr3 & Hp3).
      rewrite Hn. apply IH; assumption.
    + destruct (isEOF ch) eqn:E.
      * apply yields_emit. right. split; [reflexivity|].
        change (peek (afterEmit s)) with (peek s). rewrite <- Hp.
        unfold isEOF in E. Zbool. exact E.
      * set (s1 := if isDigit ch then appendDigit s (cursor s) else s).
        assert (Hr1 : inRange s1) by (unfold s1; destruct (isDigit ch); exact Hr).
        destruct (next_law s1 Hr1) as (ch' & s2 & Hn & Hr2 & Hp2).
        rewrite Hn. apply IH; assumption.
Qed.

Lemma multiLineCommentLoop_law fuel : forall ch s,
  inRange s -> ch = peek s ->
  yields (fun t s' => t = MULTILINE_COMMENT \/ (t = ERROR /\ peek s' = 0))
         (multiLineCommentLoop fuel ch s).
Proof.
  induction fuel as [|f IH]; intros ch s Hr Hp; cbn [multiLineCommentLoop];
    (destruct ((ch =? rune "*") && (lookAhead s 1 =? rune "/"));
     [apply yields_emit; left; reflexivity|]);
    (destruct (isEOF ch) eqn:E;
     [apply yields_emit; right; split; [reflexivity|];
      change (peek (afterEmit s)) with (peek s); rewrite <- Hp;
      unfold isEOF in E; Zbool; exact E|]).
  - intros tok s' H. discriminate H.
  - token_law IH.
Qed.

Lemma dollarBodyLoop_law fuel : forall tag s,
  inRange s ->
  yields (fun t s' => t = DOLLAR_QUOTED_FUNCTION \/ t = DOLLAR_QUOTED_STRING
                      \/ (t = ERROR /\ peek s' = 0))
         (dollarBodyLoop fuel tag s).
Proof.
  induction fuel as [|f IH]; intros tag s Hr; cbn [dollarBodyLoop];
    (destruct (cursor s <? len (src s)) eqn:E;
     [|apply yields_emit; right; right; split; [reflexivity|];
       change (peek (afterEmit s)) with (peek s); apply peek_at_end;
       Zbool; lia]);
    (destruct (matchAt s (runes tag));
     [destruct (String.eqb tag "$func$"); apply yields_emit;
      [left|right; left]; reflexivity|]).
  - intros tok s' H. discriminate H.
  - destruct (next_law s Hr) as (ch' & s1 & Hn & Hr1 & _).
    rewrite Hn. cbn [snd]. apply IH. exact Hr1.
Qed.

(** The loop of [scanIdentifier] returns the rune under the cursor, or [0]
    when the bytes of the last rune did not fit. *)
Lemma identifierLoop_law fuel : forall ch s ch' s',
  inRange s -> (ch = peek s \/ ch = 0) ->
  identifierLoop fuel ch s = Ok (ch', s') ->
  inRange s' /\ (ch' = peek s' \/ ch' = 0).
Proof.
  induction fuel as [|f IH]; intros ch s ch' s' Hr Hp; cbn [identifierLoop];
    destruct (isIdentifier ch) eqn:E; try discriminate;
    try (intros H; injection H as <- <-; split; assumption).
  set (s1 := if isDigit ch then appendDigit s (cursor s) else s).
  assert (Hr1 : inRange s1) by (unfold s1; destruct (isDigit ch); exact Hr).
  assert (Hv : validRune ch)
    by (destruct Hp as [-> | ->]; [apply lookAhead_valid|apply validRune_0]).
  unfold validRune in Hv.
  destruct (nextBy_spec s1 (RuneLen ch) Hr1 ltac:(lia))
    as (c1 & s2 & Hn & Ha & _ & _ & _ & Hover).
  destruct (Z_le_gt_dec (cursor s1 + RuneLen ch) (len (src s1))) as [Hfit|Hno].
  - destruct (nextBy_law s1 (RuneLen ch) Hr1 ltac:(lia) Hfit)
      as (c2 & s3 & Hn' & Hr3 & Hp3).
    rewrite Hn'. apply IH; [exact Hr3|left; exact Hp3].
  - destruct (Hover ltac:(lia)) as [-> ->]. rewrite Hn.
    apply IH; [exact Hr1|right; reflexivity].
Qed.

Lemma keywordLoop_law fuel : forall node pos ch s node' pos' ch' s',
  inRange s -> ch = peek s ->
  (isEnd node = true -> pos + 1 = cursor s) ->
  keywordLoop fuel node pos ch s = Ok (node', pos', ch', s') ->
  inRange s' /\ ch' = peek s' /\ (isEnd node' = true -> pos' + 1 = cursor s').
Proof.
  induction fuel as [|f IH]; intros node pos ch s node' pos' ch' s' Hr Hp HJ;
    cbn [keywordLoop];
    destruct (isAsciiLetter ch || (ch =? rune "_")) eqn:E; try discriminate;
    try (intros H; injection H as <- <- <- <-;
         split; [assumption|split; assumption]).
  assert (Hlt : cursor s < len (src s)).
  { apply peek_nonzero. rewrite <- Hp. intros E0. rewrite E0 in E.
    vm_compute in E. discriminate E. }
  destruct (next_spec s Hr) as (c1 & s1 & Hn & Ha & _ & _ & Hc).
  specialize (Hc Hlt).
  destruct (next_law s Hr) as (c2 & s2 & Hn' & Hr2 & Hp2).
  rewrite Hn in Hn'. injection Hn' as <- <-. rewrite Hn.
  destruct (lookupChild (children node) _) as [next_|].
  - apply IH; [exact Hr2|exact Hp2|]. intros _. symmetry. exact Hc.
  - intros H. injection H as <- <- <- <-.
    split; [exact Hr2|]. split; [exact Hp2|].
    rewrite keywordRoot_not_end. discriminate.
Qed.

Lemma keywordKind_kind n :
  keywordKind n = true -> isEnd n = true -> isKeywordKind (tokenType n) = true.
Proof.
  unfold keywordKind, isKeywordKind. intros H He. rewrite He in H. exact H.
Qed.

Lemma scanIdentifier_law s :
  inRange s ->
  yields (fun t s' =>
            t = IDENT \/ (t = FUNCTION /\ peek s' = rune "(") \/
            (isKeywordKind t = true /\ isDelimiter (peek s') = true))
         (scanIdentifier (peek s) s).
Proof.
  intros Hr. unfold scanIdentifier. cbv zeta.
  set (m := markStart s). assert (Hm : inRange m) by exact Hr.
  change (peek s) with (peek m).
  destruct (127 <? peek m).
  { intros tok s' H. apply bind_Ok in H. destruct H as ([c1 s1] & _ & H).
    injection H as <- <-. left. reflexivity. }
  intros tok s' H. apply bind_Ok in H.
  destruct H as ([[[node pos] ch1] s1] & Hk & H).
  pose proof (keywordLoop_kinds _ _ _ _ _ _ _ _ _ keywordRoot_kinds Hk) as Hkind.
  apply trieAll_here in Hkind.
  apply keywordLoop_law in Hk;
    [|exact Hm|reflexivity|rewrite keywordRoot_not_end; discriminate].
  destruct Hk as (Hr1 & Hp1 & HJ).
  assert (Hrest : forall tok s',
             ('(ch2, s2) ← identifierLoop (loopFuel m) ch1 s1;
              if ch2 =? rune "(" then mret (emit FUNCTION s2)
              else mret (emit IDENT s2)) = Ok (tok, s') ->
             Type_ tok = IDENT \/
             (Type_ tok = FUNCTION /\ peek s' = rune "(") \/
             (isKeywordKind (Type_ tok) = true /\
              isDelimiter (peek s') = true)).
  { clear H tok s'. intros tok s' H. apply bind_Ok in H.
    destruct H as ([ch2 s2] & Hi & H).
    apply identifierLoop_law in Hi; [|exact Hr1|left; exact Hp1].
    destruct Hi as [Hr2 Hp2].
    destruct (ch2 =? rune "(") eqn:E; injection H as <- <-;
      [|left; reflexivity].
    right. left. split; [reflexivity|]. Zbool.
    change (peek s2 = rune "(").
    destruct Hp2 as [Hp2|Hp2]; [rewrite <- Hp2; exact E|].
    rewrite Hp2 in E. discriminate E. }
  destruct (isEnd node) eqn:Ee; cbn [andb] in H; [|exact (Hrest _ _ H)].
  destruct (isPunctuation (peek s1) || isWhitespace (peek s1)
            || isEOF (peek s1)) eqn:Ed; [|exact (Hrest _ _ H)].
  injection H as <- <-. right. right.
  split; [apply keywordKind_kind; assumption|].
  change (isDelimiter (peek (setCursor s1 (pos + 1))) = true).
  rewrite (HJ eq_refl), setCursor_here. exact Ed.
Qed.

Lemma yields_bind {A : Type} (P : TokenType -> Lexer -> Prop)
  (m : outcome A) f :
  (forall a, yields P (f a)) -> yields P (m ≫= f).
Proof.
  intros Hf tok s' H. destruct (bind_Ok _ _ _ H) as (a & _ & Ha).
  exact (Hf a tok s' Ha).
Qed.

Lemma yields_Panic P : yields P Panic.
Proof. intros tok s' H. discriminate H. Qed.

Lemma yields_OutOfFuel P : yields P OutOfFuel.
Proof. intros tok s' H. discriminate H. Qed.

(** The kinds a scanner gives, by inspection of its branches. *)
Ltac kind_step :=
  first
    [ apply yields_emit; cbn; auto; fail
    | apply yields_Panic
    | apply yields_OutOfFuel
    | assumption
    | apply yields_bind; intros
    | match goal with
      | |- yields _ (if ?c then _ else _) => destruct c
      | |- yields _ (let '(_, _) := ?p in _) => destruct p
      | |- yields _ (match ?x with _ => _ end) => destruct x
      end ].

Ltac kind_auto := repeat kind_step.

Lemma scanDecimalNumber_kind s :
  yields (fun t _ => t = NUMBER) (scanDecimalNumber s).
Proof. unfold scanDecimalNumber. kind_auto. Qed.

Lemma scanNumber_kind ch s : yields (fun t _ => t = NUMBER) (scanNumber ch s).
Proof.
  unfold scanNumber, scanNumberic, scanHexNumber, scanOctalNumber.
  repeat first [apply scanDecimalNumber_kind|kind_step].
Qed.

Lemma scanNumberWithLeadingSign_kind s :
  yields (fun t _ => t = NUMBER) (scanNumberWithLeadingSign s).
Proof. unfold scanNumberWithLeadingSign. apply scanDecimalNumber_kind. Qed.

Lemma scanOperator_kind ch s :
  yields (fun t _ => t = OPERATOR \/ t = JSON_OP) (scanOperator ch s).
Proof. unfold scanOperator. kind_auto. Qed.

Lemma scanSingleLineComment_kind s :
  yields (fun t _ => t = COMMENT) (scanSingleLineComment s).
Proof. unfold scanSingleLineComment. kind_auto. Qed.

Lemma scanWhitespace_law s :
  inRange s ->
  yields (fun t s' => t = WS /\ isWhitespace (peek s') = false)
         (scanWhitespace s).
Proof.
  intros Hr. unfold scanWhitespace. cbv zeta.
  destruct (next_law (markStart s) Hr) as (ch & s1 & Hn & Hr1 & Hp).
  rewrite Hn.
  apply (yields_leaves _ _ _ _ (whitespaceLoop_law _ ch s1 Hr1 Hp)).
  intros s' H. split; [reflexivity|exact H].
Qed.

Lemma scanString_law s :
  inRange s ->
  yields (fun t s' => t = STRING \/ (t = INCOMPLETE_STRING /\ peek s' = 0))
         (scanString s).
Proof.
  intros Hr. unfold scanString. cbv zeta.
  destruct (next_law (markStart s) Hr) as (ch & s1 & Hn & Hr1 & Hp).
  rewrite Hn. apply stringLoop_law; assumption.
Qed.

Lemma scanDoubleQuotedIdentifier_law d s :
  inRange s ->
  yields (fun t s' => t = QUOTED_IDENT \/ (t = ERROR /\ peek s' = 0))
         (scanDoubleQuotedIdentifier d s).
Proof.
  intros Hr. unfold scanDoubleQuotedIdentifier. cbv zeta.
  set (m := appendQuote (markStart s) (cursor (markStart s))).
  assert (Hm : inRange m) by exact Hr.
  destruct (next_law m Hm) as (ch & s1 & Hn & Hr1 & Hp).
  rewrite Hn. apply quotedLoop_law; assumption.
Qed.

Lemma scanSingleLineComment_law s :
  inRange s -> cursor s + 2 <= len (src s) ->
  yields (fun t s' => t = COMMENT /\ (peek s' = 10 \/ peek s' = 0))
         (scanSingleLineComment s).
Proof.
  intros Hr Hfit. unfold scanSingleLineComment. cbv zeta.
  destruct (nextBy_law (markStart s) 2 Hr ltac:(lia) Hfit)
    as (ch & s1 & Hn & Hr1 & Hp).
  rewrite Hn.
  apply (yields_leaves _ _ _ _ (lineCommentLoop_law _ ch s1 Hr1 Hp)).
  intros s' H. split; [reflexivity|exact H].
Qed.

Lemma scanMultiLineComment_law s :
  inRange s -> cursor s + 2 <= len (src s) ->
  yields (fun t s' => t = MULTILINE_COMMENT \/ (t = ERROR /\ peek s' = 0))
         (scanMultiLineComment s).
Proof.
  intros Hr Hfit. unfold scanMultiLineComment. cbv zeta.
  destruct (nextBy_law (markStart s) 2 Hr ltac:(lia) Hfit)
    as (ch & s1 & Hn & Hr1 & Hp).
  rewrite Hn. apply multiLineCommentLoop_law; assumption.
Qed.

Lemma scanPositionalParameter_law s :
  inRange s -> cursor s + 2 <= len (src s) ->
  yields (fun t s' => t = POSITIONAL_PARAMETER /\ isDigit (peek s') = false)
         (scanPositionalParameter s).
Proof.
  intros Hr Hfit. unfold scanPositionalParameter. cbv zeta.
  destruct (nextBy_law (markStart s) 2 Hr ltac:(lia) Hfit)
    as (ch & s1 & Hn & Hr1 & Hp).
  rewrite Hn.
  apply (yields_leaves _ _ _ _ (digitLoop_law _ ch s1 Hr1 Hp)).
  intros s' H. split; [reflexivity|exact H].
Qed.

Lemma scanBindParameter_law s :
  inRange s -> cursor s + 2 <= len (src s) ->
  yields (fun t s' => t = BIND_PARAMETER /\ isAlphaNumeric (peek s') = false)
         (scanBindParameter s).
Proof.
  intros Hr Hfit. unfold scanBindParameter. cbv zeta.
  destruct (nextBy_law (markStart s) 2 Hr ltac:(lia) Hfit)
    as (ch & s1 & Hn & Hr1 & Hp).
  rewrite Hn.
  apply (yields_leaves _ _ _ _ (alphaNumericLoop_law _ ch s1 Hr1 Hp)).
  intros s' H. split; [reflexivity|exact H].
Qed.

Lemma scanSystemVariable_law s :
  inRange s -> cursor s + 2 <= len (src s) ->
  isAlphaNumeric (lookAhead s 2) = true ->
  yields (fun t s' => t = SYSTEM_VARIABLE /\ isAlphaNumeric (peek s') = false)
         (scanSystemVariable s).
Proof.
  intros Hr Hfit Han. unfold scanSystemVariable. cbv zeta.
  pose proof (nextBy_lookAhead (markStart s) 2 Hr ltac:(lia) Hfit) as Hla.
  destruct (nextBy_law (markStart s) 2 Hr ltac:(lia) Hfit)
    as (ch & s1 & Hn & Hr1 & Hp).
  rewrite Hn in *. cbn [fst] in Hla.
  change (lookAhead (markStart s) 2) with (lookAhead s 2) in Hla.
  rewrite Hla, Han. cbn [negb].
  rewrite <- Hla.
  apply (yields_leaves _ _ _ _ (alphaNumericLoop_law _ ch s1 Hr1 Hp)).
  intros s' H. split; [reflexivity|exact H].
Qed.

Lemma scanDollarQuotedString_law s :
  inRange s ->
  yields (fun t s' => t = DOLLAR_QUOTED_FUNCTION \/ t = DOLLAR_QUOTED_STRING
                      \/ (t = ERROR /\ peek s' = 0))
         (scanDollarQuotedString s).
Proof.
  intros Hr. unfold scanDollarQuotedString. cbv zeta.
  destruct (next_spec (markStart s) Hr) as (ch & s1 & Hn & Ha & _).
  rewrite Hn.
  pose proof (advance_inRange (markStart s) _ Hr Ha) as Hr1.
  destruct (tagLoop_moves (loopFuel (markStart s)) ch s1 Hr1
              (fuel_after (markStart s) _ Hr Ha)) as (s2 & E2 & A2).
  rewrite E2. cbn [mbind outcome_bind].
  pose proof (advance_inRange _ _ Hr1 A2) as Hr2.
  destruct (next_spec s2 Hr2) as (ch3 & s3 & Hn3 & A3 & _).
  rewrite Hn3. cbn [snd].
  pose proof (advance_inRange _ _ Hr2 A3) as Hr3.
  apply yields_bind. intros tag. apply dollarBodyLoop_law. exact Hr3.
Qed.

Ltac by_law L :=
  eapply yields_weaken; [|exact L]; cbv beta; intros t s' H.

(** [Scan] by cases: what the kind of the token says of the runes next to
    it. *)
Lemma Scan_law s : ready s -> yields (tokenLaw s) (Scan s).
Proof.
  intros Hrd. pose proof Hrd as [Hr Hs].
  pose proof (markStart_ready s Hs) as Hm.
  assert (Hfit : lookAhead s 1 <> 0 -> cursor s + 2 <= len (src s))
    by (apply two_fit; exact Hr).
  assert (Hkind : forall (K : TokenType -> Prop) r,
             yields (fun t _ => K t) r ->
             (forall t, K t -> forall s', tokenLaw s t s') ->
             yields (tokenLaw s) r).
  { intros K r Hy HK. apply (yields_weaken _ _ _ (fun t s' H => HK t H s') Hy). }
  unfold Scan. cbv zeta.
  destruct (isWhitespace (peek s)) eqn:E1.
  { by_law (scanWhitespace_law s Hr).
    destruct H as [-> H]. split; [exact E1|exact H]. }
  destruct (isLetter (peek s)) eqn:E2.
  { by_law (scanIdentifier_law s Hr).
    destruct H as [->|[[-> H]|[Hk H]]]; [exact I|exact H|].
    destruct t; try discriminate Hk; exact H. }
  destruct (isDoubleQuote (peek s)) eqn:E3.
  { by_law (scanDoubleQuotedIdentifier_law 34 s Hr).
    destruct H as [->|[-> H]]; [exact I|].
    split; [exact H|left; exact E3]. }
  destruct (isSingleQuote (peek s)) eqn:E4.
  { by_law (scanString_law s Hr).
    destruct H as [->|[-> H]]; [exact E4|split; [exact E4|exact H]]. }
  destruct (isSingleLineComment (peek s) (lookAhead s 1)) eqn:E5.
  { assert (F : cursor s + 2 <= len (src s)).
    { apply Hfit. intros E0. rewrite E0 in E5. unfold isSingleLineComment in E5.
      rewrite andb_false_r in E5. discriminate E5. }
    by_law (scanSingleLineComment_law s Hr F).
    destruct H as [-> H]. intros _. exact H. }
  destruct (isMultiLineComment (peek s) (lookAhead s 1)) eqn:E6.
  { assert (F : cursor s + 2 <= len (src s)).
    { apply Hfit. intros E0. rewrite E0 in E6. unfold isMultiLineComment in E6.
      rewrite andb_false_r in E6. discriminate E6. }
    by_law (scanMultiLineComment_law s Hr F).
    destruct H as [->|[-> H]]; [exact I|].
    split; [exact H|]. right. right. right. right. exact E6. }
  destruct (isLeadingSign (peek s)) eqn:E7.
  { destruct (isDigit (lookAhead s 1) || (lookAhead s 1 =? rune ".")).
    - apply (Hkind _ _ (scanNumberWithLeadingSign_kind s)).
      intros t -> s'. exact I.
    - apply (Hkind _ _ (scanOperator_kind _ s)).
      intros t [-> | ->] s'; exact I. }
  destruct (isDigit (peek s)) eqn:E8.
  { apply (Hkind _ _ (scanNumber_kind _ s)). intros t -> s'. exact I. }
  destruct (isWildcard (peek s)) eqn:E9.
  { unfold scanWildcard. apply yields_emit. exact I. }
  destruct (peek s =? rune "$") eqn:E10.
  { Zbool. destruct (isDigit (lookAhead s 1)) eqn:Ed.
    { assert (F : cursor s + 2 <= len (src s)) by (apply Hfit; live Ed).
      by_law (scanPositionalParameter_law s Hr F).
    destruct H as [-> H]. exact H. }
    destruct (isDBMS (config s) DBMSSQLServer && isLetter (lookAhead s 1)).
    - by_law (scanIdentifier_law s Hr).
    destruct H as [->|[[-> H]|[Hk H]]]; [exact I|exact H|].
      destruct t; try discriminate Hk; exact H.
    - by_law (scanDollarQuotedString_law s Hr).
    destruct H as [->|[->|[-> H]]]; [exact I|exact I|].
      split; [exact H|]. right. right. right. left. exact E10. }
  destruct (peek s =? rune ":") eqn:E11.
  { destruct (isDBMS (config s) DBMSOracle && isAlphaNumeric (lookAhead s 1))
      eqn:Eo.
    - assert (F : cursor s + 2 <= len (src s)).
      { apply Hfit. intros E0. rewrite E0 in Eo.
        rewrite andb_false_r in Eo. discriminate Eo. }
      by_law (scanBindParameter_law s Hr F).
    destruct H as [-> H]. exact H.
    - apply (Hkind _ _ (scanOperator_kind _ s)).
      intros t [-> | ->] s'; exact I. }
  assert (Hhash : yields (tokenLaw s) (scanHash (peek s) s)).
  { unfold scanHash.
    destruct (isDBMS (config s) DBMSSQLServer).
    { by_law (scanIdentifier_law s Hr).
    destruct H as [->|[[-> H]|[Hk H]]]; [exact I|exact H|].
      destruct t; try discriminate Hk; exact H. }
    destruct (isDBMS (config s) DBMSMySQL).
    { destruct (Z_le_gt_dec (cursor s + 2) (len (src s))) as [F|F].
      - by_law (scanSingleLineComment_law s Hr F).
    destruct H as [-> H]. intros _. exact H.
      - rewrite scanSingleLineComment_short by lia.
        apply yields_emit. cbn. lia. }
    apply (Hkind _ _ (scanOperator_kind _ s)).
    intros t [-> | ->] s'; exact I. }
  destruct (peek s =? rune "`") eqn:E12.
  { destruct (isDBMS (config s) DBMSMySQL); [|exact Hhash].
    by_law (scanDoubleQuotedIdentifier_law (rune "`") s Hr).
    destruct H as [->|[-> H]]; [exact I|].
    split; [exact H|]. right. left. Zbool. exact E12. }
  destruct (peek s =? rune "#") eqn:E13; [exact Hhash|]. clear Hhash.
  destruct (peek s =? rune "@") eqn:E14.
  { unfold scanAt.
    destruct (lookAhead s 1 =? rune "@") eqn:A1.
    { assert (F : cursor s + 2 <= len (src s))
        by (apply Hfit; Zbool; rewrite A1; discriminate).
      destruct (isAlphaNumeric (lookAhead s 2)) eqn:A2.
      - by_law (scanSystemVariable_law s Hr F A2).
    destruct H as [-> H]. exact H.
      - unfold scanJSONOp2. apply yields_emit. exact I. }
    destruct (isAlphaNumeric (lookAhead s 1)) eqn:A3.
    { assert (F : cursor s + 2 <= len (src s)) by (apply Hfit; live A3).
      destruct (isDBMS (config s) DBMSSnowflake).
      - by_law (scanIdentifier_law s Hr).
    destruct H as [->|[[-> H]|[Hk H]]]; [exact I|exact H|].
        destruct t; try discriminate Hk; exact H.
      - by_law (scanBindParameter_law s Hr F).
    destruct H as [-> H]. exact H. }
    destruct ((lookAhead s 1 =? rune "?") || (lookAhead s 1 =? rune ">")).
    - unfold scanJSONOp2. apply yields_emit. exact I.
    - apply (Hkind _ _ (scanOperator_kind _ s)).
      intros t [-> | ->] s'; exact I. }
  destruct (isOperator (peek s)) eqn:E15.
  { apply (Hkind _ _ (scanOperator_kind _ s)).
    intros t [-> | ->] s'; exact I. }
  destruct (isPunctuation (peek s)) eqn:E16.
  { destruct ((peek s =? rune "[") && isDBMS (config s) DBMSSQLServer) eqn:Eb.
    - by_law (scanDoubleQuotedIdentifier_law (rune "[") s Hr).
    destruct H as [->|[-> H]]; [exact I|].
      split; [exact H|]. right. right. left. Zbool. assumption.
    - unfold scanPunctuation. apply yields_emit. exact I. }
  destruct (isEOF (peek s)) eqn:E17.
  - apply yields_emit. unfold isEOF in E17. Zbool. exact E17.
  - apply yields_emit. exact I.
Qed.

(** X8: a token of type ERROR or INCOMPLETE_STRING runs to the end of the
    stream: the call of [Scan] after it returns EOF. And ERROR comes from a
    quoted identifier, a multi-line comment or a dollar-quoted literal that
    is not closed, from nothing else. *)
Theorem X8_ERROR_and_INCOMPLETE_STRING_end_the_stream :
  forall (s : Lexer) (tok : Token) (s' : Lexer),
    ready s ->
    Scan s = Ok (tok, s') ->
    Type_ tok = ERROR \/ Type_ tok = INCOMPLETE_STRING ->
    Scan s' = Ok (emit EOF s') /\
    (Type_ tok = ERROR ->
     isDoubleQuote (peek s) = true \/ peek s = rune "`" \/ peek s = rune "[" \/
     peek s = rune "$" \/ isMultiLineComment (peek s) (lookAhead s 1) = true).
Proof.
  intros s tok s' Hrd H HT. pose proof (Scan_law s Hrd tok s' H) as Hlaw.
  destruct HT as [HT|HT]; rewrite HT in Hlaw; cbn [tokenLaw] in Hlaw.
  - destruct Hlaw as [Hend Hopen]. split; [exact (Scan_at_end s' Hend)|].
    intros _. exact Hopen.
  - destruct Hlaw as [_ Hend]. split; [exact (Scan_at_end s' Hend)|].
    intros E. rewrite HT in E. discriminate E.
Qed.

(** X9: the loops take the longest run. After a WS token the rune under the
    cursor is no whitespace; after a POSITIONAL_PARAMETER it is no digit;
    after a BIND_PARAMETER or a SYSTEM_VARIABLE it is neither letter nor
    digit; after a COMMENT of at least one byte it is a line feed or the end
    of the stream. *)
Theorem X9_runs_are_taken_whole :
  forall (s : Lexer) (tok : Token) (s' : Lexer),
    ready s ->
    Scan s = Ok (tok, s') ->
    (Type_ tok = WS -> isWhitespace (peek s') = false) /\
    (Type_ tok = POSITIONAL_PARAMETER -> isDigit (peek s') = false) /\
    (Type_ tok = BIND_PARAMETER \/ Type_ tok = SYSTEM_VARIABLE ->
     isAlphaNumeric (peek s') = false) /\
    (Type_ tok = COMMENT -> cursor s < cursor s' ->
     peek s' = 10 \/ peek s' = 0).
Proof.
  intros s tok s' Hrd H. pose proof (Scan_law s Hrd tok s' H) as Hlaw.
  repeat split; intros HT; try destruct HT as [HT|HT];
    rewrite HT in Hlaw; cbn [tokenLaw] in Hlaw;
    first [exact Hlaw|apply Hlaw].
Qed.

(** X10: a token of a keyword kind (COMMAND, KEYWORD, BOOLEAN, NULL,
    PROC_INDICATOR, CTE_INDICATOR, ALIAS_INDICATOR) is followed by
    punctuation, whitespace or the end of the stream, and a FUNCTION token
    by an opening parenthesis. *)
Theorem X10_keywords_end_at_a_delimiter :
  forall (s : Lexer) (tok : Token) (s' : Lexer),
    ready s ->
    Scan s = Ok (tok, s') ->
    (isKeywordKind (Type_ tok) = true -> isDelimiter (peek s') = true) /\
    (Type_ tok = FUNCTION -> peek s' = rune "(").
Proof.
  intros s tok s' Hrd H. pose proof (Scan_law s Hrd tok s' H) as Hlaw.
  split; intros HT.
  - destruct (Type_ tok); try discriminate HT; exact Hlaw.
  - rewrite HT in Hlaw. exact Hlaw.
Qed.

Lemma Scan_hash s : peek s = rune "#" -> Scan s = scanHash (rune "#") s.
Proof. intros H. unfold Scan. rewrite H. reflexivity. Qed.

(** X11: under the MySQL dialect the COMMENT token of a [#] that is not the
    last byte takes the byte after the [#] whatever it is, a line feed
    included, and goes on to the next line feed or to the end of the
    stream. *)
Theorem X11_MySQL_hash_comment_takes_the_next_byte :
  forall (s : Lexer) (before : string) (c : ascii) (rest : string),
    positioned s before (String "#" (String c rest)) ->
    start s = cursor s ->
    config s = DBMSMySQL ->
    exists tok s',
      Scan s = Ok (tok, s') /\ Type_ tok = COMMENT /\
      Start tok = cursor s /\ cursor s + 2 <= End_ tok /\
      End_ tok = cursor s' /\
      (peek s' = 10 \/ peek s' = 0).
Proof.
  intros s before c rest Hp Hs Hc.
  pose proof (positioned_inRange _ _ _ Hp) as Hr.
  pose proof (peek_positioned _ _ _ Hp) as Hpeek.
  rewrite headRune_low in Hpeek by (vm_compute; reflexivity).
  change (byte "#") with (rune "#") in Hpeek.
  pose proof (positioned_len _ _ _ Hp) as Hl.
  rewrite !len_String in Hl. pose proof (len_nonneg rest) as Hn.
  assert (Hfit : cursor s + 2 <= len (src s)) by lia.
  assert (HS : Scan s = scanSingleLineComment s).
  { rewrite (Scan_hash s Hpeek). unfold scanHash. rewrite Hc. reflexivity. }
  pose proof (scanSingleLineComment_law s Hr Hfit) as Hlaw.
  rewrite HS. revert Hlaw. unfold scanSingleLineComment. cbv zeta.
  destruct (nextBy_spec (markStart s) 2 Hr ltac:(lia))
    as (ch & s1 & Hnx & Ha & _ & Hnz & Hc2 & _).
  specialize (Hc2 Hfit). rewrite Hnx.
  pose proof (advance_inRange (markStart s) _ Hr Ha) as Hr1.
  destruct (lineCommentLoop_moves (loopFuel (markStart s)) ch s1 Hr1 Hnz
              (fuel_after (markStart s) _ Hr Ha)) as (s2 & E2 & A2).
  rewrite E2. cbn [mbind outcome_bind]. intros Hlaw.
  specialize (Hlaw _ _ eq_refl). destruct Hlaw as [_ Hend].
  eexists _, _. split; [reflexivity|]. cbn.
  destruct Ha as (_ & _ & Hst & _). destruct A2 as (_ & _ & Hst2 & A4).
  cbn in *. repeat split; try lia; try exact Hend.
Qed.
(** ** The metadata *)

Lemma dedupeLoop_elem metadata :
  forall (seen : gset string) (deduped : list string) (size_ : Z) (x : string),
    x ∈ fst (dedupeLoop metadata seen deduped size_) <->
    x ∈ deduped \/ (x ∈ metadata /\ x ∉ seen).
Proof.
  clear unicodeIsLetter.
  induction metadata as [|m rest IH]; intros seen deduped size_ x;
    cbn [dedupeLoop fst].
  - split; [intros H; left; exact H|].
    intros [H|[H _]]; [exact H|inversion H].
  - case_bool_decide as Hm; rewrite IH.
    + split; (intros [H|[H Hs]]; [left; exact H|right]).
      * split; [apply elem_of_cons; right; exact H|exact Hs].
      * apply elem_of_cons in H. destruct H as [->|H];
          [contradiction|split; assumption].
    + rewrite elem_of_app, list_elem_of_singleton, elem_of_union,
        elem_of_singleton, elem_of_cons.
      split.
      * intros [[H|H]|[H Hs]].
        -- left; exact H.
        -- right. subst x. split; [left; reflexivity|exact Hm].
        -- right. split; [right; exact H|]. intros Hx. apply Hs. right. exact Hx.
      * intros [H|[[H|H] Hs]].
        -- left; left; exact H.
        -- left; right; exact H.
        -- destruct (decide (x = m)) as [->|Hne]; [left; right; reflexivity|].
           right. split; [exact H|]. intros [Hx|Hx]; contradiction.
Qed.

Ltac membership :=
  rewrite ?elem_of_union, ?elem_of_singleton, ?elem_of_cons, ?elem_of_nil,
    ?elem_of_empty in *;
  intuition congruence.

Lemma dedupeLoop_snoc metadata :
  forall (seen : gset string) (deduped : list string) (size_ : Z) (x : string),
    fst (dedupeLoop (metadata ++ [x]) seen deduped size_)
    = if bool_decide (x ∈ seen \/ x ∈ metadata)
      then fst (dedupeLoop metadata seen deduped size_)
      else fst (dedupeLoop metadata seen deduped size_) ++ [x].
Proof.
  clear unicodeIsLetter.
  induction metadata as [|m rest IH]; intros seen deduped size_ x.
  - cbn [app dedupeLoop].
    case_bool_decide as H1; case_bool_decide as H2; cbn [fst dedupeLoop];
      try reflexivity; exfalso; membership.
  - cbn [app dedupeLoop]. case_bool_decide as Hm; rewrite IH;
      case_bool_decide as H1; case_bool_decide as H2; try reflexivity;
      exfalso; membership.
Qed.

Lemma dedupeLoop_NoDup metadata :
  forall (seen : gset string) (deduped : list string) (size_ : Z),
    NoDup metadata -> (forall x, x ∈ metadata -> x ∉ seen) ->
    dedupeLoop metadata seen deduped size_
    = (deduped ++ metadata, size_ + byteLengths metadata).
Proof.
  induction metadata as [|m rest IH]; intros seen deduped size_ Hnd Hns;
    cbn [dedupeLoop].
  - rewrite app_nil_r. cbn. f_equal. lia.
  - apply NoDup_cons in Hnd. destruct Hnd as [Hm Hnd].
    case_bool_decide as Hs;
      [exfalso; apply (Hns m); [apply elem_of_cons; left; reflexivity|exact Hs]|].
    rewrite IH; [|exact Hnd|].
    + rewrite <- List.app_assoc. cbn [app byteLengths fold_right].
      f_equal. unfold byteLengths. lia.
    + intros x Hx Hx'. apply elem_of_union in Hx'. destruct Hx' as [Hx'|Hx'].
      * apply elem_of_singleton in Hx'. subst x. contradiction.
      * apply (Hns x); [apply elem_of_cons; right; exact Hx|exact Hx'].
Qed.

(** X12: [dedupeCollectedMetadata] keeps the strings of its argument and
    adds none; it keeps them in the order of their first occurrence (a
    string appended to the argument is appended to the result when it is
    new, and dropped otherwise); and it returns an argument that holds no
    string twice as it is, with the sum of its byte lengths. *)
Theorem X12_dedupeCollectedMetadata_keeps_first_occurrences :
  forall metadata : list string,
    (forall x, x ∈ fst (dedupeCollectedMetadata metadata) <-> x ∈ metadata) /\
    (forall x,
        fst (dedupeCollectedMetadata (metadata ++ [x]))
        = if bool_decide (x ∈ metadata)
          then fst (dedupeCollectedMetadata metadata)
          else fst (dedupeCollectedMetadata metadata) ++ [x]) /\
    (NoDup metadata ->
     dedupeCollectedMetadata metadata = (metadata, byteLengths metadata)).
Proof.
  clear unicodeIsLetter.
  intros metadata. unfold dedupeCollectedMetadata. split; [|split].
  - intros x. rewrite dedupeLoop_elem. split.
    + intros [H|[H _]]; [inversion H|exact H].
    + intros H. right. split; [exact H|]. apply not_elem_of_empty.
  - intros x. rewrite dedupeLoop_snoc.
    case_bool_decide as H1; case_bool_decide as H2; try reflexivity;
      exfalso; membership.
  - intros Hnd. rewrite dedupeLoop_NoDup; [reflexivity|exact Hnd|].
    intros x _. apply not_elem_of_empty.
Qed.

(** What [collectMetadata] leaves alone: a sequence whose option is off. *)
Lemma collectMetadata_off cfg source token last md ctes :
  let md' := snd (fst (collectMetadata cfg source token last md ctes)) in
  (CollectTables cfg = false -> Tables md' = Tables md) /\
  (CollectCommands cfg = false -> Commands md' = Commands md) /\
  (CollectComments cfg = false -> Comments md' = Comments md) /\
  (CollectProcedure cfg = false -> Procedures md' = Procedures md).
Proof.
  unfold collectMetadata.
  destruct (CollectTables cfg), (CollectCommands cfg), (CollectComments cfg),
    (CollectProcedure cfg); cbn [andb];
    repeat match goal with
           | |- context [if ?c then _ else _] => destruct c
           | |- context [match ?x with Some _ => _ | None => _ end] =>
             destruct x
           end;
    cbn; repeat split; intros H; try reflexivity; discriminate H.
Qed.

Lemma normalizeLoop_off cfg dbms fuel :
  forall input lexer last md ctes st b md',
    normalizeLoop cfg dbms fuel input lexer last md ctes st = Ok (b, md') ->
    (CollectTables cfg = false -> Tables md' = Tables md) /\
    (CollectCommands cfg = false -> Commands md' = Commands md) /\
    (CollectComments cfg = false -> Comments md' = Comments md) /\
    (CollectProcedure cfg = false -> Procedures md' = Procedures md).
Proof.
  induction fuel as [|f IH]; intros input lexer last md ctes st b md';
    [discriminate|].
  rewrite normalizeLoop_S. intros H.
  apply bind_Ok in H. destruct H as ([token lexer'] & _ & H).
  pose proof (collectMetadata_off cfg input token last md ctes) as Hs.
  destruct (collectMetadata cfg input token last md ctes)
    as [[token1 md1] ctes1].
  cbn [fst snd] in Hs. cbv zeta in Hs.
  apply bind_Ok in H. destruct H as ([token2 st'] & _ & H).
  destruct (isType (Type_ token2) EOF).
  - injection H as _ <-. exact Hs.
  - destruct (IH _ _ _ _ _ _ _ _ H) as (I1 & I2 & I3 & I4).
    destruct Hs as (S1 & S2 & S3 & S4).
    repeat split; intros E;
      [rewrite (I1 E); exact (S1 E)|rewrite (I2 E); exact (S2 E)
      |rewrite (I3 E); exact (S3 E)|rewrite (I4 E); exact (S4 E)].
Qed.

Lemma dedupeStatementMetadata_fields info :
  Tables (dedupeStatementMetadata info)
  = fst (dedupeCollectedMetadata (Tables info)) /\
  Comments (dedupeStatementMetadata info)
  = fst (dedupeCollectedMetadata (Comments info)) /\
  Commands (dedupeStatementMetadata info)
  = fst (dedupeCollectedMetadata (Commands info)) /\
  Procedures (dedupeStatementMetadata info)
  = fst (dedupeCollectedMetadata (Procedures info)).
Proof.
  unfold dedupeStatementMetadata.
  destruct (dedupeCollectedMetadata (Tables info)) as [t ts].
  destruct (dedupeCollectedMetadata (Comments info)) as [c cs].
  destruct (dedupeCollectedMetadata (Commands info)) as [k ks].
  destruct (dedupeCollectedMetadata (Procedures info)) as [p ps].
  repeat split.
Qed.

(** X13: [Normalize] collects a kind of metadata only when its option is
    on: with collect-tables off the tables it returns are empty, and
    likewise the commands, the comments and the procedures. *)
Theorem X13_metadata_is_collected_only_on_request :
  forall (cfg : normalizerConfig) (dbms : DBMSType) (fuel : nat)
         (input normalized : string) (md : StatementMetadata),
    Normalize cfg dbms fuel input = Ok (normalized, md) ->
    (CollectTables cfg = false -> Tables md = []) /\
    (CollectCommands cfg = false -> Commands md = []) /\
    (CollectComments cfg = false -> Comments md = []) /\
    (CollectProcedure cfg = false -> Procedures md = []).
Proof.
  intros cfg dbms fuel input normalized md H. unfold Normalize in H.
  apply bind_Ok in H. destruct H as ([b md0] & Hloop & H).
  injection H as _ <-. cbn [snd].
  destruct (normalizeLoop_off _ _ _ _ _ _ _ _ _ _ _ Hloop) as (I1 & I2 & I3 & I4).
  destruct (dedupeStatementMetadata_fields md0) as (F1 & F2 & F3 & F4).
  rewrite F1, F2, F3, F4.
  repeat split; intros E;
    [rewrite (I1 E)|rewrite (I2 E)|rewrite (I3 E)|rewrite (I4 E)];
    reflexivity.
Qed.

Lemma byte_chr b : 0 <= b < 256 -> byte (chr b) = b.
Proof.
  intros H. unfold byte, chr. rewrite N_ascii_embedding; lia.
Qed.

Lemma upperByte_range b : 0 <= b < 256 -> 0 <= upperByte b < 256.
Proof.
  intros H. unfold upperByte.
  destruct ((97 <=? b) && (b <=? 122)) eqn:E; Zbool; lia.
Qed.

Lemma upperByte_idem b : upperByte (upperByte b) = upperByte b.
Proof.
  unfold upperByte.
  destruct ((97 <=? b) && (b <=? 122)) eqn:E; [|rewrite E; reflexivity].
  Zbool.
  destruct ((97 <=? b - 32) && (b - 32 <=? 122)) eqn:E'; [|reflexivity].
  Zbool. lia.
Qed.

Lemma ToUpper_idem s : ToUpper (ToUpper s) = ToUpper s.
Proof.
  unfold ToUpper. induction s as [|c t IH]; [reflexivity|].
  cbn [bytes map ofBytes]. rewrite byte_chr by (apply upperByte_range, byte_range).
  rewrite upperByte_idem. f_equal. exact IH.
Qed.

Lemma collectMetadata_upper cfg source token last md ctes :
  Forall (fun c => ToUpper c = c) (Commands md) ->
  Forall (fun c => ToUpper c = c)
         (Commands (snd (fst (collectMetadata cfg source token last md ctes)))).
Proof.
  intros H. unfold collectMetadata.
  repeat match goal with
         | |- context [if ?c then _ else _] => destruct c
         | |- context [match ?x with Some _ => _ | None => _ end] => destruct x
         end; cbn [fst snd Commands appendCommand appendComment appendTable
                   appendProcedure]; try exact H.
  apply Forall_app. split; [exact H|].
  apply Forall_cons. split; [apply ToUpper_idem|apply Forall_nil_2].
Qed.

Lemma normalizeLoop_upper cfg dbms fuel :
  forall input lexer last md ctes st b md',
    Forall (fun c => ToUpper c = c) (Commands md) ->
    normalizeLoop cfg dbms fuel input lexer last md ctes st = Ok (b, md') ->
    Forall (fun c => ToUpper c = c) (Commands md').
Proof.
  induction fuel as [|f IH]; intros input lexer last md ctes st b md' Hu;
    [discriminate|].
  rewrite normalizeLoop_S. intros H.
  apply bind_Ok in H. destruct H as ([token lexer'] & _ & H).
  pose proof (collectMetadata_upper cfg input token last md ctes Hu) as Hs.
  destruct (collectMetadata cfg input token last md ctes)
    as [[token1 md1] ctes1].
  cbn [fst snd] in Hs.
  apply bind_Ok in H. destruct H as ([token2 st'] & _ & H).
  destruct (isType (Type_ token2) EOF).
  - injection H as _ <-. exact Hs.
  - exact (IH _ _ _ _ _ _ _ _ Hs H).
Qed.

(** X14: the commands that [Normalize] returns are in upper case, whatever
    the case of the input: [strings.ToUpper] leaves each of them as it
    is. *)
Theorem X14_commands_are_upper_case :
  forall (cfg : normalizerConfig) (dbms : DBMSType) (fuel : nat)
         (input normalized : string) (md : StatementMetadata) (c : string),
    Normalize cfg dbms fuel input = Ok (normalized, md) ->
    c ∈ Commands md ->
    ToUpper c = c.
Proof.
  intros cfg dbms fuel input normalized md c H Hc. unfold Normalize in H.
  apply bind_Ok in H. destruct H as ([b md0] & Hloop & H).
  injection H as _ <-. cbn [snd] in Hc.
  destruct (dedupeStatementMetadata_fields md0) as (_ & _ & F3 & _).
  rewrite F3 in Hc. unfold dedupeCollectedMetadata in Hc.
  apply dedupeLoop_elem in Hc. destruct Hc as [Hc|[Hc _]]; [inversion Hc|].
  pose proof (normalizeLoop_upper _ _ _ _ _ _ emptyMetadata _ _ _ _
                (Forall_nil_2 _) Hloop) as Hu.
  rewrite Forall_forall in Hu. exact (Hu c Hc).
Qed.
(** ** Runs of whitespace *)

Lemma isWhitespace_low b : isWhitespace b = true -> b < 128.
Proof.
  unfold isWhitespace. intros H.
  repeat (apply orb_true_iff in H; destruct H as [H|H]); Zbool;
    rewrite H; reflexivity.
Qed.

Lemma whitespaceLoop_run :
  forall run fuel s before rest,
    allBytes isWhitespace run = true ->
    isWhitespace (headRune rest) = false ->
    (String.length run < fuel)%nat ->
    positioned s before (run +:+ rest) ->
    whitespaceLoop fuel (headRune (run +:+ rest)) s
    = Ok (setCursor s (cursor s + len run)).
Proof.
  induction run as [|c t IH]; intros fuel s before rest Hall Hrest Hf Hp;
    (destruct fuel as [|f]; [cbn in Hf; lia|]); cbn [whitespaceLoop].
  - rewrite app_nil_l, Hrest. change (len "") with 0.
    rewrite Z.add_0_r, setCursor_here. reflexivity.
  - cbn [allBytes] in Hall. apply andb_true_iff in Hall.
    destruct Hall as [Hc Ht]. rewrite app_String in *.
    rewrite headRune_low by (apply isWhitespace_low, Hc). rewrite Hc.
    destruct (next_positioned _ _ _ _ Hp) as [Hn Hp'].
    rewrite Hn, (IH f _ _ rest Ht Hrest ltac:(cbn in Hf; lia) Hp').
    rewrite setCursor_setCursor, len_String. cbn [cursor setCursor].
    f_equal. f_equal. lia.
Qed.

Lemma Scan_whitespace_run s before c run rest :
  positioned s before (String c run +:+ rest) ->
  allBytes isWhitespace (String c run) = true ->
  isWhitespace (headRune rest) = false ->
  Scan s
  = Ok (emit WS (setCursor (markStart s) (cursor s + len (String c run)))).
Proof.
  intros Hp Hall Hrest. pose proof Hall as Hall'.
  cbn [allBytes] in Hall. apply andb_true_iff in Hall.
  destruct Hall as [Hc Ht]. rewrite app_String in Hp.
  pose proof (peek_positioned _ _ _ Hp) as Hpeek.
  rewrite headRune_low in Hpeek by (apply isWhitespace_low, Hc).
  unfold Scan. cbv zeta. rewrite Hpeek, Hc.
  unfold scanWhitespace. cbv zeta.
  assert (Hpm : positioned (markStart s) before (String c (run +:+ rest)))
    by exact Hp.
  destruct (next_positioned _ _ _ _ Hpm) as [Hn Hp'].
  rewrite Hn.
  rewrite (whitespaceLoop_run run _ _ (before +:+ String c "") rest Ht Hrest);
    [| |exact Hp'].
  - cbn [mbind outcome_bind mret outcome_ret].
    rewrite setCursor_setCursor, len_String. cbn [cursor setCursor markStart].
    do 3 f_equal. lia.
  - unfold loopFuel. pose proof (positioned_length _ _ _ Hpm) as Hl.
    cbn [src markStart] in *. rewrite Hl. cbn [String.length].
    pose proof (len_app run rest) as Hla. unfold len in Hla. lia.
Qed.

Lemma normalizeSQL_WS N cfg source token last st :
  Type_ token = WS ->
  normalizeSQL N cfg source token last st = Ok (token, st).
Proof. intros H. unfold normalizeSQL. rewrite H. reflexivity. Qed.

Lemma collectMetadata_plain cfg source token last md ctes :
  Type_ token = WS \/ Type_ token = EOF ->
  collectMetadata cfg source token last md ctes = (token, md, ctes).
Proof.
  intros H. unfold collectMetadata.
  destruct H as [H|H]; rewrite H; cbn; rewrite andb_false_r; reflexivity.
Qed.

Lemma normalizeLoop_at_end cfg dbms f input lexer last md ctes :
  peek lexer = 0 ->
  normalizeLoop cfg dbms (S f) input lexer last md ctes initialState
  = Ok ("", md).
Proof.
  intros Hp. rewrite normalizeLoop_S, (Scan_at_end lexer Hp).
  cbn [mbind outcome_bind emit].
  rewrite collectMetadata_plain by (right; reflexivity).
  reflexivity.
Qed.

Lemma finish_nothing cfg :
  finish cfg ("", emptyMetadata) = ("", emptyMetadata).
Proof.
  unfold finish, trimNormalizedSQL. cbn [fst snd].
  destruct (KeepTrailingSemicolon cfg); reflexivity.
Qed.

(** X15: an input made of whitespace only (spaces, tabs, line feeds,
    carriage returns), the empty input included, is normalized to the empty
    text with empty metadata, for every configuration and dialect. *)
Theorem X15_blank_input_normalizes_to_nothing :
  forall (cfg : normalizerConfig) (dbms : DBMSType) (ws : string)
         (fuel : nat),
    allBytes isWhitespace ws = true ->
    Normalize cfg dbms (S (S fuel)) ws = Ok ("", emptyMetadata).
Proof.
  intros cfg dbms ws fuel Hall. unfold Normalize.
  destruct ws as [|c run].
  - rewrite normalizeLoop_at_end by reflexivity.
    cbn [mbind outcome_bind mret outcome_ret]. rewrite finish_nothing.
    reflexivity.
  - assert (Hp : positioned (New (String c run) dbms) ""
                   (String c run +:+ ""))
      by (split; [rewrite app_empty_r; reflexivity|reflexivity]).
    rewrite normalizeLoop_S.
    rewrite (Scan_whitespace_run _ _ _ _ _ Hp Hall eq_refl).
    cbn [mbind outcome_bind emit].
    rewrite collectMetadata_plain by (left; reflexivity).
    rewrite normalizeSQL_WS by reflexivity.
    cbn [mbind outcome_bind Type_ isType]. 
    change (isType WS EOF) with false. cbv iota.
    change (isValueToken _) with false. cbv iota.
    rewrite normalizeLoop_at_end.
    + cbn [mbind outcome_bind mret outcome_ret]. rewrite finish_nothing.
      reflexivity.
    + apply peek_at_end. cbn [src cursor New markStart setCursor]. lia.
Qed.
(** ** The incremental metadata *)

Lemma addMetadata_agree size value set slice :
  agree set slice ->
  let '(size', set', slice') := Incremental.addMetadata size value set slice in
  agree set' slice' /\
  size' - byteLengths slice' = size - byteLengths slice.
Proof.
  clear unicodeIsLetter.
  intros [Hnd Hin]. unfold Incremental.addMetadata.
  case_bool_decide as Hv; [split; [split; assumption|reflexivity]|].
  split; [split|].
  - apply NoDup_app. split; [exact Hnd|]. split; [|apply NoDup_singleton].
    intros x Hx Hx'. apply list_elem_of_singleton in Hx'. subst x.
    apply Hv, Hin, Hx.
  - intros x. rewrite elem_of_union, elem_of_singleton, elem_of_app,
      list_elem_of_singleton, Hin. tauto.
  - rewrite byteLengths_snoc. lia.
Qed.

Lemma agree_empty : agree ∅ [].
Proof.
  split; [apply NoDup_nil_2|]. intros x.
  rewrite elem_of_empty, elem_of_nil. tauto.
Qed.

(** X16: the incremental metadata of the later revision stays consistent:
    after every [addMetadata] on a sequence and its set, and after [reset],
    no sequence holds a string twice, each set holds the strings of its
    sequence, and [Size] is the sum of the byte lengths of the strings. *)
Theorem X16_incremental_metadata_stays_consistent :
  forall (sm : Incremental.StatementMetadata) (value : string),
    consistent sm ->
    consistent (Incremental.addTable sm value) /\
    consistent (Incremental.addComment sm value) /\
    consistent (Incremental.addCommand sm value) /\
    consistent (Incremental.addProcedure sm value) /\
    consistent (Incremental.reset sm).
Proof.
  clear unicodeIsLetter.
  intros sm value (A1 & A2 & A3 & A4 & HS).
  unfold Incremental.addTable, Incremental.addComment,
    Incremental.addCommand, Incremental.addProcedure.
  pose proof (addMetadata_agree (Incremental.Size sm) value _ _ A1) as H1.
  pose proof (addMetadata_agree (Incremental.Size sm) value _ _ A2) as H2.
  pose proof (addMetadata_agree (Incremental.Size sm) value _ _ A3) as H3.
  pose proof (addMetadata_agree (Incremental.Size sm) value _ _ A4) as H4.
  destruct (Incremental.addMetadata _ _ (Incremental.tablesSet sm) _)
    as [[z1 g1] l1].
  destruct (Incremental.addMetadata _ _ (Incremental.commentsSet sm) _)
    as [[z2 g2] l2].
  destruct (Incremental.addMetadata _ _ (Incremental.commandsSet sm) _)
    as [[z3 g3] l3].
  destruct (Incremental.addMetadata _ _ (Incremental.proceduresSet sm) _)
    as [[z4 g4] l4].
  destruct H1 as [B1 S1], H2 as [B2 S2], H3 as [B3 S3], H4 as [B4 S4].
  unfold consistent.
  cbn [Incremental.Size Incremental.Tables Incremental.Comments
       Incremental.Commands Incremental.Procedures Incremental.tablesSet
       Incremental.commentsSet Incremental.commandsSet
       Incremental.proceduresSet Incremental.reset].
  split; [|split; [|split; [|split]]].
  - split; [exact B1|]. split; [exact A2|]. split; [exact A3|].
    split; [exact A4|lia].
  - split; [exact A1|]. split; [exact B2|]. split; [exact A3|].
    split; [exact A4|lia].
  - split; [exact A1|]. split; [exact A2|]. split; [exact B3|].
    split; [exact A4|lia].
  - split; [exact A1|]. split; [exact A2|]. split; [exact A3|].
    split; [exact B4|lia].
  - split; [exact agree_empty|]. split; [exact agree_empty|].
    split; [exact agree_empty|]. split; [exact agree_empty|reflexivity].
Qed.

Lemma addMetadata_dedupeLoop metadata :
  forall (size : Z) (seen : gset string) (deduped : list string),
    fold_left
      (fun acc value =>
         Incremental.addMetadata (fst (fst acc)) value (snd (fst acc)) (snd acc))
      metadata (size, seen, deduped)
    = (snd (dedupeLoop metadata seen deduped size),
       list_to_set metadata ∪ seen,
       fst (dedupeLoop metadata seen deduped size)).
Proof.
  clear unicodeIsLetter.
  induction metadata as [|m rest IH]; intros size seen deduped;
    cbn [fold_left dedupeLoop fst snd list_to_set].
  - f_equal. f_equal. apply set_eq. intros x.
    rewrite elem_of_union, elem_of_empty. tauto.
  - unfold Incremental.addMetadata at 2.
    case_bool_decide as Hm; rewrite IH.
    + replace (list_to_set rest ∪ seen)
        with ({[m]} ∪ list_to_set rest ∪ seen); [reflexivity|].
      apply set_eq. intros x.
      rewrite !elem_of_union, elem_of_singleton. intuition congruence.
    + replace (list_to_set rest ∪ ({[m]} ∪ seen))
        with ({[m]} ∪ list_to_set rest ∪ seen); [reflexivity|].
      apply set_eq. intros x.
      rewrite !elem_of_union, elem_of_singleton. tauto.
Qed.

(** X17: the two revisions agree on what they collect: [addMetadata],
    applied to the strings of a sequence in order from the empty state,
    leaves the sequence and the size that [dedupeCollectedMetadata] gives
    for it, and the set of its strings. *)
Theorem X17_addMetadata_agrees_with_dedupeCollectedMetadata :
  forall metadata : list string,
    fold_left
      (fun acc value =>
         Incremental.addMetadata (fst (fst acc)) value (snd (fst acc)) (snd acc))
      metadata (0, ∅, [])
    = (snd (dedupeCollectedMetadata metadata), list_to_set metadata,
       fst (dedupeCollectedMetadata metadata)).
Proof.
  clear unicodeIsLetter.
  intros metadata. rewrite addMetadata_dedupeLoop.
  unfold dedupeCollectedMetadata. f_equal. f_equal.
  apply set_eq. intros x. rewrite elem_of_union, elem_of_empty. tauto.
Qed.
(** ** How a token begins *)

Lemma isDBMS_eq a b : isDBMS a b = true -> a = b.
Proof. unfold isDBMS. intros H. apply bool_decide_eq_true in H. exact H. Qed.

Lemma scanMultiLineComment_kind s :
  yields (fun t _ => t = MULTILINE_COMMENT \/ t = ERROR)
         (scanMultiLineComment s).
Proof.
  unfold scanMultiLineComment. cbv zeta.
  destruct (nextBy (markStart s) 2) as [ch s1].
  generalize (loopFuel (markStart s)). intros fuel. revert ch s1.
  induction fuel as [|f IH]; intros ch s1; cbn [multiLineCommentLoop];
    kind_auto.
  apply IH.
Qed.

Lemma scanPositionalParameter_kind s :
  yields (fun t _ => t = POSITIONAL_PARAMETER) (scanPositionalParameter s).
Proof. unfold scanPositionalParameter. kind_auto. Qed.

Lemma scanBindParameter_kind s :
  yields (fun t _ => t = BIND_PARAMETER) (scanBindParameter s).
Proof. unfold scanBindParameter. kind_auto. Qed.

Lemma scanSystemVariable_kind s :
  yields (fun t _ => t = SYSTEM_VARIABLE \/ t = ERROR) (scanSystemVariable s).
Proof. unfold scanSystemVariable. kind_auto. Qed.

(** [Scan] by cases: the kind of the token and the runes it began at. *)
Lemma Scan_opening s : ready s -> yields (fun t _ => opening s t) (Scan s).
Proof.
  intros Hrd. pose proof Hrd as [Hr Hs].
  assert (Hword : forall t s',
             t = IDENT \/ (t = FUNCTION /\ peek s' = rune "(") \/
             (isKeywordKind t = true /\ isDelimiter (peek s') = true) ->
             opening s IDENT -> opening s t).
  { intros t s' [->|[[-> _]|[Hk _]]] Hc; [exact Hc|exact Hc|].
    destruct t; try discriminate Hk; exact Hc. }
  assert (Hop : forall t, t = OPERATOR \/ t = JSON_OP ->
                          opening s OPERATOR -> opening s t).
  { intros t [-> | ->] Hc; exact Hc. }
  unfold Scan. cbv zeta.
  destruct (isWhitespace (peek s)) eqn:E1.
  { by_law (scanWhitespace_law s Hr). destruct H as [-> _]. exact E1. }
  destruct (isLetter (peek s)) eqn:E2.
  { by_law (scanIdentifier_law s Hr). apply (Hword _ _ H). left. exact E2. }
  destruct (isDoubleQuote (peek s)) eqn:E3.
  { by_law (scanDoubleQuotedIdentifier_law 34 s Hr).
    destruct H as [->|[-> _]]; [|exact I].
    left. unfold isDoubleQuote in E3. Zbool. exact E3. }
  destruct (isSingleQuote (peek s)) eqn:E4.
  { unfold isSingleQuote in E4. Zbool.
    by_law (scanString_law s Hr). destruct H as [->|[-> _]]; exact E4. }
  destruct (isSingleLineComment (peek s) (lookAhead s 1)) eqn:E5.
  { by_law (scanSingleLineComment_kind s). subst t.
    unfold isSingleLineComment in E5. Zbool. left. split; assumption. }
  destruct (isMultiLineComment (peek s) (lookAhead s 1)) eqn:E6.
  { by_law (scanMultiLineComment_kind s). destruct H as [-> | ->]; [|exact I].
    unfold isMultiLineComment in E6. Zbool. split; assumption. }
  destruct (isLeadingSign (peek s)) eqn:E7.
  { destruct (isDigit (lookAhead s 1) || (lookAhead s 1 =? rune ".")) eqn:En.
    - by_law (scanNumberWithLeadingSign_kind s). subst t.
      right. split; [exact E7|].
      apply orb_true_iff in En. destruct En as [En|En];
        [left; exact En|right; Zbool; exact En].
    - by_law (scanOperator_kind (peek s) s). apply (Hop _ H). left.
      unfold isLeadingSign in E7. apply orb_true_iff in E7.
      destruct E7 as [E7|E7]; Zbool; rewrite E7; reflexivity. }
  destruct (isDigit (peek s)) eqn:E8.
  { by_law (scanNumber_kind (peek s) s). subst t. left. exact E8. }
  destruct (isWildcard (peek s)) eqn:E9.
  { unfold scanWildcard. apply yields_emit.
    unfold isWildcard in E9. Zbool. exact E9. }
  destruct (peek s =? rune "$") eqn:E10.
  { Zbool. destruct (isDigit (lookAhead s 1)) eqn:Ed.
    { by_law (scanPositionalParameter_kind s). subst t.
      split; assumption. }
    destruct (isDBMS (config s) DBMSSQLServer && isLetter (lookAhead s 1))
      eqn:Es.
    - by_law (scanIdentifier_law s Hr). apply (Hword _ _ H).
      right. left. apply andb_true_iff in Es. destruct Es as [Es _].
      split; [exact (isDBMS_eq _ _ Es)|left; exact E10].
    - by_law (scanDollarQuotedString_law s Hr).
      destruct H as [->|[->|[-> _]]]; [exact E10|exact E10|exact I]. }
  destruct (peek s =? rune ":") eqn:E11.
  { destruct (isDBMS (config s) DBMSOracle && isAlphaNumeric (lookAhead s 1))
      eqn:Eo.
    - by_law (scanBindParameter_kind s). subst t.
      apply andb_true_iff in Eo. destruct Eo as [Eo Ea]. Zbool.
      split; [right; split; [exact E11|exact (isDBMS_eq _ _ Eo)]|exact Ea].
    - by_law (scanOperator_kind (peek s) s). apply (Hop _ H). left.
      Zbool. rewrite E11. reflexivity. }
  assert (Hhash : peek s = rune "#" \/ peek s = rune "`" ->
                  isDBMS (config s) DBMSMySQL = false \/ peek s = rune "#" ->
                  yields (fun t _ => opening s t) (scanHash (peek s) s)).
  { intros Hc Hmy. unfold scanHash.
    destruct (isDBMS (config s) DBMSSQLServer) eqn:Esql.
    { by_law (scanIdentifier_law s Hr). apply (Hword _ _ H).
      right. left. split; [exact (isDBMS_eq _ _ Esql)|].
      destruct Hc as [Hc|Hc]; [right; left|right; right]; exact Hc. }
    destruct (isDBMS (config s) DBMSMySQL) eqn:Emy.
    { by_law (scanSingleLineComment_kind s). subst t.
      right. destruct Hmy as [Hmy|Hmy]; [discriminate Hmy|].
      split; [exact Hmy|exact (isDBMS_eq _ _ Emy)]. }
    by_law (scanOperator_kind (peek s) s). apply (Hop _ H).
    destruct Hc as [Hc|Hc]; [left; rewrite Hc; reflexivity|right; exact Hc]. }
  destruct (peek s =? rune "`") eqn:E12.
  { Zbool. destruct (isDBMS (config s) DBMSMySQL) eqn:Emy.
    - by_law (scanDoubleQuotedIdentifier_law (rune "`") s Hr).
      destruct H as [->|[-> _]]; [|exact I].
      right. left. split; [exact E12|exact (isDBMS_eq _ _ Emy)].
    - apply Hhash; [right; exact E12|left; reflexivity]. }
  destruct (peek s =? rune "#") eqn:E13.
  { Zbool. apply Hhash; [left; exact E13|right; exact E13]. }
  clear Hhash.
  destruct (peek s =? rune "@") eqn:E14.
  { Zbool. unfold scanAt.
    assert (Hat : opening s OPERATOR) by (left; rewrite E14; reflexivity).
    destruct (lookAhead s 1 =? rune "@") eqn:A1.
    { Zbool. destruct (isAlphaNumeric (lookAhead s 2)) eqn:A2.
      - by_law (scanSystemVariable_kind s). destruct H as [-> | ->]; [|exact I].
        split; [exact E14|split; [exact A1|exact A2]].
      - unfold scanJSONOp2. apply yields_emit. exact Hat. }
    destruct (isAlphaNumeric (lookAhead s 1)) eqn:A3.
    { destruct (isDBMS (config s) DBMSSnowflake) eqn:Esn.
      - by_law (scanIdentifier_law s Hr). apply (Hword _ _ H).
        right. right. split; [exact (isDBMS_eq _ _ Esn)|exact E14].
      - by_law (scanBindParameter_kind s). subst t.
        split; [left; exact E14|exact A3]. }
    destruct ((lookAhead s 1 =? rune "?") || (lookAhead s 1 =? rune ">")).
    - unfold scanJSONOp2. apply yields_emit. exact Hat.
    - by_law (scanOperator_kind (peek s) s). apply (Hop _ H). exact Hat. }
  destruct (isOperator (peek s)) eqn:E15.
  { by_law (scanOperator_kind (peek s) s). apply (Hop _ H). left. exact E15. }
  destruct (isPunctuation (peek s)) eqn:E16.
  { destruct ((peek s =? rune "[") && isDBMS (config s) DBMSSQLServer) eqn:Eb.
    - by_law (scanDoubleQuotedIdentifier_law (rune "[") s Hr).
      destruct H as [->|[-> _]]; [|exact I].
      apply andb_true_iff in Eb. destruct Eb as [Eb Ec]. Zbool.
      right. right. split; [exact Eb|exact (isDBMS_eq _ _ Ec)].
    - unfold scanPunctuation. apply yields_emit. exact E16. }
  destruct (isEOF (peek s)) eqn:E17.
  - apply yields_emit. unfold isEOF in E17. Zbool. exact E17.
  - apply yields_emit. unfold isEOF, isDoubleQuote, isSingleQuote in *. Zbool.
    repeat split; assumption.
Qed.

(** X18: the kind of a token tells how the token begins. [opening] lists,
    for each kind, the runes under and after the cursor (and the dialect)
    at which [Scan] gives a token of that kind; every token that [Scan]
    returns obeys it. Conversely whitespace under the cursor always gives
    WS, a digit NUMBER, a single quote STRING or INCOMPLETE_STRING, and the
    end of the stream EOF. *)
Theorem X18_token_kind_tells_how_the_token_begins :
  forall (s : Lexer) (tok : Token) (s' : Lexer),
    ready s ->
    Scan s = Ok (tok, s') ->
    opening s (Type_ tok) /\
    (isWhitespace (peek s) = true -> Type_ tok = WS) /\
    (isDigit (peek s) = true -> Type_ tok = NUMBER) /\
    (peek s = rune "'" ->
     Type_ tok = STRING \/ Type_ tok = INCOMPLETE_STRING) /\
    (peek s = 0 -> Type_ tok = EOF).
Proof.
  intros s tok s' Hrd H. pose proof Hrd as [Hr _].
  split; [exact (Scan_opening s Hrd tok s' H)|].
  split; [|split; [|split]]; intros E.
  - unfold Scan in H. cbv zeta in H. rewrite E in H.
    exact (proj1 (scanWhitespace_law s Hr tok s' H)).
  - rewrite (Scan_digit s (peek s) eq_refl E) in H.
    exact (scanNumber_kind _ _ tok s' H).
  - rewrite (Scan_single_quote s E) in H.
    destruct (scanString_law s Hr tok s' H) as [HT|[HT _]];
      [left|right]; exact HT.
  - rewrite (Scan_at_end s E) in H. injection H as <- _. reflexivity.
Qed.
(** ** Inputs without a question mark *)

Lemma len_slice s a b :
  0 <= a -> a <= b -> b <= len s -> len (slice s a b) = b - a.
Proof.
  intros Ha Hab Hb. unfold slice, len in *.
  rewrite length_take; [lia|]. rewrite length_drop. lia.
Qed.

Lemma allBytes_drop p k :
  forall s, allBytes p s = true -> allBytes p (drop k s) = true.
Proof.
  induction k as [|k IH]; intros s H; [exact H|].
  destruct s as [|c t]; [exact H|]. cbn [drop]. apply IH.
  cbn [allBytes] in H. apply andb_true_iff in H. apply H.
Qed.

Lemma allBytes_take p k :
  forall s, allBytes p s = true -> allBytes p (take k s) = true.
Proof.
  induction k as [|k IH]; intros s H; [destruct s; reflexivity|].
  destruct s as [|c t]; [reflexivity|]. cbn [take allBytes] in *.
  apply andb_true_iff in H. destruct H as [Hc Ht].
  rewrite Hc. exact (IH t Ht).
Qed.

Lemma allBytes_slice p s a b :
  allBytes p s = true -> allBytes p (slice s a b) = true.
Proof. intros H. unfold slice. apply allBytes_take, allBytes_drop, H. Qed.

Lemma allBytes_removeAt p offsets :
  forall s pos,
    allBytes p s = true -> allBytes p (removeAt pos offsets s) = true.
Proof.
  induction s as [|c t IH]; intros pos H; [reflexivity|].
  cbn [removeAt allBytes] in *. apply andb_true_iff in H.
  destruct H as [Hc Ht].
  destruct (existsb _ _); [exact (IH _ Ht)|].
  cbn [allBytes]. rewrite Hc. exact (IH _ Ht).
Qed.

Lemma isPlaceholder_without v :
  allBytes notQuestionMark v = true -> isPlaceholder v = false.
Proof.
  intros H. unfold isPlaceholder, NumberPlaceholder, StringPlaceholder.
  destruct (String.eqb_spec v "?") as [->|_];
    [vm_compute in H; discriminate H|reflexivity].
Qed.

Lemma String_plain p source token :
  OutputValue token = "" -> allBytes p source = true ->
  allBytes p (String_ token source) = true.
Proof.
  intros Ho H. unfold String_. rewrite Ho. cbn [String.eqb negb].
  unfold Value. apply allBytes_slice, H.
Qed.

Lemma String_set p source token v :
  allBytes p source = true -> allBytes p v = true ->
  allBytes p (String_ (SetOutputValue token v) source) = true.
Proof.
  intros H Hv. unfold String_, SetOutputValue. cbn [OutputValue].
  destruct (negb (String.eqb v "")); [exact Hv|].
  unfold Value. apply allBytes_slice, H.
Qed.

(** The text of the token that [collectMetadata] hands on is cut from the
    source: the span of the token, or that span without its quotes. *)
Lemma collectMetadata_text p cfg source token last md ctes :
  OutputValue token = "" -> allBytes p source = true ->
  allBytes p
    (String_ (fst (fst (collectMetadata cfg source token last md ctes)))
             source) = true /\
  (isType (Type_ token) QUOTED_IDENT = false ->
   fst (fst (collectMetadata cfg source token last md ctes)) = token).
Proof.
  intros Ho H. unfold collectMetadata.
  assert (Hv : allBytes p (trimQuotes source token) = true).
  { unfold trimQuotes, Value. apply allBytes_removeAt, allBytes_slice, H. }
  pose proof (String_plain p source token Ho H) as Hp.
  pose proof (String_set p source token (trimQuotes source token) H Hv) as Hs.
  destruct (isType (Type_ token) QUOTED_IDENT) eqn:Eq; cbv zeta; cbn [andb];
    repeat match goal with
           | |- context [if ?c then _ else _] => destruct c
           | |- context [match ?x with Some _ => _ | None => _ end] =>
             destruct x
           end;
    cbn [fst snd]; (split; [assumption|]); intros E;
    first [reflexivity|discriminate E].
Qed.

Lemma isObfuscatedValueGroupable_plain source token last builder :
  isPlaceholder (String_ token source) = false ->
  isObfuscatedValueGroupable source token last false builder
  = Ok (false, false, builder).
Proof.
  intros H. unfold isObfuscatedValueGroupable. cbv zeta. rewrite H.
  cbn [mbind outcome_bind andb].
  destruct last; rewrite ?andb_false_r; reflexivity.
Qed.

Lemma isPlaceholder_func token source n :
  isPlaceholder
    (String_ (SetOutputValue token ("$func$" +:+ n +:+ "$func$")) source)
  = false.
Proof.
  unfold String_, SetOutputValue. cbn [OutputValue].
  rewrite !app_String. reflexivity.
Qed.

(** ** A dollar-quoted function holds both its tags *)

Lemma Scan_dollar s :
  peek s = rune "$" ->
  Scan s
  = if isDigit (lookAhead s 1) then scanPositionalParameter s
    else if isDBMS (config s) DBMSSQLServer && isLetter (lookAhead s 1)
         then scanIdentifier (rune "$") s
         else scanDollarQuotedString s.
Proof. intros H. unfold Scan. rewrite H. reflexivity. Qed.

Lemma dollarBodyLoop_function fuel : forall tag s,
  inRange s ->
  yields (fun t s' => t = DOLLAR_QUOTED_FUNCTION ->
                      tag = "$func$" /\ cursor s + 6 <= cursor s')
         (dollarBodyLoop fuel tag s).
Proof.
  induction fuel as [|f IH]; intros tag s Hr; cbn [dollarBodyLoop];
    (destruct (cursor s <? len (src s)) eqn:E;
     [|apply yields_emit; discriminate]);
    (destruct (matchAt s (runes tag)) eqn:Em;
     [destruct (String.eqb tag "$func$") eqn:Et;
      [|apply yields_emit; discriminate]|]).
  1, 3: apply String.eqb_eq in Et; subst tag;
    apply matchAt_fits in Em;
    change (Z.of_nat (List.length (runes "$func$"))) with 6 in Em;
    change (len "$func$") with 6;
    destruct (nextBy_spec s 6 Hr ltac:(lia)) as (ch & s1 & Hn & _ & _ & _ & Hc & _);
    rewrite Hn; cbn [snd]; apply yields_emit; intros _;
    split; [reflexivity|];
    change (cursor s + 6 <= cursor s1); rewrite (Hc Em); lia.
  - apply yields_OutOfFuel.
  - destruct (next_spec s Hr) as (ch & s1 & Hn & Ha & _).
    rewrite Hn. cbn [snd].
    eapply yields_weaken; [|exact (IH tag s1 (advance_inRange _ _ Hr Ha))].
    cbv beta. intros t s' H HT. destruct (H HT) as [H1 H2].
    split; [exact H1|]. destruct Ha as (_ & _ & _ & Ha). lia.
Qed.

Lemma scanDollarQuotedString_function s :
  inRange s -> peek s = rune "$" ->
  yields (fun t s' => t = DOLLAR_QUOTED_FUNCTION ->
                      cursor s + 12 <= cursor s')
         (scanDollarQuotedString s).
Proof.
  intros Hr Hp. unfold scanDollarQuotedString. cbv zeta.
  assert (Hlt : cursor s < len (src s))
    by (apply peek_nonzero; rewrite Hp; discriminate).
  destruct (next_spec (markStart s) Hr) as (ch & s1 & Hn & Ha & _ & _ & Hc).
  specialize (Hc Hlt). rewrite Hn.
  pose proof (advance_inRange (markStart s) _ Hr Ha) as Hr1.
  destruct (tagLoop_moves (loopFuel (markStart s)) ch s1 Hr1
              (fuel_after (markStart s) _ Hr Ha)) as (s2 & E2 & A2).
  rewrite E2. cbn [mbind outcome_bind].
  pose proof (advance_inRange _ _ Hr1 A2) as Hr2.
  destruct (next_spec s2 Hr2) as (ch3 & s3 & Hn3 & A3 & _).
  rewrite Hn3. cbn [snd].
  pose proof (advance_inRange _ _ Hr2 A3) as Hr3.
  unfold sliceChecked.
  destruct ((0 <=? cursor s1 - 1) && (cursor s1 - 1 <=? cursor s3)
            && (cursor s3 <=? len (src s3))) eqn:Eb;
    [|apply yields_Panic].
  cbn [mbind outcome_bind].
  eapply yields_weaken; [|exact (dollarBodyLoop_function _ _ s3 Hr3)].
  cbv beta. intros t s' H HT. destruct (H HT) as [Htag Hcur].
  Zbool. pose proof (f_equal len Htag) as Hl.
  rewrite len_slice in Hl by lia. change (len "$func$") with 6 in Hl.
  change (cursor (markStart s)) with (cursor s) in Hc. lia.
Qed.

Lemma Scan_function_length s tok s' :
  ready s -> Scan s = Ok (tok, s') ->
  Type_ tok = DOLLAR_QUOTED_FUNCTION ->
  Start tok + 12 <= End_ tok.
Proof.
  intros Hrd H HT. pose proof Hrd as [Hr _].
  pose proof (Scan_opening s Hrd tok s' H) as Ho. rewrite HT in Ho.
  change (peek s = rune "$") in Ho.
  destruct (Scan_returns s Hrd) as (tok0 & s0 & H0 & HSt & HE & _).
  rewrite H in H0. injection H0 as <- <-.
  rewrite HSt, HE. rewrite (Scan_dollar s Ho) in H.
  destruct (isDigit (lookAhead s 1)).
  { pose proof (scanPositionalParameter_kind s tok s' H) as K.
    cbv beta in K. congruence. }
  destruct (isDBMS (config s) DBMSSQLServer && isLetter (lookAhead s 1)).
  { rewrite <- Ho in H.
    destruct (scanIdentifier_law s Hr tok s' H) as [K|[[K _]|[K _]]];
      rewrite HT in K; discriminate K. }
  exact (scanDollarQuotedString_function s Hr Ho tok s' H HT).
Qed.

(** ** [Normalize] panics at a question mark only *)

Lemma normalizeSQL_outcome N cfg source token last st :
  allBytes notQuestionMark (String_ token source) = true ->
  (Type_ token = DOLLAR_QUOTED_FUNCTION -> 12 <= len (String_ token source)) ->
  groupable st = false ->
  let body :=
    slice (String_ token source) 6 (len (String_ token source) - 6) in
  let r := normalizeSQL N cfg source token last st in
  (exists token2 st', r = Ok (token2, st') /\ groupable st' = false) \/
  (Type_ token = DOLLAR_QUOTED_FUNCTION /\ N body = Panic /\ r = Panic) \/
  (Type_ token = DOLLAR_QUOTED_FUNCTION /\ N body = OutOfFuel /\
   r = OutOfFuel).
Proof.
  intros Htxt Hlen Hg. destruct st as [b g h]. cbn [groupable] in Hg.
  subst g. cbv zeta. unfold normalizeSQL.
  cbn [groupable normalizedSQLBuilder head].
  set (Q := fun r : outcome (Token * normalizerState) =>
              exists token2 st', r = Ok (token2, st') /\
                                 groupable st' = false).
  assert (HQ : forall tk x, groupable x = false -> Q (Ok (tk, x))).
  { intros tk x Hx. exists tk, x. split; [reflexivity|exact Hx]. }
  destruct (isType (Type_ token) WS || isType (Type_ token) COMMENT
            || isType (Type_ token) MULTILINE_COMMENT);
    [left; apply HQ; reflexivity|].
  destruct (isType (Type_ token) EOF).
  { left. destruct (standaloneExpressionInParentheses _);
      apply HQ; reflexivity. }
  assert (Htail : forall token' : Token,
             isPlaceholder (String_ token' source) = false ->
             forall h' : headState,
               Q (if negb (KeepSQLAlias cfg) &&
                     isType (Type_ token') ALIAS_INDICATOR
                  then Ok (token', mkState b false h')
                  else if negb (KeepSQLAlias cfg) &&
                          match last with
                          | Some l => isType (lastType l) ALIAS_INDICATOR
                          | None => false
                          end && isType (Type_ token') IDENT
                  then Ok (token', mkState b false h')
                  else
                    let builder :=
                      match last with
                      | Some l =>
                        if negb (KeepSQLAlias cfg) &&
                           match last with
                           | Some l => isType (lastType l) ALIAS_INDICATOR
                           | None => false
                           end
                        then
                          writeToken cfg (lastType l) (lastValue l)
                            (appendWhitespace cfg source token' last b)
                        else b
                      | None => b
                      end in
                    '(skip, g, builder) ←
                      isObfuscatedValueGroupable source token' last false
                        builder;
                    if skip : bool then Ok (token', mkState builder g h')
                    else if inLeadingParenthesesExpression h' then
                      Ok (token',
                          mkState builder g
                            (writeHead cfg source token' last h'))
                    else
                      Ok (token',
                          mkState
                            (writeToken cfg (Type_ token')
                               (String_ token' source)
                               (appendWhitespace cfg source token' last
                                  builder))
                            g h'))).
  { intros token' Hpl h'.
    destruct (negb (KeepSQLAlias cfg) && isType (Type_ token') ALIAS_INDICATOR);
      [apply HQ; reflexivity|].
    destruct (negb (KeepSQLAlias cfg) && _ && isType (Type_ token') IDENT);
      [apply HQ; reflexivity|].
    cbv zeta. rewrite (isObfuscatedValueGroupable_plain _ _ _ _ Hpl).
    cbn [mbind outcome_bind].
    destruct (inLeadingParenthesesExpression h'); apply HQ; reflexivity. }
  destruct (isType (Type_ token) DOLLAR_QUOTED_FUNCTION &&
            negb (String.eqb (String_ token source) StringPlaceholder)) eqn:Ed.
  - apply andb_true_iff in Ed. destruct Ed as [Ed _].
    apply isType_eq in Ed. specialize (Hlen Ed).
    cbv zeta. unfold sliceChecked.
    destruct ((0 <=? 6) && (6 <=? len (String_ token source) - 6)
              && (len (String_ token source) - 6
                  <=? len (String_ token source))) eqn:Eb.
    2:{ exfalso. apply andb_false_iff in Eb. destruct Eb as [Eb|Eb];
          [apply andb_false_iff in Eb; destruct Eb as [Eb|Eb]|];
          Zbool; lia. }
    cbn [mbind outcome_bind].
    destruct (N (slice (String_ token source) 6
                   (len (String_ token source) - 6))) as [n| |];
      cbn [mbind outcome_bind].
    + left. exact (Htail _ (isPlaceholder_func token source n) _).
    + right. left. repeat split. exact Ed.
    + right. right. repeat split. exact Ed.
  - left. cbn [mbind outcome_bind].
    exact (Htail _ (isPlaceholder_without _ Htxt) _).
Qed.

Lemma normalizeLoop_no_panic cfg dbms fuel :
  forall input lexer last md ctes st,
    allBytes notQuestionMark input = true ->
    ready lexer -> src lexer = input ->
    groupable st = false ->
    normalizeLoop cfg dbms fuel input lexer last md ctes st <> Panic.
Proof.
  induction fuel as [|f IH]; intros input lexer last md ctes st Hq Hrd Hsrc Hg;
    [discriminate|].
  rewrite normalizeLoop_S.
  destruct (Scan_returns lexer Hrd)
    as (token & lexer' & HS & HSt & HE & Hle & Hsrc' & _ & Hrd').
  destruct (Scan_emits lexer Hrd) as (t0 & sf & HS' & _).
  assert (Ho : OutputValue token = "").
  { rewrite HS in HS'. injection HS' as -> _. reflexivity. }
  clear HS' t0 sf.
  pose proof (Scan_function_length lexer token lexer' Hrd HS) as Hfun.
  rewrite HS. cbn [mbind outcome_bind].
  destruct (collectMetadata_text notQuestionMark cfg input token last md ctes
              Ho Hq) as [Htxt Hsame].
  pose proof (collectMetadata_Type cfg input token last md ctes) as HT1.
  destruct (collectMetadata cfg input token last md ctes)
    as [[token1 md1] ctes1].
  cbn [fst snd] in *.
  assert (HN : forall body, allBytes notQuestionMark body = true ->
                            nested cfg dbms f body <> Panic).
  { intros body Hb. unfold nested.
    pose proof (IH body (New body dbms) None emptyMetadata ∅ initialState Hb
                  (ready_New _ _) eq_refl eq_refl) as Hn.
    destruct (normalizeLoop cfg dbms f body (New body dbms) None
                emptyMetadata ∅ initialState);
      [discriminate|contradiction|discriminate]. }
  assert (Hlen : Type_ token1 = DOLLAR_QUOTED_FUNCTION ->
                 12 <= len (String_ token1 input)).
  { intros E. rewrite HT1 in E.
    rewrite Hsame by (rewrite E; reflexivity).
    unfold String_. rewrite Ho. cbn [String.eqb negb]. unfold Value.
    destruct Hrd as [Hr _]. destruct Hrd' as [Hr' _].
    unfold inRange in *. specialize (Hfun E).
    rewrite len_slice; rewrite ?HSt, ?HE, <- ?Hsrc, <- ?Hsrc'; lia. }
  destruct (normalizeSQL_outcome (nested cfg dbms f) cfg input token1 last st
              Htxt Hlen Hg)
    as [(token2 & st' & En & Hg')|[(_ & Eb & _)|(_ & _ & En)]].
  - rewrite En. cbn [mbind outcome_bind].
    destruct (isType (Type_ token2) EOF); [discriminate|].
    apply IH; [exact Hq|exact Hrd'|rewrite Hsrc'; exact Hsrc|exact Hg'].
  - exfalso. revert Eb. apply HN, allBytes_slice, Htxt.
  - rewrite En. discriminate.
Qed.

(** X19: [Normalize] panics at a question mark only. On an input that holds
    no [?] byte no run of [Normalize] ends in a run-time panic, whatever the
    configuration and the dialect: no token reads as a placeholder, so the
    nil [lastValueToken] is never dereferenced, and a dollar-quoted function
    is long enough for its two tags to be cut off. *)
Theorem X19_Normalize_panics_only_with_a_question_mark :
  forall (cfg : normalizerConfig) (dbms : DBMSType) (fuel : nat)
         (input : string),
    allBytes notQuestionMark input = true ->
    Normalize cfg dbms fuel input <> Panic.
Proof.
  intros cfg dbms fuel input Hq. unfold Normalize.
  pose proof (normalizeLoop_no_panic cfg dbms fuel input (New input dbms) None
                emptyMetadata ∅ initialState Hq (ready_New _ _) eq_refl
                eq_refl) as Hn.
  destruct (normalizeLoop cfg dbms fuel input (New input dbms) None
              emptyMetadata ∅ initialState);
    [discriminate|contradiction|discriminate].
Qed.
(** ** [Normalize] returns on plain text *)

Lemma allBytes_impl (p q : Z -> bool) :
  (forall b, p b = true -> q b = true) ->
  forall s, allBytes p s = true -> allBytes q s = true.
Proof.
  intros Hpq. induction s as [|c t IH]; intros H; [reflexivity|].
  cbn [allBytes] in *. apply andb_true_iff in H. destruct H as [Hc Ht].
  rewrite (Hpq _ Hc). exact (IH Ht).
Qed.

(** What a plain byte is, by inspection of the 256 bytes. *)
Lemma isPlain_byte c :
  isPlain (byte c) = true ->
  (0 <? byte c) && (byte c <? 128) && notQuestionMark (byte c)
  && negb (byte c =? rune "#") && negb (byte c =? rune "`")
  && (isWhitespace (byte c) || isAsciiLetter (byte c)
      || (byte c =? rune "_") || isDigit (byte c) || isOperator (byte c)
      || isPunctuation (byte c) || isDoubleQuote (byte c)
      || isSingleQuote (byte c) || (byte c =? rune "$")) = true.
Proof.
  destruct c as [[] [] [] [] [] [] [] []]; vm_compute; intros H;
    first [reflexivity|discriminate H].
Qed.

Lemma isPlain_notQuestionMark b : isPlain b = true -> notQuestionMark b = true.
Proof.
  unfold isPlain, notQuestionMark. intros H.
  destruct (b =? rune "?") eqn:E; [|reflexivity].
  apply Z.eqb_eq in E. subst b. vm_compute in H. discriminate H.
Qed.

(** In plain text the lexer reads a plain byte wherever it stands. *)
Lemma plain_peek s :
  inRange s -> allBytes isPlain (src s) = true -> cursor s < len (src s) ->
  exists c, peek s = byte c /\ isPlain (byte c) = true.
Proof.
  intros Hr Hall Hlt. unfold inRange in Hr.
  assert (Hpos : positioned s (take (Z.to_nat (cursor s)) (src s))
                   (drop (Z.to_nat (cursor s)) (src s))).
  { split; [symmetry; apply take_drop|].
    unfold len. rewrite length_take; unfold len in *; lia. }
  destruct (drop_some (Z.to_nat (cursor s)) (src s)) as (c & t & Hs);
    [unfold len in *; lia|].
  pose proof (allBytes_drop isPlain (Z.to_nat (cursor s)) _ Hall) as Hd.
  rewrite Hs in Hd, Hpos. cbn [allBytes] in Hd.
  apply andb_true_iff in Hd. destruct Hd as [Hc _].
  exists c. split; [|exact Hc].
  rewrite (peek_positioned _ _ _ Hpos). apply headRune_low.
  pose proof (isPlain_byte c Hc) as Hf. Zbool. assumption.
Qed.

Lemma Scan_plain_progress s :
  ready s -> allBytes isPlain (src s) = true -> cursor s < len (src s) ->
  emitsPast s (Scan s).
Proof.
  intros Hrd Hall Hlt. pose proof Hrd as [Hr _].
  destruct (plain_peek s Hr Hall Hlt) as (c & Hp & Hc).
  pose proof (isPlain_byte c Hc) as Hf. rewrite <- Hp in Hf.
  apply andb_true_iff in Hf. destruct Hf as [Hf Hclass].
  apply andb_true_iff in Hf. destruct Hf as [Hf Hbt].
  apply andb_true_iff in Hf. destruct Hf as [Hf Hhash].
  apply andb_true_iff in Hf. destruct Hf as [Hf _].
  apply andb_true_iff in Hf. destruct Hf as [Hpos Hlow]. Zbool.
  assert (Htable : peek s = RuneError -> unicodeIsLetter RuneError = false).
  { intros E. exfalso. rewrite E in Hlow. vm_compute in Hlow.
    discriminate Hlow. }
  destruct (Scan_past_or_still s Htable Hrd) as [Hpast|(t & E & Hst)];
    [exact Hpast|exfalso].
  destruct Hst as [[_ E0]|[->|[(_ & _ & E0 & _)|(_ & _ & E0)]]].
  - lia.
  - pose proof (Scan_opening s Hrd _ _ E) as Ho.
    change (opening s UNKNOWN) in Ho.
    destruct Ho as (O1 & O2 & O3 & O4 & O5 & _ & O7 & O8 & O9 & _).
    unfold isLetter in O2.
    apply orb_false_iff in O2. destruct O2 as [O2 _].
    apply orb_false_iff in O2. destruct O2 as [O2a O2b].
    unfold isDoubleQuote, isSingleQuote in Hclass.
    rewrite O1, O2a, O2b, O3, O4, O5 in Hclass. cbn [orb] in Hclass.
    repeat (apply orb_true_iff in Hclass; destruct Hclass as [Hclass|Hclass]);
      Zbool; contradiction.
  - contradiction.
  - contradiction.
Qed.

Lemma normalizeLoop_returns cfg dbms fuel :
  forall input lexer last md ctes st,
    allBytes isPlain input = true ->
    ready lexer -> src lexer = input ->
    groupable st = false ->
    (remaining lexer < fuel)%nat ->
    exists r, normalizeLoop cfg dbms fuel input lexer last md ctes st = Ok r.
Proof.
  induction fuel as [|f IH];
    intros input lexer last md ctes st Hq Hrd Hsrc Hg Hfuel; [lia|].
  rewrite normalizeLoop_S.
  destruct (Scan_returns lexer Hrd)
    as (token & lexer' & HS & HSt & HE & Hle & Hsrc' & _ & Hrd').
  destruct (Scan_emits lexer Hrd) as (t0 & sf & HS' & _).
  assert (Ho : OutputValue token = "").
  { rewrite HS in HS'. injection HS' as -> _. reflexivity. }
  clear HS' t0 sf.
  pose proof (Scan_function_length lexer token lexer' Hrd HS) as Hfun.
  assert (Hmove : Type_ token = EOF \/ cursor lexer < cursor lexer').
  { destruct (Z_lt_le_dec (cursor lexer) (len (src lexer))) as [Hlt|Hge].
    - right. rewrite <- Hsrc in Hq.
      destruct (Scan_plain_progress lexer Hrd Hq Hlt) as (t & sf & E & _ & Hp).
      rewrite HS in E. injection E as _ ->. exact Hp.
    - left. rewrite (Scan_at_end lexer (peek_at_end lexer Hge)) in HS.
      injection HS as <- _. reflexivity. }
  rewrite HS. cbn [mbind outcome_bind].
  pose proof (allBytes_impl _ _ isPlain_notQuestionMark _ Hq) as Hq'.
  destruct (collectMetadata_text notQuestionMark cfg input token last md ctes
              Ho Hq') as [Htxt _].
  destruct (collectMetadata_text isPlain cfg input token last md ctes Ho Hq)
    as [Hplain Hsame].
  pose proof (collectMetadata_Type cfg input token last md ctes) as HT1.
  destruct (collectMetadata cfg input token last md ctes)
    as [[token1 md1] ctes1].
  cbn [fst snd] in *.
  assert (Hval : Type_ token1 = DOLLAR_QUOTED_FUNCTION ->
                 len (String_ token1 input) = End_ token - Start token /\
                 12 <= End_ token - Start token).
  { intros E. rewrite HT1 in E.
    rewrite Hsame by (rewrite E; reflexivity).
    unfold String_. rewrite Ho. cbn [String.eqb negb]. unfold Value.
    destruct Hrd as [Hr _]. destruct Hrd' as [Hr' _].
    unfold inRange in *. specialize (Hfun E).
    rewrite len_slice; rewrite ?HSt, ?HE, <- ?Hsrc, <- ?Hsrc'; lia. }
  assert (Hlen : Type_ token1 = DOLLAR_QUOTED_FUNCTION ->
                 12 <= len (String_ token1 input)).
  { intros E. destruct (Hval E) as [-> H]. exact H. }
  assert (HN : Type_ token1 = DOLLAR_QUOTED_FUNCTION ->
               exists n,
                 nested cfg dbms f
                   (slice (String_ token1 input) 6
                      (len (String_ token1 input) - 6)) = Ok n).
  { intros E. destruct (Hval E) as [Hl1 Hl2]. unfold nested.
    set (body := slice (String_ token1 input) 6
                   (len (String_ token1 input) - 6)).
    assert (Hb : len body = len (String_ token1 input) - 12)
      by (unfold body; rewrite len_slice; lia).
    destruct (IH body (New body dbms) None emptyMetadata ∅ initialState)
      as [r Er];
      [apply allBytes_slice, Hplain|apply ready_New|reflexivity|reflexivity
      | |rewrite Er; eexists; reflexivity].
    destruct Hrd as [Hr _]. destruct Hrd' as [Hr' _].
    unfold remaining, inRange in *. cbn [src cursor New].
    rewrite Hsrc' in Hr'. lia. }
  destruct (normalizeSQL_outcome (nested cfg dbms f) cfg input token1 last st
              Htxt Hlen Hg)
    as [(token2 & st' & En & Hg')|[(ET & Eb & _)|(ET & Eb & _)]].
  - rewrite En. cbn [mbind outcome_bind].
    pose proof (normalizeSQL_Type _ _ _ _ _ _ _ _ En) as HT2.
    destruct (isType (Type_ token2) EOF) eqn:Ee;
      [eexists; reflexivity|].
    destruct Hmove as [Hm|Hm].
    { rewrite HT2, HT1, Hm in Ee. discriminate Ee. }
    apply IH; [exact Hq|exact Hrd'|rewrite Hsrc'; exact Hsrc|exact Hg'|].
    destruct Hrd' as [Hr' _]. unfold remaining, inRange in *.
    rewrite Hsrc' in *. lia.
  - destruct (HN ET) as [n E]. rewrite E in Eb. discriminate Eb.
  - destruct (HN ET) as [n E]. rewrite E in Eb. discriminate Eb.
Qed.

(** X20: [Normalize] returns on plain text. On an input made of whitespace,
    ASCII letters, digits, underscores, punctuation, quotes, dollar signs
    and operator characters other than [?] and [#], every run of
    [Normalize] that is given more passes than the input has bytes returns
    a text and metadata, the same for all such runs: it neither panics nor
    goes on forever, under every configuration and dialect. *)
Theorem X20_Normalize_returns_on_plain_text :
  forall (cfg : normalizerConfig) (dbms : DBMSType) (input : string),
    allBytes isPlain input = true ->
    exists r,
      forall fuel : nat,
        (String.length input < fuel)%nat ->
        Normalize cfg dbms fuel input = Ok r.
Proof.
  intros cfg dbms input Hq.
  assert (Hrun : forall fuel, (String.length input < fuel)%nat ->
                 exists r, Normalize cfg dbms fuel input = Ok r).
  { intros fuel Hf. unfold Normalize.
    destruct (normalizeLoop_returns cfg dbms fuel input (New input dbms) None
                emptyMetadata ∅ initialState Hq (ready_New _ _) eq_refl
                eq_refl) as [r Er].
    - unfold remaining. cbn [src cursor New]. unfold len. lia.
    - rewrite Er. eexists. reflexivity. }
  destruct (Hrun (S (String.length input)) ltac:(lia)) as [r Er].
  exists r. intros fuel Hf.
  rewrite (Normalize_more cfg dbms (S (String.length input)) fuel);
    [exact Er|lia|]. unfold definite. rewrite Er. discriminate.
Qed.
(** ** Closed single-quoted strings *)

Lemma stringBody_prefix :
  forall body escaped, exists rest, body = stringBody escaped body +:+ rest.
Proof.
  induction body as [|c t IH]; intros escaped; cbn [stringBody].
  - exists "". reflexivity.
  - assert (Hrec : forall e, exists rest,
               String c t = String c (stringBody e t) +:+ rest).
    { intros e. destruct (IH e) as [r Hr]. exists r.
      rewrite app_String, <- Hr. reflexivity. }
    destruct escaped; [apply Hrec|].
    destruct (byte c =? rune "\"); [apply Hrec|].
    destruct (byte c =? rune "'"); [|apply Hrec].
    exists t. rewrite app_String, app_nil_l. reflexivity.
Qed.

Lemma stringLoop_closed :
  forall rest fuel escaped s before,
    (String.length rest < fuel)%nat ->
    positioned s before rest ->
    closesString escaped rest = true ->
    noNUL (stringBody escaped rest) = true ->
    stringLoop fuel escaped (headRune rest) s
    = Ok (emit STRING
            (setCursor s (cursor s + len (stringBody escaped rest)))).
Proof.
  induction rest as [|c t IH]; intros fuel escaped s before Hf Hp Hc Hn;
    [discriminate Hc|].
  destruct fuel as [|f]; [simpl in Hf; lia|].
  destruct (next_positioned _ _ _ _ Hp) as [Hnext Hp'].
  assert (Hrec : forall e,
             closesString e t = true ->
             noNUL (String c (stringBody e t)) = true ->
             stringLoop f e (headRune t) (setCursor s (cursor s + 1))
             = Ok (emit STRING
                     (setCursor s
                        (cursor s + len (String c (stringBody e t)))))).
  { intros e He Hne. cbn [noNUL] in Hne. apply andb_true_iff in Hne.
    rewrite (IH f e _ _ ltac:(simpl in Hf; lia) Hp' He (proj2 Hne)).
    cbn [cursor setCursor]. rewrite setCursor_setCursor, len_String.
    do 3 f_equal. lia. }
  assert (Hc0 : (byte c =? 0) = false).
  { cbn [stringBody] in Hn.
    destruct escaped;
      [|destruct (byte c =? rune "\"); [|destruct (byte c =? rune "'")]];
      cbn [noNUL] in Hn; apply andb_true_iff in Hn; destruct Hn as [Hn _];
      apply negb_true_iff in Hn; exact Hn. }
  cbn [stringLoop]. unfold isEOF.
  rewrite (headRune_eqb c t 0) by lia. rewrite Hc0.
  rewrite !(headRune_eqb c t) by (cbv; split; [discriminate|reflexivity]).
  rewrite Hnext. cbn [stringBody closesString] in *.
  destruct escaped; [apply Hrec; assumption|].
  destruct (byte c =? rune "\"); [apply Hrec; assumption|].
  destruct (byte c =? rune "'"); [reflexivity|].
  apply Hrec; assumption.
Qed.

(** X21: a closed single-quoted string is one STRING token. When the cursor
    is on a single quote whose body holds a quote that no backslash escapes,
    and no NUL byte comes before that quote, [Scan] returns a STRING token
    that runs from the opening quote through that closing quote: a
    backslash escapes the byte after it, and a doubled quote does not
    escape. *)
Theorem X21_closed_string_is_one_STRING_token :
  forall (s : Lexer) (before body : string),
    positioned s before (String "'" body) ->
    closesString false body = true ->
    noNUL (stringBody false body) = true ->
    exists tok s',
      Scan s = Ok (tok, s') /\
      Type_ tok = STRING /\
      Start tok = len before /\
      Value tok (src s) = String "'" (stringBody false body) /\
      cursor s' = End_ tok.
Proof.
  intros s before body Hp Hc Hn.
  assert (Hpeek : peek s = rune "'").
  { rewrite (peek_positioned _ _ _ Hp). apply headRune_low. reflexivity. }
  rewrite (Scan_single_quote _ Hpeek). unfold scanString.
  assert (Hp0 : positioned (markStart s) before (String "'" body)) by exact Hp.
  destruct (next_positioned _ _ _ _ Hp0) as [Hnext Hp1].
  rewrite Hnext.
  assert (Hfuel : (String.length body < loopFuel (markStart s))%nat).
  { unfold loopFuel. rewrite (positioned_length _ _ _ Hp0). simpl. lia. }
  rewrite (stringLoop_closed body _ false _ _ Hfuel Hp1 Hc Hn).
  eexists _, _. split; [reflexivity|].
  destruct Hp as [Hsrc Hcur].
  split; [reflexivity|]. split; [exact Hcur|]. split; [|reflexivity].
  unfold Value. cbn [emit fst Start End_ start cursor setCursor markStart].
  destruct (stringBody_prefix body false) as [rest Hrest].
  rewrite Hsrc, Hcur. rewrite Hrest at 1.
  rewrite <- app_String.
  replace (len before + 1 + len (stringBody false body))
    with (len before + len (String "'" (stringBody false body)))
    by (rewrite len_String; lia).
  apply slice_app.
Qed.
(** ** Quoted identifiers *)

Lemma chr_byte a : chr (byte a) = a.
Proof. unfold chr, byte. rewrite N2Z.id. apply ascii_N_embedding. Qed.

Lemma at_positioned s before rest k :
  positioned s before rest ->
  at_ (src s) (cursor s + Z.of_nat k)
  = match drop k rest with String a _ => byte a | EmptyString => 0 end.
Proof.
  intros Hp. unfold at_. rewrite (positioned_from _ _ _ k Hp). reflexivity.
Qed.

(** [matchAt] on three bytes, where three bytes are left. *)
Lemma matchAt3_here s before a b e R x y z :
  positioned s before (String a (String b (String e R))) ->
  0 <= x < 256 -> 0 <= y < 256 -> 0 <= z < 256 ->
  matchAt s [x; y; z] = (byte a =? x) && (byte b =? y) && (byte e =? z).
Proof.
  intros Hp Hx Hy Hz. unfold matchAt.
  pose proof (positioned_len _ _ _ Hp) as Hl.
  rewrite !len_String in Hl. pose proof (len_nonneg R) as HR.
  destruct (len (src s) <? cursor s + Z.of_nat (List.length [x; y; z])) eqn:E.
  { apply Z.ltb_lt in E. cbn [List.length] in E. lia. }
  cbn [matchFrom].
  change (cursor s + 0) with (cursor s + Z.of_nat 0).
  change (cursor s + (0 + 1)) with (cursor s + Z.of_nat 1).
  change (cursor s + (0 + 1 + 1)) with (cursor s + Z.of_nat 2).
  rewrite !(at_positioned _ _ _ _ Hp). cbn [drop].
  rewrite !Z.mod_small by lia.
  destruct (byte a =? x), (byte b =? y), (byte e =? z); reflexivity.
Qed.

Lemma matchAt3_short s before R x y z :
  positioned s before R -> (String.length R < 3)%nat ->
  matchAt s [x; y; z] = false.
Proof.
  intros Hp Hs. unfold matchAt.
  pose proof (positioned_len _ _ _ Hp) as Hl.
  destruct (len (src s) <? cursor s + Z.of_nat (List.length [x; y; z])) eqn:E;
    [reflexivity|].
  apply Z.ltb_ge in E. cbn [List.length] in E. unfold len in *. lia.
Qed.

Lemma positionsOf_app p : forall a pos b,
  positionsOf p pos (a +:+ b)
  = positionsOf p pos a ++ positionsOf p (pos + len a) b.
Proof.
  induction a as [|c t IH]; intros pos b.
  - rewrite app_nil_l. cbn [positionsOf app]. f_equal.
    change (len "") with 0. lia.
  - rewrite app_String. cbn [positionsOf]. rewrite IH, len_String.
    replace (pos + 1 + len t) with (pos + (1 + len t)) by lia.
    destruct (p (byte c)); reflexivity.
Qed.

(** The bytes of a name: the loop of [scanDoubleQuotedIdentifier] passes
    them one by one and records the digits. *)
Lemma quotedLoop_name d c :
  0 <= c < 128 ->
  forall n fuel s before R,
    positioned s before (n +:+ R) ->
    allBytes (nameByte c) n = true ->
    (String.length n <= fuel)%nat ->
    exists s',
      quotedLoop fuel d c (headRune (n +:+ R)) s
      = quotedLoop (fuel - String.length n) d c (headRune R) s' /\
      positioned s' (before +:+ n) R /\
      start s' = start s /\
      digits s' = digits s ++ positionsOf isDigit (cursor s) n /\
      quotes s' = quotes s.
Proof.
  intros Hc. induction n as [|a t IH]; intros fuel s before R Hp Hn Hf.
  - exists s. rewrite app_nil_l in *. rewrite app_empty_r.
    cbn [String.length positionsOf]. rewrite Nat.sub_0_r, app_nil_r.
    repeat split; [exact (proj1 Hp)|exact (proj2 Hp)].
  - destruct fuel as [|f]; [simpl in Hf; lia|].
    rewrite app_String in *. cbn [allBytes] in Hn.
    apply andb_true_iff in Hn. destruct Hn as [Ha Hn].
    unfold nameByte in Ha. apply andb_true_iff in Ha.
    destruct Ha as [Ha1 Ha0]. apply negb_true_iff in Ha1, Ha0.
    set (s1 := if isDigit (byte a) then appendDigit s (cursor s) else s).
    assert (Hp1 : positioned s1 before (String a (t +:+ R)))
      by (unfold s1; destruct (isDigit (byte a)); exact Hp).
    destruct (next_positioned _ _ _ _ Hp1) as [Hnext Hp2].
    destruct (IH f _ _ R Hp2 Hn ltac:(simpl in Hf; lia))
      as (s' & Hloop & Hp' & Hst & Hd & Hq).
    exists s'. split; [|split; [|split; [|split]]].
    + cbn [quotedLoop]. unfold isEOF.
      rewrite (headRune_eqb a _ c) by lia. rewrite Ha1.
      rewrite (headRune_eqb a _ 0) by lia. rewrite Ha0.
      rewrite (headRune_ascii_test isDigit a _ isDigit_high).
      fold s1. rewrite Hnext. exact Hloop.
    + rewrite app_assoc, app_String, app_nil_l in Hp'. exact Hp'.
    + rewrite Hst. unfold s1. destruct (isDigit (byte a)); reflexivity.
    + rewrite Hd. cbn [positionsOf]. unfold s1.
      destruct (isDigit (byte a)); cbn [digits cursor setCursor appendDigit];
        [rewrite <- List.app_assoc|]; reflexivity.
    + rewrite Hq. unfold s1. destruct (isDigit (byte a)); reflexivity.
Qed.

Lemma len_chainTail d c n names :
  len (chainTail d c n names)
  = len n + 1 + match names with
                | [] => 0
                | n' :: names' => 2 + len (chainTail d c n' names')
                end.
Proof.
  destruct names as [|n' names']; cbn [chainTail];
    rewrite !len_app, !len_String; change (len "") with 0; lia.
Qed.

(** A chain of names: the loop goes on over each closing delimiter that a
    dot and an opening delimiter follow, and ends after the last one. *)
Lemma quotedLoop_chain d c :
  0 < c < 128 -> 0 < d < 128 -> isDigit c = false -> isDigit d = false ->
  forall names n fuel s before rest,
    positioned s before (chainTail d c n names +:+ rest) ->
    Forall (fun m => allBytes (nameByte c) m = true) (n :: names) ->
    (forall r, rest <> String "." (String (chr d) r)) ->
    (String.length (chainTail d c n names) <= fuel)%nat ->
    exists sf,
      quotedLoop fuel d c (headRune (chainTail d c n names +:+ rest)) s
      = Ok (emit QUOTED_IDENT sf) /\
      src sf = src s /\ start sf = start s /\
      cursor sf = cursor s + len (chainTail d c n names) /\
      digits sf
      = digits s ++ positionsOf isDigit (cursor s) (chainTail d c n names) /\
      quotes sf = quotes s ++ tailQuotes (cursor s) n names.
Proof.
  intros Hc Hd Hcd Hdd.
  assert (Hbc : byte (chr c) = c) by (apply byte_chr; lia).
  assert (Hbd : byte (chr d) = d) by (apply byte_chr; lia).
  induction names as [|n2 names IH];
    intros n fuel s before rest Hp Hall Hrest Hf;
    apply Forall_cons in Hall; destruct Hall as [Hn Hall].
  - cbn [chainTail] in *. rewrite app_empty_r in *.
    rewrite app_assoc in Hp. rewrite app_assoc.
    assert (Hlen : String.length (n +:+ String (chr c) "")
                   = S (String.length n)).
    { assert (H : len (n +:+ String (chr c) "") = len n + 1).
      { rewrite len_app, len_String. change (len "") with 0. lia. }
      unfold len in *. lia. }
    destruct (quotedLoop_name d c ltac:(lia) n fuel s before _ Hp Hn
                ltac:(lia)) as (s' & Hloop & Hp' & Hst & Hdg & Hq).
    rewrite Hloop. clear Hloop.
    rewrite app_String, app_nil_l in *.
    destruct (fuel - String.length n)%nat as [|f] eqn:Ef; [lia|].
    cbn [quotedLoop]. rewrite (headRune_eqb _ _ c) by lia.
    rewrite Hbc, Z.eqb_refl.
    set (s1 := appendQuote s' (cursor s')).
    assert (Hp1 : positioned s1 (before +:+ n) (String (chr c) rest))
      by exact Hp'.
    assert (Em : matchAt s1 [c; rune "."; d] = false).
    { destruct rest as [|b [|e r]];
        [apply (matchAt3_short _ _ _ _ _ _ Hp1); cbn; lia
        |apply (matchAt3_short _ _ _ _ _ _ Hp1); cbn; lia|].
      rewrite (matchAt3_here _ _ _ _ _ _ _ _ _ Hp1)
        by first [lia|cbv; split; [discriminate|reflexivity]].
      rewrite Hbc, Z.eqb_refl. cbn [andb].
      destruct (byte b =? rune ".") eqn:E1; [|reflexivity].
      destruct (byte e =? d) eqn:E2; [|reflexivity].
      exfalso. apply (Hrest r). Zbool.
      rewrite <- (chr_byte b), <- (chr_byte e), E1, E2. reflexivity. }
    rewrite Em.
    destruct (next_positioned _ _ _ _ Hp1) as [Hnext _]. rewrite Hnext.
    eexists. split; [reflexivity|].
    cbn [snd src start cursor digits quotes setCursor appendQuote s1].
    unfold s1. cbn [src start cursor digits quotes appendQuote].
    destruct Hp as [Hsrc Hcur]. destruct Hp' as [Hsrc' Hcur'].
    rewrite len_app in Hcur'.
    rewrite positionsOf_app, len_app, len_String.
    change (len "") with 0. cbn [positionsOf]. rewrite Hbc, Hcd.
    rewrite Hst, Hdg, Hq, app_nil_r.
    repeat split; [rewrite Hsrc', Hsrc, app_assoc; reflexivity|lia|].
    cbn [tailQuotes]. do 2 f_equal. lia.
  - cbn [chainTail] in Hp, Hf |- *. fold (chainTail d c n2 names) in *.
    rewrite !app_assoc in Hp. rewrite !app_assoc.
    assert (Hlen : (String.length n + 3 + String.length (chainTail d c n2 names)
                    <= fuel)%nat).
    { assert (H : len (n +:+ String (chr c) "" +:+
                       String "." (String (chr d) (chainTail d c n2 names)))
                  = len n + 3 + len (chainTail d c n2 names)).
      { rewrite !len_app, !len_String. change (len "") with 0. lia. }
      unfold len in *. lia. }
    destruct (quotedLoop_name d c ltac:(lia) n fuel s before _ Hp Hn
                ltac:(lia)) as (s' & Hloop & Hp' & Hst & Hdg & Hq).
    rewrite Hloop. clear Hloop.
    rewrite !app_String, ?app_nil_l in *.
    destruct (fuel - String.length n)%nat as [|f] eqn:Ef; [lia|].
    cbn [quotedLoop]. rewrite (headRune_eqb _ _ c) by lia.
    rewrite Hbc, Z.eqb_refl.
    set (s1 := appendQuote s' (cursor s')).
    assert (Hp1 : positioned s1 (before +:+ n)
                    (String (chr c)
                       (String "."
                          (String (chr d)
                             (chainTail d c n2 names +:+ rest)))))
      by exact Hp'.
    rewrite (matchAt3_here _ _ _ _ _ _ _ _ _ Hp1)
      by first [lia|cbv; split; [discriminate|reflexivity]].
    rewrite Hbc, Hbd, !Z.eqb_refl.
    change (byte "." =? rune ".") with true. cbn [andb].
    set (s2 := appendQuote s1 (cursor s1 + 2)).
    assert (Hp2 : positioned s2 (before +:+ n)
                    (String (chr c)
                       (String "."
                          (String (chr d)
                             (chainTail d c n2 names +:+ rest)))))
      by exact Hp'.
    destruct (nextBy_positioned _ _ _ 3 Hp2) as [Hnext Hp3];
      [cbn; lia|].
    change (Z.of_nat 3) with 3 in Hnext, Hp3. cbn [drop take] in Hnext, Hp3.
    rewrite Hnext.
    destruct (IH n2 f _ _ rest Hp3 Hall Hrest ltac:(lia))
      as (sf & Hloop & Hs1 & Hs2 & Hs3 & Hs4 & Hs5).
    exists sf. split; [exact Hloop|].
    cbn [src start cursor digits quotes setCursor appendQuote s1 s2]
      in Hs1, Hs2, Hs3, Hs4, Hs5.
    unfold s2, s1 in Hs1, Hs2, Hs3, Hs4, Hs5.
    cbn [src start cursor digits quotes appendQuote] in Hs1, Hs2, Hs3, Hs4, Hs5.
    destruct Hp as [Hsrc Hcur]. destruct Hp' as [Hsrc' Hcur'].
    rewrite len_app in Hcur'.
    rewrite Hs1, Hs2, Hs3, Hs4, Hs5, Hst, Hdg, Hq.
    rewrite !positionsOf_app, !len_app, !len_String.
    change (len "") with 0. cbn [positionsOf]. rewrite Hbc, Hbd, Hcd, Hdd.
    change (isDigit (byte ".")) with false. cbv iota.
    rewrite <- !List.app_assoc.
    repeat split; [rewrite Hsrc', Hsrc, ?app_assoc; reflexivity|lia| |].
    + do 3 f_equal. lia.
    + cbn [tailQuotes app]. do 2 f_equal; [lia|]. f_equal; [lia|].
      f_equal. lia.
Qed.

Lemma quoting_facts dbms d c :
  quoting dbms d c ->
  0 < c < 128 /\ 0 < d < 128 /\ isDigit c = false /\ isDigit d = false /\
  (if d =? rune "[" then rune "]" else d) = c.
Proof.
  intros [[-> ->]|[(_ & -> & ->)|(_ & -> & ->)]]; repeat split.
Qed.

Lemma Scan_quoting s d c :
  quoting (config s) d c -> peek s = d ->
  Scan s = scanDoubleQuotedIdentifier d s.
Proof.
  intros [[-> _]|[(Hc & -> & _)|(Hc & -> & _)]] Hp; unfold Scan;
    rewrite Hp, ?Hc; reflexivity.
Qed.

(** X22: quoted names joined by dots are one QUOTED_IDENT token. Under the
    delimiters of the dialect (double quotes, backticks under MySQL,
    brackets under SQL Server), a chain such as ["a"."b"] whose names hold
    neither the closing delimiter nor a NUL byte, and that no dot with an
    opening delimiter follows, is returned by [Scan] as one token. The
    token records the offsets of the delimiters in [Quotes] and the offsets
    of the digits of the names in [Digits], in order. *)
Theorem X22_quoted_names_are_one_QUOTED_IDENT_token :
  forall (s : Lexer) (before : string) (d c : Z) (n : string)
         (names : list string) (rest : string),
    quoting (config s) d c ->
    positioned s before (chainText d c n names +:+ rest) ->
    digits s = [] -> quotes s = [] ->
    Forall (fun m => allBytes (nameByte c) m = true) (n :: names) ->
    (forall r, rest <> String "." (String (chr d) r)) ->
    exists tok s',
      Scan s = Ok (tok, s') /\
      Type_ tok = QUOTED_IDENT /\
      Start tok = len before /\
      Value tok (src s) = chainText d c n names /\
      Quotes tok = len before :: tailQuotes (len before + 1) n names /\
      Digits tok = positionsOf isDigit (len before) (chainText d c n names) /\
      cursor s' = End_ tok.
Proof.
  intros s before d c n names rest Hq Hp Hdg Hqt Hall Hrest.
  destruct (quoting_facts _ _ _ Hq) as (Hc & Hd & Hcd & Hdd & Hclose).
  assert (Hbd : byte (chr d) = d) by (apply byte_chr; lia).
  unfold chainText in *. rewrite app_String in Hp.
  assert (Hpeek : peek s = d).
  { rewrite (peek_positioned _ _ _ Hp).
    rewrite (headRune_low (chr d)); [exact Hbd|rewrite Hbd; lia]. }
  rewrite (Scan_quoting s d c Hq Hpeek).
  unfold scanDoubleQuotedIdentifier. cbv zeta. rewrite Hclose.
  set (s0 := appendQuote (markStart s) (cursor (markStart s))).
  assert (Hp0 : positioned s0 before
                  (String (chr d) (chainTail d c n names +:+ rest)))
    by exact Hp.
  destruct (next_positioned _ _ _ _ Hp0) as [Hnext Hp1]. rewrite Hnext.
  assert (Hfuel : (String.length (chainTail d c n names) <= loopFuel s0)%nat).
  { unfold loopFuel. rewrite (positioned_length _ _ _ Hp0).
    pose proof (len_app (chainTail d c n names) rest) as H.
    pose proof (len_nonneg rest). cbn [String.length]. unfold len in *. lia. }
  destruct (quotedLoop_chain d c Hc Hd Hcd Hdd names n _ _ _ rest Hp1 Hall
              Hrest Hfuel) as (sf & Hloop & Hs1 & Hs2 & Hs3 & Hs4 & Hs5).
  rewrite Hloop. eexists _, _. split; [reflexivity|].
  cbn [src start cursor digits quotes setCursor appendQuote markStart s0]
    in Hs1, Hs2, Hs3, Hs4, Hs5.
  unfold s0 in Hs1, Hs2, Hs3, Hs4, Hs5.
  cbn [src start cursor digits quotes appendQuote markStart]
    in Hs1, Hs2, Hs3, Hs4, Hs5.
  destruct Hp as [Hsrc Hcur].
  cbn [emit fst snd Type_ Start End_ Digits Quotes cursor]. unfold Value.
  cbn [Start End_]. rewrite Hs2, Hs3, Hs4, Hs5, Hdg, Hqt, Hcur.
  repeat split.
  - rewrite Hsrc, <- app_String.
    replace (len before + 1 + len (chainTail d c n names))
      with (len before + len (String (chr d) (chainTail d c n names)))
      by (rewrite len_String; lia).
    apply slice_app.
  - cbn [positionsOf]. rewrite Hbd, Hdd. reflexivity.
Qed.
(** ** Dollar-quoted literals *)

Lemma runesFuel_ascii : forall t f,
  allBytes (fun b => b <? 128) t = true ->
  (String.length t <= f)%nat ->
  runesFuel f t = bytes t.
Proof.
  induction t as [|a t IH]; intros f Ha Hf; [destruct f; reflexivity|].
  destruct f as [|f]; [simpl in Hf; lia|].
  cbn [allBytes] in Ha. apply andb_true_iff in Ha. destruct Ha as [Ha Ht].
  apply Z.ltb_lt in Ha. cbn [runesFuel bytes].
  assert (Hd : DecodeRuneInString (String a t) = (byte a, 1)).
  { unfold DecodeRuneInString. cbn [take bytes]. apply decode_ascii.
    pose proof (byte_range a). lia. }
  rewrite Hd. change (drop (Z.to_nat 1) (String a t)) with t.
  rewrite (IH f Ht ltac:(simpl in Hf; lia)). reflexivity.
Qed.

Lemma drop_step k R x R' : drop k R = String x R' -> drop (S k) R = R'.
Proof.
  revert R. induction k as [|k IH]; intros R H.
  - cbn [drop] in H. subst R. reflexivity.
  - destruct R as [|y R]; [discriminate H|]. cbn [drop] in *. exact (IH _ H).
Qed.

Lemma matchFrom_bytes s before R :
  positioned s before R ->
  forall t k,
    (k + String.length t <= String.length R)%nat ->
    matchFrom s (Z.of_nat k) (bytes t) = hasPrefix (drop k R) t.
Proof.
  intros Hp. induction t as [|a t IH]; intros k Hk; [reflexivity|].
  cbn [bytes matchFrom hasPrefix String.length] in *.
  rewrite (at_positioned _ _ _ k Hp).
  destruct (drop_some k R ltac:(lia)) as (x & R' & Hd). rewrite Hd.
  rewrite Z.mod_small by apply byte_range.
  replace (Z.of_nat k + 1) with (Z.of_nat (S k)) by lia.
  rewrite (IH (S k) ltac:(lia)), (drop_step _ _ _ _ Hd).
  destruct (byte x =? byte a); reflexivity.
Qed.

Lemma hasPrefix_short : forall t R,
  (String.length R < String.length t)%nat -> hasPrefix R t = false.
Proof.
  induction t as [|a t IH]; intros R H; [simpl in H; lia|].
  destruct R as [|b R]; [reflexivity|]. cbn [hasPrefix].
  rewrite IH by (simpl in H; lia). apply andb_false_r.
Qed.

Lemma hasPrefix_app : forall p r, hasPrefix (p +:+ r) p = true.
Proof.
  induction p as [|a p IH]; intros r; [reflexivity|].
  rewrite app_String. cbn [hasPrefix]. rewrite Z.eqb_refl. apply IH.
Qed.

(** [matchAt] against the runes of an ASCII string tests for a prefix. *)
Lemma matchAt_prefix s before R t :
  positioned s before R ->
  allBytes (fun b => b <? 128) t = true ->
  matchAt s (runes t) = hasPrefix R t.
Proof.
  intros Hp Ha. unfold matchAt, runes.
  rewrite (runesFuel_ascii t _ Ha (Nat.le_refl _)), length_bytes.
  rewrite (positioned_len _ _ _ Hp). unfold len.
  destruct (cursor s + Z.of_nat (String.length R)
            <? cursor s + Z.of_nat (String.length t)) eqn:E.
  - apply Z.ltb_lt in E. symmetry. apply hasPrefix_short. lia.
  - apply Z.ltb_ge in E.
    apply (matchFrom_bytes s before R Hp t 0). lia.
Qed.

(** The loop over the tag stops on its closing dollar sign. *)
Lemma tagLoop_tag : forall tag fuel s before R,
  positioned s before (tag +:+ String "$" R) ->
  allBytes tagByte tag = true ->
  (String.length tag < fuel)%nat ->
  tagLoop fuel (headRune (tag +:+ String "$" R)) s
  = Ok (setCursor s (cursor s + len tag)) /\
  positioned (setCursor s (cursor s + len tag)) (before +:+ tag)
             (String "$" R).
Proof.
  induction tag as [|a t IH]; intros fuel s before R Hp Ha Hf.
  - rewrite app_nil_l in *. change (len "") with 0.
    rewrite Z.add_0_r, setCursor_here, app_empty_r.
    split; [|exact Hp]. destruct fuel as [|f]; [lia|].
    cbn [tagLoop]. rewrite (headRune_low "$" R) by reflexivity.
    change (byte "$" =? rune "$") with true.
    rewrite andb_false_r. reflexivity.
  - destruct fuel as [|f]; [simpl in Hf; lia|].
    rewrite app_String in *. cbn [allBytes] in Ha.
    apply andb_true_iff in Ha. destruct Ha as [Ha Ht].
    unfold tagByte in Ha. apply andb_true_iff in Ha. destruct Ha as [_ Ha].
    apply negb_true_iff in Ha.
    destruct (next_positioned _ _ _ _ Hp) as [Hnext Hp'].
    destruct (IH f _ _ R Hp' Ht ltac:(simpl in Hf; lia)) as [Hloop Hp2].
    cbn [cursor setCursor] in Hloop, Hp2.
    rewrite setCursor_setCursor in Hloop, Hp2.
    rewrite len_String.
    replace (cursor s + (1 + len t)) with (cursor s + 1 + len t) by lia.
    split.
    + cbn [tagLoop].
      rewrite (headRune_eqb a _ (rune "$"))
        by (cbv; split; [discriminate|reflexivity]).
      rewrite Ha.
      pose proof (positioned_len _ _ _ Hp) as Hl. rewrite len_String in Hl.
      pose proof (len_nonneg (t +:+ String "$" R)).
      destruct (cursor s <? len (src s)) eqn:E; [|apply Z.ltb_ge in E; lia].
      cbn [andb negb]. rewrite Hnext. exact Hloop.
    + rewrite app_assoc, app_String, app_nil_l in Hp2. exact Hp2.
Qed.

(** The loop over the body stops at the first place where the tag is
    found. *)
Lemma dollarBodyLoop_first mark rest :
  allBytes (fun b => b <? 128) mark = true ->
  (0 < String.length mark)%nat ->
  forall body fuel s before,
    positioned s before (body +:+ mark +:+ rest) ->
    (forall k, (k < String.length body)%nat ->
               hasPrefix (drop k (body +:+ mark +:+ rest)) mark = false) ->
    (String.length body < fuel)%nat ->
    dollarBodyLoop fuel mark s
    = Ok (emit (if String.eqb mark "$func$" then DOLLAR_QUOTED_FUNCTION
                else DOLLAR_QUOTED_STRING)
               (setCursor s (cursor s + len body + len mark))).
Proof.
  intros Hm Hpos. induction body as [|a t IH]; intros fuel s before Hp Hfirst Hf.
  - rewrite app_nil_l in *. destruct fuel as [|f]; [lia|].
    cbn [dollarBodyLoop].
    pose proof (positioned_len _ _ _ Hp) as Hl. rewrite len_app in Hl.
    pose proof (len_nonneg rest).
    destruct (cursor s <? len (src s)) eqn:E;
      [|apply Z.ltb_ge in E; unfold len in *; lia].
    rewrite (matchAt_prefix _ _ _ _ Hp Hm), hasPrefix_app.
    destruct (nextBy_positioned _ _ _ (String.length mark) Hp) as [Hnext _].
    { pose proof (len_app mark rest) as H'. unfold len in H'. lia. }
    fold (len mark) in Hnext. rewrite Hnext. cbn [snd].
    change (len "") with 0. rewrite Z.add_0_r.
    destruct (String.eqb mark "$func$"); reflexivity.
  - destruct fuel as [|f]; [simpl in Hf; lia|].
    rewrite app_String in *. cbn [dollarBodyLoop].
    pose proof (positioned_len _ _ _ Hp) as Hl. rewrite len_String in Hl.
    pose proof (len_nonneg (t +:+ mark +:+ rest)).
    destruct (cursor s <? len (src s)) eqn:E; [|apply Z.ltb_ge in E; lia].
    rewrite (matchAt_prefix _ _ _ _ Hp Hm).
    pose proof (Hfirst 0%nat ltac:(simpl; lia)) as H0. cbn [drop] in H0.
    rewrite H0.
    destruct (next_positioned _ _ _ _ Hp) as [Hnext Hp'].
    rewrite Hnext. cbn [snd].
    rewrite (IH f _ _ Hp'); [| |simpl in Hf; lia].
    + cbn [cursor setCursor]. rewrite setCursor_setCursor, len_String.
      do 3 f_equal. lia.
    + intros k Hk. exact (Hfirst (S k) ltac:(simpl; lia)).
Qed.

Lemma allBytes_app p : forall a b,
  allBytes p (a +:+ b) = allBytes p a && allBytes p b.
Proof.
  induction a as [|c t IH]; intros b; [rewrite app_nil_l; reflexivity|].
  rewrite app_String. cbn [allBytes]. rewrite IH, andb_assoc. reflexivity.
Qed.

Lemma dollarTag_ascii tag :
  allBytes tagByte tag = true ->
  allBytes (fun b => b <? 128) (dollarTag tag) = true.
Proof.
  intros H. unfold dollarTag. cbn [allBytes]. rewrite allBytes_app.
  rewrite (allBytes_impl tagByte (fun b => b <? 128)); [reflexivity| |exact H].
  intros b Hb. unfold tagByte in Hb. apply andb_true_iff in Hb. apply Hb.
Qed.

(** The rune after the opening dollar sign: the first byte of the tag, or
    the closing dollar sign of an empty tag. *)
Lemma headRune_tag tag X :
  allBytes tagByte tag = true ->
  headRune (tag +:+ String "$" X)
  = match tag with EmptyString => rune "$" | String _ _ => headRune tag end.
Proof.
  intros H. destruct tag as [|a t]; [reflexivity|].
  rewrite app_String. cbn [allBytes] in H. apply andb_true_iff in H.
  destruct H as [H _]. unfold tagByte in H. apply andb_true_iff in H.
  destruct H as [H _]. apply Z.ltb_lt in H.
  rewrite !headRune_low by exact H. reflexivity.
Qed.

(** X23: a dollar-quoted literal runs from its opening tag to the first
    place where the tag comes again. For a tag of ASCII bytes that does not
    read as a positional parameter (or as an identifier under SQL Server),
    [Scan] returns one token that spans the opening tag, the body and the
    closing tag; it is a DOLLAR_QUOTED_FUNCTION when the tag is [$func$] and
    a DOLLAR_QUOTED_STRING otherwise. The body may hold anything, dollar
    signs and NUL bytes included. *)
Theorem X23_dollar_quoted_literal_ends_at_its_tag :
  forall (s : Lexer) (before tag body rest : string),
    positioned s before
      (dollarTag tag +:+ body +:+ dollarTag tag +:+ rest) ->
    allBytes tagByte tag = true ->
    isDigit (headRune tag) = false ->
    (config s = DBMSSQLServer -> isLetter (headRune tag) = false) ->
    (forall k, (k < String.length body)%nat ->
               hasPrefix (drop k (body +:+ dollarTag tag +:+ rest))
                         (dollarTag tag) = false) ->
    exists tok s',
      Scan s = Ok (tok, s') /\
      Type_ tok = (if String.eqb (dollarTag tag) "$func$"
                   then DOLLAR_QUOTED_FUNCTION else DOLLAR_QUOTED_STRING) /\
      Start tok = len before /\
      Value tok (src s) = dollarTag tag +:+ body +:+ dollarTag tag /\
      cursor s' = End_ tok.
Proof.
  intros s before tag body rest Hp Htag Hdig Hsql Hfirst.
  set (X := body +:+ dollarTag tag +:+ rest) in *.
  assert (Hp0 : positioned s before (String "$" (tag +:+ String "$" X))).
  { unfold dollarTag in Hp. rewrite app_String, app_assoc in Hp.
    rewrite app_String, app_nil_l in Hp. exact Hp. }
  assert (Hpeek : peek s = rune "$").
  { rewrite (peek_positioned _ _ _ Hp0). apply headRune_low. reflexivity. }
  assert (Hla : lookAhead s 1
                = match tag with
                  | EmptyString => rune "$"
                  | String _ _ => headRune tag
                  end).
  { rewrite (lookAhead1_positioned _ _ _ Hp0). cbn [drop].
    apply headRune_tag, Htag. }
  assert (Hnd : isDigit (lookAhead s 1) = false)
    by (rewrite Hla; destruct tag; [reflexivity|exact Hdig]).
  assert (Hnl : isDBMS (config s) DBMSSQLServer && isLetter (lookAhead s 1)
                = false).
  { destruct (isDBMS (config s) DBMSSQLServer) eqn:E; [|reflexivity].
    cbn [andb]. rewrite Hla. destruct tag; [reflexivity|].
    exact (Hsql (isDBMS_eq _ _ E)). }
  rewrite (Scan_dollar s Hpeek), Hnd, Hnl.
  unfold scanDollarQuotedString. cbv zeta.
  assert (Hm : positioned (markStart s) before
                 (String "$" (tag +:+ String "$" X))) by exact Hp0.
  destruct (next_positioned _ _ _ _ Hm) as [Hnext Hp1]. rewrite Hnext.
  assert (Hlen : String.length (src s)
                 = (String.length before + 1 + String.length tag + 1
                    + String.length X)%nat).
  { rewrite (positioned_length _ _ _ Hp0). cbn [String.length].
    pose proof (len_app tag (String "$" X)) as H. rewrite len_String in H.
    unfold len in H. lia. }
  destruct (tagLoop_tag tag (loopFuel (markStart s)) _ _ X Hp1 Htag)
    as [Htl Hp2]; [unfold loopFuel; cbn [src markStart]; lia|].
  rewrite Htl. cbn [mbind outcome_bind].
  destruct (next_positioned _ _ _ _ Hp2) as [Hnext2 Hp3]. rewrite Hnext2.
  cbn [snd fst cursor setCursor markStart src].
  destruct Hp as [Hsrc Hcur].
  assert (Htext : slice (src s) (cursor s + 1 - 1) (cursor s + 1 + len tag + 1)
                  = dollarTag tag).
  { rewrite Hsrc, Hcur.
    replace (len before + 1 - 1) with (len before) by lia.
    replace (len before + 1 + len tag + 1)
      with (len before + len (dollarTag tag))
      by (unfold dollarTag; rewrite len_String, len_app;
          change (len "$") with 1; lia).
    apply slice_app. }
  unfold sliceChecked.
  pose proof (len_nonneg before). pose proof (len_nonneg tag).
  destruct ((0 <=? cursor s + 1 - 1)
            && (cursor s + 1 - 1 <=? cursor s + 1 + len tag + 1)
            && (cursor s + 1 + len tag + 1 <=? len (src s))) eqn:Eb.
  2:{ exfalso. unfold len in *.
      apply andb_false_iff in Eb. destruct Eb as [Eb|Eb];
        [apply andb_false_iff in Eb; destruct Eb as [Eb|Eb]|]; Zbool; lia. }
  cbn [mbind outcome_bind]. rewrite Htext.
  rewrite (dollarBodyLoop_first (dollarTag tag) rest (dollarTag_ascii _ Htag)
             ltac:(cbn; lia) body _ _ _ Hp3 Hfirst)
    by (unfold loopFuel; cbn [src markStart];
        pose proof (len_app body (dollarTag tag +:+ rest)) as H';
        unfold X, len in *; lia).
  eexists _, _. split; [reflexivity|].
  cbn [emit fst snd Type_ Start End_ start cursor setCursor markStart].
  unfold Value. cbn [Start End_].
  repeat split; [exact Hcur|].
  rewrite Hsrc, Hcur. unfold X.
  rewrite <- (app_assoc body (dollarTag tag) rest).
  rewrite <- (app_assoc (dollarTag tag) (body +:+ dollarTag tag) rest).
  replace (len before + 1 + len tag + 1 + len body + len (dollarTag tag))
    with (len before + len (dollarTag tag +:+ body +:+ dollarTag tag))
    by (rewrite !len_app; unfold dollarTag; rewrite !len_String, !len_app;
        change (len "$") with 1; lia).
  apply slice_app.
Qed.
(** ** Comments *)

Lemma lineCommentLoop_run :
  forall run fuel s before rest,
    allBytes lineByte run = true ->
    headRune rest = 10 \/ headRune rest = 0 ->
    (String.length run < fuel)%nat ->
    positioned s before (run +:+ rest) ->
    lineCommentLoop fuel (headRune (run +:+ rest)) s
    = Ok (setCursor s (cursor s + len run)).
Proof.
  induction run as [|c t IH]; intros fuel s before rest Hall Hrest Hf Hp;
    (destruct fuel as [|f]; [cbn in Hf; lia|]); cbn [lineCommentLoop].
  - rewrite app_nil_l. change (len "") with 0.
    rewrite Z.add_0_r, setCursor_here.
    destruct Hrest as [-> | ->]; reflexivity.
  - cbn [allBytes] in Hall. apply andb_true_iff in Hall.
    destruct Hall as [Hc Ht]. unfold lineByte in Hc.
    rewrite app_String in *. unfold isEOF.
    rewrite (headRune_eqb c _ 10), (headRune_eqb c _ 0) by lia. rewrite Hc.
    destruct (next_positioned _ _ _ _ Hp) as [Hn Hp']. rewrite Hn.
    rewrite (IH f _ _ rest Ht Hrest ltac:(cbn in Hf; lia) Hp').
    cbn [cursor setCursor]. rewrite setCursor_setCursor, len_String.
    do 2 f_equal. lia.
Qed.

Lemma Scan_dashes s :
  peek s = rune "-" -> lookAhead s 1 = rune "-" ->
  Scan s = scanSingleLineComment s.
Proof. intros H1 H2. unfold Scan. rewrite H1, H2. reflexivity. Qed.

(** X24: a comment that two dashes open runs to the end of its line. When
    the text after the dashes holds neither a line feed nor a NUL byte and
    a line feed, a NUL byte or the end of the input follows it, [Scan]
    returns one COMMENT token that spans the dashes and that text; the line
    feed is left for the next token. *)
Theorem X24_line_comment_runs_to_the_end_of_the_line :
  forall (s : Lexer) (before text rest : string),
    positioned s before ("--" +:+ text +:+ rest) ->
    allBytes lineByte text = true ->
    headRune rest = 10 \/ headRune rest = 0 ->
    exists tok s',
      Scan s = Ok (tok, s') /\
      Type_ tok = COMMENT /\
      Start tok = len before /\
      Value tok (src s) = "--" +:+ text /\
      cursor s' = End_ tok /\
      peek s' = headRune rest.
Proof.
  intros s before text rest Hp Hall Hrest.
  rewrite !app_String, app_nil_l in Hp.
  assert (Hpeek : peek s = rune "-").
  { rewrite (peek_positioned _ _ _ Hp). apply headRune_low. reflexivity. }
  assert (Hla : lookAhead s 1 = rune "-").
  { rewrite (lookAhead1_positioned _ _ _ Hp). cbn [drop].
    apply headRune_low. reflexivity. }
  rewrite (Scan_dashes s Hpeek Hla). unfold scanSingleLineComment. cbv zeta.
  assert (Hm : positioned (markStart s) before
                 (String "-" (String "-" (text +:+ rest)))) by exact Hp.
  destruct (nextBy_positioned _ _ _ 2 Hm) as [Hn Hp2]; [cbn; lia|].
  change (Z.of_nat 2) with 2 in Hn, Hp2. cbn [drop take] in Hn, Hp2.
  rewrite Hn.
  rewrite (lineCommentLoop_run text _ _ (before +:+ "--") rest Hall Hrest);
    [| |exact Hp2].
  2:{ unfold loopFuel. rewrite (positioned_length _ _ _ Hm).
      cbn [String.length]. pose proof (len_app text rest) as H.
      unfold len in H. lia. }
  cbn [mbind outcome_bind mret outcome_ret].
  destruct (nextBy_positioned _ _ _ (String.length text) Hp2) as [_ Hp3].
  { pose proof (len_app text rest) as H. unfold len in H. lia. }
  fold (len text) in Hp3. rewrite drop_app, take_app in Hp3.
  eexists _, _. split; [reflexivity|].
  cbn [emit fst snd Type_ Start End_ start cursor setCursor markStart].
  unfold Value. cbn [Start End_]. destruct Hp as [Hsrc Hcur].
  assert (E : String "-" (String "-" (text +:+ rest))
              = ("--" +:+ text) +:+ rest)
    by (rewrite app_assoc, !app_String, app_nil_l; reflexivity).
  repeat split; [exact Hcur| |].
  - rewrite Hsrc, Hcur, E.
    replace (len before + 2 + len text)
      with (len before + len ("--" +:+ text))
      by (rewrite len_app; change (len "--") with 2; lia).
    apply slice_app.
  - exact (peek_positioned _ _ _ Hp3).
Qed.

Lemma multiLineCommentLoop_first rest :
  forall body fuel s before,
    positioned s before (body +:+ "*/" +:+ rest) ->
    noNUL body = true ->
    (forall k, (k < String.length body)%nat ->
               hasPrefix (drop k (body +:+ "*/" +:+ rest)) "*/" = false) ->
    (String.length body < fuel)%nat ->
    multiLineCommentLoop fuel (headRune (body +:+ "*/" +:+ rest)) s
    = Ok (emit MULTILINE_COMMENT (setCursor s (cursor s + len body + 2))).
Proof.
  induction body as [|c t IH]; intros fuel s before Hp Hn Hfirst Hf;
    (destruct fuel as [|f]; [cbn in Hf; lia|]); cbn [multiLineCommentLoop].
  - rewrite app_nil_l, !app_String, app_nil_l in *.
    rewrite (lookAhead1_positioned _ _ _ Hp). cbn [drop].
    rewrite !headRune_low by reflexivity.
    change ((byte "*" =? rune "*") && (byte "/" =? rune "/")) with true.
    cbv iota.
    destruct (nextBy_positioned _ _ _ 2 Hp) as [Hnext _]; [cbn; lia|].
    change (Z.of_nat 2) with 2 in Hnext. rewrite Hnext. cbn [snd].
    change (len "") with 0. rewrite Z.add_0_r. reflexivity.
  - rewrite (app_String c t) in *. cbn [noNUL] in Hn.
    apply andb_true_iff in Hn. destruct Hn as [Hc Hn].
    apply negb_true_iff in Hc.
    rewrite (lookAhead1_positioned _ _ _ Hp). cbn [drop].
    pose proof (Hfirst 0%nat ltac:(simpl; lia)) as H0.
    cbn [drop hasPrefix] in H0.
    rewrite (headRune_eqb c _ (rune "*"))
      by (cbv; split; [discriminate|reflexivity]).
    assert (Hcond : (byte c =? rune "*")
                    && (headRune (t +:+ "*/" +:+ rest) =? rune "/") = false).
    { destruct (t +:+ "*/" +:+ rest) as [|x X'].
      - rewrite andb_false_r. reflexivity.
      - rewrite (headRune_eqb x _ (rune "/"))
          by (cbv; split; [discriminate|reflexivity]).
        rewrite andb_true_r in H0. exact H0. }
    rewrite Hcond. unfold isEOF. rewrite (headRune_eqb c _ 0) by lia.
    rewrite Hc.
    destruct (next_positioned _ _ _ _ Hp) as [Hnext Hp']. rewrite Hnext.
    rewrite (IH f _ _ Hp' Hn); [| |cbn in Hf; lia].
    + cbn [cursor setCursor]. rewrite setCursor_setCursor, len_String.
      do 3 f_equal. lia.
    + intros k Hk. exact (Hfirst (S k) ltac:(simpl; lia)).
Qed.

Lemma Scan_slash_star s :
  peek s = rune "/" -> lookAhead s 1 = rune "*" ->
  Scan s = scanMultiLineComment s.
Proof. intros H1 H2. unfold Scan. rewrite H1, H2. reflexivity. Qed.

(** X25: a comment between [/*] and [*/] ends at the first [*/] after its
    opening: comments do not nest. When no NUL byte comes before that
    first [*/], [Scan] returns one MULTILINE_COMMENT token that spans the
    opening, the body and the closing. *)
Theorem X25_block_comment_ends_at_the_first_closing :
  forall (s : Lexer) (before body rest : string),
    positioned s before ("/*" +:+ body +:+ "*/" +:+ rest) ->
    noNUL body = true ->
    (forall k, (k < String.length body)%nat ->
               hasPrefix (drop k (body +:+ "*/" +:+ rest)) "*/" = false) ->
    exists tok s',
      Scan s = Ok (tok, s') /\
      Type_ tok = MULTILINE_COMMENT /\
      Start tok = len before /\
      Value tok (src s) = "/*" +:+ body +:+ "*/" /\
      cursor s' = End_ tok.
Proof.
  intros s before body rest Hp Hn Hfirst.
  set (X := body +:+ "*/" +:+ rest) in *.
  rewrite !app_String, app_nil_l in Hp.
  assert (Hpeek : peek s = rune "/").
  { rewrite (peek_positioned _ _ _ Hp). apply headRune_low. reflexivity. }
  assert (Hla : lookAhead s 1 = rune "*").
  { rewrite (lookAhead1_positioned _ _ _ Hp). cbn [drop].
    apply headRune_low. reflexivity. }
  rewrite (Scan_slash_star s Hpeek Hla). unfold scanMultiLineComment.
  cbv zeta.
  assert (Hm : positioned (markStart s) before (String "/" (String "*" X)))
    by exact Hp.
  destruct (nextBy_positioned _ _ _ 2 Hm) as [Hnext Hp2]; [cbn; lia|].
  change (Z.of_nat 2) with 2 in Hnext, Hp2. cbn [drop take] in Hnext, Hp2.
  rewrite Hnext.
  rewrite (multiLineCommentLoop_first rest body _ _ _ Hp2 Hn Hfirst).
  2:{ unfold loopFuel. rewrite (positioned_length _ _ _ Hm).
      cbn [String.length]. pose proof (len_app body ("*/" +:+ rest)) as H.
      unfold X, len in *. lia. }
  eexists _, _. split; [reflexivity|].
  cbn [emit fst snd Type_ Start End_ start cursor setCursor markStart].
  unfold Value. cbn [Start End_]. destruct Hp as [Hsrc Hcur].
  assert (E : String "/" (String "*" X) = ("/*" +:+ body +:+ "*/") +:+ rest)
    by (unfold X; rewrite !app_assoc, !app_String, !app_nil_l; reflexivity).
  repeat split; [exact Hcur|].
  rewrite Hsrc, Hcur, E.
  replace (len before + 2 + len body + 2)
    with (len before + len ("/*" +:+ body +:+ "*/"))
    by (rewrite !len_app; change (len "/*") with 2; change (len "*/") with 2;
        lia).
  apply slice_app.
Qed.
(** ** Hexadecimal and octal numbers *)

Lemma isHexDigit_high x : 128 <= x -> isHexDigit x = false.
Proof.
  intros H. unfold isHexDigit. rewrite (isDigit_high x H).
  change (rune "f") with 102. change (rune "F") with 70.
  destruct (x <=? 102) eqn:E1; [apply Z.leb_le in E1; lia|].
  destruct (x <=? 70) eqn:E2; [apply Z.leb_le in E2; lia|].
  rewrite !andb_false_r. reflexivity.
Qed.

Lemma isOctalDigit_high x : 128 <= x -> isOctalDigit x = false.
Proof.
  intros H. unfold isOctalDigit. change (rune "7") with 55.
  destruct (x <=? 55) eqn:E; [apply Z.leb_le in E; lia|].
  apply andb_false_r.
Qed.

Lemma hexLoop_run :
  forall run fuel s before rest,
    allBytes isHexDigit run = true ->
    isHexDigit (headRune rest) = false ->
    (String.length run < fuel)%nat ->
    positioned s before (run +:+ rest) ->
    hexLoop fuel (headRune (run +:+ rest)) s
    = Ok (setCursor s (cursor s + len run)).
Proof.
  induction run as [|c t IH]; intros fuel s before rest Hall Hrest Hf Hp;
    (destruct fuel as [|f]; [cbn in Hf; lia|]); cbn [hexLoop].
  - rewrite app_nil_l. fold (isHexDigit (headRune rest)). rewrite Hrest.
    change (len "") with 0. rewrite Z.add_0_r, setCursor_here. reflexivity.
  - cbn [allBytes] in Hall. apply andb_true_iff in Hall.
    destruct Hall as [Hc Ht]. rewrite (app_String c t) in *.
    fold (isHexDigit (headRune (String c (t +:+ rest)))).
    rewrite (headRune_ascii_test isHexDigit c _ isHexDigit_high), Hc.
    destruct (next_positioned _ _ _ _ Hp) as [Hn Hp']. rewrite Hn.
    rewrite (IH f _ _ rest Ht Hrest ltac:(cbn in Hf; lia) Hp').
    cbn [cursor setCursor]. rewrite setCursor_setCursor, len_String.
    do 2 f_equal. lia.
Qed.

Lemma octalLoop_run :
  forall run fuel s before rest,
    allBytes isOctalDigit run = true ->
    isOctalDigit (headRune rest) = false ->
    (String.length run < fuel)%nat ->
    positioned s before (run +:+ rest) ->
    octalLoop fuel (headRune (run +:+ rest)) s
    = Ok (setCursor s (cursor s + len run)).
Proof.
  induction run as [|c t IH]; intros fuel s before rest Hall Hrest Hf Hp;
    (destruct fuel as [|f]; [cbn in Hf; lia|]); cbn [octalLoop].
  - rewrite app_nil_l. fold (isOctalDigit (headRune rest)). rewrite Hrest.
    change (len "") with 0. rewrite Z.add_0_r, setCursor_here. reflexivity.
  - cbn [allBytes] in Hall. apply andb_true_iff in Hall.
    destruct Hall as [Hc Ht]. rewrite (app_String c t) in *.
    fold (isOctalDigit (headRune (String c (t +:+ rest)))).
    rewrite (headRune_ascii_test isOctalDigit c _ isOctalDigit_high), Hc.
    destruct (next_positioned _ _ _ _ Hp) as [Hn Hp']. rewrite Hn.
    rewrite (IH f _ _ rest Ht Hrest ltac:(cbn in Hf; lia) Hp').
    cbn [cursor setCursor]. rewrite setCursor_setCursor, len_String.
    do 2 f_equal. lia.
Qed.

(** X26: hexadecimal and octal numbers. A [0] followed by [x] or [X] and a
    run of hexadecimal digits, or by a digit from [0] to [7] and a run of
    such digits, is one NUMBER token that ends where the run of digits
    ends; [0x] with no digit after it is a NUMBER too, and in [0129] the
    token is [012]. *)
Theorem X26_hexadecimal_and_octal_numbers :
  forall (s : Lexer) (before : string) (m : ascii) (run rest : string),
    positioned s before (String "0" (String m (run +:+ rest))) ->
    ((byte m = rune "x" \/ byte m = rune "X") /\
     allBytes isHexDigit run = true /\
     isHexDigit (headRune rest) = false) \/
    (isOctalDigit (byte m) = true /\
     allBytes isOctalDigit run = true /\
     isOctalDigit (headRune rest) = false) ->
    exists tok s',
      Scan s = Ok (tok, s') /\
      Type_ tok = NUMBER /\
      Start tok = len before /\
      Value tok (src s) = String "0" (String m run) /\
      cursor s' = End_ tok.
Proof.
  intros s before m run rest Hp Hcase.
  assert (Hpeek : peek s = rune "0").
  { rewrite (peek_positioned _ _ _ Hp). apply headRune_low. reflexivity. }
  rewrite (Scan_digit s (rune "0") Hpeek eq_refl).
  unfold scanNumber, scanNumberic. cbv zeta.
  assert (Hm : positioned (markStart (markStart s)) before
                 (String "0" (String m (run +:+ rest)))) by exact Hp.
  rewrite (lookAhead1_positioned _ _ _ Hm). cbn [drop].
  destruct (nextBy_positioned _ _ _ 2 Hm) as [Hnext Hp2]; [cbn; lia|].
  change (Z.of_nat 2) with 2 in Hnext, Hp2. cbn [drop take] in Hnext, Hp2.
  assert (Hfuel : (String.length run < loopFuel (markStart (markStart s)))%nat).
  { unfold loopFuel. rewrite (positioned_length _ _ _ Hm).
    cbn [String.length]. pose proof (len_app run rest) as H.
    unfold len in H. lia. }
  assert (Hlow : byte m < 128).
  { destruct Hcase as [([E|E] & _)|(E & _)];
      [rewrite E; reflexivity|rewrite E; reflexivity|].
    unfold isOctalDigit in E. change (rune "7") with 55 in E. Zbool. lia. }
  rewrite (headRune_low m _ Hlow).
  assert (Hdone : forall r : outcome (Token * Lexer),
             r = Ok (emit NUMBER
                       (setCursor (markStart (markStart s))
                          (cursor s + 2 + len run))) ->
             exists tok s',
               r = Ok (tok, s') /\ Type_ tok = NUMBER /\
               Start tok = len before /\
               Value tok (src s) = String "0" (String m run) /\
               cursor s' = End_ tok).
  { intros r ->. eexists _, _. split; [reflexivity|].
    cbn [emit fst snd Type_ Start End_ start cursor setCursor markStart].
    unfold Value. cbn [Start End_]. destruct Hp as [Hsrc Hcur].
    repeat split; [exact Hcur|].
    rewrite Hsrc, Hcur.
    assert (E : String "0" (String m (run +:+ rest))
                = String "0" (String m run) +:+ rest)
      by (rewrite !app_String; reflexivity).
    rewrite E.
    replace (len before + 2 + len run)
      with (len before + len (String "0" (String m run)))
      by (rewrite !len_String; lia).
    apply slice_app. }
  apply Hdone.
  destruct Hcase as [(Hx & Hall & Hrest)|(Ho & Hall & Hrest)].
  - assert (E : (rune "0" =? rune "0")
                && ((byte m =? rune "x") || (byte m =? rune "X")) = true)
      by (destruct Hx as [-> | ->]; reflexivity).
    rewrite E. unfold scanHexNumber. rewrite Hnext.
    rewrite (hexLoop_run run _ _ _ rest Hall Hrest Hfuel Hp2).
    cbn [mbind outcome_bind mret outcome_ret cursor setCursor markStart].
    rewrite setCursor_setCursor. reflexivity.
  - assert (E : (rune "0" =? rune "0")
                && ((byte m =? rune "x") || (byte m =? rune "X")) = false).
    { assert (Hrange : 48 <= byte m <= 55).
      { pose proof Ho as Ho'. unfold isOctalDigit in Ho'.
        change (rune "7") with 55 in Ho'. change (rune "0") with 48 in Ho'.
        apply andb_true_iff in Ho'. destruct Ho' as [A B].
        apply Z.leb_le in A, B. lia. }
      destruct (byte m =? rune "x") eqn:E1;
        [apply Z.eqb_eq in E1; change (rune "x") with 120 in E1; lia|].
      destruct (byte m =? rune "X") eqn:E2;
        [apply Z.eqb_eq in E2; change (rune "X") with 88 in E2; lia|].
      reflexivity. }
    rewrite E. fold (isOctalDigit (byte m)). rewrite Ho. cbn [andb].
    unfold scanOctalNumber. rewrite Hnext.
    rewrite (octalLoop_run run _ _ _ rest Hall Hrest Hfuel Hp2).
    cbn [mbind outcome_bind mret outcome_ret cursor setCursor markStart].
    rewrite setCursor_setCursor. reflexivity.
Qed.
(** ** The normalized text is trimmed *)

Lemma isAsciiSpace_isSpace b : isAsciiSpace b = true -> isSpace b = true.
Proof.
  unfold isAsciiSpace, isSpace. intros H.
  apply orb_true_iff in H. destruct H as [H|H]; rewrite H;
    rewrite ?orb_true_r; reflexivity.
Qed.

Lemma isAsciiSpace_low b : isAsciiSpace b = true -> 0 <= b < 128.
Proof.
  unfold isAsciiSpace. intros H. apply orb_true_iff in H.
  destruct H as [H|H]; Zbool; lia.
Qed.

Lemma decode_width_pos s0 t : 1 <= snd (decode (s0 :: t)).
Proof.
  unfold decode.
  repeat match goal with
         | |- context [if ?b then _ else _] => destruct b
         | |- context [match ?x with Some _ => _ | None => _ end] =>
           destruct x as [[[? ?] ?]|]
         | |- context [match ?l with [] => _ | _ :: _ => _ end] =>
           destruct l
         end; cbn [snd]; lia.
Qed.

Lemma at_head c t : at_ (String c t) 0 = byte c.
Proof. reflexivity. Qed.

Lemma trimLeftSpace_head fuel : forall s,
  (String.length s <= fuel)%nat ->
  isAsciiSpace (at_ (trimLeftSpace fuel s) 0) = false /\
  (String.length (trimLeftSpace fuel s) <= String.length s)%nat.
Proof.
  induction fuel as [|f IH]; intros s Hf.
  - destruct s; [split; [reflexivity|cbn; lia]|cbn in Hf; lia].
  - destruct s as [|c t]; [split; [reflexivity|cbn; lia]|].
    cbn [trimLeftSpace].
    destruct (DecodeRuneInString (String c t)) as [r w] eqn:Ed.
    assert (Hw : 1 <= w).
    { pose proof (decode_width_pos (byte c) (bytes (take 3 t))) as H.
      change (DecodeRuneInString (String c t))
        with (decode (byte c :: bytes (take 3 t))) in Ed.
      rewrite Ed in H. exact H. }
    destruct (isSpace r) eqn:Es.
    + destruct (IH (drop (Z.to_nat w) (String c t))) as [H1 H2].
      { rewrite length_drop. cbn [String.length] in *. lia. }
      split; [exact H1|]. rewrite length_drop in H2. lia.
    + split; [|lia]. rewrite at_head.
      destruct (isAsciiSpace (byte c)) eqn:Ea; [|reflexivity].
      pose proof (isAsciiSpace_low _ Ea) as Hlow.
      change (DecodeRuneInString (String c t))
        with (decode (byte c :: bytes (take 3 t))) in Ed.
      rewrite (decode_ascii _ _ Hlow) in Ed. injection Ed as <- _.
      rewrite (isAsciiSpace_isSpace _ Ea) in Es. discriminate Es.
Qed.

Lemma length_take_at_most k : forall s, (String.length (take k s) <= k)%nat.
Proof.
  induction k as [|k IH]; intros s; [destruct s; cbn; lia|].
  destruct s as [|c t]; [cbn; lia|]. cbn [take String.length].
  specialize (IH t). lia.
Qed.

Lemma take_head k c t :
  (0 < k)%nat -> at_ (take k (String c t)) 0 = byte c.
Proof. intros H. destruct k as [|k]; [lia|]. reflexivity. Qed.

Lemma take_of_take k : forall m s,
  take k (take m s) = take (Nat.min k m) s.
Proof.
  induction k as [|k IH]; intros m s; [destruct (take m s); reflexivity|].
  destruct m as [|m]; [destruct s; reflexivity|].
  destruct s as [|c t]; [reflexivity|].
  cbn [take Nat.min]. rewrite IH. reflexivity.
Qed.

Lemma lastRuneStart_le n s lim : forall st, lastRuneStart n s lim st <= st.
Proof.
  induction n as [|n IH]; intros st; cbn [lastRuneStart]; [lia|].
  destruct (st <? lim); [lia|]. destruct (RuneStart _); [lia|].
  specialize (IH (st - 1)). lia.
Qed.

Lemma DecodeLastRuneInString_width s :
  len s <> 0 -> 1 <= snd (DecodeLastRuneInString s).
Proof.
  intros Hl. unfold DecodeLastRuneInString. cbv zeta.
  destruct (len s =? 0) eqn:E; [apply Z.eqb_eq in E; contradiction|].
  destruct (at_ s (len s - 1) <? 128); [cbn; lia|].
  set (st := Z.max 0 (lastRuneStart 4 s (Z.max 0 (len s - 4)) (len s - 2))).
  destruct (DecodeRuneInString (slice s st (len s))) as [r size] eqn:Ed.
  destruct (negb (st + size =? len s)) eqn:En; [cbn; lia|].
  apply negb_false_iff in En. apply Z.eqb_eq in En. cbn [snd].
  pose proof (lastRuneStart_le 4 s (Z.max 0 (len s - 4)) (len s - 2)) as Hst.
  pose proof (len_nonneg s). unfold st in En. lia.
Qed.

(** The prefix that [trimRightSpace] keeps ends on no ASCII white space. *)
Lemma trimRightSpace_ends fuel : forall s,
  (String.length s <= fuel)%nat ->
  exists k,
    trimRightSpace fuel s = take k s /\
    isAsciiSpace (at_ (trimRightSpace fuel s)
                      (len (trimRightSpace fuel s) - 1)) = false.
Proof.
  induction fuel as [|f IH]; intros s Hf.
  - destruct s; [|cbn in Hf; lia]. exists 0%nat. split; reflexivity.
  - cbn [trimRightSpace].
    destruct (len s =? 0) eqn:E.
    { apply Z.eqb_eq in E. destruct s; [|rewrite len_String in E;
        pose proof (len_nonneg s); lia].
      exists 0%nat. split; reflexivity. }
    apply Z.eqb_neq in E.
    pose proof (DecodeLastRuneInString_width s E) as Hw.
    destruct (DecodeLastRuneInString s) as [r w] eqn:Ed. cbn [snd] in Hw.
    destruct (isSpace r) eqn:Es.
    + assert (Hs : slice s 0 (len s - w) = take (Z.to_nat (len s - w)) s)
        by (unfold slice; rewrite Z.sub_0_r; reflexivity).
      rewrite Hs.
      destruct (IH (take (Z.to_nat (len s - w)) s)) as (k & Hk & Hend).
      { pose proof (length_take_at_most (Z.to_nat (len s - w)) s).
        unfold len in *. lia. }
      exists (Nat.min k (Z.to_nat (len s - w))). split; [|exact Hend].
      rewrite Hk. apply take_of_take.
    + exists (String.length s). split; [symmetry; apply take_all; lia|].
      destruct (isAsciiSpace (at_ s (len s - 1))) eqn:Ea; [|reflexivity].
      pose proof (isAsciiSpace_low _ Ea) as Hlow.
      unfold DecodeLastRuneInString in Ed. cbv zeta in Ed.
      destruct (len s =? 0) eqn:E0; [apply Z.eqb_eq in E0; contradiction|].
      destruct (at_ s (len s - 1) <? 128) eqn:E1; [|apply Z.ltb_ge in E1; lia].
      injection Ed as <- _.
      rewrite (isAsciiSpace_isSpace _ Ea) in Es. discriminate Es.
Qed.

Lemma TrimSpace_trimmed s :
  isAsciiSpace (at_ (TrimSpace s) 0) = false /\
  isAsciiSpace (at_ (TrimSpace s) (len (TrimSpace s) - 1)) = false.
Proof.
  unfold TrimSpace.
  destruct (trimLeftSpace_head (String.length s) s (Nat.le_refl _))
    as [Hh Hl].
  destruct (trimRightSpace_ends (String.length s)
              (trimLeftSpace (String.length s) s) Hl) as (k & Hk & Hend).
  split; [|exact Hend].
  rewrite Hk. destruct (trimLeftSpace (String.length s) s) as [|c t];
    [destruct k; reflexivity|].
  destruct k as [|k]; [reflexivity|exact Hh].
Qed.

(** X27: the text that [Normalize] returns is trimmed. Whatever the input,
    the configuration and the dialect, the normalized text neither begins
    nor ends with a space, a tab, a line feed, a vertical tab, a form feed
    or a carriage return (the byte at offset [0] and the last byte; an
    empty text has neither). *)
Theorem X27_normalized_text_is_trimmed :
  forall (cfg : normalizerConfig) (dbms : DBMSType) (fuel : nat)
         (input text : string) (md : StatementMetadata),
    Normalize cfg dbms fuel input = Ok (text, md) ->
    isAsciiSpace (at_ text 0) = false /\
    isAsciiSpace (at_ text (len text - 1)) = false.
Proof.
  intros cfg dbms fuel input text md H. unfold Normalize in H.
  apply bind_Ok in H. destruct H as (r & _ & H).
  cbn [mret outcome_ret] in H. unfold finish in H.
  injection H as <- _. unfold trimNormalizedSQL. apply TrimSpace_trimmed.
Qed.
(** ** Parameters *)

Lemma digitLoop_run :
  forall run fuel s before rest,
    allBytes isDigit run = true ->
    isDigit (headRune rest) = false ->
    (String.length run < fuel)%nat ->
    positioned s before (run +:+ rest) ->
    digitLoop fuel (headRune (run +:+ rest)) s
    = Ok (setCursor s (cursor s + len run)).
Proof.
  induction run as [|c t IH]; intros fuel s before rest Hall Hrest Hf Hp;
    (destruct fuel as [|f]; [cbn in Hf; lia|]); cbn [digitLoop].
  - rewrite app_nil_l, Hrest. change (len "") with 0.
    rewrite Z.add_0_r, setCursor_here. reflexivity.
  - cbn [allBytes] in Hall. apply andb_true_iff in Hall.
    destruct Hall as [Hc Ht]. rewrite (app_String c t) in *.
    rewrite (headRune_ascii_test isDigit c _ isDigit_high), Hc.
    destruct (next_positioned _ _ _ _ Hp) as [Hn Hp']. rewrite Hn.
    cbn [negb].
    rewrite (IH f _ _ rest Ht Hrest ltac:(cbn in Hf; lia) Hp').
    cbn [cursor setCursor]. rewrite setCursor_setCursor, len_String.
    do 2 f_equal. lia.
Qed.

Lemma asciiName_low b :
  isAsciiLetter b || (b =? rune "_") || isDigit b = true -> 0 < b < 128.
Proof.
  unfold isAsciiLetter, isDigit. intros H.
  change (rune "a") with 97 in H. change (rune "z") with 122 in H.
  change (rune "A") with 65 in H. change (rune "Z") with 90 in H.
  change (rune "_") with 95 in H. change (rune "0") with 48 in H.
  change (rune "9") with 57 in H.
  repeat (apply orb_true_iff in H; destruct H as [H|H]); Zbool; lia.
Qed.

Lemma asciiName_alphaNumeric b :
  isAsciiLetter b || (b =? rune "_") || isDigit b = true ->
  isAlphaNumeric b = true.
Proof.
  intros H. unfold isAlphaNumeric, isLetter.
  apply orb_true_iff in H. destruct H as [H|H];
    [rewrite H; reflexivity|rewrite H; apply orb_true_r].
Qed.

Lemma alphaNumericLoop_run :
  forall run fuel s before rest,
    allBytes (fun b => isAsciiLetter b || (b =? rune "_") || isDigit b) run
    = true ->
    isAlphaNumeric (headRune rest) = false ->
    (String.length run < fuel)%nat ->
    positioned s before (run +:+ rest) ->
    alphaNumericLoop fuel (headRune (run +:+ rest)) s
    = Ok (setCursor s (cursor s + len run)).
Proof.
  induction run as [|c t IH]; intros fuel s before rest Hall Hrest Hf Hp;
    (destruct fuel as [|f]; [cbn in Hf; lia|]); cbn [alphaNumericLoop].
  - rewrite app_nil_l, Hrest. change (len "") with 0.
    rewrite Z.add_0_r, setCursor_here. reflexivity.
  - cbn [allBytes] in Hall. apply andb_true_iff in Hall.
    destruct Hall as [Hc Ht]. rewrite (app_String c t) in *.
    rewrite headRune_low by (apply asciiName_low, Hc).
    rewrite (asciiName_alphaNumeric _ Hc).
    destruct (next_positioned _ _ _ _ Hp) as [Hn Hp']. rewrite Hn.
    cbn [negb].
    rewrite (IH f _ _ rest Ht Hrest ltac:(cbn in Hf; lia) Hp').
    cbn [cursor setCursor]. rewrite setCursor_setCursor, len_String.
    do 2 f_equal. lia.
Qed.

Lemma Scan_colon s :
  peek s = rune ":" ->
  Scan s
  = if isDBMS (config s) DBMSOracle && isAlphaNumeric (lookAhead s 1)
    then scanBindParameter s else scanOperator (rune ":") s.
Proof. intros H. unfold Scan. rewrite H. reflexivity. Qed.

Lemma isDBMS_ne a b : a <> b -> isDBMS a b = false.
Proof. intros H. unfold isDBMS. apply bool_decide_eq_false. exact H. Qed.

(** X28: parameters. A positional parameter [$] with digits, a bind
    parameter [@] (except under Snowflake) or [:] (under Oracle) with a name
    of ASCII letters, digits and underscores, and a system variable [@@]
    with such a name are each one token of their type, which spans the
    introducing bytes and the whole name. *)
Theorem X28_parameters_are_one_token :
  forall (s : Lexer) (before prefix : string) (t : TokenType) (c : ascii)
         (name rest : string),
    introduces (config s) prefix t ->
    positioned s before (prefix +:+ String c name +:+ rest) ->
    allBytes (parameterByte t) (String c name) = true ->
    parameterRune t (headRune rest) = false ->
    exists tok s',
      Scan s = Ok (tok, s') /\
      Type_ tok = t /\
      Start tok = len before /\
      Value tok (src s) = prefix +:+ String c name /\
      cursor s' = End_ tok.
Proof.
  intros s before prefix t c name rest Hintro Hp Hall Hrest.
  assert (Hdone : forall r : outcome (Token * Lexer),
             r = Ok (emit t
                       (setCursor (markStart s)
                          (cursor s + len (prefix +:+ String c name)))) ->
             exists tok s',
               r = Ok (tok, s') /\ Type_ tok = t /\
               Start tok = len before /\
               Value tok (src s) = prefix +:+ String c name /\
               cursor s' = End_ tok).
  { intros r ->. eexists _, _. split; [reflexivity|].
    cbn [emit fst snd Type_ Start End_ start cursor setCursor markStart].
    unfold Value. cbn [Start End_]. destruct Hp as [Hsrc Hcur].
    repeat split; [exact Hcur|].
    rewrite Hsrc, Hcur, <- (app_assoc prefix (String c name) rest).
    apply slice_app. }
  apply Hdone. clear Hdone.
  assert (Hm : positioned (markStart s) before
                 (prefix +:+ String c name +:+ rest)) by exact Hp.
  assert (Hfuel : forall k : nat,
             (String.length (prefix +:+ String c name +:+ rest)
              < loopFuel (markStart s) + k)%nat).
  { intros k. unfold loopFuel. rewrite (positioned_length _ _ _ Hm). lia. }
  cbn [allBytes] in Hall. apply andb_true_iff in Hall.
  destruct Hall as [Hc Hname].
  destruct Hintro as [[-> ->]|[(-> & -> & Hd)|[(-> & -> & Hd)|[-> ->]]]];
    unfold parameterByte, parameterRune in *; cbn [isType bool_decide] in *;
    rewrite ?app_String, ?app_nil_l in *.
  - (* [$] and digits *)
    change (isDigit (byte c) = true) in Hc.
    change (allBytes isDigit name = true) in Hname.
    change (isDigit (headRune rest) = false) in Hrest.
    assert (Hpeek : peek s = rune "$").
    { rewrite (peek_positioned _ _ _ Hp). apply headRune_low. reflexivity. }
    rewrite (Scan_dollar s Hpeek), (lookAhead1_positioned _ _ _ Hp).
    cbn [drop].
    rewrite (headRune_ascii_test isDigit c _ isDigit_high), Hc.
    unfold scanPositionalParameter. cbv zeta.
    destruct (nextBy_positioned _ _ _ 2 Hm) as [Hn Hp2]; [cbn; lia|].
    change (Z.of_nat 2) with 2 in Hn, Hp2. cbn [drop take] in Hn, Hp2.
    rewrite Hn.
    rewrite (fun Hf => digitLoop_run name _ _ _ rest Hname Hrest Hf Hp2).
    2:{ specialize (Hfuel 0%nat). cbn [String.length] in Hfuel.
        pose proof (len_app name rest) as H. unfold len in H. lia. }
    cbn [mbind outcome_bind mret outcome_ret cursor setCursor markStart].
    rewrite setCursor_setCursor, !len_String. do 3 f_equal.
    change (len "") with 0. lia.
  - (* [@] and a name *)
    change (isAsciiLetter (byte c) || (byte c =? rune "_")
            || isDigit (byte c) = true) in Hc.
    change (allBytes (fun b => isAsciiLetter b || (b =? rune "_")
                               || isDigit b) name = true) in Hname.
    change (isAlphaNumeric (headRune rest) = false) in Hrest.
    assert (Hpeek : peek s = rune "@").
    { rewrite (peek_positioned _ _ _ Hp). apply headRune_low. reflexivity. }
    rewrite (Scan_at s Hpeek). unfold scanAt.
    rewrite (lookAhead1_positioned _ _ _ Hp). cbn [drop].
    rewrite headRune_low by (apply asciiName_low, Hc).
    assert (Hna : (byte c =? rune "@") = false).
    { destruct (byte c =? rune "@") eqn:E; [|reflexivity].
      apply Z.eqb_eq in E. rewrite E in Hc. discriminate Hc. }
    rewrite Hna, (asciiName_alphaNumeric _ Hc), (isDBMS_ne _ _ Hd).
    unfold scanBindParameter. cbv zeta.
    destruct (nextBy_positioned _ _ _ 2 Hm) as [Hn Hp2]; [cbn; lia|].
    change (Z.of_nat 2) with 2 in Hn, Hp2. cbn [drop take] in Hn, Hp2.
    rewrite Hn.
    rewrite (fun Hf => alphaNumericLoop_run name _ _ _ rest Hname Hrest Hf Hp2).
    2:{ specialize (Hfuel 0%nat). cbn [String.length] in Hfuel.
        pose proof (len_app name rest) as H. unfold len in H. lia. }
    cbn [mbind outcome_bind mret outcome_ret cursor setCursor markStart].
    rewrite setCursor_setCursor, !len_String. do 3 f_equal.
    change (len "") with 0. lia.
  - (* [:] and a name, under Oracle *)
    change (isAsciiLetter (byte c) || (byte c =? rune "_")
            || isDigit (byte c) = true) in Hc.
    change (allBytes (fun b => isAsciiLetter b || (b =? rune "_")
                               || isDigit b) name = true) in Hname.
    change (isAlphaNumeric (headRune rest) = false) in Hrest.
    assert (Hpeek : peek s = rune ":").
    { rewrite (peek_positioned _ _ _ Hp). apply headRune_low. reflexivity. }
    rewrite (Scan_colon s Hpeek), Hd.
    rewrite (lookAhead1_positioned _ _ _ Hp). cbn [drop].
    rewrite headRune_low by (apply asciiName_low, Hc).
    rewrite (asciiName_alphaNumeric _ Hc).
    change (isDBMS DBMSOracle DBMSOracle && true) with true. cbv iota.
    unfold scanBindParameter. cbv zeta.
    destruct (nextBy_positioned _ _ _ 2 Hm) as [Hn Hp2]; [cbn; lia|].
    change (Z.of_nat 2) with 2 in Hn, Hp2. cbn [drop take] in Hn, Hp2.
    rewrite Hn.
    rewrite (fun Hf => alphaNumericLoop_run name _ _ _ rest Hname Hrest Hf Hp2).
    2:{ specialize (Hfuel 0%nat). cbn [String.length] in Hfuel.
        pose proof (len_app name rest) as H. unfold len in H. lia. }
    cbn [mbind outcome_bind mret outcome_ret cursor setCursor markStart].
    rewrite setCursor_setCursor, !len_String. do 3 f_equal.
    change (len "") with 0. lia.
  - (* [@@] and a name *)
    change (isAsciiLetter (byte c) || (byte c =? rune "_")
            || isDigit (byte c) = true) in Hc.
    change (allBytes (fun b => isAsciiLetter b || (b =? rune "_")
                               || isDigit b) name = true) in Hname.
    change (isAlphaNumeric (headRune rest) = false) in Hrest.
    assert (Hpeek : peek s = rune "@").
    { rewrite (peek_positioned _ _ _ Hp). apply headRune_low. reflexivity. }
    rewrite (Scan_at s Hpeek). unfold scanAt.
    rewrite (lookAhead1_positioned _ _ _ Hp),
      (lookAhead2_positioned _ _ _ Hp). cbn [drop].
    rewrite (headRune_low "@") by reflexivity.
    rewrite headRune_low by (apply asciiName_low, Hc).
    change (byte "@" =? rune "@") with true. cbv iota.
    rewrite (asciiName_alphaNumeric _ Hc).
    unfold scanSystemVariable. cbv zeta.
    destruct (nextBy_positioned _ _ _ 2 Hm) as [Hn Hp2]; [cbn; lia|].
    change (Z.of_nat 2) with 2 in Hn, Hp2. cbn [drop take] in Hn, Hp2.
    rewrite Hn.
    rewrite headRune_low by (apply asciiName_low, Hc).
    rewrite (asciiName_alphaNumeric _ Hc). cbn [negb].
    rewrite <- (headRune_low c (name +:+ rest))
      by (apply asciiName_low, Hc).
    rewrite <- (app_String c name rest).
    assert (Hall : allBytes (fun b => isAsciiLetter b || (b =? rune "_")
                                      || isDigit b) (String c name) = true)
      by (cbn [allBytes]; rewrite Hc; exact Hname).
    rewrite (fun Hf => alphaNumericLoop_run (String c name) _ _ _ rest Hall
                         Hrest Hf Hp2).
    2:{ specialize (Hfuel 0%nat). cbn [String.length] in Hfuel |- *.
        pose proof (len_app name rest) as H. unfold len in H. lia. }
    cbn [mbind outcome_bind mret outcome_ret cursor setCursor markStart].
    rewrite setCursor_setCursor, !len_String. do 3 f_equal.
    change (len "") with 0. lia.
Qed.
(** ** Operators *)

Lemma isOperator_high x : 128 <= x -> isOperator x = false.
Proof.
  intros H. unfold isOperator. cbn [existsb].
  rewrite !(eqb_high _ x) by first [exact H|reflexivity]. reflexivity.
Qed.

Lemma isOperator_low b : isOperator b = true -> b < 128.
Proof.
  intros H. destruct (Z_lt_le_dec b 128) as [Hl|Hh]; [exact Hl|].
  rewrite (isOperator_high b Hh) in H. discriminate H.
Qed.

Lemma operatorLoop_run :
  forall text fuel lastCh s before,
    positioned s before text ->
    (String.length (operatorRun lastCh text) < fuel)%nat ->
    operatorLoop fuel lastCh (headRune text) s
    = Ok (setCursor s (cursor s + len (operatorRun lastCh text))).
Proof.
  induction text as [|c t IH]; intros fuel lastCh s before Hp Hf;
    (destruct fuel as [|f]; [cbn in Hf; lia|]); cbn [operatorLoop operatorRun].
  - change (len "") with 0. rewrite Z.add_0_r, setCursor_here. reflexivity.
  - rewrite (headRune_ascii_test isOperator c t isOperator_high).
    rewrite !(headRune_eqb c t) by (cbv; split; [discriminate|reflexivity]).
    cbn [operatorRun] in Hf.
    destruct (isOperator (byte c) &&
              negb ((lastCh =? rune "=") &&
                    ((byte c =? rune "?") || (byte c =? rune "@")))) eqn:E.
    + apply andb_true_iff in E. destruct E as [E _].
      destruct (next_positioned _ _ _ _ Hp) as [Hn Hp']. rewrite Hn.
      rewrite (headRune_low c t (isOperator_low _ E)).
      rewrite (IH f (byte c) _ _ Hp' ltac:(cbn in Hf; lia)).
      cbn [cursor setCursor]. rewrite setCursor_setCursor, len_String.
      do 2 f_equal. lia.
    + change (len "") with 0. rewrite Z.add_0_r, setCursor_here. reflexivity.
Qed.

(** [scanOperator] where no JSON operator begins. *)
Lemma scanOperator_plain s before c0 rest :
  positioned s before (String c0 rest) ->
  (byte c0 =? rune "-") && (headRune rest =? rune ">") = false ->
  (byte c0 =? rune "#") = false ->
  (byte c0 =? rune "?")
  && ((headRune rest =? rune "|") || (headRune rest =? rune "&")) = false ->
  (byte c0 =? rune "<") && (headRune rest =? rune "@") = false ->
  scanOperator (byte c0) s
  = Ok (emit OPERATOR
          (setCursor (markStart s)
             (cursor s + 1 + len (operatorRun (byte c0) rest)))).
Proof.
  intros Hp H1 H2 H3 H4. unfold scanOperator. cbv zeta.
  assert (Hm : positioned (markStart s) before (String c0 rest)) by exact Hp.
  destruct (next_positioned _ _ _ _ Hm) as [Hn Hp1]. rewrite Hn.
  rewrite H1, H2, H3, H4. cbn [andb].
  rewrite (operatorLoop_run rest _ (byte c0) _ _ Hp1).
  - cbn [mbind outcome_bind mret outcome_ret cursor setCursor markStart].
    rewrite setCursor_setCursor. reflexivity.
  - unfold loopFuel. rewrite (positioned_length _ _ _ Hm).
    cbn [String.length].
    assert (H : forall l text,
               (String.length (operatorRun l text) <= String.length text)%nat).
    { intros l text. revert l. induction text as [|c t IH]; intros l;
        cbn [operatorRun]; [cbn; lia|].
      match goal with
      | |- context [if ?b then _ else _] => destruct b
      end; cbn [String.length]; [specialize (IH (byte c))|]; lia. }
    specialize (H (byte c0) rest). lia.
Qed.

Lemma Scan_minus s :
  peek s = rune "-" ->
  Scan s
  = if lookAhead s 1 =? rune "-" then scanSingleLineComment s
    else if isDigit (lookAhead s 1) || (lookAhead s 1 =? rune ".")
         then scanNumberWithLeadingSign s
         else scanOperator (rune "-") s.
Proof. intros H. unfold Scan. rewrite H. reflexivity. Qed.

Lemma Scan_plus s :
  peek s = rune "+" ->
  Scan s
  = if isDigit (lookAhead s 1) || (lookAhead s 1 =? rune ".")
    then scanNumberWithLeadingSign s
    else scanOperator (rune "+") s.
Proof. intros H. unfold Scan. rewrite H. reflexivity. Qed.

Lemma Scan_slash s :
  peek s = rune "/" ->
  Scan s
  = if lookAhead s 1 =? rune "*" then scanMultiLineComment s
    else scanOperator (rune "/") s.
Proof. intros H. unfold Scan. rewrite H. reflexivity. Qed.

Lemma Scan_operator s c0 :
  existsb (Z.eqb c0)
    [rune "="; rune "<"; rune ">"; rune "!"; rune "&"; rune "|"; rune "^";
     rune "%"; rune "~"; rune "?"] = true ->
  peek s = c0 -> Scan s = scanOperator c0 s.
Proof.
  intros H Hp. cbn [existsb] in H.
  repeat (apply orb_true_iff in H; destruct H as [H|H]);
    try discriminate H; apply Z.eqb_eq in H; subst c0;
    unfold Scan; rewrite Hp; reflexivity.
Qed.

Lemma operatorRun_prefix :
  forall text l, exists r, text = operatorRun l text +:+ r.
Proof.
  induction text as [|c t IH]; intros l; cbn [operatorRun].
  - exists "". reflexivity.
  - match goal with
    | |- context [if ?b then _ else _] => destruct b
    end.
    + destruct (IH (byte c)) as [r Hr]. exists r.
      rewrite app_String, <- Hr. reflexivity.
    + exists (String c t). rewrite app_nil_l. reflexivity.
Qed.

(** X29: operator characters run together. At an operator character that
    opens neither a comment, a signed number nor a JSON operator, [Scan]
    returns one OPERATOR token made of that character and of the operator
    characters after it, up to the first character that is no operator;
    only a [?] or an [@] right after an [=] ends the run earlier, so [=?]
    is two tokens. *)
Theorem X29_operator_characters_run_together :
  forall (s : Lexer) (before : string) (c0 : ascii) (rest : string),
    positioned s before (String c0 rest) ->
    plainOperator (byte c0) (headRune rest) = true ->
    exists tok s',
      Scan s = Ok (tok, s') /\
      Type_ tok = OPERATOR /\
      Start tok = len before /\
      Value tok (src s) = String c0 (operatorRun (byte c0) rest) /\
      cursor s' = End_ tok.
Proof.
  intros s before c0 rest Hp Hplain.
  unfold plainOperator in Hplain.
  apply andb_true_iff in Hplain. destruct Hplain as [Hplain H5].
  apply andb_true_iff in Hplain. destruct Hplain as [Hplain H4].
  apply andb_true_iff in Hplain. destruct Hplain as [Hplain H3].
  apply andb_true_iff in Hplain. destruct Hplain as [Hplain H2].
  apply andb_true_iff in Hplain. destruct Hplain as [Hmem H1].
  apply negb_true_iff in H1, H2, H3, H4, H5.
  assert (Hla : lookAhead s 1 = headRune rest)
    by (rewrite (lookAhead1_positioned _ _ _ Hp); reflexivity).
  assert (Hscan : Scan s = scanOperator (byte c0) s /\
                  (byte c0 =? rune "#") = false).
  { pose proof (peek_positioned _ _ _ Hp) as Hpeek.
    cbn [existsb] in Hmem.
    repeat (apply orb_true_iff in Hmem; destruct Hmem as [Hmem|Hmem]);
      try discriminate Hmem; apply Z.eqb_eq in Hmem;
      rewrite headRune_low in Hpeek by (rewrite Hmem; reflexivity);
      rewrite Hmem in *; (split; [|reflexivity]);
      try (apply Scan_operator; [reflexivity|exact Hpeek]).
    - rewrite (Scan_plus s Hpeek), Hla. cbn [andb] in H2.
      change (rune "+" =? rune "+") with true in H2. cbn [andb] in H2.
      rewrite H2. reflexivity.
    - rewrite (Scan_minus s Hpeek), Hla.
      change (rune "-" =? rune "-") with true in H1. cbn [andb] in H1.
      apply orb_false_iff in H1. destruct H1 as [H1 Hd].
      apply orb_false_iff in H1. destruct H1 as [H1 Hc].
      apply orb_false_iff in H1. destruct H1 as [Ha Hb].
      rewrite Ha, Hc, Hd. reflexivity.
    - rewrite (Scan_slash s Hpeek), Hla.
      change (rune "/" =? rune "/") with true in H3. cbn [andb] in H3.
      rewrite H3. reflexivity. }
  destruct Hscan as [HS Hhash]. rewrite HS.
  rewrite (scanOperator_plain s before c0 rest Hp); [|
    destruct (byte c0 =? rune "-"); [|reflexivity]; cbn [andb] in *;
    apply orb_false_iff in H1; destruct H1 as [H1 _];
    apply orb_false_iff in H1; destruct H1 as [H1 _];
    apply orb_false_iff in H1; destruct H1 as [_ H1]; exact H1
    |exact Hhash|exact H4|exact H5].
  eexists _, _. split; [reflexivity|].
  cbn [emit fst snd Type_ Start End_ start cursor setCursor markStart].
  unfold Value. cbn [Start End_]. destruct Hp as [Hsrc Hcur].
  repeat split; [exact Hcur|].
  destruct (operatorRun_prefix rest (byte c0)) as [r Hr].
  rewrite Hsrc, Hcur. rewrite Hr at 1. rewrite <- app_String.
  replace (len before + 1 + len (operatorRun (byte c0) rest))
    with (len before + len (String c0 (operatorRun (byte c0) rest)))
    by (rewrite len_String; lia).
  apply slice_app.
Qed.
(** ** Letter case *)

Ltac runes :=
  repeat match goal with
         | |- context [rune ?c] =>
           let v := eval vm_compute in (rune c) in change (rune c) with v
         | H : context [rune ?c] |- _ =>
           let v := eval vm_compute in (rune c) in change (rune c) with v in H
         end.

Lemma ToUpper_String a t w' :
  ToUpper (String a t) = ToUpper w' ->
  exists b t',
    w' = String b t' /\ upperByte (byte a) = upperByte (byte b) /\
    ToUpper t = ToUpper t'.
Proof.
  destruct w' as [|b t']; unfold ToUpper; cbn [bytes map ofBytes]; intros H;
    [discriminate H|].
  injection H as Hc Ht. exists b, t'. split; [reflexivity|].
  split; [|exact Ht].
  apply (f_equal byte) in Hc.
  rewrite !byte_chr in Hc by (apply upperByte_range, byte_range). exact Hc.
Qed.

Lemma ToUpper_nil w' : ToUpper "" = ToUpper w' -> w' = "".
Proof. destruct w'; [reflexivity|discriminate]. Qed.

Lemma ToUpper_length :
  forall w w', ToUpper w = ToUpper w' -> String.length w = String.length w'.
Proof.
  induction w as [|a t IH]; intros w' H.
  - rewrite (ToUpper_nil _ H). reflexivity.
  - destruct (ToUpper_String _ _ _ H) as (b & t' & -> & _ & Ht).
    cbn [String.length]. rewrite (IH _ Ht). reflexivity.
Qed.

Lemma upperByte_cases b b' :
  upperByte b = upperByte b' ->
  b = b' \/ (isAsciiLetter b = true /\ isAsciiLetter b' = true).
Proof.
  unfold upperByte, isAsciiLetter. runes. intros H.
  repeat match goal with
         | _ : context [?x <=? ?y] |- _ => destruct (Z.leb_spec x y)
         | |- context [?x <=? ?y] => destruct (Z.leb_spec x y)
         end; cbn [andb orb] in *;
    first [left; lia|right; split; reflexivity|lia].
Qed.

Lemma letter_classes b :
  isAsciiLetter b = true ->
  0 <= b < 128 /\ (b =? rune "_") = false /\ isDigit b = false /\
  isLetter b = true /\ isIdentifier b = true /\ isPunctuation b = false /\
  isWhitespace b = false /\ isEOF b = false /\ (b =? rune "(") = false.
Proof.
  intros H.
  assert (Hr : 65 <= b <= 90 \/ 97 <= b <= 122).
  { unfold isAsciiLetter in H. runes.
    apply orb_true_iff in H. destruct H as [H|H];
      apply andb_true_iff in H; destruct H; Zbool; lia. }
  assert (Hl : isLetter b = true) by (unfold isLetter; rewrite H; reflexivity).
  split; [lia|]. split; [apply Z.eqb_neq; runes; lia|].
  split; [unfold isDigit; runes;
          destruct (Z.leb_spec 48 b), (Z.leb_spec b 57); cbn; try reflexivity;
          lia|].
  split; [exact Hl|]. split; [exact (isLetter_identifier _ Hl)|].
  unfold isPunctuation, isWhitespace, isEOF. cbn [existsb]. runes.
  repeat match goal with
         | |- context [b =? ?k] => rewrite (proj2 (Z.eqb_neq b k)) by lia
         end.
  repeat split.
Qed.

Lemma variant_classes b b' :
  upperByte b = upperByte b' ->
  0 <= b < 128 ->
  0 <= b' < 128 /\
  isAsciiLetter b = isAsciiLetter b' /\
  (b =? rune "_") = (b' =? rune "_") /\ isDigit b = isDigit b' /\
  isLetter b = isLetter b' /\ isIdentifier b = isIdentifier b' /\
  isPunctuation b = isPunctuation b' /\ isWhitespace b = isWhitespace b' /\
  isEOF b = isEOF b' /\ (b =? rune "(") = (b' =? rune "(").
Proof.
  intros H Hb. destruct (upperByte_cases _ _ H) as [<-|[Hl Hl']].
  - repeat split; lia.
  - destruct (letter_classes _ Hl) as (_ & E1 & E2 & E3 & E4 & E5 & E6 & E7 & E8).
    destruct (letter_classes _ Hl')
      as (Hr & F1 & F2 & F3 & F4 & F5 & F6 & F7 & F8).
    rewrite Hl, Hl', E1, E2, E3, E4, E5, E6, E7, E8,
      F1, F2, F3, F4, F5, F6, F7, F8.
    repeat split; lia.
Qed.

Lemma asciiIdentifier_low b : asciiIdentifier b = true -> b < 128.
Proof.
  unfold asciiIdentifier. intros H. apply andb_true_iff in H.
  destruct H as [H _]. Zbool. lia.
Qed.

Lemma not_identifier ch :
  isIdentifier ch = false ->
  isAsciiLetter ch || (ch =? rune "_") = false.
Proof.
  unfold isIdentifier, isLetter. intros H.
  apply orb_false_iff in H. destruct H as [H _].
  apply orb_false_iff in H. destruct H as [_ H].
  apply orb_false_iff in H. destruct H as [H _]. exact H.
Qed.

(** The heads of two texts that differ in letter case only. *)
Lemma headRune_variant v v' rest :
  ToUpper v = ToUpper v' ->
  allBytes asciiIdentifier v = true ->
  (v = "" /\ v' = "") \/
  exists a t b t',
    v = String a t /\ v' = String b t' /\
    headRune (v +:+ rest) = byte a /\ headRune (v' +:+ rest) = byte b /\
    upperByte (byte a) = upperByte (byte b) /\
    asciiIdentifier (byte a) = true /\
    ToUpper t = ToUpper t' /\ allBytes asciiIdentifier t = true.
Proof.
  intros Hu Ha. destruct v as [|a t].
  - left. split; [reflexivity|exact (ToUpper_nil _ Hu)].
  - right. destruct (ToUpper_String _ _ _ Hu) as (b & t' & -> & Hab & Ht).
    cbn [allBytes] in Ha. apply andb_true_iff in Ha. destruct Ha as [Ha Hall].
    pose proof (asciiIdentifier_low _ Ha) as Hlo.
    pose proof (byte_range a) as Hra.
    destruct (variant_classes _ _ Hab ltac:(lia)) as (Hlo' & _).
    exists a, t, b, t'. rewrite !app_String.
    rewrite !headRune_low by lia. repeat split; assumption.
Qed.

Ltac conjuncts :=
  repeat match goal with |- _ /\ _ => split end;
  try assumption; try reflexivity; try (cbn [String.length]; lia).

Lemma keywordLoop_fold :
  forall w w' fuel fuel' node pos s X' B B' rest,
    ToUpper w = ToUpper w' ->
    allBytes asciiIdentifier w = true ->
    isIdentifier (headRune rest) = false ->
    (String.length w < fuel)%nat ->
    (String.length w < fuel')%nat ->
    positioned s B (w +:+ rest) ->
    positioned (withSrc s X') B' (w' +:+ rest) ->
    exists n p v v' k U U',
      keywordLoop fuel node pos (headRune (w +:+ rest)) s
      = Ok (n, p, headRune (v +:+ rest), setCursor s k) /\
      keywordLoop fuel' node pos (headRune (w' +:+ rest)) (withSrc s X')
      = Ok (n, p, headRune (v' +:+ rest), withSrc (setCursor s k) X') /\
      ToUpper v = ToUpper v' /\ allBytes asciiIdentifier v = true /\
      (String.length v <= String.length w)%nat /\
      positioned (setCursor s k) U (v +:+ rest) /\
      positioned (withSrc (setCursor s k) X') U' (v' +:+ rest).
Proof.
  induction w as [|a t IH];
    intros w' fuel fuel' node pos s X' B B' rest Hu Ha Hrest Hf Hf' Hp Hp';
    (destruct fuel as [|f]; [cbn in Hf; lia|]);
    (destruct fuel' as [|f']; [cbn in Hf'; lia|]).
  - rewrite (ToUpper_nil _ Hu) in *. rewrite app_nil_l in *.
    cbn [keywordLoop]. rewrite (not_identifier _ Hrest).
    exists node, pos, "", "", (cursor s), B, B'.
    rewrite app_nil_l, setCursor_here. conjuncts.
  - destruct (headRune_variant _ _ rest Hu Ha)
      as [[E _]|(a0 & t0 & b & t' & E & -> & Ha0 & Hb0 & Hab & Hca & Ht & Hall)];
      [discriminate E|].
    injection E as <- <-.
    pose proof (asciiIdentifier_low _ Hca) as Hlo.
    pose proof (byte_range a) as Hra.
    destruct (variant_classes _ _ Hab ltac:(lia))
      as (Hlo' & C1 & C2 & _).
    cbn [keywordLoop]. rewrite Ha0, Hb0, <- C1, <- C2.
    destruct (isAsciiLetter (byte a) || (byte a =? rune "_")) eqn:Et.
    + change (if (rune "a" <=? byte a) && (byte a <=? rune "z")
              then byte a - 32 else byte a) with (upperByte (byte a)).
      change (if (rune "a" <=? byte b) && (byte b <=? rune "z")
              then byte b - 32 else byte b) with (upperByte (byte b)).
      rewrite <- Hab. rewrite (app_String a t), (app_String b t') in *.
      destruct (next_positioned _ _ _ _ Hp) as [Hn Hp1].
      destruct (next_positioned _ _ _ _ Hp') as [Hn' Hp1'].
      rewrite Hn, Hn'.
      destruct (lookupChild (children node) (upperByte (byte a)))
        as [next_|].
      * destruct (IH t' f f' next_ (cursor s) (setCursor s (cursor s + 1)) X'
                    _ _ rest Ht Hall Hrest
                    ltac:(cbn in Hf; lia) ltac:(cbn in Hf'; lia) Hp1 Hp1')
          as (n & p & v & v' & k & U & U' & R & R' & Hv & Hva & Hlen & Q & Q').
        rewrite setCursor_setCursor in R, R', Q, Q'.
        exists n, p, v, v', k, U, U'. conjuncts.
      * exists keywordRoot, pos, t, t', (cursor s + 1),
          (B +:+ String a ""), (B' +:+ String b "").
        conjuncts.
    + exists node, pos, (String a t), (String b t'), (cursor s), B, B'.
      rewrite Ha0, Hb0, setCursor_here. conjuncts.
Qed.

Lemma identifierLoop_fold :
  forall v v' fuel fuel' s X' B B' rest,
    ToUpper v = ToUpper v' ->
    allBytes asciiIdentifier v = true ->
    isIdentifier (headRune rest) = false ->
    (String.length v < fuel)%nat ->
    (String.length v < fuel')%nat ->
    positioned s B (v +:+ rest) ->
    positioned (withSrc s X') B' (v' +:+ rest) ->
    exists s1,
      identifierLoop fuel (headRune (v +:+ rest)) s = Ok (headRune rest, s1) /\
      identifierLoop fuel' (headRune (v' +:+ rest)) (withSrc s X')
      = Ok (headRune rest, withSrc s1 X').
Proof.
  induction v as [|a t IH];
    intros v' fuel fuel' s X' B B' rest Hu Ha Hrest Hf Hf' Hp Hp';
    (destruct fuel as [|f]; [cbn in Hf; lia|]);
    (destruct fuel' as [|f']; [cbn in Hf'; lia|]).
  - rewrite (ToUpper_nil _ Hu) in *. rewrite app_nil_l in *.
    cbn [identifierLoop]. rewrite Hrest. exists s. conjuncts.
  - destruct (headRune_variant _ _ rest Hu Ha)
      as [[E _]|(a0 & t0 & b & t' & E & -> & Ha0 & Hb0 & Hab & Hca & Ht & Hall)];
      [discriminate E|].
    injection E as <- <-.
    pose proof (asciiIdentifier_low _ Hca) as Hlo.
    pose proof (byte_range a) as Hra.
    destruct (variant_classes _ _ Hab ltac:(lia))
      as (Hlo' & _ & _ & C3 & _ & C5 & _).
    assert (Hid : isIdentifier (byte a) = true).
    { unfold asciiIdentifier in Hca. apply andb_true_iff in Hca. apply Hca. }
    cbn [identifierLoop]. rewrite Ha0, Hb0, <- C5, <- C3, Hid.
    rewrite !RuneLen_1 by lia.
    change (nextBy ?x 1) with (next x).
    rewrite (app_String a t), (app_String b t') in *.
    destruct (isDigit (byte a)).
    + assert (Hq : positioned (appendDigit s (cursor s)) B
                     (String a (t +:+ rest))) by exact Hp.
      assert (Hq' : positioned (withSrc (appendDigit s (cursor s)) X') B'
                      (String b (t' +:+ rest))) by exact Hp'.
      change (appendDigit (withSrc s X') (cursor (withSrc s X')))
        with (withSrc (appendDigit s (cursor s)) X').
      destruct (next_positioned _ _ _ _ Hq) as [Hn Hp1].
      destruct (next_positioned _ _ _ _ Hq') as [Hn' Hp1'].
      rewrite Hn, Hn'.
      exact (IH t' f f' _ X' _ _ rest Ht Hall Hrest
               ltac:(cbn in Hf; lia) ltac:(cbn in Hf'; lia) Hp1 Hp1').
    + destruct (next_positioned _ _ _ _ Hp) as [Hn Hp1].
      destruct (next_positioned _ _ _ _ Hp') as [Hn' Hp1'].
      rewrite Hn, Hn'.
      exact (IH t' f f' _ X' _ _ rest Ht Hall Hrest
               ltac:(cbn in Hf; lia) ltac:(cbn in Hf'; lia) Hp1 Hp1').
Qed.

(** X30: letter case does not matter to the lexer. For a word of ASCII
    identifier characters that begins with a letter or an underscore and is
    followed by a rune that continues no identifier, [Scan] returns the
    same token (type, span, table-indicator flag and digit offsets) when
    the letters of the word are written in another case, and leaves the
    lexer in the same state: keywords are recognised whatever their case,
    and the split of a word into tokens does not depend on it. *)
Theorem X30_letter_case_does_not_change_the_token :
  forall (s : Lexer) (before word word' rest : string),
    positioned s before (word +:+ rest) ->
    isLetter (headRune word) = true ->
    allBytes asciiIdentifier word = true ->
    isIdentifier (headRune rest) = false ->
    ToUpper word = ToUpper word' ->
    exists tok s1,
      Scan s = Ok (tok, s1) /\
      Scan (withSrc s (before +:+ word' +:+ rest))
      = Ok (tok, withSrc s1 (before +:+ word' +:+ rest)).
Proof.
  intros s before word word' rest Hp Hl Ha Hrest Hu.
  set (X' := before +:+ word' +:+ rest).
  assert (Hp' : positioned (withSrc s X') before (word' +:+ rest))
    by (split; [reflexivity|apply Hp]).
  pose proof (ToUpper_length _ _ Hu) as Hlen.
  pose proof (positioned_length _ _ _ Hp) as HL.
  pose proof (positioned_length _ _ _ Hp') as HL'.
  pose proof (len_app word rest) as HA.
  pose proof (len_app word' rest) as HA'. unfold len in HA, HA'.
  destruct (headRune_variant _ _ rest Hu Ha)
    as [[E _]|(a & t & b & t' & E & E' & Ha0 & Hb0 & Hab & Hca & Ht & Hall)];
    [rewrite E in Hl; discriminate Hl|].
  pose proof (asciiIdentifier_low _ Hca) as Hlo.
  pose proof (byte_range a) as Hra.
  destruct (variant_classes _ _ Hab ltac:(lia))
    as (Hlo' & _ & _ & _ & C4 & _ & _ & C7 & _).
  assert (Hla : isLetter (byte a) = true).
  { rewrite E, headRune_low in Hl by lia. exact Hl. }
  assert (Hws : isWhitespace (byte a) = false).
  { unfold isLetter in Hla. unfold isWhitespace. runes.
    destruct (isAsciiLetter (byte a)) eqn:El.
    - apply (letter_classes _ El).
    - cbn [orb] in Hla. apply orb_true_iff in Hla.
      destruct Hla as [Hla|Hla]; [|apply andb_true_iff in Hla;
                                    destruct Hla as [Hla _]; Zbool; lia].
      runes. Zbool. rewrite Hla. reflexivity. }
  unfold Scan.
  rewrite (peek_positioned _ _ _ Hp), (peek_positioned _ _ _ Hp').
  rewrite Ha0, Hb0, <- C7, <- C4, Hws, Hla.
  unfold scanIdentifier.
  rewrite (proj2 (Z.ltb_ge 127 (byte a))) by lia.
  rewrite (proj2 (Z.ltb_ge 127 (byte b))) by lia.
  rewrite <- Ha0, <- Hb0.
  assert (Hm : positioned (markStart s) before (word +:+ rest)) by exact Hp.
  assert (Hm' : positioned (withSrc (markStart s) X') before
                  (word' +:+ rest)) by exact Hp'.
  change (markStart (withSrc s X')) with (withSrc (markStart s) X').
  destruct (keywordLoop_fold word word' (loopFuel (markStart s))
              (loopFuel (withSrc (markStart s) X')) keywordRoot
              (cursor (markStart s)) (markStart s) X' before before rest
              Hu Ha Hrest
              ltac:(unfold loopFuel; change (src (markStart s)) with (src s);
                    lia)
              ltac:(unfold loopFuel;
                    change (src (withSrc (markStart s) X'))
                      with (src (withSrc s X')); lia)
              Hm Hm')
    as (n & p & v & v' & k & U & U' & R & R' & Hv & Hva & Hvl & Q & Q').
  change (cursor (withSrc (markStart s) X')) with (cursor (markStart s)).
  rewrite R, R'. cbn [mbind outcome_bind].
  rewrite (peek_positioned _ _ _ Q), (peek_positioned _ _ _ Q').
  assert (Hdelim :
            isPunctuation (headRune (v' +:+ rest))
            || isWhitespace (headRune (v' +:+ rest))
            || isEOF (headRune (v' +:+ rest))
            = isPunctuation (headRune (v +:+ rest))
              || isWhitespace (headRune (v +:+ rest))
              || isEOF (headRune (v +:+ rest))).
  { destruct (headRune_variant _ _ rest Hv Hva)
      as [[-> ->]|(a2 & t2 & b2 & t2' & _ & _ & -> & -> & Hab2 & Hca2 & _)];
      [reflexivity|].
    pose proof (asciiIdentifier_low _ Hca2). pose proof (byte_range a2).
    destruct (variant_classes _ _ Hab2 ltac:(lia))
      as (_ & _ & _ & _ & _ & _ & D6 & D7 & D8 & _).
    rewrite D6, D7, D8. reflexivity. }
  rewrite Hdelim.
  destruct (isEnd n &&
            (isPunctuation (headRune (v +:+ rest))
             || isWhitespace (headRune (v +:+ rest))
             || isEOF (headRune (v +:+ rest)))).
  - eexists _, _. split; reflexivity.
  - destruct (identifierLoop_fold v v' (loopFuel (markStart s))
                (loopFuel (withSrc (markStart s) X')) _ X' _ _ rest
                Hv Hva Hrest
                ltac:(unfold loopFuel; change (src (markStart s)) with (src s);
                      lia)
                ltac:(unfold loopFuel;
                      change (src (withSrc (markStart s) X'))
                        with (src (withSrc s X')); lia)
                Q Q') as (s1 & I & I').
    rewrite I, I'. cbn [mbind outcome_bind].
    destruct (headRune rest =? rune "("); eexists _, _; split; reflexivity.
Qed.
(** ** The normalizer on a malformed [@@] *)

(** *** The builder only grows *)

Lemma appendWhitespace_grows cfg source token last b :
  exists w, appendWhitespace cfg source token last b = b +:+ w.
Proof.
  unfold appendWhitespace. cbv zeta.
  repeat match goal with
         | |- context [if ?c then _ else _] => destruct c
         end;
    first [exists ""; rewrite app_empty_r; reflexivity
          |exists " "; reflexivity].
Qed.

Lemma writeToken_grows cfg ty v b :
  exists w, writeToken cfg ty v b = b +:+ w.
Proof.
  unfold writeToken.
  destruct (UppercaseKeywords cfg && _); eexists; reflexivity.
Qed.

Lemma isObfuscatedValueGroupable_grows source token last g b skip g' b' :
  isObfuscatedValueGroupable source token last g b = Ok (skip, g', b') ->
  exists w, b' = b +:+ w.
Proof.
  unfold isObfuscatedValueGroupable. cbv zeta. intros H.
  apply bind_Ok in H. destruct H as ([ret g0] & _ & H).
  destruct last as [l|]; cbn [deref mbind outcome_bind] in H;
    repeat match type of H with
           | context [if ?c then _ else _] => destruct c
           end;
    cbn [mbind outcome_bind] in H; try discriminate H;
    injection H as _ _ <-;
    first [exists ""; rewrite app_empty_r; reflexivity
          |eexists; reflexivity].
Qed.

Lemma normalizeSQL_grows N cfg source token last st token' st' :
  normalizeSQL N cfg source token last st = Ok (token', st') ->
  exists w, normalizedSQLBuilder st' = normalizedSQLBuilder st +:+ w.
Proof.
  unfold normalizeSQL. cbv zeta.
  destruct (isType (Type_ token) WS || isType (Type_ token) COMMENT
            || isType (Type_ token) MULTILINE_COMMENT).
  { intros H. injection H as _ <-. exists "". rewrite app_empty_r.
    reflexivity. }
  destruct (isType (Type_ token) EOF).
  { destruct (standaloneExpressionInParentheses _);
      intros H; injection H as _ <-; cbn [normalizedSQLBuilder];
      [eexists; reflexivity|exists ""; rewrite app_empty_r; reflexivity]. }
  intros H. apply bind_Ok in H. destruct H as (token1 & _ & H).
  destruct (negb (KeepSQLAlias cfg) && isType (Type_ token1) ALIAS_INDICATOR).
  { injection H as _ <-. exists "". cbn [normalizedSQLBuilder].
    rewrite app_empty_r. reflexivity. }
  match type of H with
  | (if ?c then _ else _) = _ => destruct c
  end.
  { injection H as _ <-. exists "". cbn [normalizedSQLBuilder].
    rewrite app_empty_r. reflexivity. }
  apply bind_Ok in H. destruct H as ([[skip g] b] & Hobf & H).
  apply isObfuscatedValueGroupable_grows in Hobf. destruct Hobf as [w2 ->].
  match type of H with
  | context [match last with Some _ => _ | None => _ end +:+ w2] =>
    idtac
  end.
  assert (Hb : exists w1,
             match last with
             | Some l =>
               if negb (KeepSQLAlias cfg) &&
                  match last with
                  | Some l0 => isType (lastType l0) ALIAS_INDICATOR
                  | None => false
                  end
               then
                 writeToken cfg (lastType l) (lastValue l)
                   (appendWhitespace cfg source token1 last
                      (normalizedSQLBuilder st))
               else normalizedSQLBuilder st
             | None => normalizedSQLBuilder st
             end = normalizedSQLBuilder st +:+ w1).
  { destruct last as [l|]; [|exists ""; rewrite app_empty_r; reflexivity].
    destruct (negb (KeepSQLAlias cfg) && _);
      [|exists ""; rewrite app_empty_r; reflexivity].
    destruct (appendWhitespace_grows cfg source token1 (Some l)
                (normalizedSQLBuilder st)) as [wa ->].
    destruct (writeToken_grows cfg (lastType l) (lastValue l)
                (normalizedSQLBuilder st +:+ wa)) as [wb ->].
    exists (wa +:+ wb). apply app_assoc. }
  destruct Hb as [w1 Hb]. rewrite Hb in H. clear Hb.
  destruct skip.
  { injection H as _ <-. cbn [normalizedSQLBuilder].
    exists (w1 +:+ w2). apply app_assoc. }
  match type of H with
  | (if ?c then _ else _) = _ => destruct c
  end.
  { injection H as _ <-. cbn [normalizedSQLBuilder].
    exists (w1 +:+ w2). apply app_assoc. }
  injection H as _ <-. cbn [normalizedSQLBuilder].
  destruct (appendWhitespace_grows cfg source token1 last
              ((normalizedSQLBuilder st +:+ w1) +:+ w2)) as [wa ->].
  destruct (writeToken_grows cfg (Type_ token1) (String_ token1 source)
              (((normalizedSQLBuilder st +:+ w1) +:+ w2) +:+ wa)) as [wb ->].
  exists (w1 +:+ w2 +:+ wa +:+ wb). rewrite !app_assoc. reflexivity.
Qed.

Lemma normalizeLoop_grows cfg dbms fuel :
  forall input lexer last md ctes st b md',
    normalizeLoop cfg dbms fuel input lexer last md ctes st = Ok (b, md') ->
    exists w, b = normalizedSQLBuilder st +:+ w.
Proof.
  induction fuel as [|f IH]; intros input lexer last md ctes st b md';
    [discriminate|].
  rewrite normalizeLoop_S. intros H.
  apply bind_Ok in H. destruct H as ([token lexer'] & _ & H).
  destruct (collectMetadata cfg input token last md ctes)
    as [[token1 md1] ctes1].
  apply bind_Ok in H. destruct H as ([token2 st'] & Hn & H).
  apply normalizeSQL_grows in Hn. destruct Hn as [w1 Hn].
  destruct (isType (Type_ token2) EOF).
  - injection H as <- _. exists w1. exact Hn.
  - destruct (IH _ _ _ _ _ _ _ _ H) as [w ->]. rewrite Hn.
    exists (w1 +:+ w). apply app_assoc.
Qed.

(** *** The step of the normalizer on the token [@@] *)

Lemma isObfuscatedValueGroupable_written source token last g b :
  String_ token source = "@@" ->
  (g = true -> last <> None) ->
  exists w,
    isObfuscatedValueGroupable source token last g b = Ok (false, g, b +:+ w).
Proof.
  intros HS Hg. unfold isObfuscatedValueGroupable. cbv zeta. rewrite HS.
  change (isPlaceholder "@@") with false.
  change (String.eqb "@@" ",") with false.
  change (String.eqb "@@" ")") with false.
  change (String.eqb "@@" "]") with false.
  change (String.eqb "@@" NumberPlaceholder) with false.
  change (String.eqb "@@" StringPlaceholder) with false.
  cbn [mbind outcome_bind orb negb]. rewrite !andb_false_r, !andb_true_r.
  destruct last as [l|]; rewrite ?andb_false_r.
  - destruct g; cbn [deref mbind outcome_bind];
      [|exists ""; rewrite app_empty_r; reflexivity].
    destruct (String.eqb (lastValue l) ",");
      [eexists; reflexivity|exists ""; rewrite app_empty_r; reflexivity].
  - destruct g; [exfalso; apply Hg; reflexivity|].
    exists "". rewrite app_empty_r. reflexivity.
Qed.

(** The token [@@] is neither a keyword, a parenthesis, a placeholder, a
    comma nor an alias: [normalizeSQL] appends it, after the separating
    space and whatever it had held back, to the text it is building, which
    is the main builder unless a leading parenthesized expression is open. *)
Lemma normalizeSQL_JSON_OP N cfg source token last st :
  Type_ token = JSON_OP ->
  String_ token source = "@@" ->
  (groupable st = true -> last <> None) ->
  exists st' w,
    normalizeSQL N cfg source token last st = Ok (token, st') /\
    (if inLeadingParenthesesExpression (head st)
     then expressionInParentheses (head st')
     else normalizedSQLBuilder st')
    = (if inLeadingParenthesesExpression (head st)
       then expressionInParentheses (head st)
       else normalizedSQLBuilder st) +:+ w +:+ "@@".
Proof.
  intros HT HS Hg. unfold normalizeSQL. cbv zeta.
  unfold readFirst, isOpenParen, writeHead, isCloseParen.
  do 4 (rewrite ?HT, ?HS;
        change (isType JSON_OP WS) with false;
        change (isType JSON_OP COMMENT) with false;
        change (isType JSON_OP MULTILINE_COMMENT) with false;
        change (isType JSON_OP EOF) with false;
        change (isType JSON_OP DOLLAR_QUOTED_FUNCTION) with false;
        change (isType JSON_OP ALIAS_INDICATOR) with false;
        change (isType JSON_OP IDENT) with false;
        change (isType JSON_OP PUNCTUATION) with false;
        rewrite ?andb_false_r;
        cbn [orb andb negb mbind outcome_bind]).
  set (b0 := match last with
             | Some l => _
             | None => normalizedSQLBuilder st
             end).
  assert (Hb0 : exists w0, b0 = normalizedSQLBuilder st +:+ w0).
  { subst b0. destruct last as [l|];
      [|exists ""; rewrite app_empty_r; reflexivity].
    destruct (negb (KeepSQLAlias cfg) && _);
      [|exists ""; rewrite app_empty_r; reflexivity].
    destruct (appendWhitespace_grows cfg source token (Some l)
                (normalizedSQLBuilder st)) as [wa ->].
    destruct (writeToken_grows cfg (lastType l) (lastValue l)
                (normalizedSQLBuilder st +:+ wa)) as [wb ->].
    exists (wa +:+ wb). apply app_assoc. }
  destruct Hb0 as [w0 Hb0]. rewrite Hb0. clear b0 Hb0.
  destruct (isObfuscatedValueGroupable_written source token last
              (groupable st) (normalizedSQLBuilder st +:+ w0) HS Hg)
    as [w1 ->].
  cbn [mbind outcome_bind].
  assert (Hw : forall b, writeToken cfg JSON_OP "@@" b = b +:+ "@@").
  { intros b. unfold writeToken.
    change (isType JSON_OP COMMAND) with false.
    change (isType JSON_OP KEYWORD) with false.
    rewrite andb_false_r. reflexivity. }
  rewrite !Hw.
  destruct st as [b g [rf il fl sa buf]].
  cbn [groupable head normalizedSQLBuilder inLeadingParenthesesExpression
       readFirstNonWSNonComment foundLeadingExpressionInParentheses
       standaloneExpressionInParentheses expressionInParentheses] in *.
  unfold clearStandalone.
  destruct (appendWhitespace_grows cfg source token last buf) as [wa Ea].
  destruct (appendWhitespace_grows cfg source token last ((b +:+ w0) +:+ w1))
    as [wb Eb].
  destruct rf, il, fl;
    cbn [negb inLeadingParenthesesExpression
         foundLeadingExpressionInParentheses expressionInParentheses
         readFirstNonWSNonComment standaloneExpressionInParentheses];
    rewrite ?Ea, ?Eb;
    first [ eexists _, wa; split; [reflexivity|];
            cbn [normalizedSQLBuilder head expressionInParentheses];
            apply app_assoc
          | eexists _, (w0 +:+ w1 +:+ wb); split; [reflexivity|];
            cbn [normalizedSQLBuilder head expressionInParentheses];
            rewrite !app_assoc; reflexivity ].
Qed.

(** *** What the final trimming keeps *)

Lemma leadInfo_lo s0 sz lo hi : leadInfo s0 = Some (sz, lo, hi) -> 128 <= lo.
Proof.
  unfold leadInfo.
  repeat match goal with
         | |- context [if ?b then _ else _] => destruct b
         end;
    intros H; try discriminate H; injection H as _ <- _; lia.
Qed.

(** The bytes of a rune after its first are continuation bytes. *)
Lemma decode_cont l r w i :
  decode l = (r, w) -> (1 <= i)%nat -> Z.of_nat i < w -> 128 <= nth i l 0.
Proof.
  unfold decode. destruct l as [|s0 t]; [intros H; injection H as _ <-; lia|].
  destruct (s0 <? 128); [intros H; injection H as _ <-; lia|].
  destruct (leadInfo s0) as [[[sz lo] hi]|] eqn:El;
    [|intros H; injection H as _ <-; lia].
  apply leadInfo_lo in El.
  destruct (Z.of_nat (List.length (s0 :: t)) <? sz);
    [intros H; injection H as _ <-; lia|].
  destruct t as [|s1 t1]; [intros H; injection H as _ <-; lia|].
  destruct ((s1 <? lo) || (hi <? s1)) eqn:E1;
    [intros H; injection H as _ <-; lia|].
  apply orb_false_iff in E1. destruct E1 as [E1 _]. apply Z.ltb_ge in E1.
  destruct (sz <=? 2).
  { intros H Hi Hw. injection H as _ <-.
    destruct i as [|[|i]]; [lia|cbn; lia|lia]. }
  destruct t1 as [|s2 t2]; [intros H; injection H as _ <-; lia|].
  destruct (cont s2) eqn:E2; cbn [negb];
    [|intros H; injection H as _ <-; lia].
  unfold cont in E2. apply andb_true_iff in E2. destruct E2 as [E2 _].
  apply Z.leb_le in E2.
  destruct (sz <=? 3).
  { intros H Hi Hw. injection H as _ <-.
    destruct i as [|[|[|i]]]; [lia|cbn; lia|cbn; lia|lia]. }
  destruct t2 as [|s3 t3]; [intros H; injection H as _ <-; lia|].
  destruct (cont s3) eqn:E3; cbn [negb];
    [|intros H; injection H as _ <-; lia].
  unfold cont in E3. apply andb_true_iff in E3. destruct E3 as [E3 _].
  apply Z.leb_le in E3.
  intros H Hi Hw. injection H as _ <-.
  destruct i as [|[|[|[|i]]]]; [lia|cbn; lia|cbn; lia|cbn; lia|lia].
Qed.

Lemma nth_marker c q : forall p k,
  nth (String.length p) (bytes (take k (p +:+ String c q))) 0 = byte c \/
  nth (String.length p) (bytes (take k (p +:+ String c q))) 0 = 0.
Proof.
  induction p as [|a p IH]; intros k.
  - rewrite app_nil_l. destruct k; [right|left]; reflexivity.
  - rewrite app_String. destruct k as [|k]; [right; reflexivity|].
    cbn [take bytes String.length nth]. apply IH.
Qed.

(** A space that is decoded in front of an [@] lies before it. *)
Lemma decode_before_marker p q r w :
  DecodeRuneInString (p +:+ String "@" q) = (r, w) ->
  isSpace r = true -> w <= len p.
Proof.
  intros Hd Hs. destruct p as [|a p].
  - rewrite app_nil_l in Hd. unfold DecodeRuneInString in Hd.
    change (bytes (take 4 (String "@" q))) with (64 :: bytes (take 3 q)) in Hd.
    rewrite decode_ascii in Hd by lia. injection Hd as <- _.
    discriminate Hs.
  - destruct (Z_le_gt_dec w (len (String a p))) as [H|H]; [exact H|].
    exfalso. unfold DecodeRuneInString in Hd.
    pose proof (decode_cont _ _ _ (String.length (String a p)) Hd
                  ltac:(cbn; lia) ltac:(unfold len in H; lia)) as Hc.
    destruct (nth_marker "@" q (String a p) 4) as [E|E];
      rewrite E in Hc; [change (byte "@") with 64 in Hc|]; lia.
Qed.

Lemma drop_app_le b : forall k a,
  (k <= String.length a)%nat -> drop k (a +:+ b) = drop k a +:+ b.
Proof.
  induction k as [|k IH]; intros a H; [reflexivity|].
  destruct a as [|c a]; [cbn in H; lia|].
  rewrite app_String. cbn [drop]. apply IH. cbn in H. lia.
Qed.

Lemma take_app_ge b k : forall a,
  take (String.length a + k) (a +:+ b) = a +:+ take k b.
Proof.
  induction a as [|c a IH]; [reflexivity|].
  rewrite !app_String. cbn [String.length Nat.add take]. rewrite IH.
  reflexivity.
Qed.

Lemma trimLeftSpace_keeps q : forall fuel p,
  exists p', trimLeftSpace fuel (p +:+ String "@" q) = p' +:+ String "@" q.
Proof.
  induction fuel as [|f IH]; intros p.
  - exists p. destruct (p +:+ String "@" q); reflexivity.
  - destruct p as [|a p].
    + exists "". rewrite app_nil_l. cbn [trimLeftSpace].
      unfold DecodeRuneInString.
      change (bytes (take 4 (String "@" q))) with (64 :: bytes (take 3 q)).
      rewrite decode_ascii by lia. reflexivity.
    + rewrite app_String. cbn [trimLeftSpace]. rewrite <- app_String.
      destruct (DecodeRuneInString (String a p +:+ String "@" q))
        as [r w] eqn:Ed.
      destruct (isSpace r) eqn:Es; [|exists (String a p); reflexivity].
      pose proof (decode_before_marker _ _ _ _ Ed Es) as Hw.
      rewrite drop_app_le by (unfold len in Hw; lia).
      apply IH.
Qed.

Lemma slice_to_end s a :
  0 <= a -> slice s a (len s) = drop (Z.to_nat a) s.
Proof.
  intros Ha. unfold slice. apply take_all. rewrite length_drop.
  unfold len. lia.
Qed.

Lemma at_marker u c q : at_ (u +:+ String c q) (len u) = byte c.
Proof. unfold at_. rewrite from_app. reflexivity. Qed.

(** A space that is decoded at the end of a text lies after its last [@]. *)
Lemma decodeLast_after_marker u q r w :
  DecodeLastRuneInString (u +:+ String "@" q) = (r, w) ->
  isSpace r = true -> 1 <= w <= len q.
Proof.
  intros Hd Hs.
  assert (Hlen : len (u +:+ String "@" q) = len u + 1 + len q)
    by (rewrite len_app, len_String; lia).
  pose proof (len_nonneg u) as Hu. pose proof (len_nonneg q) as Hq.
  split.
  { pose proof (DecodeLastRuneInString_width (u +:+ String "@" q)
                  ltac:(lia)) as H1.
    rewrite Hd in H1. exact H1. }
  unfold DecodeLastRuneInString in Hd. cbv zeta in Hd.
  destruct (len (u +:+ String "@" q) =? 0) eqn:E0;
    [apply Z.eqb_eq in E0; lia|].
  destruct (at_ (u +:+ String "@" q) (len (u +:+ String "@" q) - 1) <? 128)
    eqn:Elow.
  - injection Hd as <- <-.
    destruct q as [|c q']; [|rewrite len_String; pose proof (len_nonneg q'); lia].
    exfalso. rewrite Hlen in Hs. change (len "") with 0 in Hs.
    replace (len u + 1 + 0 - 1) with (len u) in Hs by lia.
    rewrite at_marker in Hs. discriminate Hs.
  - set (st := Z.max 0 (lastRuneStart 4 (u +:+ String "@" q)
                          (Z.max 0 (len (u +:+ String "@" q) - 4))
                          (len (u +:+ String "@" q) - 2))) in Hd.
    assert (Hst : 0 <= st) by (subst st; lia).
    destruct (DecodeRuneInString
                (slice (u +:+ String "@" q) st (len (u +:+ String "@" q))))
      as [r' size] eqn:Ed.
    destruct (st + size =? len (u +:+ String "@" q)) eqn:Eend; cbn [negb] in Hd.
    2:{ injection Hd as <- _. discriminate Hs. }
    injection Hd as <- <-. apply Z.eqb_eq in Eend.
    destruct (Z_le_gt_dec size (len q)) as [H|H]; [exact H|].
    exfalso.
    rewrite slice_to_end in Ed by exact Hst.
    rewrite drop_app_le in Ed by (unfold len in *; lia).
    pose proof (decode_before_marker _ _ _ _ Ed Hs) as Hw.
    unfold len in Hw. rewrite length_drop in Hw. unfold len in *. lia.
Qed.

Lemma trimRightSpace_keeps u : forall fuel q,
  exists q', trimRightSpace fuel (u +:+ String "@" q) = u +:+ String "@" q'.
Proof.
  induction fuel as [|f IH]; intros q; [exists q; reflexivity|].
  cbn [trimRightSpace].
  destruct (len (u +:+ String "@" q) =? 0); [exists q; reflexivity|].
  destruct (DecodeLastRuneInString (u +:+ String "@" q)) as [r w] eqn:Ed.
  destruct (isSpace r) eqn:Es; [|exists q; reflexivity].
  destruct (decodeLast_after_marker _ _ _ _ Ed Es) as [Hw1 Hw2].
  assert (E : slice (u +:+ String "@" q) 0 (len (u +:+ String "@" q) - w)
              = u +:+ String "@" (take (Z.to_nat (len q - w)) q)).
  { unfold slice. rewrite Z.sub_0_r.
    change (Z.to_nat 0) with 0%nat. cbn [drop].
    change (u +:+ String "@" q) with (u +:+ ("@" +:+ q)).
    rewrite <- (app_assoc u "@" q).
    replace (Z.to_nat (len ((u +:+ "@") +:+ q) - w))
      with (String.length (u +:+ "@") + Z.to_nat (len q - w))%nat
      by (rewrite len_app; unfold len in *; lia).
    rewrite take_app_ge, app_assoc. reflexivity. }
  rewrite E. apply IH.
Qed.

Lemma TrimSuffix_keeps u q :
  exists q', TrimSuffix (u +:+ String "@" q) ";" = u +:+ String "@" q'.
Proof.
  unfold TrimSuffix.
  destruct (hasSuffix (u +:+ String "@" q) ";") eqn:E; [|exists q; reflexivity].
  unfold hasSuffix in E. apply andb_true_iff in E. destruct E as [_ E].
  change (len ";") with 1 in *.
  assert (Hlen : len (u +:+ String "@" q) = len u + 1 + len q)
    by (rewrite len_app, len_String; lia).
  pose proof (len_nonneg u) as Hu. pose proof (len_nonneg q) as Hq.
  destruct q as [|c q'].
  - exfalso. rewrite Hlen in E. change (len "") with 0 in E.
    replace (len u + 1 + 0 - 1) with (len u) in E by lia.
    rewrite from_app in E. discriminate E.
  - exists (take (String.length q') (String c q')).
    unfold slice. rewrite Z.sub_0_r.
    change (Z.to_nat 0) with 0%nat. cbn [drop].
    change (u +:+ String "@" (String c q'))
      with (u +:+ ("@" +:+ String c q')) at 1 2.
    rewrite <- (app_assoc u "@" (String c q')).
    replace (Z.to_nat (len ((u +:+ "@") +:+ String c q') - 1))
      with (String.length (u +:+ "@") + String.length q')%nat
      by (rewrite len_app, len_String; unfold len; lia).
    rewrite take_app_ge, app_assoc. reflexivity.
Qed.

(** The text that [Normalize] returns keeps every [@@] of the builder:
    [trimNormalizedSQL] takes away one closing semicolon and spaces at both
    ends. *)
Lemma trimNormalizedSQL_keeps cfg x y :
  exists x' y', trimNormalizedSQL cfg (x +:+ "@@" +:+ y) = x' +:+ "@@" +:+ y'.
Proof.
  unfold trimNormalizedSQL, TrimSpace.
  assert (H1 : exists y1,
             (if negb (KeepTrailingSemicolon cfg)
              then TrimSuffix (x +:+ "@@" +:+ y) ";"
              else x +:+ "@@" +:+ y) = x +:+ "@@" +:+ y1).
  { destruct (negb (KeepTrailingSemicolon cfg)); [|exists y; reflexivity].
    change (x +:+ "@@" +:+ y) with (x +:+ ("@" +:+ String "@" y)).
    rewrite <- (app_assoc x "@" (String "@" y)).
    destruct (TrimSuffix_keeps (x +:+ "@") y) as [y1 ->].
    exists y1. rewrite app_assoc. reflexivity. }
  destruct H1 as [y1 ->].
  set (n := String.length (x +:+ "@@" +:+ y1)).
  change (x +:+ "@@" +:+ y1) with (x +:+ String "@" (String "@" y1)).
  destruct (trimLeftSpace_keeps (String "@" y1) n x) as [x' ->].
  change (x' +:+ String "@" (String "@" y1))
    with (x' +:+ ("@" +:+ String "@" y1)).
  rewrite <- (app_assoc x' "@" (String "@" y1)).
  destruct (trimRightSpace_keeps (x' +:+ "@") n y1) as [y2 ->].
  exists x', y2. rewrite app_assoc. reflexivity.
Qed.

(** *** The loop of [Normalize] at the token [@@] *)

Lemma collectMetadata_JSON_OP cfg source token last md ctes :
  Type_ token = JSON_OP ->
  collectMetadata cfg source token last md ctes = (token, md, ctes).
Proof.
  intros HT. unfold collectMetadata. rewrite HT.
  change (isType JSON_OP COMMENT) with false.
  change (isType JSON_OP MULTILINE_COMMENT) with false.
  change (isType JSON_OP COMMAND) with false.
  change (isType JSON_OP IDENT) with false.
  change (isType JSON_OP QUOTED_IDENT) with false.
  change (isType JSON_OP FUNCTION) with false.
  rewrite andb_false_r. reflexivity.
Qed.

Lemma normalizeLoop_JSON_OP cfg dbms f input lexer lexer' token last md ctes
  st :
  Scan lexer = Ok (token, lexer') ->
  Type_ token = JSON_OP ->
  String_ token input = "@@" ->
  (groupable st = true -> last <> None) ->
  exists st' w,
    normalizeLoop cfg dbms (S f) input lexer last md ctes st
    = normalizeLoop cfg dbms f input lexer'
        (Some (GetLastValueToken token input)) md ctes st' /\
    (if inLeadingParenthesesExpression (head st)
     then expressionInParentheses (head st')
     else normalizedSQLBuilder st')
    = (if inLeadingParenthesesExpression (head st)
       then expressionInParentheses (head st)
       else normalizedSQLBuilder st) +:+ w +:+ "@@".
Proof.
  intros HS HT HV Hg.
  destruct (normalizeSQL_JSON_OP (nested cfg dbms f) cfg input token last st
              HT HV Hg) as (st' & w & Hn & Hb).
  exists st', w. split; [|exact Hb].
  rewrite normalizeLoop_S, HS. cbn [mbind outcome_bind].
  rewrite (collectMetadata_JSON_OP _ _ _ _ _ _ HT), Hn.
  cbn [mbind outcome_bind]. unfold isValueToken. rewrite HT. reflexivity.
Qed.

(** C8, as amended: where a token starts at [@@] with no alphanumeric
    character after it, the tokenizer emits a JSON_OP token of the two
    characters (no ERROR token) and goes on right after it. The loop of
    [Normalize] appends the text of the token as it stands, after the
    separating space and what it had held back, to the text it is building
    and goes on with the next token; unless a leading parenthesized
    expression is open that text is the output, and [@@] is part of the
    text that [Normalize] returns. *)
Theorem C8_malformed_system_variable_is_JSON_OP :
  forall (s : Lexer) (before rest : string),
    positioned s before ("@@" +:+ rest) ->
    isAlphaNumeric (headRune rest) = false ->
    exists tok s',
      Scan s = Ok (tok, s') /\
      Type_ tok = JSON_OP /\
      String_ tok (src s) = "@@" /\
      positioned s' (before +:+ "@@") rest /\
      (forall cfg dbms fuel last md ctes st,
        (groupable st = true -> last <> None) ->
        exists st' w,
          normalizeLoop cfg dbms (S fuel) (src s) s last md ctes st
          = normalizeLoop cfg dbms fuel (src s) s'
              (Some (GetLastValueToken tok (src s))) md ctes st' /\
          (if inLeadingParenthesesExpression (head st)
           then expressionInParentheses (head st')
           else normalizedSQLBuilder st')
          = (if inLeadingParenthesesExpression (head st)
             then expressionInParentheses (head st)
             else normalizedSQLBuilder st) +:+ w +:+ "@@") /\
      (forall cfg dbms fuel last md ctes st r,
        (groupable st = true -> last <> None) ->
        inLeadingParenthesesExpression (head st) = false ->
        normalizeLoop cfg dbms fuel (src s) s last md ctes st = Ok r ->
        exists x y, fst (finish cfg r) = x +:+ "@@" +:+ y).
Proof.
  intros s before rest Hp Hn.
  destruct (Scan_malformed_system_variable s before rest Hp Hn) as [HS Hp'].
  eexists _, _. split; [exact HS|].
  assert (Hval : String_ (fst (emit JSON_OP
                                 (setCursor (markStart s) (cursor s + 2))))
                         (src s) = "@@").
  { unfold String_, Value. simpl. destruct Hp as [Hsrc Hcur].
    rewrite Hsrc, Hcur. apply (slice_app before "@@" rest). }
  split; [reflexivity|]. split; [exact Hval|]. split.
  { destruct Hp' as [H1 H2]. split; [exact H1|exact H2]. }
  split.
  - intros cfg dbms fuel last md ctes st Hg.
    exact (normalizeLoop_JSON_OP cfg dbms fuel (src s) s _ _ last md ctes st
             HS eq_refl Hval Hg).
  - intros cfg dbms fuel last md ctes st [b md'] Hg Hil Hr.
    destruct fuel as [|f]; [discriminate Hr|].
    destruct (normalizeLoop_JSON_OP cfg dbms f (src s) s _ _ last md ctes st
                HS eq_refl Hval Hg) as (st' & w & Hstep & Hb).
    rewrite Hstep in Hr. rewrite Hil in Hb.
    destruct (normalizeLoop_grows _ _ _ _ _ _ _ _ _ _ _ Hr) as [w2 ->].
    rewrite Hb. unfold finish. cbn [fst].
    rewrite <- (app_assoc (normalizedSQLBuilder st) w "@@").
    rewrite (app_assoc (normalizedSQLBuilder st +:+ w) "@@" w2).
    apply trimNormalizedSQL_keeps.
Qed.
End Lexer.

(** ** Instances at concrete inputs *)

(** C4 at the CTE query. *)
Lemma C4_witness :
  Normalize noUnicodeLetter scenarioConfig DBMSGeneric 120 cteQuery
  = Ok (cteNormalized,
        mkMetadata 21 ["person"; "cte"] [] ["SELECT"; "UPDATE"] []) /\
  (NoDup ["person"%string; "cte"%string] /\ NoDup (@nil string) /\
   NoDup ["SELECT"%string; "UPDATE"%string] /\ NoDup (@nil string) /\
   21 = byteLengths ["person"%string; "cte"%string] + byteLengths []
        + byteLengths ["SELECT"%string; "UPDATE"%string] + byteLengths []).
Proof.
  split; [exact (cteQuery_run noUnicodeLetter)|].
  exact (C4_metadata_deduplicated_and_sized noUnicodeLetter scenarioConfig
           DBMSGeneric 120 cteQuery cteNormalized
           (mkMetadata 21 ["person"; "cte"] [] ["SELECT"; "UPDATE"] [])
           (cteQuery_run noUnicodeLetter)).
Defined.

(** C6 at the text [1.2e3e+4,]: the token takes the dot, both exponent
    markers and the sign, and ends before the comma. *)
Lemma C6_witness :
  positioned (New "1.2e3e+4," DBMSGeneric) "" "1.2e3e+4," /\
  decimalLed (byte "1") ".2e3e+4," = true /\
  exists tok s',
    Scan noUnicodeLetter (New "1.2e3e+4," DBMSGeneric) = Ok (tok, s') /\
    Type_ tok = NUMBER /\
    Start tok = len "" /\
    Value tok (src (New "1.2e3e+4," DBMSGeneric)) = "1.2e3e+4" /\
    decimalTail (bytes ".2e3e+4") = true /\
    cursor s' = End_ tok.
Proof.
  assert (Hp : positioned (New "1.2e3e+4," DBMSGeneric) "" "1.2e3e+4,")
    by (split; reflexivity).
  assert (Hd : decimalLed (byte "1") ".2e3e+4," = true) by reflexivity.
  split; [exact Hp|]. split; [exact Hd|].
  exact (C6_decimal_number_shape noUnicodeLetter
           (New "1.2e3e+4," DBMSGeneric) "" "1"%char ".2e3e+4," Hp Hd).
Defined.

(** C6 as it stands fails in both of its bounds: [1.2.3] is one NUMBER
    token of the decimal path with two dots, and [1e2e3] is one with two
    exponent markers. *)
Lemma C6_counterexample :
  ~ (forall (unicodeIsLetter : Z -> bool) (s : Lexer) (before : string)
            (d : ascii) (rest : string) (tok : Token) (s' : Lexer),
        positioned s before (String d rest) ->
        decimalLed (byte d) rest = true ->
        Scan unicodeIsLetter s = Ok (tok, s') ->
        Type_ tok = NUMBER ->
        (countByte (rune ".") (Value tok (src s)) <= 1)%nat) /\
  ~ (forall (unicodeIsLetter : Z -> bool) (s : Lexer) (before : string)
            (d : ascii) (rest : string) (tok : Token) (s' : Lexer),
        positioned s before (String d rest) ->
        decimalLed (byte d) rest = true ->
        Scan unicodeIsLetter s = Ok (tok, s') ->
        Type_ tok = NUMBER ->
        (exponentMarkers (Value tok (src s)) <= 1)%nat).
Proof.
  split; intros H.
  - pose proof (H noUnicodeLetter (New "1.2.3" DBMSGeneric) "" "1"%char ".2.3"
                  (plainToken NUMBER 0 5)
                  (mkLexer "1.2.3" 5 5 DBMSGeneric [] [] false)
                  (conj eq_refl eq_refl) eq_refl eq_refl eq_refl) as Hdots.
    vm_compute in Hdots. lia.
  - pose proof (H noUnicodeLetter (New "1e2e3" DBMSGeneric) "" "1"%char "e2e3"
                  (plainToken NUMBER 0 5)
                  (mkLexer "1e2e3" 5 5 DBMSGeneric [] [] false)
                  (conj eq_refl eq_refl) eq_refl eq_refl eq_refl) as Hexp.
    vm_compute in Hexp. lia.
Qed.

(** C7 at the input ['abc]. *)
Lemma C7_witness :
  positioned (New "'abc" DBMSGeneric) "" "'abc" /\
  closesString false "abc" = false /\
  noNUL "abc" = true /\
  exists tok s',
    Scan noUnicodeLetter (New "'abc" DBMSGeneric) = Ok (tok, s') /\
    Type_ tok = INCOMPLETE_STRING /\
    Start tok = len "" /\
    End_ tok = len "'abc" /\
    cursor s' = len "'abc".
Proof.
  assert (Hp : positioned (New "'abc" DBMSGeneric) "" "'abc")
    by (split; reflexivity).
  split; [exact Hp|]. split; [reflexivity|]. split; [reflexivity|].
  exact (C7_unterminated_string_is_incomplete noUnicodeLetter
           (New "'abc" DBMSGeneric) "" "abc" Hp eq_refl eq_refl).
Defined.

(** C7 as it stands fails when a NUL byte follows the opening quote: the
    token of ['a], NUL, [b] ends at the NUL byte, two bytes before the end
    of the input. *)
Lemma C7_counterexample :
  ~ (forall (unicodeIsLetter : Z -> bool) (s : Lexer) (before body : string),
        positioned s before (String "'" body) ->
        closesString false body = false ->
        exists tok s',
          Scan unicodeIsLetter s = Ok (tok, s') /\
          Type_ tok = INCOMPLETE_STRING /\
          End_ tok = len (src s) /\
          cursor s' = len (src s)).
Proof.
  intros H.
  destruct (H noUnicodeLetter (New ("'a" +:+ NUL +:+ "b") DBMSGeneric) ""
              ("a" +:+ NUL +:+ "b"))
    as (tok & s' & HS & _ & HE & _).
  - split; reflexivity.
  - reflexivity.
  - vm_compute in HS. injection HS as <- _. vm_compute in HE. discriminate HE.
Qed.

(** C8 at the input [@@ x], which [Normalize] returns as it stands. *)
Lemma C8_witness :
  Normalize noUnicodeLetter defaultConfig DBMSGeneric 10 "@@ x"
  = Ok ("@@ x", emptyMetadata) /\
  positioned (New "@@ x" DBMSGeneric) "" ("@@" +:+ " x") /\
  isAlphaNumeric noUnicodeLetter (headRune " x") = false /\
  exists tok s',
    Scan noUnicodeLetter (New "@@ x" DBMSGeneric) = Ok (tok, s') /\
    Type_ tok = JSON_OP /\
    String_ tok (src (New "@@ x" DBMSGeneric)) = "@@" /\
    positioned s' ("" +:+ "@@") " x" /\
    (forall cfg dbms fuel last md ctes st,
      (groupable st = true -> last <> None) ->
      exists st' w,
        normalizeLoop noUnicodeLetter cfg dbms (S fuel)
          (src (New "@@ x" DBMSGeneric)) (New "@@ x" DBMSGeneric) last md ctes
          st
        = normalizeLoop noUnicodeLetter cfg dbms fuel
            (src (New "@@ x" DBMSGeneric)) s'
            (Some (GetLastValueToken tok (src (New "@@ x" DBMSGeneric))))
            md ctes st' /\
        (if inLeadingParenthesesExpression (head st)
         then expressionInParentheses (head st')
         else normalizedSQLBuilder st')
        = (if inLeadingParenthesesExpression (head st)
           then expressionInParentheses (head st)
           else normalizedSQLBuilder st) +:+ w +:+ "@@") /\
    (forall cfg dbms fuel last md ctes st r,
      (groupable st = true -> last <> None) ->
      inLeadingParenthesesExpression (head st) = false ->
      normalizeLoop noUnicodeLetter cfg dbms fuel
        (src (New "@@ x" DBMSGeneric)) (New "@@ x" DBMSGeneric) last md ctes st
      = Ok r ->
      exists x y, fst (finish cfg r) = x +:+ "@@" +:+ y).
Proof.
  assert (Hp : positioned (New "@@ x" DBMSGeneric) "" ("@@" +:+ " x"))
    by (split; reflexivity).
  split; [vm_compute; reflexivity|].
  split; [exact Hp|]. split; [reflexivity|].
  exact (C8_malformed_system_variable_is_JSON_OP noUnicodeLetter
           (New "@@ x" DBMSGeneric) "" " x" Hp eq_refl).
Defined.

(** C8 as it stands fails at the input [@@]: the token is a JSON_OP, not an
    ERROR. Nor does every [@@] get a token of its own or reach the output:
    [+@@] is one OPERATOR token and [a@@] one IDENT token, and in [(@@) x]
    the token lies in the leading parenthesized expression, which
    [Normalize] drops. *)
Lemma C8_counterexample :
  ~ (forall (unicodeIsLetter : Z -> bool) (s : Lexer) (before rest : string),
        positioned s before ("@@" +:+ rest) ->
        isAlphaNumeric unicodeIsLetter (headRune rest) = false ->
        exists tok s',
          Scan unicodeIsLetter s = Ok (tok, s') /\ Type_ tok = ERROR) /\
  (exists s', Scan noUnicodeLetter (New "+@@ x" DBMSGeneric)
              = Ok (plainToken OPERATOR 0 3, s')) /\
  (exists s', Scan noUnicodeLetter (New "a@@ x" DBMSGeneric)
              = Ok (plainToken IDENT 0 3, s')) /\
  Normalize noUnicodeLetter defaultConfig DBMSGeneric 10 "(@@) x"
  = Ok ("x", emptyMetadata).
Proof.
  split; [|split; [|split]; try (eexists; vm_compute; reflexivity);
           vm_compute; reflexivity].
  intros H.
  destruct (H noUnicodeLetter (New "@@" DBMSGeneric) "" "")
    as (tok & s' & HS & HT).
  - split; reflexivity.
  - reflexivity.
  - vm_compute in HS. injection HS as <- _. discriminate HT.
Qed.

(** C9 at the empty input. *)
Lemma C9_witness :
  Scan noUnicodeLetter (New "" DBMSGeneric)
  = Ok (plainToken EOF 0 0, New "" DBMSGeneric) /\
  Type_ (plainToken EOF 0 0) = EOF /\
  exists tok',
    scanTimes noUnicodeLetter 3 (New "" DBMSGeneric)
    = Ok (tok', New "" DBMSGeneric) /\
    Type_ tok' = EOF.
Proof.
  assert (HS : Scan noUnicodeLetter (New "" DBMSGeneric)
               = Ok (plainToken EOF 0 0, New "" DBMSGeneric))
    by reflexivity.
  split; [exact HS|]. split; [reflexivity|].
  exact (C9_EOF_is_held noUnicodeLetter (New "" DBMSGeneric)
           (plainToken EOF 0 0) (New "" DBMSGeneric) HS eq_refl 3%nat).
Defined.

(** C5 as it stands fails: no run returns the text with the quotes kept. *)
Lemma C5_counterexample :
  ~ (exists (unicodeIsLetter : Z -> bool) (fuel : nat)
            (md : StatementMetadata),
        Normalize unicodeIsLetter scenarioConfig DBMSGeneric fuel quotedQuery
        = Ok (quotedQuery, md) /\
        Tables md = [quoted "public" +:+ "." +:+ quoted "users"]).
Proof.
  intros (isL & fuel & md & H & _).
  pose proof (Normalize_deterministic isL _ _ _ _ _ _ _ H
                (quotedQuery_run isL)) as E.
  injection E as E _. vm_compute in E. discriminate E.
Qed.

(** X1 at a fresh lexer. *)
Lemma X1_witness :
  ready (New "SELECT 1" DBMSGeneric) /\
  exists tok s',
    Scan noUnicodeLetter (New "SELECT 1" DBMSGeneric) = Ok (tok, s') /\
    Start tok = 0 /\ End_ tok = cursor s' /\
    0 <= cursor s' <= len "SELECT 1" /\
    src s' = "SELECT 1" /\ config s' = DBMSGeneric /\ ready s' /\
    digits s' = [] /\ quotes s' = [] /\ isTableIndicator s' = false.
Proof.
  assert (Hr : ready (New "SELECT 1" DBMSGeneric))
    by (split; [split; vm_compute; discriminate|reflexivity]).
  split; [exact Hr|].
  exact (X1_Scan_returns_the_next_span noUnicodeLetter
           (New "SELECT 1" DBMSGeneric) Hr).
Defined.

(** X2 at the input [a b]. *)
Lemma X2_witness :
  scanAll noUnicodeLetter 4 (New "a b" DBMSGeneric)
  = Ok [plainToken IDENT 0 1; plainToken WS 1 2; plainToken IDENT 2 3;
        plainToken EOF 3 3] /\
  (exists e, 0 <= e <= len "a b" /\
     spans "a b" [plainToken IDENT 0 1; plainToken WS 1 2;
                  plainToken IDENT 2 3; plainToken EOF 3 3]
     = slice "a b" 0 e) /\
  (noNUL "a b" = true ->
   spans "a b" [plainToken IDENT 0 1; plainToken WS 1 2;
                plainToken IDENT 2 3; plainToken EOF 3 3] = "a b").
Proof.
  assert (H : scanAll noUnicodeLetter 4 (New "a b" DBMSGeneric)
              = Ok [plainToken IDENT 0 1; plainToken WS 1 2;
                    plainToken IDENT 2 3; plainToken EOF 3 3])
    by reflexivity.
  split; [exact H|].
  exact (X2_tokens_tile_the_input noUnicodeLetter "a b" DBMSGeneric 4 _ H).
Defined.

(** X3 on the input [a], NUL, [b], after its first byte. *)
Lemma X3_witness :
  positioned (mkLexer ("a" +:+ NUL +:+ "b") 1 1 DBMSGeneric [] [] false)
             "a" (NUL +:+ "b") /\
  ((exists tok s',
      Scan noUnicodeLetter
        (mkLexer ("a" +:+ NUL +:+ "b") 1 1 DBMSGeneric [] [] false)
      = Ok (tok, s') /\ Type_ tok = EOF) <->
   (NUL +:+ "b" = "" \/ exists t, NUL +:+ "b" = String (chr 0) t)).
Proof.
  assert (Hp : positioned
                 (mkLexer ("a" +:+ NUL +:+ "b") 1 1 DBMSGeneric [] [] false)
                 "a" (NUL +:+ "b")) by (split; reflexivity).
  split; [exact Hp|].
  exact (X3_EOF_at_the_end_or_at_NUL noUnicodeLetter _ "a" (NUL +:+ "b") Hp).
Defined.

(** X4 at the input [ab]. *)
Lemma X4_witness :
  noUnicodeLetter RuneError = false /\
  ready (New "ab" DBMSGeneric) /\
  Scan noUnicodeLetter (New "ab" DBMSGeneric)
  = Ok (plainToken IDENT 0 2, mkLexer "ab" 2 2 DBMSGeneric [] [] false) /\
  (cursor (New "ab" DBMSGeneric)
   < cursor (mkLexer "ab" 2 2 DBMSGeneric [] [] false) \/
   (cursor (mkLexer "ab" 2 2 DBMSGeneric [] [] false)
    = cursor (New "ab" DBMSGeneric) /\
    End_ (plainToken IDENT 0 2) = Start (plainToken IDENT 0 2) /\
    standsStill (New "ab" DBMSGeneric) (Type_ (plainToken IDENT 0 2)))).
Proof.
  assert (Hr : ready (New "ab" DBMSGeneric))
    by (split; [split; vm_compute; discriminate|reflexivity]).
  assert (HS : Scan noUnicodeLetter (New "ab" DBMSGeneric)
               = Ok (plainToken IDENT 0 2,
                     mkLexer "ab" 2 2 DBMSGeneric [] [] false))
    by reflexivity.
  split; [reflexivity|]. split; [exact Hr|]. split; [exact HS|].
  exact (X4_Scan_moves_forward_but_for_four_cases noUnicodeLetter eq_refl
           (New "ab" DBMSGeneric) _ _ Hr HS).
Defined.

(** X5 at the input [#]. *)
Lemma X5_witness :
  positioned (New "#" DBMSMySQL) "" "#" /\
  start (New "#" DBMSMySQL) = cursor (New "#" DBMSMySQL) /\
  config (New "#" DBMSMySQL) = DBMSMySQL /\
  exists tok s',
    scanTimes noUnicodeLetter 2 (New "#" DBMSMySQL) = Ok (tok, s') /\
    Type_ tok = COMMENT /\
    Start tok = cursor (New "#" DBMSMySQL) /\
    End_ tok = cursor (New "#" DBMSMySQL) /\
    cursor s' = cursor (New "#" DBMSMySQL).
Proof.
  assert (Hp : positioned (New "#" DBMSMySQL) "" "#") by (split; reflexivity).
  split; [exact Hp|]. split; [reflexivity|]. split; [reflexivity|].
  exact (X5_MySQL_hash_as_last_byte_is_never_consumed noUnicodeLetter
           (New "#" DBMSMySQL) "" 2%nat Hp eq_refl eq_refl).
Defined.

(** X6 at the input [`a`]. *)
Lemma X6_witness :
  positioned (New "`a`" DBMSSQLServer) "" (String "`" "a`") /\
  start (New "`a`" DBMSSQLServer) = cursor (New "`a`" DBMSSQLServer) /\
  config (New "`a`" DBMSSQLServer) = DBMSSQLServer /\
  exists tok s',
    scanTimes noUnicodeLetter 2 (New "`a`" DBMSSQLServer) = Ok (tok, s') /\
    Type_ tok = IDENT /\
    Start tok = cursor (New "`a`" DBMSSQLServer) /\
    End_ tok = cursor (New "`a`" DBMSSQLServer) /\
    cursor s' = cursor (New "`a`" DBMSSQLServer).
Proof.
  assert (Hp : positioned (New "`a`" DBMSSQLServer) "" (String "`" "a`"))
    by (split; reflexivity).
  split; [exact Hp|]. split; [reflexivity|]. split; [reflexivity|].
  exact (X6_SQLServer_backtick_is_never_consumed noUnicodeLetter
           (New "`a`" DBMSSQLServer) "" "a`" 2%nat Hp eq_refl eq_refl).
Defined.

(** X7 at the input [SELECT 1 #] under MySQL. *)
Lemma X7_witness :
  scanTimes noUnicodeLetter 3 (New "SELECT 1 #" DBMSMySQL)
  = Ok (plainToken WS 8 9, mkLexer "SELECT 1 #" 9 9 DBMSMySQL [] [] false) /\
  Scan noUnicodeLetter (mkLexer "SELECT 1 #" 9 9 DBMSMySQL [] [] false)
  = Ok (plainToken COMMENT 9 9,
        mkLexer "SELECT 1 #" 9 9 DBMSMySQL [] [] false) /\
  cursor (mkLexer "SELECT 1 #" 9 9 DBMSMySQL [] [] false)
  = cursor (mkLexer "SELECT 1 #" 9 9 DBMSMySQL [] [] false) /\
  Type_ (plainToken COMMENT 9 9) <> EOF /\
  forall (fuel : nat) (r : string * StatementMetadata),
    Normalize noUnicodeLetter defaultConfig DBMSMySQL fuel "SELECT 1 #"
    <> Ok r.
Proof.
  assert (H0 : scanTimes noUnicodeLetter 3 (New "SELECT 1 #" DBMSMySQL)
               = Ok (plainToken WS 8 9,
                     mkLexer "SELECT 1 #" 9 9 DBMSMySQL [] [] false))
    by reflexivity.
  assert (HS : Scan noUnicodeLetter
                 (mkLexer "SELECT 1 #" 9 9 DBMSMySQL [] [] false)
               = Ok (plainToken COMMENT 9 9,
                     mkLexer "SELECT 1 #" 9 9 DBMSMySQL [] [] false))
    by reflexivity.
  assert (HT : Type_ (plainToken COMMENT 9 9) <> EOF) by discriminate.
  split; [exact H0|]. split; [exact HS|]. split; [reflexivity|].
  split; [exact HT|].
  exact (X7_Normalize_does_not_return_once_Scan_stands_still noUnicodeLetter
           defaultConfig DBMSMySQL "SELECT 1 #" 3%nat _ _ _ _ H0 HS eq_refl HT).
Defined.

(** X8 at the input ['abc]. *)
Lemma X8_witness :
  ready (New "'abc" DBMSGeneric) /\
  Scan noUnicodeLetter (New "'abc" DBMSGeneric)
  = Ok (plainToken INCOMPLETE_STRING 0 4,
        mkLexer "'abc" 4 4 DBMSGeneric [] [] false) /\
  (Type_ (plainToken INCOMPLETE_STRING 0 4) = ERROR \/
   Type_ (plainToken INCOMPLETE_STRING 0 4) = INCOMPLETE_STRING) /\
  Scan noUnicodeLetter (mkLexer "'abc" 4 4 DBMSGeneric [] [] false)
  = Ok (emit EOF (mkLexer "'abc" 4 4 DBMSGeneric [] [] false)) /\
  (Type_ (plainToken INCOMPLETE_STRING 0 4) = ERROR ->
   isDoubleQuote (peek (New "'abc" DBMSGeneric)) = true \/
   peek (New "'abc" DBMSGeneric) = rune "`" \/
   peek (New "'abc" DBMSGeneric) = rune "[" \/
   peek (New "'abc" DBMSGeneric) = rune "$" \/
   isMultiLineComment (peek (New "'abc" DBMSGeneric))
     (lookAhead (New "'abc" DBMSGeneric) 1) = true).
Proof.
  assert (Hr : ready (New "'abc" DBMSGeneric))
    by (split; [split; vm_compute; discriminate|reflexivity]).
  assert (HS : Scan noUnicodeLetter (New "'abc" DBMSGeneric)
               = Ok (plainToken INCOMPLETE_STRING 0 4,
                     mkLexer "'abc" 4 4 DBMSGeneric [] [] false))
    by reflexivity.
  assert (HT : Type_ (plainToken INCOMPLETE_STRING 0 4) = ERROR \/
               Type_ (plainToken INCOMPLETE_STRING 0 4) = INCOMPLETE_STRING)
    by (right; reflexivity).
  split; [exact Hr|]. split; [exact HS|]. split; [exact HT|].
  exact (X8_ERROR_and_INCOMPLETE_STRING_end_the_stream noUnicodeLetter
           (New "'abc" DBMSGeneric) _ _ Hr HS HT).
Defined.

(** X9 at the input of two spaces and [a]. *)
Lemma X9_witness :
  ready (New "  a" DBMSGeneric) /\
  Scan noUnicodeLetter (New "  a" DBMSGeneric)
  = Ok (plainToken WS 0 2, mkLexer "  a" 2 2 DBMSGeneric [] [] false) /\
  (Type_ (plainToken WS 0 2) = WS ->
   isWhitespace (peek (mkLexer "  a" 2 2 DBMSGeneric [] [] false)) = false) /\
  (Type_ (plainToken WS 0 2) = POSITIONAL_PARAMETER ->
   isDigit (peek (mkLexer "  a" 2 2 DBMSGeneric [] [] false)) = false) /\
  (Type_ (plainToken WS 0 2) = BIND_PARAMETER \/
   Type_ (plainToken WS 0 2) = SYSTEM_VARIABLE ->
   isAlphaNumeric noUnicodeLetter
     (peek (mkLexer "  a" 2 2 DBMSGeneric [] [] false)) = false) /\
  (Type_ (plainToken WS 0 2) = COMMENT ->
   cursor (New "  a" DBMSGeneric)
   < cursor (mkLexer "  a" 2 2 DBMSGeneric [] [] false) ->
   peek (mkLexer "  a" 2 2 DBMSGeneric [] [] false) = 10 \/
   peek (mkLexer "  a" 2 2 DBMSGeneric [] [] false) = 0).
Proof.
  assert (Hr : ready (New "  a" DBMSGeneric))
    by (split; [split; vm_compute; discriminate|reflexivity]).
  assert (HS : Scan noUnicodeLetter (New "  a" DBMSGeneric)
               = Ok (plainToken WS 0 2,
                     mkLexer "  a" 2 2 DBMSGeneric [] [] false))
    by reflexivity.
  split; [exact Hr|]. split; [exact HS|].
  exact (X9_runs_are_taken_whole noUnicodeLetter (New "  a" DBMSGeneric)
           _ _ Hr HS).
Defined.

(** X10 at the input [SELECT 1]. *)
Lemma X10_witness :
  ready (New "SELECT 1" DBMSGeneric) /\
  Scan noUnicodeLetter (New "SELECT 1" DBMSGeneric)
  = Ok (plainToken COMMAND 0 6,
        mkLexer "SELECT 1" 6 6 DBMSGeneric [] [] false) /\
  (isKeywordKind (Type_ (plainToken COMMAND 0 6)) = true ->
   isDelimiter (peek (mkLexer "SELECT 1" 6 6 DBMSGeneric [] [] false))
   = true) /\
  (Type_ (plainToken COMMAND 0 6) = FUNCTION ->
   peek (mkLexer "SELECT 1" 6 6 DBMSGeneric [] [] false) = rune "(").
Proof.
  assert (Hr : ready (New "SELECT 1" DBMSGeneric))
    by (split; [split; vm_compute; discriminate|reflexivity]).
  assert (HS : Scan noUnicodeLetter (New "SELECT 1" DBMSGeneric)
               = Ok (plainToken COMMAND 0 6,
                     mkLexer "SELECT 1" 6 6 DBMSGeneric [] [] false))
    by reflexivity.
  split; [exact Hr|]. split; [exact HS|].
  exact (X10_keywords_end_at_a_delimiter noUnicodeLetter
           (New "SELECT 1" DBMSGeneric) _ _ Hr HS).
Defined.

(** X11 at a [#] followed by a line feed and [x]. *)
Lemma X11_witness :
  positioned (New (String "#" (String (chr 10) "x")) DBMSMySQL) ""
             (String "#" (String (chr 10) "x")) /\
  start (New (String "#" (String (chr 10) "x")) DBMSMySQL)
  = cursor (New (String "#" (String (chr 10) "x")) DBMSMySQL) /\
  config (New (String "#" (String (chr 10) "x")) DBMSMySQL) = DBMSMySQL /\
  exists tok s',
    Scan noUnicodeLetter (New (String "#" (String (chr 10) "x")) DBMSMySQL)
    = Ok (tok, s') /\
    Type_ tok = COMMENT /\
    Start tok = cursor (New (String "#" (String (chr 10) "x")) DBMSMySQL) /\
    cursor (New (String "#" (String (chr 10) "x")) DBMSMySQL) + 2
    <= End_ tok /\
    End_ tok = cursor s' /\
    (peek s' = 10 \/ peek s' = 0).
Proof.
  assert (Hp : positioned (New (String "#" (String (chr 10) "x")) DBMSMySQL)
                 "" (String "#" (String (chr 10) "x")))
    by (split; reflexivity).
  split; [exact Hp|]. split; [reflexivity|]. split; [reflexivity|].
  exact (X11_MySQL_hash_comment_takes_the_next_byte noUnicodeLetter
           (New (String "#" (String (chr 10) "x")) DBMSMySQL) ""
           (chr 10) "x" Hp eq_refl eq_refl).
Defined.

(** X13 with every option off. *)
Lemma X13_witness :
  Normalize noUnicodeLetter defaultConfig DBMSGeneric 20 "select 1 from t"
  = Ok ("select 1 from t", emptyMetadata) /\
  (CollectTables defaultConfig = false -> Tables emptyMetadata = []) /\
  (CollectCommands defaultConfig = false -> Commands emptyMetadata = []) /\
  (CollectComments defaultConfig = false -> Comments emptyMetadata = []) /\
  (CollectProcedure defaultConfig = false -> Procedures emptyMetadata = []).
Proof.
  assert (H : Normalize noUnicodeLetter defaultConfig DBMSGeneric 20
                "select 1 from t" = Ok ("select 1 from t", emptyMetadata))
    by (vm_compute; reflexivity).
  split; [exact H|].
  exact (X13_metadata_is_collected_only_on_request noUnicodeLetter
           defaultConfig DBMSGeneric 20 "select 1 from t" _ _ H).
Defined.

(** X14 at a command in lower case. *)
Lemma X14_witness :
  Normalize noUnicodeLetter scenarioConfig DBMSGeneric 20 "select 1"
  = Ok ("select 1", mkMetadata 6 [] [] ["SELECT"] []) /\
  "SELECT"%string ∈ Commands (mkMetadata 6 [] [] ["SELECT"] []) /\
  ToUpper "SELECT" = "SELECT"%string.
Proof.
  assert (H : Normalize noUnicodeLetter scenarioConfig DBMSGeneric 20
                "select 1" = Ok ("select 1", mkMetadata 6 [] [] ["SELECT"] []))
    by (vm_compute; reflexivity).
  assert (Hc : "SELECT"%string ∈ Commands (mkMetadata 6 [] [] ["SELECT"] []))
    by (apply elem_of_cons; left; reflexivity).
  split; [exact H|]. split; [exact Hc|].
  exact (X14_commands_are_upper_case noUnicodeLetter scenarioConfig
           DBMSGeneric 20 "select 1" _ _ "SELECT" H Hc).
Defined.

(** X15 at a space followed by a line feed. *)
Lemma X15_witness :
  allBytes isWhitespace (String " " (String (chr 10) "")) = true /\
  Normalize noUnicodeLetter scenarioConfig DBMSPostgres 2
    (String " " (String (chr 10) ""))
  = Ok (EmptyString, emptyMetadata).
Proof.
  split; [reflexivity|].
  exact (X15_blank_input_normalizes_to_nothing noUnicodeLetter scenarioConfig
           DBMSPostgres (String " " (String (chr 10) "")) 0 eq_refl).
Defined.

(** X16 from the state that [reset] leaves. *)
Lemma X16_witness :
  consistent (Incremental.mkMetadata 0 [] [] [] [] ∅ ∅ ∅ ∅) /\
  consistent (Incremental.addTable
                (Incremental.mkMetadata 0 [] [] [] [] ∅ ∅ ∅ ∅) "users") /\
  consistent (Incremental.addComment
                (Incremental.mkMetadata 0 [] [] [] [] ∅ ∅ ∅ ∅) "users") /\
  consistent (Incremental.addCommand
                (Incremental.mkMetadata 0 [] [] [] [] ∅ ∅ ∅ ∅) "users") /\
  consistent (Incremental.addProcedure
                (Incremental.mkMetadata 0 [] [] [] [] ∅ ∅ ∅ ∅) "users") /\
  consistent (Incremental.reset
                (Incremental.mkMetadata 0 [] [] [] [] ∅ ∅ ∅ ∅)).
Proof.
  assert (He : agree ∅ []).
  { split; [apply NoDup_nil_2|]. intros x.
    rewrite elem_of_empty, elem_of_nil. tauto. }
  assert (H : consistent (Incremental.mkMetadata 0 [] [] [] [] ∅ ∅ ∅ ∅)).
  { split; [exact He|]. split; [exact He|]. split; [exact He|].
    split; [exact He|reflexivity]. }
  split; [exact H|].
  exact (X16_incremental_metadata_stays_consistent _ "users" H).
Defined.

(** X18 at the input [SELECT 1]. *)
Lemma X18_witness :
  ready (New "SELECT 1" DBMSGeneric) /\
  Scan noUnicodeLetter (New "SELECT 1" DBMSGeneric)
  = Ok (plainToken COMMAND 0 6,
        mkLexer "SELECT 1" 6 6 DBMSGeneric [] [] false) /\
  opening noUnicodeLetter (New "SELECT 1" DBMSGeneric)
          (Type_ (plainToken COMMAND 0 6)).
Proof.
  assert (Hr : ready (New "SELECT 1" DBMSGeneric))
    by (split; [split; vm_compute; discriminate|reflexivity]).
  assert (HS : Scan noUnicodeLetter (New "SELECT 1" DBMSGeneric)
               = Ok (plainToken COMMAND 0 6,
                     mkLexer "SELECT 1" 6 6 DBMSGeneric [] [] false))
    by reflexivity.
  split; [exact Hr|]. split; [exact HS|].
  exact (proj1 (X18_token_kind_tells_how_the_token_begins noUnicodeLetter
                  (New "SELECT 1" DBMSGeneric) _ _ Hr HS)).
Defined.

(** X19 at the input [SELECT 1]. *)
Lemma X19_witness :
  allBytes notQuestionMark "SELECT 1" = true /\
  Normalize noUnicodeLetter defaultConfig DBMSGeneric 5 "SELECT 1" <> Panic.
Proof.
  split; [reflexivity|].
  apply (X19_Normalize_panics_only_with_a_question_mark noUnicodeLetter
           defaultConfig DBMSGeneric 5 "SELECT 1").
  reflexivity.
Defined.

(** X20 at the input [SELECT 1]. *)
Lemma X20_witness :
  allBytes isPlain "SELECT 1" = true /\
  exists r,
    forall fuel : nat,
      (String.length "SELECT 1" < fuel)%nat ->
      Normalize noUnicodeLetter defaultConfig DBMSGeneric fuel "SELECT 1"
      = Ok r.
Proof.
  split; [reflexivity|].
  apply (X20_Normalize_returns_on_plain_text noUnicodeLetter defaultConfig
           DBMSGeneric "SELECT 1").
  reflexivity.
Defined.

(** X21 at a string with an escaped quote, and text after it. *)
Lemma X21_witness :
  positioned (New "'a\'b' c" DBMSGeneric) "" (String "'" "a\'b' c") /\
  closesString false "a\'b' c" = true /\
  noNUL (stringBody false "a\'b' c") = true /\
  exists tok s',
    Scan noUnicodeLetter (New "'a\'b' c" DBMSGeneric) = Ok (tok, s') /\
    Type_ tok = STRING /\
    Start tok = len "" /\
    Value tok (src (New "'a\'b' c" DBMSGeneric))
    = String "'" (stringBody false "a\'b' c") /\
    cursor s' = End_ tok.
Proof.
  assert (Hp : positioned (New "'a\'b' c" DBMSGeneric) ""
                 (String "'" "a\'b' c")) by (split; reflexivity).
  split; [exact Hp|]. split; [reflexivity|]. split; [reflexivity|].
  exact (X21_closed_string_is_one_STRING_token noUnicodeLetter _ _ _ Hp
           eq_refl eq_refl).
Defined.

(** X22 at two backtick-quoted names under MySQL. *)
Lemma X22_witness :
  quoting (config (New "`a1`.`b` x" DBMSMySQL)) (rune "`") (rune "`") /\
  positioned (New "`a1`.`b` x" DBMSMySQL) ""
    (chainText (rune "`") (rune "`") "a1" ["b"%string] +:+ " x") /\
  Forall (fun m => allBytes (nameByte (rune "`")) m = true)
         ["a1"%string; "b"%string] /\
  (forall r, " x"%string <> String "." (String (chr (rune "`")) r)) /\
  exists tok s',
    Scan noUnicodeLetter (New "`a1`.`b` x" DBMSMySQL) = Ok (tok, s') /\
    Type_ tok = QUOTED_IDENT /\
    Start tok = len "" /\
    Value tok (src (New "`a1`.`b` x" DBMSMySQL))
    = chainText (rune "`") (rune "`") "a1" ["b"%string] /\
    Quotes tok = len "" :: tailQuotes (len "" + 1) "a1" ["b"%string] /\
    Digits tok
    = positionsOf isDigit (len "")
        (chainText (rune "`") (rune "`") "a1" ["b"%string]) /\
    cursor s' = End_ tok.
Proof.
  assert (Hq : quoting (config (New "`a1`.`b` x" DBMSMySQL)) (rune "`")
                 (rune "`"))
    by (right; left; repeat split).
  assert (Hp : positioned (New "`a1`.`b` x" DBMSMySQL) ""
                 (chainText (rune "`") (rune "`") "a1" ["b"%string] +:+ " x"))
    by (split; reflexivity).
  assert (Hall : Forall (fun m => allBytes (nameByte (rune "`")) m = true)
                        ["a1"%string; "b"%string])
    by (repeat constructor).
  assert (Hrest : forall r,
             " x"%string <> String "." (String (chr (rune "`")) r))
    by (intros r H; discriminate H).
  split; [exact Hq|]. split; [exact Hp|]. split; [exact Hall|].
  split; [exact Hrest|].
  exact (X22_quoted_names_are_one_QUOTED_IDENT_token noUnicodeLetter _ _ _ _
           _ _ _ Hq Hp eq_refl eq_refl Hall Hrest).
Defined.

(** X23 at a dollar-quoted function under PostgreSQL. *)
Lemma X23_witness :
  positioned (New "$func$SELECT 1$func$ x" DBMSPostgres) ""
    (dollarTag "func" +:+ "SELECT 1" +:+ dollarTag "func" +:+ " x") /\
  allBytes tagByte "func" = true /\
  (forall k, (k < String.length "SELECT 1")%nat ->
             hasPrefix (drop k ("SELECT 1" +:+ dollarTag "func" +:+ " x"))
                       (dollarTag "func") = false) /\
  exists tok s',
    Scan noUnicodeLetter (New "$func$SELECT 1$func$ x" DBMSPostgres)
    = Ok (tok, s') /\
    Type_ tok = (if String.eqb (dollarTag "func") "$func$"
                 then DOLLAR_QUOTED_FUNCTION else DOLLAR_QUOTED_STRING) /\
    Start tok = len "" /\
    Value tok (src (New "$func$SELECT 1$func$ x" DBMSPostgres))
    = dollarTag "func" +:+ "SELECT 1" +:+ dollarTag "func" /\
    cursor s' = End_ tok.
Proof.
  assert (Hp : positioned (New "$func$SELECT 1$func$ x" DBMSPostgres) ""
                 (dollarTag "func" +:+ "SELECT 1" +:+ dollarTag "func"
                  +:+ " x")) by (split; reflexivity).
  assert (Hfirst : forall k, (k < String.length "SELECT 1")%nat ->
             hasPrefix (drop k ("SELECT 1" +:+ dollarTag "func" +:+ " x"))
                       (dollarTag "func") = false).
  { intros k Hk. do 8 (destruct k as [|k]; [reflexivity|]).
    simpl in Hk. lia. }
  split; [exact Hp|]. split; [reflexivity|]. split; [exact Hfirst|].
  apply (X23_dollar_quoted_literal_ends_at_its_tag noUnicodeLetter _ _ _ _ _
           Hp eq_refl eq_refl); [|exact Hfirst].
  intros H. discriminate H.
Defined.

(** X24 at a comment, a line feed and a statement. *)
Lemma X24_witness :
  positioned (New ("-- hi" +:+ String (chr 10) "SELECT 1") DBMSGeneric) ""
    ("--" +:+ " hi" +:+ String (chr 10) "SELECT 1") /\
  allBytes lineByte " hi" = true /\
  (headRune (String (chr 10) "SELECT 1") = 10 \/
   headRune (String (chr 10) "SELECT 1") = 0) /\
  exists tok s',
    Scan noUnicodeLetter
      (New ("-- hi" +:+ String (chr 10) "SELECT 1") DBMSGeneric)
    = Ok (tok, s') /\
    Type_ tok = COMMENT /\
    Start tok = len "" /\
    Value tok (src (New ("-- hi" +:+ String (chr 10) "SELECT 1") DBMSGeneric))
    = "--" +:+ " hi" /\
    cursor s' = End_ tok /\
    peek s' = headRune (String (chr 10) "SELECT 1").
Proof.
  assert (Hp : positioned
                 (New ("-- hi" +:+ String (chr 10) "SELECT 1") DBMSGeneric) ""
                 ("--" +:+ " hi" +:+ String (chr 10) "SELECT 1"))
    by (split; reflexivity).
  assert (Hr : headRune (String (chr 10) "SELECT 1") = 10 \/
               headRune (String (chr 10) "SELECT 1") = 0)
    by (left; reflexivity).
  split; [exact Hp|]. split; [reflexivity|]. split; [exact Hr|].
  exact (X24_line_comment_runs_to_the_end_of_the_line noUnicodeLetter _ _ _ _
           Hp eq_refl Hr).
Defined.

(** X25 at a comment that holds an opening of its own. *)
Lemma X25_witness :
  positioned (New "/* a /* b */ c */" DBMSGeneric) ""
    ("/*" +:+ " a /* b " +:+ "*/" +:+ " c */") /\
  noNUL " a /* b " = true /\
  (forall k, (k < String.length " a /* b ")%nat ->
             hasPrefix (drop k (" a /* b " +:+ "*/" +:+ " c */")) "*/"
             = false) /\
  exists tok s',
    Scan noUnicodeLetter (New "/* a /* b */ c */" DBMSGeneric)
    = Ok (tok, s') /\
    Type_ tok = MULTILINE_COMMENT /\
    Start tok = len "" /\
    Value tok (src (New "/* a /* b */ c */" DBMSGeneric))
    = "/*" +:+ " a /* b " +:+ "*/" /\
    cursor s' = End_ tok.
Proof.
  assert (Hp : positioned (New "/* a /* b */ c */" DBMSGeneric) ""
                 ("/*" +:+ " a /* b " +:+ "*/" +:+ " c */"))
    by (split; reflexivity).
  assert (Hfirst : forall k, (k < String.length " a /* b ")%nat ->
             hasPrefix (drop k (" a /* b " +:+ "*/" +:+ " c */")) "*/"
             = false).
  { intros k Hk. do 8 (destruct k as [|k]; [reflexivity|]).
    simpl in Hk. lia. }
  split; [exact Hp|]. split; [reflexivity|]. split; [exact Hfirst|].
  exact (X25_block_comment_ends_at_the_first_closing noUnicodeLetter _ _ _ _
           Hp eq_refl Hfirst).
Defined.

(** X26 at the octal digits of [0129]. *)
Lemma X26_witness :
  positioned (New "0129" DBMSGeneric) ""
    (String "0" (String "1" ("2" +:+ "9"))) /\
  isOctalDigit (byte "1") = true /\
  allBytes isOctalDigit "2" = true /\
  isOctalDigit (headRune "9") = false /\
  exists tok s',
    Scan noUnicodeLetter (New "0129" DBMSGeneric) = Ok (tok, s') /\
    Type_ tok = NUMBER /\
    Start tok = len "" /\
    Value tok (src (New "0129" DBMSGeneric)) = String "0" (String "1" "2") /\
    cursor s' = End_ tok.
Proof.
  assert (Hp : positioned (New "0129" DBMSGeneric) ""
                 (String "0" (String "1" ("2" +:+ "9"))))
    by (split; reflexivity).
  split; [exact Hp|]. split; [reflexivity|]. split; [reflexivity|].
  split; [reflexivity|].
  apply (X26_hexadecimal_and_octal_numbers noUnicodeLetter _ _ _ _ _ Hp).
  right. repeat split.
Defined.

(** X27 at a statement between blanks. *)
Lemma X27_witness :
  Normalize noUnicodeLetter defaultConfig DBMSGeneric 12 "  SELECT 1 ; "
  = Ok ("SELECT 1", emptyMetadata) /\
  isAsciiSpace (at_ "SELECT 1" 0) = false /\
  isAsciiSpace (at_ "SELECT 1" (len "SELECT 1" - 1)) = false.
Proof.
  assert (H : Normalize noUnicodeLetter defaultConfig DBMSGeneric 12
                "  SELECT 1 ; " = Ok ("SELECT 1", emptyMetadata))
    by reflexivity.
  split; [exact H|].
  exact (X27_normalized_text_is_trimmed noUnicodeLetter _ _ _ _ _ _ H).
Defined.

(** X28 at a bind parameter under Oracle. *)
Lemma X28_witness :
  introduces (config (New ":id1)" DBMSOracle)) ":" BIND_PARAMETER /\
  positioned (New ":id1)" DBMSOracle) "" (":" +:+ String "i" "d1" +:+ ")") /\
  allBytes (parameterByte BIND_PARAMETER) (String "i" "d1") = true /\
  parameterRune noUnicodeLetter BIND_PARAMETER (headRune ")") = false /\
  exists tok s',
    Scan noUnicodeLetter (New ":id1)" DBMSOracle) = Ok (tok, s') /\
    Type_ tok = BIND_PARAMETER /\
    Start tok = len "" /\
    Value tok (src (New ":id1)" DBMSOracle)) = ":" +:+ String "i" "d1" /\
    cursor s' = End_ tok.
Proof.
  assert (Hi : introduces (config (New ":id1)" DBMSOracle)) ":"
                 BIND_PARAMETER)
    by (right; right; left; repeat split).
  assert (Hp : positioned (New ":id1)" DBMSOracle) ""
                 (":" +:+ String "i" "d1" +:+ ")"))
    by (split; reflexivity).
  split; [exact Hi|]. split; [exact Hp|]. split; [reflexivity|].
  split; [reflexivity|].
  exact (X28_parameters_are_one_token noUnicodeLetter _ _ _ _ _ _ _ Hi Hp
           eq_refl eq_refl).
Defined.

(** X29 at a comparison followed by a placeholder: [<=] is one token, the
    [?] after the [=] is left for the next one. *)
Lemma X29_witness :
  positioned (setCursor (New "a<=?b" DBMSGeneric) 1) "a" (String "<" "=?b") /\
  plainOperator (byte "<") (headRune "=?b") = true /\
  exists tok s',
    Scan noUnicodeLetter (setCursor (New "a<=?b" DBMSGeneric) 1)
    = Ok (tok, s') /\
    Type_ tok = OPERATOR /\
    Start tok = len "a" /\
    Value tok (src (setCursor (New "a<=?b" DBMSGeneric) 1)) = "<=" /\
    cursor s' = End_ tok.
Proof.
  assert (Hp : positioned (setCursor (New "a<=?b" DBMSGeneric) 1) "a"
                 (String "<" "=?b"))
    by (split; reflexivity).
  split; [exact Hp|]. split; [reflexivity|].
  exact (X29_operator_characters_run_together noUnicodeLetter _ _ _ _ Hp
           eq_refl).
Defined.

(** X30 at a keyword written in lower and in mixed case. *)
Lemma X30_witness :
  positioned (New "select 1" DBMSGeneric) "" ("select" +:+ " 1") /\
  isLetter noUnicodeLetter (headRune "select") = true /\
  allBytes (asciiIdentifier noUnicodeLetter) "select" = true /\
  isIdentifier noUnicodeLetter (headRune " 1") = false /\
  ToUpper "select" = ToUpper "SeLecT" /\
  exists tok s1,
    Scan noUnicodeLetter (New "select 1" DBMSGeneric) = Ok (tok, s1) /\
    Scan noUnicodeLetter
      (withSrc (New "select 1" DBMSGeneric) ("" +:+ "SeLecT" +:+ " 1"))
    = Ok (tok, withSrc s1 ("" +:+ "SeLecT" +:+ " 1")).
Proof.
  assert (Hp : positioned (New "select 1" DBMSGeneric) ""
                 ("select" +:+ " 1"))
    by (split; reflexivity).
  split; [exact Hp|]. split; [reflexivity|]. split; [reflexivity|].
  split; [reflexivity|]. split; [reflexivity|].
  exact (X30_letter_case_does_not_change_the_token noUnicodeLetter _ _ _
           "SeLecT" _ Hp eq_refl eq_refl eq_refl eq_refl).
Defined.
